(* ===== verification/_CoqProject ===== *)
-Q . S2P
Prelude.v
F64.v
Precision.v
KvBlock.v
HashIndex.v
RadixTree.v
Eviction.v
StagingPool.v
TierManager.v
Diff.v
Domain.v
ControlPlane.v
Raft.v
Config.v
ConfigToml.v
RaftStore.v
Scheduler.v
Coordinator.v
Limits.v
Invalidation.v
InvalidationRing.v
Quantization.v
DeviceQuant.v
Kernels.v
PagedAttention.v
AttentionReals.v
Transport.v
Ebpf.v
EbpfTrace.v
Rma.v
Uffd.v
Prefetch.v
Paging.v
RdmaMetadata.v
UffdBatch.v
Daemon.v
ControlConcurrent.v
Startup.v
Node.v
Shim.v
Connectors.v
DsmApi.v
Bindings.v
PyAdapters.v
Conformance.v
ConformanceNode.v
ConformanceEdge.v
