(* ===== verification/Prelude.v ===== *)
(** * Virthub: a verification library for the memory mesh and KV-cache stack

    Virthub (src/) shares the key/value cache of language models between nodes.
    Its parts and how they interact:
    - [store], [index] and [precision] hold the cache: blocks with headers and
      checksums, two indices (by block key and by page address), an eviction
      policy, tier counters, a pool of staging slots, the reduced-precision
      formats, and the predictor that picks a precision for a block from the
      layer, the position and the memory pressure;
    - [master] coordinates the cluster: membership with heartbeats, a Raft-style
      log, and a scheduler that places allocations on nodes and owns a
      predictor and a pressure state;
    - [klnk] is the distributed shared memory: the control plane of a node
      (regions, page coherence, locks), page diffs, the control transport, the
      RMA engine, the stride detector, the page-fault handler, and the daemon
      that starts them, serves clients on a control socket, prefetches pages,
      publishes its page table to the peers and polls a ring of invalidations;
      the shim is the client side for applications, the DSM API the interface
      for the cache above;
    - [connectors] give vLLM, SGLang and LMCache access to the RMA engine,
      [bindings/rust] wraps them for Python, and [bindings/python] adapts the
      wrapped classes, or in-memory stubs, to the three serving frameworks;
    - [kernels] are the GPU side of the cache: dequantization and paged
      attention in CUDA and Triton, over the formats of [store];
    - [config] is the configuration the parts are built from, and [conf] the
      files shipped with it.

    ** Files

    Every file opens with its own summary; paths are under src/src/ unless they
    start with bindings/, kernels/ or conf/, which are directly under src/.
    - [Prelude]: results, outcomes, machine integers, loops, iteration orders,
      generic lemmas, tactics and hint databases.
    - [F64]: the doubles the sources compute with ([SpecFloat]).
    - [Precision]: precision/src/{policy,lut,hysteresis,predictor}.rs in the
      modules [Policy], [Lut], [Hysteresis], [PredictorM]; the documented
      algorithm is [Spec].
    - [KvBlock]: store/src/{kv_block,psp_kv}.rs.
    - [HashIndex], [RadixTree], [Eviction]: index/src/.
    - [StagingPool], [TierManager], [Quantization]: store/src/.
    - [Domain], [ControlPlane], [Diff]: klnk/klnk-core/src/.
    - [Raft], [Scheduler], [Coordinator]: master/src/.
    - [RaftStore]: the constructors and accessors of master/src/raft_state.rs.
    - [Config]: config/src/lib.rs; [ConfigToml]: its derived readers over TOML
      tables, and conf/{virthub,cluster}.toml line by line.
    - [Limits], [Invalidation]: klnk/klnk-daemon/src/; [InvalidationRing]: the
      writers and the poller of the ring, interleaved access by access.
    - [Transport]: klnk/klnk-net/src/control_transport.rs.
    - [Ebpf], [EbpfTrace]: klnk/klnk-ebpf/src/{lib,main}.rs, the detector and
      the maps in the first, the trace manager and the binary in the second.
    - [Rma]: klnk/librmashim/src/{lib,mr_registry,rq_refill,rdma_provider}.rs.
    - [Uffd]: klnk/klnk-uffd/src/{move_ops,handler}.rs in the modules [MoveOps]
      and [Handler].
    - [Prefetch], [UffdBatch], [RdmaMetadata], [Daemon]:
      klnk/klnk-daemon/src/{prefetch,uffd_batch,rdma_metadata,main}.rs.
    - [Paging]: the tasks of [Uffd] and [Prefetch] on one node, interleaved.
    - [ControlConcurrent]: the requests of the control socket at the granularity
      of single accesses of the control plane's maps.
    - [Startup]: the endpoint configuration and device detection of
      klnk/librmashim/src/lib.rs (module [Verbs]) and [main] of the daemon up to
      its accept loop; [Node]: all tasks of the daemon from there to its end.
    - [Shim]: klnk/librmashim/src/socket_provider.rs and
      klnk/klnk-shim/src/{lib,ipc_client,staging}.rs in the modules [Socket], [Ipc]
      and [LocalStaging].
    - [Connectors]: connectors/{vllm,sglang,lmcache}/src/lib.rs.
    - [DsmApi]: api/src/lib.rs and klnk/klnk-dsm-api/src/lib.rs.
    - [Bindings]: bindings/rust/src/lib.rs; [PyAdapters]:
      bindings/python/virthub/{vllm,lmcache,sglang}.py in the modules [PyVllm],
      [PyLmCache] and [PySglang].
    - [DeviceQuant]: kernels/common/; [Kernels]: the dequantization kernels and
      the tensor maps of kernels/{basic,enhanced,btkv}_format/;
      [PagedAttention]: the attention kernels there and in kernels/triton/;
      [AttentionReals]: their value in exact arithmetic.
    - [Conformance], [ConformanceNode], [ConformanceEdge]: the unit tests inside
      the crates, run on the models.

    In a component file the first modules hold the data and one definition per
    operation, under the source's names; modules named [...Facts] hold lemmas,
    and [...Theorems] the properties, their witnesses and small counterexamples.

    ** Conventions

    A struct is a record, an enum an inductive type, a fallible operation
    returns a [result], and an operation that changes state returns the new
    state.  An operation that holds one lock for its whole body is one
    function; operations made of several atomic accesses, where the order
    matters, are also given as threads with a step relation
    ([TierManager.TierConcurrent], [Limits.LimitsConcurrent],
    [ControlConcurrent.ControlThreads] and [InvalidationRing.InvalRing], where a
    step is one load, store or compare-and-swap of the ring's memory and
    accesses take effect in program order).  An
    asynchronous operation is split where it awaits: its parts are the
    definitions named [..._begin] and [..._finish], the whole is their
    composition, and [Paging] interleaves the parts of different tasks; between
    two awaits a fault or prefetch task is one step there and in [Node], and so
    is a poll of the ring in [Node], whose contents peers may replace between
    any two steps.
    [Daemon.server_step] takes a whole request as one step, which
    [ControlConcurrent] justifies and bounds.  Integers are [Z] at their width: [wrap w] is the
    wrapping operation, [arith w] the plain operator, which panics in a
    development build and wraps in a release build ([BuildProfile]); theorems
    hold for both unless they name one.  A kernel is a function from a thread to
    its stores; a launch applies the stores of all threads in an order that is an
    argument, and [launch] theorems hold for every order.  Signed overflow,
    accesses outside a buffer and division by zero are [Panic] there.  [outcome]
    has [Panic] for panics (and for memory accesses that would be undefined) and
    [OutOfFuel] for loops.  Logging is omitted.

    Code outside the repository is an argument: the serializers are the classes
    [KvBlock.BlockCodec], [Transport.Bincode] and [Shim.Ipc.IpcCodec], with
    round-trip laws where a theorem needs them and an instance that satisfies
    them; the kernel's userfaultfd calls are the class [Uffd.MoveOps.UffdKernel];
    the arguments PyO3 converts are the class [PyAdapters.Pyo3], the channel of the
    telemetry [EbpfTrace.Trace.Mpsc], the floating-point operations of the
    attention kernels [PagedAttention.FloatOps] (with one instance for binary32 and
    one for the reals); the order in which a remote writer stores the words of an
    invalidation is a hypothesis of the theorem about them;
    the clock, [mmap], the allocator, the answers of the file system and of a
    socket's writes, [powf], the GPU
    driver and the TOML syntax are function arguments; the iteration order of a hash map is
    [IterOrder], of which only that it lists the map's entries is used.

    ** Fuel

    Loops without a structural measure get fuel, and the theorems show that the
    result is not [OutOfFuel]: the table capacity for the probe loops of
    [HashIndex], the page length for [Diff], [size / 4096 + 1] iterations for the page
    loops of a region in [ControlPlane], the distance from head to tail plus one
    for the ring of [Invalidation], the length of the string for the prefix
    stripping of [Config], one more than the bytes of the stream for the client
    loop of [Daemon] (a frame has at least six bytes).  The polling loop of
    [UffdBatch] and the retry loop of [Shim] recurse on their own bounds.

    ** What the theorems show

    - Refinement: the hash index, up to a requested capacity of 32768, and the
      radix tree are finite maps, the coordinator is a membership table, the predictor computes the documented
      algorithm for blocks inside the sequence, the two-queue policy is a
      least-recently-used list.
    - Mutual exclusion and hand-off order of locks, proved of an interface
      ([ControlPlane.LockService]) that the control plane instantiates; in the
      running daemon, access by access, every lock is a queue that processes
      join at its end and leave at its head.
    - Exclusive staging slots, tier and limiter counters under every
      interleaving, placements that match the node counters, remote keys that
      identify regions.
    - Raft state of one node: terms, votes, committed prefix, callback.
    - Round trips: diffs, blocks that are changed and sent, control frames cut
      anywhere, policy words, node names, region registration; rounding of the
      FP8 formats.
    - Delivery of invalidations, once and in order, when writers store the valid
      word last, and what is delivered when they store it first, as the code
      does; recognition of linear walks, hysteresis.
    - The fault path: what one fault does to its page and to the staging slots;
      in every interleaving of faults and prefetches the slots stay exclusive,
      and since none comes back, their number bounds the faults ever filled.
    - The daemon: its start-up succeeds and hands the fault path a sound pool;
      a client gets one answer per request, in order, until its stream ends or
      a write fails; all clients together are linearizable, access by access,
      every request taking effect between its call and its return, as long as no
      registration overlaps another request on the same region or pages, and
      not otherwise (both for regions below the last page of the address space);
      a request ends after a bounded number of accesses of its
      own; batches end; pushed metadata fits the peers' buffers.
    - The whole daemon, all its tasks interleaved from the start: its locks stay
      fair queues whatever clients, faults and peers do, and the node
      stays by itself, since no code makes another node known to it.
    - Interfaces: the KLNK backend implements the contract of the DSM trait
      ([DsmApi.BlockStore]) for every client, connectors keep their blocks live
      until they are given back, Python's view of a chunk, messages over the
      socket fallback; the shim and the daemon do not speak the same protocol.
    - Start-up: [main] of the daemon reaches its accept loop, the shipped
      configuration is refused, the telemetry of the eBPF binary ends at once.
    - The GPU side: device and host quantizers agree, launches stay within their
      buffers and write the documented values in every order of the stores, Triton
      and CUDA compute the same; the attention kernels are softmax attention
      only when the first score is the largest.
    - Python: the adapters over their stubs are finite maps; over the native
      classes two of them store nothing.
    - The unit tests of the crates pass on the models, but for one of the
      scheduler that contradicts its code.
    - Behaviour that departs from the comments or from what callers would
      expect is stated as a theorem on the smallest input that shows it.

    ** Files outside the build

    Some modelled files are not compiled into the program as it stands:
    master/src/lib.rs declares only [coordinator], which leaves out raft_state.rs
    and scheduler.rs; klnk-daemon/src/main.rs has an inline module [limits],
    with empty reservations, in place of limits.rs ([Daemon.DaemonLimits] is the
    inline one); the crates api and klnk-dsm-api are not workspace members.  The
    theorems of [Raft], [RaftStore], [Scheduler], [Limits] and [DsmApi] are about
    those files, not about a running binary.

    ** Not modelled

    RDMA hardware, timers and logging are I/O (a timer's task may take its turn at
    any time); saving and loading the Raft state does not type-check and is left
    out; nothing in the program serializes a configuration, so its derived
    writers are left out too; the software provider
    moves no data, so no theorem speaks of the bytes of a remote page.  Module
    registrations, [Drop] implementations (but the staging pool's) and derived
    traits other than the configuration's readers are left out of their components; the
    remote writers of the invalidation ring are steps of its relation, not code.  Of the
    Python adapters the constant methods required by vLLM are left out.  Integration tests,
    benchmarks and scripts are not part of the library; of the unit tests, those
    of a raw socket or a live task, and those that only encode and decode with
    bincode, which are instances of the round-trip theorems.  What remains
    unmapped is module declarations, re-exports, comments, accessors and
    constants. *)

From stdpp Require Export base decidable countable list gmap sets strings.
From Stdlib Require Export ZArith Lia.

#[global] Open Scope Z_scope.

(** ** Results and outcomes *)

(** Rust's [Result<A, E>]. *)
Inductive result (E A : Type) : Type :=
| Ok (a : A)
| Err (e : E).
Arguments Ok {E A} a.
Arguments Err {E A} e.

#[export] Instance result_eq_dec {E A} `{EqDecision E, EqDecision A} :
  EqDecision (result E A).
Proof. solve_decision. Defined.

#[export] Instance result_ret {E} : MRet (result E) := λ A a, Ok a.

#[export] Instance result_bind {E} : MBind (result E) := λ A B f r,
  match r with Ok a => f a | Err e => Err e end.

(** [Result::map_err]. *)
Definition map_err {E F A} (f : E → F) (r : result E A) : result F A :=
  match r with Ok a => Ok a | Err e => Err (f e) end.

(** [Option::ok_or]. *)
Definition ok_or {E A} (o : option A) (e : E) : result E A :=
  match o with Some a => Ok a | None => Err e end.

Definition is_ok {E A} (r : result E A) : bool :=
  match r with Ok _ => true | Err _ => false end.

(** What running a piece of code can do: return a value, panic, or (for a
    loop run with a bounded number of iterations) still be running when the
    bound is reached. *)
Inductive outcome (A : Type) : Type :=
| Ret (a : A)
| Panic
| OutOfFuel.
Arguments Ret {A} a.
Arguments Panic {A}.
Arguments OutOfFuel {A}.

#[export] Instance outcome_eq_dec {A} `{EqDecision A} : EqDecision (outcome A).
Proof. solve_decision. Defined.

#[export] Instance outcome_ret : MRet outcome := λ A a, Ret a.

#[export] Instance outcome_bind : MBind outcome := λ A B f o,
  match o with Ret a => f a | Panic => Panic | OutOfFuel => OutOfFuel end.

(** [Option::unwrap] and slice indexing: the absent value is a panic. *)
Definition unwrap {A} (o : option A) : outcome A :=
  match o with Some a => Ret a | None => Panic end.

(** Short-circuit [||] and [&&] whose right operand may panic. *)
Definition or_else (a : bool) (b : outcome bool) : outcome bool :=
  if a then Ret true else b.
Definition and_then (a : bool) (b : outcome bool) : outcome bool :=
  if a then b else Ret false.

(** A socket address is only compared: it is its text. *)
Abbreviation SocketAddr := string (only parsing).

(** ** Machine integers *)

(** A [w]-bit unsigned integer is a [Z] in [0, 2^w).  [usize] is 64 bits. *)
Definition wrap (w z : Z) : Z := z mod 2 ^ w.

Definition fits (w z : Z) : bool := (0 <=? z) && (z <? 2 ^ w).

(** The two profiles of the workspace's Cargo.toml: [dev] keeps rustc's
    default overflow checks (a panic), [release] wraps around. *)
Inductive build_profile := Dev | Release.

Class BuildProfile := profile : build_profile.

(** The value of an unsigned [+], [-] or [*] whose mathematical result is
    [z]. *)
Definition arith `{BuildProfile} (w z : Z) : outcome Z :=
  if fits w z then Ret z
  else match profile with Dev => Panic | Release => Ret (wrap w z) end.

(** [uN::saturating_sub], [uN::saturating_add]. *)
Definition saturating_sub (a b : Z) : Z := Z.max 0 (a - b).
Definition saturating_add (w a b : Z) : Z := Z.min (2 ^ w - 1) (a + b).

(** [x as iN] of an unsigned value, two's complement. *)
Definition to_signed (w z : Z) : Z :=
  let z := wrap w z in if z <? 2 ^ (w - 1) then z else z - 2 ^ w.

(** The value of a signed [+], [-] or [*] whose mathematical result is [z]. *)
Definition iarith `{BuildProfile} (w z : Z) : outcome Z :=
  if (- 2 ^ (w - 1) <=? z) && (z <? 2 ^ (w - 1)) then Ret z
  else match profile with Dev => Panic | Release => Ret (to_signed w z) end.

(** Little- and big-endian byte strings ([to_le_bytes], [to_be_bytes]). *)
Fixpoint to_le_bytes (n : nat) (z : Z) : list Z :=
  match n with
  | O => []
  | S n => wrap 8 z :: to_le_bytes n (Z.shiftr z 8)
  end.

Definition to_be_bytes (n : nat) (z : Z) : list Z := reverse (to_le_bytes n z).

Fixpoint from_le_bytes (bs : list Z) : Z :=
  match bs with
  | [] => 0
  | b :: bs => b + 256 * from_le_bytes bs
  end.

Definition from_be_bytes (bs : list Z) : Z := from_le_bytes (reverse bs).

(** A slice of bytes. *)
Definition is_bytes (bs : list Z) : Prop := Forall (λ b, 0 ≤ b < 256) bs.

(** ** Automation *)

Create HintDb virthub.

(** Reduce the binds of the two monads. *)
Ltac monad_simpl :=
  cbn [mbind mret outcome_bind outcome_ret result_bind result_ret unwrap ok_or
       map_err is_ok or_else and_then] in *.

(** Split the first [if] of the goal on its boolean, keeping the equation. *)
Ltac case_if :=
  match goal with
  | |- context [if ?b then _ else _] =>
      lazymatch type of b with bool => destruct b eqn:? end
  end.

Ltac case_if_in H :=
  match type of H with
  | context [if ?b then _ else _] =>
      lazymatch type of b with bool => destruct b eqn:? end
  end.

(** Boolean hypotheses as propositions. *)
Ltac reflect_bools :=
  repeat match goal with
  | H : (_ && _) = true |- _ => apply andb_prop in H as [? ?]
  | H : (_ && _) = false |- _ => apply andb_false_iff in H
  | H : (_ || _) = false |- _ => apply orb_false_elim in H as [? ?]
  | H : (_ || _) = true |- _ => apply orb_true_iff in H
  | H : negb _ = true |- _ => apply negb_true_iff in H
  | H : negb _ = false |- _ => apply negb_false_iff in H
  | H : bool_decide _ = true |- _ => apply bool_decide_eq_true in H
  | H : bool_decide _ = false |- _ => apply bool_decide_eq_false in H
  end.

(** ** Lemmas on machine integers *)

Lemma fits_spec w z : fits w z = true ↔ 0 ≤ z < 2 ^ w.
Proof. unfold fits. lia. Qed.

Lemma arith_ret `{BuildProfile} w z : 0 ≤ z < 2 ^ w → arith w z = Ret z.
Proof. intros Hz. unfold arith. by rewrite (proj2 (fits_spec w z) Hz). Qed.

Lemma iarith_ret `{BuildProfile} w z : - 2 ^ (w - 1) ≤ z < 2 ^ (w - 1) → iarith w z = Ret z.
Proof.
  intros Hz. unfold iarith.
  by rewrite (proj2 (Z.leb_le _ _)), (proj2 (Z.ltb_lt _ _)) by lia.
Qed.

Lemma to_signed_small w z : 0 ≤ z < 2 ^ (w - 1) → 0 < w → to_signed w z = z.
Proof.
  intros Hz Hw. unfold to_signed, wrap.
  assert (2 ^ w = 2 * 2 ^ (w - 1)) by (rewrite <- Z.pow_succ_r by lia; f_equal; lia).
  by rewrite Z.mod_small, (proj2 (Z.ltb_lt _ _)) by lia.
Qed.

Lemma wrap_range w z : 0 ≤ w → 0 ≤ wrap w z < 2 ^ w.
Proof. intros. unfold wrap. apply Z.mod_pos_bound. lia. Qed.

Lemma wrap_small w z : 0 ≤ z < 2 ^ w → wrap w z = z.
Proof. intros. unfold wrap. by apply Z.mod_small. Qed.

(** What a machine operation returns fits its width, in both profiles. *)
Lemma arith_range `{BuildProfile} w z z' : 0 ≤ w → arith w z = Ret z' → 0 ≤ z' < 2 ^ w.
Proof.
  intros Hw. unfold arith. destruct (fits w z) eqn:E.
  - intros [= <-]. by apply fits_spec.
  - case_match; [done|]. intros [= <-]. by apply wrap_range.
Qed.

Lemma to_signed_range w z : 0 < w → - 2 ^ (w - 1) ≤ to_signed w z < 2 ^ (w - 1).
Proof.
  intros Hw. unfold to_signed. pose proof (wrap_range w z ltac:(lia)).
  assert (2 ^ w = 2 * 2 ^ (w - 1)) by (rewrite <- Z.pow_succ_r by lia; f_equal; lia).
  destruct (Z.ltb_spec (wrap w z) (2 ^ (w - 1))); lia.
Qed.

Lemma land_mask a k : 0 ≤ k → Z.land a (2 ^ k - 1) = a mod 2 ^ k.
Proof.
  intros Hk. rewrite <- Z.land_ones by done. f_equal.
  rewrite Z.ones_equiv. lia.
Qed.

Lemma shiftr_8 z : Z.shiftr z 8 = z / 256.
Proof. by rewrite Z.shiftr_div_pow2 by lia. Qed.

Lemma to_le_bytes_length n z : length (to_le_bytes n z) = n.
Proof. revert z. induction n; intros; cbn; [done|]. by rewrite IHn. Qed.

Lemma to_le_bytes_is_bytes n z : is_bytes (to_le_bytes n z).
Proof.
  revert z. induction n; intros z; cbn; constructor; [|apply IHn].
  apply (wrap_range 8). lia.
Qed.

Lemma le_bytes_roundtrip n z :
  0 ≤ z < 256 ^ Z.of_nat n → from_le_bytes (to_le_bytes n z) = z.
Proof.
  revert z. induction n as [|n IH]; intros z Hz; cbn [to_le_bytes from_le_bytes].
  - cbn in Hz. lia.
  - rewrite shiftr_8, IH.
    + unfold wrap. change (2 ^ 8) with 256. pose proof (Z.div_mod z 256). lia.
    + rewrite Nat2Z.inj_succ, Z.pow_succ_r in Hz by lia.
      split; [apply Z.div_pos; lia|]. apply Z.div_lt_upper_bound; lia.
Qed.

Lemma from_le_bytes_range bs :
  is_bytes bs → 0 ≤ from_le_bytes bs < 256 ^ Z.of_nat (length bs).
Proof.
  induction 1 as [|b bs Hb _ IH]; cbn [from_le_bytes length]; [lia|].
  rewrite Nat2Z.inj_succ, Z.pow_succ_r by lia. lia.
Qed.

Lemma be_bytes_roundtrip n z :
  0 ≤ z < 256 ^ Z.of_nat n → from_be_bytes (to_be_bytes n z) = z.
Proof.
  intros. unfold from_be_bytes, to_be_bytes. rewrite reverse_involutive.
  by apply le_bytes_roundtrip.
Qed.

Lemma to_be_bytes_length n z : length (to_be_bytes n z) = n.
Proof. unfold to_be_bytes. by rewrite length_reverse, to_le_bytes_length. Qed.

Lemma to_be_bytes_is_bytes n z : is_bytes (to_be_bytes n z).
Proof. apply Forall_reverse, to_le_bytes_is_bytes. Qed.

#[export] Hint Resolve to_le_bytes_is_bytes to_be_bytes_is_bytes : virthub.

(** Fields of a word that do not overlap are added. *)
Lemma lor_shift_add a b k :
  0 ≤ k → 0 ≤ a < 2 ^ k → Z.lor a (b * 2 ^ k) = a + b * 2 ^ k.
Proof.
  intros Hk Ha. symmetry.
  rewrite Z.add_nocarry_lor; [done|].
  apply Z.bits_inj'. intros i Hi. rewrite Z.land_spec, Z.bits_0.
  destruct (Z.lt_ge_cases i k).
  - rewrite Z.mul_pow2_bits_low by lia. apply andb_false_r.
  - rewrite <- (Z.mod_small a (2 ^ k)) by lia.
    by rewrite Z.mod_pow2_bits_high by lia.
Qed.

(** A traversal whose steps all return. *)
Lemma mapM_ret {A B} (f : A → outcome B) (g : A → B) (l : list A) :
  (∀ x, x ∈ l → f x = Ret (g x)) → mapM f l = Ret (g <$> l).
Proof.
  induction l as [|x l IH]; intros Hf; [done|].
  cbn [mapM]. rewrite Hf by left. monad_simpl.
  rewrite IH by (intros; apply Hf; by right). done.
Qed.

Lemma filter_all {A} (P : A → Prop) `{!∀ x, Decision (P x)} (l : list A) :
  (∀ x, x ∈ l → P x) → filter P l = l.
Proof.
  induction l as [|x l IH]; intros Hl; [done|].
  rewrite filter_cons_True by (apply Hl; left).
  f_equal. apply IH. intros y Hy. apply Hl. by right.
Qed.

(** ** Strided address ranges *)

(** The first [n] addresses [start, start + step, ...]. *)
Definition range_addrs (n : nat) (start step : Z) : list Z :=
  (λ i : nat, start + Z.of_nat i * step) <$> seq 0 n.

Lemma range_addrs_S n start step :
  range_addrs (S n) start step = start :: range_addrs n (start + step) step.
Proof.
  unfold range_addrs. rewrite <- cons_seq. cbn [fmap list_fmap]. f_equal; [lia|].
  rewrite <- fmap_S_seq, <- list_fmap_compose. apply list_fmap_ext. intros. cbn. lia.
Qed.

Lemma elem_of_range_addrs n start step a :
  a ∈ range_addrs n start step ↔ ∃ i : nat, (i < n)%nat ∧ a = start + Z.of_nat i * step.
Proof.
  unfold range_addrs. rewrite list_elem_of_fmap. split.
  - intros (i & -> & Hi%elem_of_seq). exists i. split; [lia|done].
  - intros (i & Hi & ->). exists i. split; [done|]. apply elem_of_seq. lia.
Qed.

(** How many steps reach [stop]. *)
Definition range_count (start stop step : Z) : nat := Z.to_nat ((stop - start + step - 1) / step).

Lemma range_count_done start stop step :
  0 < step → stop ≤ start → range_count start stop step = 0%nat.
Proof.
  intros. unfold range_count.
  assert ((stop - start + step - 1) / step < 1) by (apply Z.div_lt_upper_bound; lia). lia.
Qed.

Lemma range_count_S start stop step :
  0 < step → start < stop →
  range_count start stop step = S (range_count (start + step) stop step).
Proof.
  intros. unfold range_count.
  replace (stop - start + step - 1) with (stop - (start + step) + step - 1 + 1 * step) by lia.
  rewrite Z.div_add by lia.
  assert (0 ≤ (stop - (start + step) + step - 1) / step) by (apply Z.div_pos; lia). lia.
Qed.

(** The loop [while curr < stop { body(curr); curr += step }]. *)
Fixpoint stride_loop `{BuildProfile} {S} (fuel : nat) (body : Z → S → S) (curr stop step : Z)
    (s : S) : outcome S :=
  if curr <? stop then
    match fuel with
    | O => OutOfFuel
    | Datatypes.S fuel =>
        let s := body curr s in
        next ← arith 64 (curr + step);
        stride_loop fuel body next stop step s
    end
  else Ret s.

Lemma stride_loop_spec `{BuildProfile} {S} fuel (body : Z → S → S) curr stop step s :
  0 ≤ curr → 0 < step → stop + step ≤ 2 ^ 64 → (range_count curr stop step ≤ fuel)%nat →
  stride_loop fuel body curr stop step s =
  Ret (foldl (λ s a, body a s) s (range_addrs (range_count curr stop step) curr step)).
Proof.
  intros Hc Hs Hb. revert curr s Hc.
  induction fuel as [|fuel IH]; intros curr s Hc Hf; cbn [stride_loop];
    (destruct (Z.ltb_spec curr stop); [|by rewrite range_count_done by lia]);
    rewrite range_count_S in Hf by lia; [lia|].
  rewrite arith_ret by lia. monad_simpl. rewrite IH by lia.
  by rewrite (range_count_S curr stop), range_addrs_S by lia.
Qed.

(** An invariant of the body at machine addresses is one of the loop. *)
Lemma stride_loop_inv `{BuildProfile} {S} (P : S → Prop) fuel (body : Z → S → S) curr stop step s s' :
  (∀ a s, 0 ≤ a < 2 ^ 64 → P s → P (body a s)) → 0 ≤ curr < 2 ^ 64 → P s →
  stride_loop fuel body curr stop step s = Ret s' → P s'.
Proof.
  intros Hb. revert curr s. induction fuel as [|fuel IH]; intros curr s Hc Hs; cbn [stride_loop];
    (destruct (curr <? stop); [|by intros [= <-]]); [done|].
  destruct (arith 64 (curr + step)) as [next| |] eqn:E; monad_simpl; [|done..].
  apply IH; [by apply arith_range in E|by apply Hb].
Qed.

(** With step 0 the loop does not end. *)
Lemma stride_loop_zero `{BuildProfile} {S} fuel (body : Z → S → S) curr stop s :
  0 ≤ curr < stop → stop ≤ 2 ^ 64 → stride_loop fuel body curr stop 0 s = OutOfFuel.
Proof.
  intros Hs He. revert s. induction fuel as [|fuel IH]; intros s; cbn [stride_loop];
    rewrite (proj2 (Z.ltb_lt curr stop)) by lia; [done|].
  rewrite arith_ret by lia. monad_simpl. by rewrite Z.add_0_r, IH.
Qed.

(** ** Sums over a list *)

Fixpoint zsum_with {A} (f : A → Z) (l : list A) : Z :=
  match l with [] => 0 | x :: l => f x + zsum_with f l end.

Lemma zsum_with_insert {A} (f : A → Z) l i x y :
  l !! i = Some x → zsum_with f (<[i := y]> l) = zsum_with f l - f x + f y.
Proof.
  revert i. induction l as [|z l IH]; intros [|i] Hi; [done..| |].
  - injection Hi as ->. cbn. lia.
  - change (<[S i := y]> (z :: l)) with (z :: <[i := y]> l). cbn [zsum_with].
    rewrite (IH i Hi). lia.
Qed.

Lemma zsum_with_delete {A} (f : A → Z) l i x :
  l !! i = Some x → zsum_with f l = f x + zsum_with f (delete i l).
Proof.
  revert i. induction l as [|z l IH]; intros [|i] Hi; try done.
  - by injection Hi as ->.
  - change (delete (S i) (z :: l)) with (z :: delete i l). cbn [zsum_with].
    rewrite (IH i Hi). lia.
Qed.

Lemma zsum_with_nonneg {A} (f : A → Z) l : Forall (λ x, 0 ≤ f x) l → 0 ≤ zsum_with f l.
Proof. induction 1; cbn [zsum_with]; lia. Qed.

Lemma zsum_with_zero {A} (f : A → Z) l : Forall (λ x, f x = 0) l → zsum_with f l = 0.
Proof. induction 1; cbn [zsum_with]; lia. Qed.

Lemma zsum_with_ge {A} (f : A → Z) l i x :
  Forall (λ x, 0 ≤ f x) l → l !! i = Some x → f x ≤ zsum_with f l.
Proof.
  intros Hl Hi. rewrite (zsum_with_delete f l i x Hi).
  pose proof (zsum_with_nonneg f _ (Forall_delete _ _ i Hl)). lia.
Qed.

(** ** Folding insertions and deletions over a list of keys *)

Lemma foldl_insert_lookup {A} (f : Z → A) l m a :
  foldl (λ m b, <[b := f b]> m) m l !! a
  = if bool_decide (a ∈ l) then Some (f a) else (m : gmap Z A) !! a.
Proof.
  revert m. induction l as [|b l IH]; intros m; cbn [foldl]; [done|].
  rewrite IH, lookup_insert. destruct (decide (b = a)) as [->|Hne].
  - rewrite (bool_decide_eq_true_2 (a ∈ a :: l)) by left. by destruct (bool_decide _).
  - destruct (bool_decide_reflect (a ∈ l)), (bool_decide_reflect (a ∈ b :: l)); set_solver.
Qed.

Lemma foldl_delete_lookup {A} l (m : gmap Z A) a :
  foldl (λ m b, delete b m) m l !! a = if bool_decide (a ∈ l) then None else m !! a.
Proof.
  revert m. induction l as [|b l IH]; intros m; cbn [foldl]; [done|].
  rewrite IH, lookup_delete. destruct (decide (b = a)) as [->|Hne].
  - rewrite (bool_decide_eq_true_2 (a ∈ a :: l)) by left. by destruct (bool_decide _).
  - destruct (bool_decide_reflect (a ∈ l)), (bool_decide_reflect (a ∈ b :: l)); set_solver.
Qed.

(** ** Iteration over a hash map

    A [HashMap] or [DashMap] is iterated in an order the standard library does
    not promise; the definitions take it as an instance of [IterOrder], and
    the theorems rely only on every entry being visited once. *)

Class IterOrder (V : Type) := iter_order : gmap Z V → list (Z * V).

Class IterOrderLaws (V : Type) `{!IterOrder V} :=
  iter_order_perm : ∀ m : gmap Z V, iter_order m ≡ₚ map_to_list m.

Section IterFacts.
Context {V : Type} `{!IterOrder V} `{!IterOrderLaws V}.

Lemma elem_of_iter_order (m : gmap Z V) k v :
  (k, v) ∈ iter_order m ↔ m !! k = Some v.
Proof. by rewrite iter_order_perm, elem_of_map_to_list. Qed.

Lemma iter_order_NoDup (m : gmap Z V) : NoDup (iter_order m).*1.
Proof. rewrite iter_order_perm. apply NoDup_fst_map_to_list. Qed.

Lemma iter_order_length (m : gmap Z V) : length (iter_order m) = size m.
Proof. by rewrite iter_order_perm, length_map_to_list. Qed.

End IterFacts.
