(* ===== verification/F64.v ===== *)
(** * IEEE-754 doubles

    The [f64] arithmetic and comparisons the sources use, as the executable
    binary64 semantics of the Standard Library's [SpecFloat] (round to nearest,
    ties to even; comparisons with a NaN are all false).  [key] maps a
    binary64 value to an integer so that the comparisons are those of the
    keys; [div_pow2_gt] evaluates a ratio of small integers exactly. *)

From Stdlib Require Export Floats.SpecFloat.
From S2P Require Import Prelude.

Abbreviation f64 := spec_float (only parsing).

Definition is_f64 (x : f64) : Prop := valid_binary 53 1024 x = true.

(** [n as f64] of an integer, [/] and [-]. *)
Definition f64_of_Z (z : Z) : f64 := binary_normalize 53 1024 z 0 false.
Definition f64_div (x y : f64) : f64 := SFdiv 53 1024 x y.
Definition f64_sub (x y : f64) : f64 := SFsub 53 1024 x y.

(** A decimal literal [num / den]: the nearest double (both operands are
    exact and the division is correctly rounded). *)
Definition f64_lit (num den : Z) : f64 := f64_div (f64_of_Z num) (f64_of_Z den).

Definition f64_ltb (x y : f64) : bool := SFltb x y.
Definition f64_leb (x y : f64) : bool := SFleb x y.
Definition f64_gtb (x y : f64) : bool := SFltb y x.
Definition f64_geb (x y : f64) : bool := SFleb y x.

(** ** The order of the non-NaN doubles *)

Definition key (x : f64) : Z :=
  let signed (s : bool) (k : Z) := if s then - k else k in
  match x with
  | S754_zero _ => 0
  | S754_infinity s => signed s (4096 * 2 ^ 53)
  | S754_nan => 0
  | S754_finite s m e => signed s ((e + 1075) * 2 ^ 53 + Z.pos m)
  end.

Definition is_nan (x : f64) : bool :=
  match x with S754_nan => true | _ => false end.

Lemma digits2_pos_bounds m :
  2 ^ (Z.pos (digits2_pos m) - 1) ≤ Z.pos m < 2 ^ Z.pos (digits2_pos m).
Proof.
  induction m as [m IH|m IH|]; cbn [digits2_pos]; [..|done].
  all: rewrite Pos2Z.inj_succ.
  all: replace (Z.succ (Z.pos (digits2_pos m)) - 1)
         with (Z.succ (Z.pos (digits2_pos m) - 1)) by lia.
  all: rewrite !Z.pow_succ_r by lia; lia.
Qed.

Lemma is_f64_finite s m e :
  is_f64 (S754_finite s m e) → Z.pos m < 2 ^ 53 ∧ -1074 ≤ e ≤ 971.
Proof.
  unfold is_f64. cbn [valid_binary]. unfold bounded, canonical_mantissa, fexp, emin.
  intros [Hc He]%andb_prop. apply Z.eqb_eq in Hc. apply Z.leb_le in He.
  pose proof (digits2_pos_bounds m) as [_ Hm].
  split; [|lia].
  eapply Z.lt_le_trans; [exact Hm|]. apply Z.pow_le_mono_r; lia.
Qed.

Lemma SFcompare_key x y :
  is_f64 x → is_f64 y → is_nan x = false → is_nan y = false →
  SFcompare x y = Some (key x ?= key y).
Proof.
  intros Hx Hy Nx Ny.
  destruct x as [sx|[]| |sx mx ex], y as [sy|[]| |sy my ey]; try done;
    try (apply is_f64_finite in Hx); try (apply is_f64_finite in Hy);
    cbn [SFcompare key]; try destruct sx; try destruct sy; f_equal; symmetry;
    rewrite ?Z.compare_gt_iff, ?Z.compare_lt_iff; try lia.
  - destruct (Z.compare_spec ex ey).
    + subst. change (Pos.compare_cont Eq mx my) with (Pos.compare mx my).
      destruct (Pos.compare_spec mx my); cbn [CompOpp];
        rewrite ?Z.compare_gt_iff, ?Z.compare_lt_iff, ?Z.compare_eq_iff; lia.
    + rewrite Z.compare_gt_iff. lia.
    + rewrite Z.compare_lt_iff. lia.
  - destruct (Z.compare_spec ex ey).
    + subst. change (Pos.compare_cont Eq mx my) with (Pos.compare mx my).
      destruct (Pos.compare_spec mx my); cbn [CompOpp];
        rewrite ?Z.compare_gt_iff, ?Z.compare_lt_iff, ?Z.compare_eq_iff; lia.
    + rewrite Z.compare_lt_iff. lia.
    + rewrite Z.compare_gt_iff. lia.
Qed.

Lemma f64_ltb_key x y :
  is_f64 x → is_f64 y → is_nan x = false → is_nan y = false →
  f64_ltb x y = (key x <? key y).
Proof.
  intros. unfold f64_ltb, SFltb, Z.ltb. by rewrite SFcompare_key.
Qed.

Lemma f64_leb_key x y :
  is_f64 x → is_f64 y → is_nan x = false → is_nan y = false →
  f64_leb x y = (key x <=? key y).
Proof.
  intros. unfold f64_leb, SFleb, Z.leb. by rewrite SFcompare_key.
Qed.

Lemma SFcompare_nan_l y : SFcompare S754_nan y = None.
Proof. by destruct y. Qed.

Lemma SFcompare_nan_r x : SFcompare x S754_nan = None.
Proof. by destruct x as [|[]| |]. Qed.

(** ** Exact ratios *)

Lemma digits2_pos_unique m d :
  2 ^ (d - 1) ≤ Z.pos m < 2 ^ d → Z.pos (digits2_pos m) = d.
Proof.
  intros [H1 H2]. pose proof (digits2_pos_bounds m) as [H3 H4].
  assert (0 < d).
  { destruct (Z.lt_ge_cases 0 d); [done|].
    assert (2 ^ d ≤ 2 ^ 0) by (apply Z.pow_le_mono_r; lia). lia. }
  assert (d - 1 < Z.pos (digits2_pos m)).
  { apply (Z.pow_lt_mono_r_iff 2); lia. }
  assert (Z.pos (digits2_pos m) - 1 < d).
  { apply (Z.pow_lt_mono_r_iff 2); lia. }
  lia.
Qed.

Lemma round_exact s m e :
  Z.pos (digits2_pos m) = 53 → -1074 ≤ e ≤ 971 →
  binary_round_aux 53 1024 s (Z.pos m) e loc_Exact = S754_finite s m e.
Proof.
  intros Hd He.
  assert (Hs : shr_fexp 53 1024 (Z.pos m) e loc_Exact =
               (Build_shr_record (Z.pos m) false false, e)).
  { unfold shr_fexp, fexp, emin. cbn [Zdigits2]. rewrite Hd.
    by replace (Z.max (53 + e - 53) (3 - 1024 - 53) - e) with 0 by lia. }
  unfold binary_round_aux. rewrite Hs. cbn -[shr_fexp Z.leb Z.sub]. rewrite Hs.
  cbn [shr_m]. by rewrite (proj2 (Z.leb_le _ _)) by lia.
Qed.

Lemma round_exact_double s m e :
  Z.pos (digits2_pos m) = 53 → -1074 ≤ e + 1 ≤ 971 →
  binary_round_aux 53 1024 s (Z.pos m~0) e loc_Exact = S754_finite s m (e + 1).
Proof.
  intros Hd He.
  assert (H1 : shr_fexp 53 1024 (Z.pos m~0) e loc_Exact =
               (Build_shr_record (Z.pos m) false false, e + 1)).
  { unfold shr_fexp, fexp, emin. cbn [Zdigits2 digits2_pos].
    rewrite Pos2Z.inj_succ, Hd.
    by replace (Z.max (Z.succ 53 + e - 53) (3 - 1024 - 53) - e) with 1 by lia. }
  assert (H2 : shr_fexp 53 1024 (Z.pos m) (e + 1) loc_Exact =
               (Build_shr_record (Z.pos m) false false, e + 1)).
  { unfold shr_fexp, fexp, emin. cbn [Zdigits2]. rewrite Hd.
    by replace (Z.max (53 + (e + 1) - 53) (3 - 1024 - 53) - (e + 1)) with 0 by lia. }
  unfold binary_round_aux. rewrite H1. cbn -[shr_fexp Z.leb Z.sub Z.add]. rewrite H2.
  cbn [shr_m]. by rewrite (proj2 (Z.leb_le _ _)) by lia.
Qed.

Lemma iter_xO m d : Z.pos (Pos.iter xO m d) = Z.pos m * 2 ^ Z.pos d.
Proof.
  induction d as [|d IH] using Pos.peano_ind; [cbn; lia|].
  rewrite Pos.iter_succ, Pos2Z.inj_succ, Z.pow_succ_r by lia. lia.
Qed.

Lemma f64_of_Z_pos n :
  0 < n < 2 ^ 53 →
  ∃ m e, f64_of_Z n = S754_finite false m e ∧ Z.pos (digits2_pos m) = 53 ∧
         Z.pos m = n * 2 ^ (- e) ∧ -52 ≤ e ≤ 0.
Proof.
  intros Hn. destruct n as [|p|p]; [lia| |lia].
  pose proof (digits2_pos_bounds p) as Hb.
  assert (Z.pos (digits2_pos p) ≤ 53).
  { cut (Z.pos (digits2_pos p) - 1 < 53); [lia|].
    apply (Z.pow_lt_mono_r_iff 2); lia. }
  unfold f64_of_Z, binary_normalize, binary_round, shl_align.
  set (d := Z.pos (digits2_pos p)) in *.
  assert (Hf : fexp 53 1024 (d + 0) = d - 53) by (unfold fexp, emin; lia).
  rewrite Hf. destruct (d - 53 - 0) as [|k|k] eqn:Hk.
  - exists p, 0. rewrite round_exact by lia.
    split_and!; [done|lia|cbn; lia|lia|lia].
  - lia.
  - exists (Pos.iter xO p k), (d - 53).
    assert (Z.pos (digits2_pos (Pos.iter xO p k)) = 53).
    { apply digits2_pos_unique. rewrite iter_xO.
      replace (53 - 1) with ((d - 1) + Z.pos k) by lia.
      replace 53 with (d + Z.pos k) at 1 by lia.
      rewrite !Z.pow_add_r by lia. nia. }
    rewrite round_exact by lia.
    split_and!; [done|done| |lia|lia].
    rewrite iter_xO. do 2 f_equal. lia.
Qed.

(** Division of a 53-bit integer by a power of two is exact. *)
Lemma f64_div_pow2 n k :
  0 < n < 2 ^ 53 → 0 ≤ k < 53 →
  ∃ m e, f64_div (f64_of_Z n) (f64_of_Z (2 ^ k)) = S754_finite false m e ∧
         Z.pos (digits2_pos m) = 53 ∧
         Z.pos m = n * 2 ^ (- e - k) ∧ -52 - k ≤ e ≤ - k.
Proof.
  intros Hn Hk.
  assert (0 < 2 ^ k < 2 ^ 53).
  { split; [lia|]. apply Z.pow_lt_mono_r; lia. }
  destruct (f64_of_Z_pos n Hn) as (mx & ex & Ex & Dx & Vx & Bx).
  destruct (f64_of_Z_pos (2 ^ k)) as (my & ey & Ey & Dy & Vy & By); [done|].
  assert (Hmy : Z.pos my = 2 ^ 52).
  { rewrite Vy, <- Z.pow_add_r by lia. f_equal.
    pose proof (digits2_pos_bounds my) as Hb. rewrite Dy, Vy in Hb.
    rewrite <- Z.pow_add_r in Hb by lia.
    assert (k + - ey < 53) by (apply (Z.pow_lt_mono_r_iff 2); lia).
    assert (53 - 1 ≤ k + - ey) by (apply (Z.pow_le_mono_r_iff 2); lia).
    lia. }
  assert (Hey : ey = k - 52).
  { rewrite Hmy, <- Z.pow_add_r in Vy by lia. apply Z.pow_inj_r in Vy; lia. }
  exists mx, (ex - ey - 52).
  rewrite Ex, Ey. unfold f64_div, SFdiv, SFdiv_core_binary. cbn [Zdigits2 xorb].
  rewrite Dx, Dy, Hmy.
  replace (Z.min (fexp 53 1024 (53 + ex - (53 + ey))) (ex - ey))
    with (ex - ey - 53) by (unfold fexp, emin; lia).
  replace (ex - ey - (ex - ey - 53)) with 53 by lia.
  cbv beta iota zeta. rewrite Z.shiftl_mul_pow2 by lia.
  assert (Hde : Z.div_eucl (Z.pos mx * 2 ^ 53) (2 ^ 52) = (2 * Z.pos mx, 0)).
  { pose proof (Z.div_mod (Z.pos mx * 2 ^ 53) (2 ^ 52)) as Hdm.
    replace (Z.pos mx * 2 ^ 53) with ((2 * Z.pos mx) * 2 ^ 52) in * by lia.
    unfold Z.div, Z.modulo in Hdm.
    assert (Hq : (2 * Z.pos mx * 2 ^ 52) / 2 ^ 52 = 2 * Z.pos mx)
      by (apply Z.div_mul; lia).
    assert (Hr : (2 * Z.pos mx * 2 ^ 52) mod 2 ^ 52 = 0)
      by (apply Z.mod_mul; lia).
    unfold Z.div in Hq. unfold Z.modulo in Hr.
    destruct (Z.div_eucl _ _) as [q r]. by subst. }
  rewrite Hde. change (2 * Z.pos mx) with (Z.pos mx~0).
  change (new_location (2 ^ 52) 0) with loc_Exact.
  rewrite round_exact_double by lia.
  split_and!; [f_equal; lia|done| |lia|lia].
  rewrite Vx. do 2 f_equal. lia.
Qed.

(** [n as f64 / 2^k as f64 > 0.75] compares the integers. *)
Lemma div_pow2_gt n k :
  0 ≤ n < 2 ^ 53 → 0 ≤ k < 53 →
  f64_gtb (f64_div (f64_of_Z n) (f64_of_Z (2 ^ k))) (f64_lit 75 100)
  = (3 * 2 ^ k <? 4 * n).
Proof.
  intros Hn Hk. destruct (Z.eq_dec n 0) as [->|Hn0].
  { destruct (f64_of_Z_pos (2 ^ k)) as (my & ey & Ey & _).
    { split; [lia|]. apply Z.pow_lt_mono_r; lia. }
    rewrite Ey. symmetry. apply Z.ltb_ge. lia. }
  destruct (f64_div_pow2 n k) as (m & e & -> & Dm & Vm & Be); [lia..|].
  pose proof (digits2_pos_bounds m) as Hb. rewrite Dm in Hb.
  change (f64_lit 75 100) with (S754_finite false 6755399441055744 (-53)).
  unfold f64_gtb, SFltb, SFcompare.
  destruct (Z.compare_spec (-53) e) as [Heq|Hlt|Hgt].
  - subst e. change (Pos.compare_cont Eq ?x ?y) with (Pos.compare x y).
    assert (Hm : Z.pos m * 2 ^ k = n * 2 ^ 53).
    { rewrite Vm, <- Z.mul_assoc, <- Z.pow_add_r by lia. do 2 f_equal. lia. }
    assert (0 < 2 ^ k) by lia.
    destruct (Pos.compare_spec 6755399441055744 m) as [Hc|Hc|Hc]; symmetry.
    + apply Z.ltb_ge. subst m. lia.
    + apply Z.ltb_lt.
      assert (6755399441055744 * 2 ^ k < Z.pos m * 2 ^ k)
        by (apply Zmult_lt_compat_r; lia). lia.
    + apply Z.ltb_ge. apply Pos2Z.pos_lt_pos in Hc.
      assert (Z.pos m * 2 ^ k < 6755399441055744 * 2 ^ k)
        by (by apply Zmult_lt_compat_r). clear Hc. lia.
  - symmetry. apply Z.ltb_lt.
    assert (Hm : Z.pos m * 2 ^ (e + 53) * 2 ^ k = n * 2 ^ 53).
    { rewrite Vm, <- !Z.mul_assoc, <- !Z.pow_add_r by lia. do 2 f_equal. lia. }
    assert (2 ^ 1 ≤ 2 ^ (e + 53)) by (apply Z.pow_le_mono_r; lia).
    assert (2 ^ 53 ≤ Z.pos m * 2 ^ (e + 53)) by nia.
    assert (2 ^ 53 * 2 ^ k ≤ n * 2 ^ 53) by (rewrite <- Hm; nia). lia.
  - symmetry. apply Z.ltb_ge.
    assert (Hm : Z.pos m * 2 ^ k = n * 2 ^ (- e)).
    { rewrite Vm, <- Z.mul_assoc, <- Z.pow_add_r by lia. do 2 f_equal. lia. }
    assert (2 ^ 54 ≤ 2 ^ (- e)) by (apply Z.pow_le_mono_r; lia).
    assert (n * 2 ^ 54 ≤ n * 2 ^ (- e)) by (apply Z.mul_le_mono_nonneg_l; lia).
    assert (Z.pos m * 2 ^ k < 2 ^ 53 * 2 ^ k)
      by (apply Zmult_lt_compat_r; lia). lia.
Qed.

(** ** Single precision *)

Definition f32_of_Z (z : Z) : spec_float := binary_normalize 24 128 z 0 false.
Definition f32_lit (num den : Z) : spec_float := SFdiv 24 128 (f32_of_Z num) (f32_of_Z den).

(** ** Comparisons form a total preorder on the non-NaN values *)

Lemma f64_leb_trans x y z :
  f64_leb x y = true → f64_leb y z = true → f64_leb x z = true.
Proof.
  unfold f64_leb, SFleb.
  destruct x as [sx|[]| |[] mx ex], y as [sy|[]| |[] my ey], z as [sz|[]| |[] mz ez];
    cbn [SFcompare]; try done;
    change (Pos.compare_cont Eq) with Pos.compare;
    destruct (Z.compare_spec ex ey), (Z.compare_spec ey ez), (Z.compare_spec ex ez);
    subst; try done; try lia;
    destruct (Pos.compare_spec mx my), (Pos.compare_spec my mz), (Pos.compare_spec mx mz);
    subst; cbn [CompOpp]; try done; lia.
Qed.

Lemma f64_leb_total x y :
  is_nan x = false → is_nan y = false → f64_leb x y = true ∨ f64_leb y x = true.
Proof.
  unfold f64_leb, SFleb. intros Hx Hy.
  destruct x as [sx|[]| |[] mx ex], y as [sy|[]| |[] my ey]; try done;
    cbn [SFcompare]; auto; change (Pos.compare_cont Eq) with Pos.compare;
    rewrite (Z.compare_antisym ex ey), (Pos.compare_antisym mx my);
    destruct (ex ?= ey); cbn [CompOpp]; auto; destruct (Pos.compare mx my); cbn; auto.
Qed.

Lemma f64_leb_nan x y : f64_leb x y = true → is_nan x = false ∧ is_nan y = false.
Proof. by destruct x as [|[]| |], y as [|[]| |]. Qed.

(** ** Ratios of machine integers are never NaN *)

Lemma shr_1_m r : 0 ≤ shr_m r → shr_m (shr_1 r) = shr_m r / 2.
Proof.
  destruct r as [[|[p|p|]|p] ? ?]; cbn [shr_m shr_1]; intros ?; try done; try lia.
  - by apply Z.div_unique with 1; lia.
  - by apply Z.div_unique with 0; lia.
Qed.

Lemma iter_shr_1 n r :
  0 ≤ shr_m r → shr_m (SpecFloat.iter_pos shr_1 n r) = shr_m r / 2 ^ Z.pos n.
Proof.
  revert r. induction n as [n IH|n IH|]; intros r Hr; cbn [SpecFloat.iter_pos].
  - pose proof (shr_1_m r Hr) as H1.
    assert (0 ≤ shr_m r / 2) by (apply Z.div_pos; lia).
    assert (0 < 2 ^ Z.pos n) by (apply Z.pow_pos_nonneg; lia).
    rewrite !IH; rewrite ?IH, ?H1; try lia.
    + rewrite !Z.div_div by lia. f_equal.
      rewrite (Pos2Z.inj_xI n), Z.pow_add_r, Z.pow_mul_r, Z.pow_1_r by lia.
      change (2 ^ 2) with (2 * 2). rewrite Z.pow_mul_l. lia.
    + apply Z.div_pos; lia.
  - assert (0 < 2 ^ Z.pos n) by (apply Z.pow_pos_nonneg; lia).
    rewrite !IH; rewrite ?IH; try lia.
    + rewrite Z.div_div by lia. f_equal.
      rewrite (Pos2Z.inj_xO n), Z.pow_mul_r by lia.
      change (2 ^ 2) with (2 * 2). by rewrite Z.pow_mul_l.
    + apply Z.div_pos; lia.
  - by apply shr_1_m.
Qed.

Lemma shr_record_of_loc_m m l : shr_m (shr_record_of_loc m l) = m.
Proof. by destruct l as [|[]]. Qed.

Lemma shr_fexp_spec m e l :
  0 ≤ m →
  let k := Z.max 0 (fexp 53 1024 (Zdigits2 m + e) - e) in
  shr_m (shr_fexp 53 1024 m e l).1 = m / 2 ^ k ∧ (shr_fexp 53 1024 m e l).2 = e + k.
Proof.
  intros Hm. unfold shr_fexp, shr.
  destruct (fexp 53 1024 (Zdigits2 m + e) - e) as [|p|p]; cbn [fst snd].
  - rewrite shr_record_of_loc_m, Z.div_1_r. lia.
  - rewrite iter_shr_1, shr_record_of_loc_m by (by rewrite shr_record_of_loc_m).
    by replace (Z.max 0 (Z.pos p)) with (Z.pos p) by lia.
  - rewrite shr_record_of_loc_m, Z.max_l by lia. rewrite Z.div_1_r. lia.
Qed.

Lemma round_nearest_even_bounds m l : m ≤ round_nearest_even m l ≤ m + 1.
Proof. destruct l as [|[]]; cbn; try case_match; lia. Qed.

(** Rounding a non-negative significand gives a number. *)
Lemma binary_round_aux_not_nan s m e l :
  0 ≤ m → is_nan (binary_round_aux 53 1024 s m e l) = false.
Proof.
  intros Hm. unfold binary_round_aux.
  pose proof (shr_fexp_spec m e l Hm) as H1.
  destruct (shr_fexp 53 1024 m e l) as [r1 e1]. destruct H1 as [H1 _]. cbn [fst] in H1.
  assert (0 ≤ shr_m r1) by (rewrite H1; apply Z.div_pos; [|apply Z.pow_pos_nonneg]; lia).
  pose proof (round_nearest_even_bounds (shr_m r1) (loc_of_shr_record r1)).
  set (m1 := round_nearest_even _ _) in *.
  pose proof (shr_fexp_spec m1 e1 loc_Exact ltac:(lia)) as H2.
  destruct (shr_fexp 53 1024 m1 e1 loc_Exact) as [r2 e2]. destruct H2 as [H2 _].
  cbn [fst] in H2.
  assert (0 ≤ shr_m r2) by (rewrite H2; apply Z.div_pos; [|apply Z.pow_pos_nonneg]; lia).
  destruct (shr_m r2); [done|by case_match|lia].
Qed.

(** Rounding a significand of 53 to 64 bits keeps it positive and finite. *)
Lemma binary_round_aux_finite p :
  53 < Z.pos (digits2_pos p) ≤ 64 →
  ∃ m e, binary_round_aux 53 1024 false (Z.pos p) 0 loc_Exact = S754_finite false m e.
Proof.
  intros Hd. unfold binary_round_aux. set (d := Z.pos (digits2_pos p)) in *.
  pose proof (digits2_pos_bounds p) as Hp. fold d in Hp.
  pose proof (shr_fexp_spec (Z.pos p) 0 loc_Exact ltac:(lia)) as H1.
  cbn [Zdigits2] in H1. fold d in H1.
  replace (Z.max 0 _) with (d - 53) in H1 by (unfold fexp, emin; lia).
  destruct (shr_fexp 53 1024 (Z.pos p) 0 loc_Exact) as [r1 e1].
  cbn [fst snd] in H1. destruct H1 as [H1 ->].
  assert (1 ≤ shr_m r1).
  { rewrite H1. apply Z.div_le_lower_bound; [apply Z.pow_pos_nonneg; lia|].
    rewrite Z.mul_1_r. etransitivity; [|exact (proj1 Hp)].
    apply Z.pow_le_mono_r; lia. }
  assert (Hlt : shr_m r1 < 2 ^ 53).
  { rewrite H1. apply Z.div_lt_upper_bound; [apply Z.pow_pos_nonneg; lia|].
    rewrite <- Z.pow_add_r by lia. replace (d - 53 + 53) with d by lia. exact (proj2 Hp). }
  pose proof (round_nearest_even_bounds (shr_m r1) (loc_of_shr_record r1)) as Hr.
  set (m1 := round_nearest_even _ _) in *.
  pose proof (shr_fexp_spec m1 (0 + (d - 53)) loc_Exact ltac:(lia)) as H2.
  destruct m1 as [|q|q]; [lia| |lia]. cbn [Zdigits2] in H2.
  pose proof (digits2_pos_bounds q) as Hq. set (dq := Z.pos (digits2_pos q)) in *.
  assert (dq ≤ 54).
  { cut (dq - 1 < 54); [lia|]. apply (Z.pow_lt_mono_r_iff 2); lia. }
  destruct (shr_fexp 53 1024 (Z.pos q) _ loc_Exact) as [r2 e2].
  cbn [fst snd] in H2. destruct H2 as [H2 ->].
  set (k := Z.max 0 _) in *.
  assert (0 ≤ k ≤ dq - 1 ∧ k ≤ 1) as [Hk Hk1] by (unfold k, fexp, emin; lia).
  assert (1 ≤ shr_m r2).
  { rewrite H2. apply Z.div_le_lower_bound; [apply Z.pow_pos_nonneg; lia|].
    rewrite Z.mul_1_r. etransitivity; [|exact (proj1 Hq)].
    apply Z.pow_le_mono_r; lia. }
  destruct (shr_m r2) as [|m|m]; [lia| |lia].
  rewrite (proj2 (Z.leb_le _ _)) by lia. eauto.
Qed.

(** A positive [u64] converts to a positive finite double. *)
Lemma f64_of_Z_finite n :
  0 < n < 2 ^ 64 → ∃ m e, f64_of_Z n = S754_finite false m e.
Proof.
  intros Hn. destruct (decide (n < 2 ^ 53)) as [Hs|Hs].
  { destruct (f64_of_Z_pos n) as (m & e & -> & _); [lia|eauto]. }
  destruct n as [|p|p]; [lia| |lia]. pose proof (digits2_pos_bounds p) as Hb.
  assert (53 < Z.pos (digits2_pos p)) by (apply (Z.pow_lt_mono_r_iff 2); lia).
  assert (Z.pos (digits2_pos p) ≤ 64).
  { cut (Z.pos (digits2_pos p) - 1 < 64); [lia|]. apply (Z.pow_lt_mono_r_iff 2); lia. }
  unfold f64_of_Z, binary_normalize, binary_round, shl_align.
  destruct (fexp 53 1024 (Z.pos (digits2_pos p) + 0) - 0) eqn:E;
    [by apply binary_round_aux_finite..|].
  unfold fexp, emin in E. lia.
Qed.

Lemma f64_div_not_nan n m :
  0 ≤ n < 2 ^ 64 → 0 < m < 2 ^ 64 → is_nan (f64_div (f64_of_Z n) (f64_of_Z m)) = false.
Proof.
  intros Hn Hm. destruct (f64_of_Z_finite m Hm) as (my & ey & ->).
  destruct (decide (n = 0)) as [->|Hn0]; [done|].
  destruct (f64_of_Z_finite n) as (mx & ex & ->); [lia|].
  unfold f64_div, SFdiv, SFdiv_core_binary.
  set (m' := match _ with Z0 => _ | Zpos _ => _ | Zneg _ => _ end).
  assert (0 ≤ m').
  { unfold m'. case_match; [done| |done]. apply Z.shiftl_nonneg. lia. }
  assert (0 ≤ m' / Z.pos my) by (apply Z.div_pos; lia).
  unfold Z.div in *. destruct (Z.div_eucl m' (Z.pos my)) as [q r].
  by apply binary_round_aux_not_nan.
Qed.
