(* ===== verification/Precision.v ===== *)
(** * The precision predictor (src/src/precision)

    [Policy] packs the per-block policy word (policy.rs), [Lut] builds the
    layer sensitivity table (lut.rs), [Hysteresis] is the memory-pressure
    state machine (hysteresis.rs) and [PredictorM] the decision procedure
    (predictor.rs).  [Spec] is the closed-form algorithm of
    docs/PRECISION_PREDICTION.md (sections 2.2, 4.2 and 9) as integer
    arithmetic, the contract the code is compared with. *)

From S2P Require Import Prelude F64.

Module Policy.

Inductive PrecisionLevel := Fp16 | Fp8 | Fp8Residual | Pruned.

#[export] Instance PrecisionLevel_eq_dec : EqDecision PrecisionLevel.
Proof. solve_decision. Defined.

(** [precision as u32]. *)
Definition level_code (p : PrecisionLevel) : Z :=
  match p with Fp16 => 0 | Fp8 => 1 | Fp8Residual => 2 | Pruned => 3 end.

Definition from_u8 (v : Z) : PrecisionLevel :=
  if v =? 0 then Fp16
  else if v =? 1 then Fp8
  else if v =? 2 then Fp8Residual
  else Pruned.

Record PackedBlockPolicy := PackedPolicy { raw : Z }.

#[export] Instance PackedBlockPolicy_eq_dec : EqDecision PackedBlockPolicy.
Proof. solve_decision. Defined.

Definition new (precision : PrecisionLevel) (residual : bool) (head_mask : Z) :
  PackedBlockPolicy :=
  let p_bits := level_code precision in
  let r_bit := if residual then 1 else 0 in
  let mask := Z.land head_mask 0xFFFFFF in
  PackedPolicy
    (Z.lor (Z.lor p_bits (wrap 32 (Z.shiftl r_bit 2))) (wrap 32 (Z.shiftl mask 8))).

Definition from_raw (r : Z) : PackedBlockPolicy := PackedPolicy r.

Definition precision (w : PackedBlockPolicy) : PrecisionLevel :=
  from_u8 (wrap 8 (Z.land (raw w) 0x3)).

Definition use_residual (w : PackedBlockPolicy) : bool :=
  Z.land (Z.shiftr (raw w) 2) 1 =? 1.

Definition head_mask (w : PackedBlockPolicy) : Z :=
  Z.land (Z.shiftr (raw w) 8) 0xFFFFFF.

Record LayerSensitivityProfile := {
  base_bonus : Z;
  is_critical : bool;
  can_prune : bool;
}.

End Policy.

Module Lut.
Import Policy.

(** The closure of [build_layer_profiles] at layer [l]. *)
Definition layer_profile `{BuildProfile} (total_layers l : Z) :
  outcome LayerSensitivityProfile :=
  is_critical ← or_else (l <? 2) (t ← arith 64 (total_layers - 2); Ret (t <=? l));
  near ← or_else (l <? 4) (t ← arith 64 (total_layers - 4); Ret (t <=? l));
  can_prune ← and_then (total_layers / 4 <=? l)
                (t ← arith 64 (3 * total_layers); Ret (l <=? t / 4));
  Ret {| base_bonus := if near : bool then 1 else 0;
         is_critical := is_critical;
         can_prune := can_prune |}.

Definition build_layer_profiles `{BuildProfile} (total_layers : Z) :
  outcome (list LayerSensitivityProfile) :=
  mapM (layer_profile total_layers) (seqZ 0 total_layers).

End Lut.

Module Hysteresis.

Inductive MemoryPressureState := Nominal | Elevated | Critical.

#[export] Instance MemoryPressureState_eq_dec : EqDecision MemoryPressureState.
Proof. solve_decision. Defined.

Definition mu_070 : f64 := f64_lit 70 100.
Definition mu_078 : f64 := f64_lit 78 100.
Definition mu_082 : f64 := f64_lit 82 100.
Definition mu_088 : f64 := f64_lit 88 100.

Definition update (s : MemoryPressureState) (mu : f64) : MemoryPressureState :=
  match s with
  | Nominal =>
      if f64_geb mu mu_088 then Critical
      else if f64_geb mu mu_078 then Elevated
      else Nominal
  | Elevated =>
      if f64_geb mu mu_088 then Critical
      else if f64_ltb mu mu_070 then Nominal
      else Elevated
  | Critical =>
      if f64_ltb mu mu_082 then Elevated else Critical
  end.

Definition as_u8 (s : MemoryPressureState) : Z :=
  match s with Nominal => 0 | Elevated => 1 | Critical => 2 end.

End Hysteresis.

Module PredictorM.
Import Policy Hysteresis.

Definition SINK_WINDOW : Z := 16.
Definition LOCAL_WINDOW : Z := 64.
Definition FULL_HEAD_MASK : Z := 0xFFFFFF.

Record Predictor := {
  profiles : list LayerSensitivityProfile;
  sink_window : Z;
  local_window : Z;
}.

Definition with_windows `{BuildProfile} (total_layers sink local : Z) :
  outcome Predictor :=
  ps ← Lut.build_layer_profiles total_layers;
  Ret {| profiles := ps; sink_window := sink; local_window := local |}.

Definition new `{BuildProfile} (total_layers : Z) : outcome Predictor :=
  ps ← Lut.build_layer_profiles total_layers;
  Ret {| profiles := ps; sink_window := SINK_WINDOW; local_window := LOCAL_WINDOW |}.

Definition predict `{BuildProfile} (self : Predictor)
    (layer_idx token_start seq_len : Z) (h_mem : MemoryPressureState)
    (head_mask : Z) (retrieval_flag : bool) : outcome PackedBlockPolicy :=
  lossless ← or_else (token_start <? sink_window self)
               (d ← arith 64 (seq_len - token_start); Ret (d <? local_window self));
  if lossless : bool then Ret (Policy.new Fp16 false FULL_HEAD_MASK) else
  prof ← unwrap (profiles self !! Z.to_nat layer_idx);
  if is_critical prof then
    let p := if bool_decide (h_mem = Critical) then Fp8 else Fp16 in
    Ret (Policy.new p false FULL_HEAD_MASK)
  else
    let retrieval_score := if retrieval_flag then 2 else 0 in
    let score := base_bonus prof + retrieval_score in
    let precision :=
      if 3 <=? score then
        if bool_decide (h_mem = Nominal) then Fp16 else Fp8Residual
      else if (score =? 0) && bool_decide (h_mem = Critical) && can_prune prof then Pruned
      else Fp8 in
    let use_residual := bool_decide (precision = Fp8Residual) in
    let active_mask :=
      if bool_decide (precision = Pruned) then Z.land head_mask FULL_HEAD_MASK
      else FULL_HEAD_MASK in
    Ret (Policy.new precision use_residual active_mask).

Definition predict_batch `{BuildProfile} (self : Predictor) (layer_idx : Z)
    (token_starts : list Z) (seq_len : Z) (h_mem : MemoryPressureState)
    (head_masks : list Z) (retrieval_flags : list bool) :
  outcome (list PackedBlockPolicy) :=
  if negb (bool_decide (length token_starts = length head_masks)) then Panic else
  if negb (bool_decide (length token_starts = length retrieval_flags)) then Panic else
  mapM (λ '(ts, hm, rf), predict self layer_idx ts seq_len h_mem hm rf)
       (zip (zip token_starts head_masks) retrieval_flags).

End PredictorM.

(** ** The documented algorithm *)

Module Spec.
Import Hysteresis.

(** Section 2.2. *)
Definition pack (p r h_mask : Z) : Z :=
  p mod 4 + (r mod 2) * 2 ^ 2 + (h_mask mod 2 ^ 24) * 2 ^ 8.

(** Section 8.1. *)
Definition select (m a b : Z) : Z := m * a + (1 - m) * b.

(** Section 4.1: the layer properties. *)
Definition bonus (L l : Z) : Z := Z.b2z ((l <? 4) || (L - 4 <=? l)).
Definition critical (L l : Z) : Z := Z.b2z ((l <? 2) || (L - 2 <=? l)).
Definition prunable (L l : Z) : bool := (L / 4 <=? l) && (l <=? 3 * L / 4).

(** Section 9; [R] is the retrieval flag, which the document takes from the
    lowest bit of [M_head]. *)
Definition p_scored (L l h : Z) (R : bool) : Z :=
  let S := bonus L l + (if R then 2 else 0) in
  if 3 <=? S then (if h =? 0 then 0 else 2)
  else if (S =? 0) && (h =? 2) && prunable L l then 3
  else 1.

Definition level (L l t_start s_len h : Z) (R : bool) : Z :=
  let p := select (critical L l) (if h =? 2 then 1 else 0) (p_scored L l h R) in
  select (Z.b2z ((t_start <? 16) || (s_len - t_start <? 64))) 0 p.

Definition predict (L l t_start s_len h M_head : Z) (R : bool) : Z :=
  let p := level L l t_start s_len h R in
  pack p (Z.b2z (p =? 2)) (select (Z.b2z (p =? 3)) (M_head mod 2 ^ 24) (2 ^ 24 - 1)).

(** Section 4.2, the clauses read in order. *)
Definition hysteresis (previous : Z) (mu : f64) : Z :=
  if f64_geb mu mu_088 then 2
  else if (f64_geb mu mu_078 && (previous <? 2)) || (f64_geb mu mu_082 && (previous =? 2))
       then 1
  else if f64_ltb mu mu_070 || (f64_ltb mu mu_078 && (previous =? 1)) then 0
  else previous.

End Spec.

Module PrecisionFacts.
Import Policy Hysteresis PredictorM.

Lemma level_code_range p : 0 ≤ level_code p < 4.
Proof. destruct p; cbn; lia. Qed.

Lemma level_code_mod p : level_code p mod 4 = level_code p.
Proof. by destruct p. Qed.

Lemma from_level_code p : from_u8 (level_code p) = p.
Proof. by destruct p. Qed.

(** [new] computes the documented sum of fields. *)
Lemma raw_new p (r : bool) m :
  raw (Policy.new p r m) = Spec.pack (level_code p) (Z.b2z r) m.
Proof.
  cbn [Policy.new raw]. unfold Spec.pack. rewrite level_code_mod.
  change 0xFFFFFF with (2 ^ 24 - 1). rewrite land_mask by lia.
  pose proof (level_code_range p). pose proof (Z.mod_pos_bound m (2 ^ 24)).
  rewrite !Z.shiftl_mul_pow2 by lia.
  replace (if r then 1 else 0) with (Z.b2z r) by (by destruct r).
  rewrite !wrap_small by (destruct r; cbn [Z.b2z]; lia).
  rewrite (lor_shift_add (level_code p) _ 2) by lia.
  rewrite lor_shift_add by (destruct r; cbn [Z.b2z]; lia).
  by destruct r.
Qed.

Lemma pack_fields p (r : bool) m (raw := Spec.pack (level_code p) (Z.b2z r) m) :
  raw mod 4 = level_code p ∧ raw / 4 mod 2 = Z.b2z r ∧ raw / 8 mod 32 = 0 ∧
  raw / 256 = m mod 2 ^ 24 ∧ 0 ≤ raw < 2 ^ 32.
Proof.
  subst raw. unfold Spec.pack. rewrite level_code_mod.
  pose proof (level_code_range p). pose proof (Z.mod_pos_bound m (2 ^ 24)).
  change (2 ^ 2) with 4. change (2 ^ 8) with 256.
  destruct r; cbn [Z.b2z]; change (1 mod 2) with 1; change (0 mod 2) with 0;
    Z.to_euclidean_division_equations; lia.
Qed.

Section Lut.
Context `{BuildProfile}.

Definition spec_profile (L l : Z) : LayerSensitivityProfile :=
  {| base_bonus := Spec.bonus L l;
     is_critical := Z.odd (Spec.critical L l);
     can_prune := Spec.prunable L l |}.

Lemma layer_profile_spec L l :
  0 ≤ l < L → 3 * L < 2 ^ 64 → Lut.layer_profile L l = Ret (spec_profile L l).
Proof.
  intros Hl HL. unfold Lut.layer_profile, spec_profile, Spec.bonus, Spec.critical,
    Spec.prunable, or_else, and_then.
  assert (Hb : ∀ k, 0 ≤ k → (l <? k) = false → arith 64 (L - k) = Ret (L - k)).
  { intros. apply arith_ret. lia. }
  rewrite (arith_ret 64 (3 * L)) by lia.
  destruct (l <? 2) eqn:E2, (l <? 4) eqn:E4; try lia;
    rewrite ?(Hb 2), ?(Hb 4) by (done || lia); monad_simpl;
    destruct (L / 4 <=? l); monad_simpl; do 2 f_equal; try done.
  all: by destruct (_ <=? _).
Qed.

Lemma build_layer_profiles_spec L :
  3 * L < 2 ^ 64 →
  Lut.build_layer_profiles L = Ret (spec_profile L <$> seqZ 0 L).
Proof.
  intros HL. apply mapM_ret. intros l Hl%elem_of_seqZ.
  apply layer_profile_spec; lia.
Qed.

Lemma lookup_spec_profile L l :
  0 ≤ l < L → (spec_profile L <$> seqZ 0 L) !! Z.to_nat l = Some (spec_profile L l).
Proof.
  intros Hl. rewrite list_lookup_fmap, lookup_seqZ_lt by lia. cbn.
  do 2 f_equal. lia.
Qed.

(** [predict] on a table of [L] layers is the documented closed form. *)
Lemma predict_spec L l t_start s_len h M_head R :
  0 ≤ l < L → 0 ≤ t_start ≤ s_len → s_len < 2 ^ 64 →
  predict {| profiles := spec_profile L <$> seqZ 0 L;
             sink_window := SINK_WINDOW; local_window := LOCAL_WINDOW |}
          l t_start s_len h M_head R
  = Ret (PackedPolicy (Spec.predict L l t_start s_len (as_u8 h) M_head R)).
Proof.
  intros Hl Ht Hs. unfold predict, or_else.
  cbn [profiles sink_window local_window].
  rewrite arith_ret by lia. rewrite lookup_spec_profile by done. monad_simpl.
  unfold SINK_WINDOW, LOCAL_WINDOW, FULL_HEAD_MASK.
  assert (Hnew : ∀ p r m w, Spec.pack (level_code p) (Z.b2z r) m = w →
            Policy.new p r m = PackedPolicy w).
  { intros p r m w <-. rewrite <- raw_new. by destruct (Policy.new p r m). }
  assert (Hmm : Z.land M_head 0xFFFFFF = M_head mod 2 ^ 24)
    by exact (land_mask M_head 24 ltac:(lia)).
  unfold Spec.predict, Spec.level.
  destruct (t_start <? 16) eqn:E1; cbn [orb Z.b2z]; monad_simpl.
  { f_equal; by apply Hnew. }
  destruct (s_len - t_start <? 64) eqn:E2; cbn [orb Z.b2z].
  { f_equal; by apply Hnew. }
  unfold Spec.p_scored, spec_profile. cbn [is_critical base_bonus can_prune].
  unfold Spec.critical, Spec.bonus.
  destruct ((l <? 2) || _); cbn [Z.b2z Z.odd].
  { f_equal; apply Hnew; by destruct h. }
  destruct ((l <? 4) || _), R, h; cbn [Z.b2z as_u8];
    try (f_equal; by apply Hnew).
  destruct (Spec.prunable L l); cbn; f_equal.
  apply Hnew.
  rewrite Hmm. generalize (M_head mod 2 ^ 24). intros q.
  change (Spec.pack 3 0 q = Spec.pack 3 0 (Spec.select 1 q (2 ^ 24 - 1))).
  f_equal. unfold Spec.select. lia.
Qed.

End Lut.

(** The thresholds as binary64 values, in order. *)
Lemma thresholds_ordered :
  key mu_070 < key mu_078 < key mu_082 ∧ key mu_082 < key mu_088.
Proof. vm_compute. auto. Qed.

(** Rewrites the comparisons of a non-NaN [mu] with the thresholds into
    comparisons of keys. *)
Ltac mu_keys :=
  unfold f64_geb in *;
  fold f64_leb in *;
  repeat match goal with
  | |- context [SFleb ?a ?b] => change (SFleb a b) with (f64_leb a b)
  | H : context [SFleb ?a ?b] |- _ => change (SFleb a b) with (f64_leb a b) in H
  end;
  rewrite ?f64_leb_key, ?f64_ltb_key in * by (done || (vm_compute; done)).

(** In the band [0.70, 0.88) the state can only move to [Elevated]. *)
Lemma update_band s mu :
  is_f64 mu → f64_geb mu mu_070 = true → f64_ltb mu mu_088 = true →
  update s mu = s ∨ update s mu = Elevated.
Proof.
  intros Hmu H1 H2. destruct (is_nan mu) eqn:Hn.
  { destruct mu; done. }
  unfold update. mu_keys. pose proof thresholds_ordered.
  destruct s; repeat case_if; auto; lia.
Qed.

Lemma update_elevated_band mu :
  is_f64 mu → f64_geb mu mu_070 = true → f64_ltb mu mu_088 = true →
  update Elevated mu = Elevated.
Proof.
  intros Hmu H1 H2. destruct (is_nan mu) eqn:Hn.
  { destruct mu; done. }
  unfold update. mu_keys. repeat case_if; auto; lia.
Qed.

End PrecisionFacts.

Module PrecisionTheorems.
Import Policy Hysteresis PredictorM PrecisionFacts.

(** Every policy word is a faithful encoding: the precision level, the
    residual flag and the low 24 bits of the head mask are read back as they
    were packed, the reserved bits 3-7 are zero, and the word is a [u32]. *)
Theorem policy_word_roundtrip p r m :
  let w := Policy.new p r m in
  precision w = p ∧ use_residual w = r ∧ head_mask w = m mod 2 ^ 24 ∧
  Z.land (Z.shiftr (raw w) 3) 31 = 0 ∧ 0 ≤ raw w < 2 ^ 32.
Proof.
  intros w. subst w. unfold precision, use_residual, head_mask. rewrite raw_new.
  pose proof (pack_fields p r m) as (Hp & Hr & Hz & Hm & Hw).
  rewrite !Z.shiftr_div_pow2 by lia.
  change (2 ^ 2) with 4. change (2 ^ 8) with 256. change (2 ^ 3) with 8.
  rewrite (land_mask _ 2), (land_mask _ 1), (land_mask _ 24), (land_mask _ 5) by lia.
  change (2 ^ 2) with 4. change (2 ^ 1) with 2. change (2 ^ 5) with 32.
  rewrite Hp, Hr, Hz, Hm, Z.mod_mod by lia.
  split_and!; [|by destruct r|done|done|lia|lia].
  rewrite wrap_small by (pose proof (level_code_range p); lia).
  apply from_level_code.
Qed.

(** C23. The predictor implements the documented branch-free algorithm: for a
    model of [L] layers with [3 L < 2^64] the table is built without overflow,
    and a batch for one of its layers, whose blocks all start at or before the
    end of the sequence, gets, block by block, the packed word of the
    specification for the block's mask and retrieval flag, without a panic in
    either build profile; a batch whose three lists have different lengths
    panics.  (A block past the end of the sequence panics in a debug build.) *)
Theorem predict_batch_refines_spec `{BuildProfile} L l s_len h ts masks flags :
  0 ≤ l < L → 3 * L < 2 ^ 64 → s_len < 2 ^ 64 → Forall (λ t, 0 ≤ t ≤ s_len) ts →
  ∃ P, PredictorM.new L = Ret P ∧
       predict_batch P l ts s_len h masks flags
       = if bool_decide (length ts = length masks ∧ length ts = length flags)
         then Ret ((λ '(t, m, R), PackedPolicy (Spec.predict L l t s_len (as_u8 h) m R))
                     <$> zip (zip ts masks) flags)
         else Panic.
Proof.
  intros Hl HL Hs Hts. unfold PredictorM.new.
  rewrite build_layer_profiles_spec by done.
  eexists. split; [done|]. unfold predict_batch.
  destruct (decide (length ts = length masks)) as [E1|E1].
  2: { rewrite bool_decide_eq_false_2 by done. cbn [negb]. by rewrite bool_decide_eq_false_2 by tauto. }
  rewrite bool_decide_eq_true_2 by done. cbn [negb].
  destruct (decide (length ts = length flags)) as [E2|E2].
  2: { rewrite bool_decide_eq_false_2 by done. cbn [negb]. by rewrite bool_decide_eq_false_2 by tauto. }
  rewrite !bool_decide_eq_true_2 by done. cbn [negb].
  apply mapM_ret. intros [[t m] f] Hin. apply predict_spec; [done| |done].
  apply list_elem_of_lookup in Hin as [i Hi].
  rewrite lookup_zip_with_Some in Hi. destruct Hi as ([t' m'] & f' & ? & Hi & Hf).
  rewrite lookup_zip_with_Some in Hi. destruct Hi as (t'' & m'' & ? & Ht & Hm).
  simplify_eq. by apply (Forall_lookup_1 _ _ _ _ Hts Ht).
Qed.

Lemma predict_batch_refines_spec_witness :
  ∃ P, PredictorM.new (H := Dev) 32 = Ret P ∧
       predict_batch (H := Dev) P 16 [0; 500; 990] 1000 Critical [5; 6; 7] [true; false; true]
       = Ret (PackedPolicy <$> [0xFFFFFF00; 0x603; 0xFFFFFF00]).
Proof.
  apply (predict_batch_refines_spec (H := Dev) 32 16 1000 Critical [0; 500; 990] [5; 6; 7]
    [true; false; true]); [lia|lia|lia|].
  repeat constructor; lia.
Defined.

(** Bytes a level keeps per value, as a rank. *)
Definition storage_rank (p : PrecisionLevel) : Z :=
  match p with Fp16 => 3 | Fp8Residual => 2 | Fp8 => 1 | Pruned => 0 end.

(** More memory pressure never asks for more storage: for any predictor,
    block and pair of pressure states [h1 <= h2], a prediction that returns at
    [h1] also returns at [h2], with a precision that is no larger. *)
Theorem predict_pressure_monotone `{BuildProfile} P l t s h1 h2 m rf w1 :
  as_u8 h1 ≤ as_u8 h2 →
  predict P l t s h1 m rf = Ret w1 →
  ∃ w2, predict P l t s h2 m rf = Ret w2 ∧
        storage_rank (precision w2) ≤ storage_rank (precision w1).
Proof.
  intros Hh. unfold predict.
  destruct (or_else _ _) as [[]| |]; monad_simpl; [|..|done|done].
  { intros [= <-]. by eexists. }
  destruct (profiles P !! Z.to_nat l) as [[bonus crit prune]|]; monad_simpl; [|done].
  cbn [is_critical base_bonus can_prune]. intros Hw1.
  assert (Hprec : ∀ p r k, precision (Policy.new p r k) = p).
  { intros p r k. unfold precision. rewrite raw_new.
    pose proof (pack_fields p r k) as (Hp & _).
    rewrite (land_mask _ 2) by lia. change (2 ^ 2) with 4. rewrite Hp.
    rewrite wrap_small by (pose proof (level_code_range p); lia).
    apply from_level_code. }
  destruct crit.
  - simplify_eq. eexists. split; [done|]. rewrite !Hprec.
    destruct h1, h2; cbn [as_u8] in Hh; first [lia | by vm_compute].
  - simplify_eq. eexists. split; [done|]. rewrite !Hprec.
    destruct (3 <=? _) eqn:E; 
      [destruct h1, h2; cbn [as_u8] in Hh; first [lia | by vm_compute]|].
    destruct (_ =? 0), prune, h1, h2; cbn [as_u8] in Hh;
      first [lia | by vm_compute].
Qed.

Lemma predict_pressure_monotone_witness :
  ∃ w2, predict (H := Release)
          {| profiles := [{| base_bonus := 0; is_critical := false; can_prune := true |}];
             sink_window := 16; local_window := 64 |} 0 100 1000 Critical 6 false = Ret w2 ∧
        storage_rank (precision w2) ≤ storage_rank Fp8.
Proof.
  apply (predict_pressure_monotone (H := Release) _ 0 100 1000 Elevated Critical 6 false
           (Policy.new Fp8 false 0xFFFFFF)); [cbn; lia|reflexivity].
Defined.

(** The pressure state machine is monotone: from a state at least as high
    and with a pressure at least as high (NaN excluded by the comparison), the
    next state is at least as high. *)
Theorem update_monotone s s' mu mu' :
  is_f64 mu → is_f64 mu' → as_u8 s ≤ as_u8 s' → f64_leb mu mu' = true →
  as_u8 (update s mu) ≤ as_u8 (update s' mu').
Proof.
  intros Hmu Hmu' Hs Hle.
  destruct (is_nan mu) eqn:Hn; [by destruct mu|].
  destruct (is_nan mu') eqn:Hn'; [by destruct mu', mu as [|[]| |]|].
  unfold update. mu_keys. pose proof thresholds_ordered.
  destruct s, s'; cbn [as_u8] in Hs; try lia; repeat case_if; cbn; lia.
Qed.

Lemma update_monotone_witness :
  as_u8 (update Elevated (f64_lit 75 100)) ≤ as_u8 (update Critical (f64_lit 83 100)).
Proof.
  apply update_monotone; [reflexivity|reflexivity|cbn; lia|reflexivity].
Defined.

(** The number of state changes along a sequence of pressure samples. *)
Fixpoint changes (s : MemoryPressureState) (mus : list f64) : nat :=
  match mus with
  | [] => 0
  | mu :: mus =>
      (if bool_decide (update s mu = s) then 0 else 1) + changes (update s mu) mus
  end.

(** Hysteresis: however the pressure oscillates inside [0.70, 0.88), the
    state changes at most once over the whole run of samples. *)
Theorem hysteresis_no_thrashing s mus :
  Forall (λ mu, is_f64 mu ∧ f64_geb mu mu_070 = true ∧ f64_ltb mu mu_088 = true) mus →
  (changes s mus ≤ 1)%nat.
Proof.
  assert (Helev : ∀ mus,
    Forall (λ mu, is_f64 mu ∧ f64_geb mu mu_070 = true ∧ f64_ltb mu mu_088 = true) mus →
    changes Elevated mus = 0%nat).
  { induction 1 as [|mu mus' (? & ? & ?) _ IH]; [done|].
    cbn [changes]. by rewrite update_elevated_band. }
  induction 1 as [|mu mus' (? & ? & ?) Hmus IH]; cbn [changes]; [lia|].
  destruct (update_band s mu) as [E|E]; [done..| |]; rewrite E.
  - rewrite bool_decide_eq_true_2 by done. lia.
  - rewrite (Helev mus') by done. destruct (bool_decide _); lia.
Qed.

Lemma hysteresis_no_thrashing_witness :
  (changes Nominal [f64_lit 79 100; f64_lit 71 100; f64_lit 87 100; f64_lit 77 100] ≤ 1)%nat.
Proof.
  apply hysteresis_no_thrashing.
  repeat (apply Forall_cons; split; [repeat split; reflexivity|]). constructor.
Defined.

(** The documented transition table and the code disagree: at 0.75 the
    document leaves [Elevated] for [Nominal] (its third clause), the code
    stays; at 0.85 the document leaves [Critical], the code stays; at 0.50 the
    document goes from [Critical] to [Nominal], the code to [Elevated]. *)
Theorem hysteresis_doc_diverges :
  (Spec.hysteresis 1 (f64_lit 75 100) = 0 ∧ update Elevated (f64_lit 75 100) = Elevated) ∧
  (Spec.hysteresis 2 (f64_lit 85 100) = 1 ∧ update Critical (f64_lit 85 100) = Critical) ∧
  (Spec.hysteresis 2 (f64_lit 50 100) = 0 ∧ update Critical (f64_lit 50 100) = Elevated).
Proof. vm_compute. auto. Qed.

(** A block that starts after the end of the sequence panics in the [dev]
    profile; in [release] the distance wraps around and the block is treated
    as far from the local window. *)
Theorem predict_past_end_underflows P l t s h m rf :
  0 ≤ s < t → t < 2 ^ 64 → sink_window P ≤ t →
  predict (H := Dev) P l t s h m rf = Panic.
Proof.
  intros Hs Ht Hw. unfold predict, or_else, arith, fits.
  rewrite (proj2 (Z.ltb_ge t (sink_window P))) by done.
  by rewrite (proj2 (Z.leb_gt 0 (s - t))) by lia.
Qed.

End PrecisionTheorems.
