(* ===== verification/KvBlock.v ===== *)
(** * KV blocks (src/src/store: kv_block.rs, psp_kv.rs)

    Block keys, headers, the aligned buffer, and [KvBlock] with its checksum
    and serialization.  [bincode] and [crc32fast] are not part of the
    repository: they are the operations of the class [BlockCodec], with the
    round-trip law the code relies on.  Clones of a block share one reference
    counter, so the counters live in an explicit store. *)

From S2P Require Import Prelude Precision.

(** ** Keys and headers *)

Record KvBlockKey := KvKey { namespace_id : Z; block_id : Z }.

#[export] Instance KvBlockKey_eq_dec : EqDecision KvBlockKey.
Proof. solve_decision. Defined.

#[export] Instance KvBlockKey_countable : Countable KvBlockKey.
Proof.
  refine (inj_countable' (λ k, (namespace_id k, block_id k)) (λ '(n, b), KvKey n b) _).
  by intros [].
Defined.

Record KvBlockHeader := {
  hdr_key : KvBlockKey;
  hdr_payload_len : Z;
  hdr_checksum : Z;
  hdr_flags : Z;
}.

(** ** PSP-KV metadata (psp_kv.rs) *)

Module PspKv.

Inductive PspKvFormat := Basic | Enhanced | BtKv.

Definition format_from_u8 (v : Z) : PspKvFormat :=
  if v =? 0 then Basic else if v =? 1 then Enhanced else if v =? 2 then BtKv else Basic.

Record PspKvSidecarDescriptor := {
  data_page_base_ptr : Z;
  residual_page_ptr : Z;
  head_presence_mask : Z;
  base_precision : Z;
  compression_level : Z;
  head_group_size : Z;
  reserved_flags : Z;
  per_head_scale_e8m0 : list Z;
  reserved_padding : list Z;
}.

Definition default_sidecar : PspKvSidecarDescriptor := {|
  data_page_base_ptr := 0;
  residual_page_ptr := 0;
  head_presence_mask := 0xFFFFFFFFFFFFFFFF;
  base_precision := 0;
  compression_level := 0;
  head_group_size := 1;
  reserved_flags := 0;
  per_head_scale_e8m0 := replicate 8 0;
  reserved_padding := replicate 28 0;
|}.

Definition K_TILE_TOKENS : Z := 16.
Definition K_TILE_DIMS : Z := 64.
Definition V_TILE_DIMS : Z := 64.
Definition V_TILE_TOKENS : Z := 16.

Record BtKvTileContainer := {
  quantized_data : list Z;
  scale_exponents : list Z;
  group_size : Z;
}.

Definition tile_new (quantized scales : list Z) (group : Z) : BtKvTileContainer :=
  {| quantized_data := quantized; scale_exponents := scales; group_size := group |}.

Definition size_bytes (c : BtKvTileContainer) : Z :=
  Z.of_nat (length (quantized_data c)) + Z.of_nat (length (scale_exponents c)).

End PspKv.

(** ** Errors *)

Inductive KvBlockError :=
| AllocationFailed (size align : Z)
| ChecksumMismatch (expected computed : Z)
| SerializationFailed.

#[export] Instance KvBlockError_eq_dec : EqDecision KvBlockError.
Proof. solve_decision. Defined.

(** ** Aligned buffers *)

Module RawBlock.

Record RawBlockBuffer := { contents : list Z; align : Z }.

Definition is_power_of_two (z : Z) : bool := (0 <? z) && (Z.land z (z - 1) =? 0).

(** [Layout::from_size_align]: the size rounded up to the alignment may not
    exceed [isize::MAX]. *)
Definition layout_ok (size align : Z) : bool :=
  is_power_of_two align && (size <=? (2 ^ 63 - 1) - (align - 1)).

(** [alloc] is the system allocator: it succeeds or returns null. *)
Definition allocate (alloc : Z → Z → bool) (size align : Z) :
  result KvBlockError RawBlockBuffer :=
  if negb (is_power_of_two align) then Err (AllocationFailed size align)
  else if size =? 0 then Err (AllocationFailed size align)
  else if negb (layout_ok size align) then Err (AllocationFailed size align)
  else if negb (alloc size align) then Err (AllocationFailed size align)
  else Ok {| contents := replicate (Z.to_nat size) 0; align := align |}.

Definition as_slice (b : RawBlockBuffer) : list Z := contents b.
Definition capacity (b : RawBlockBuffer) : Z := Z.of_nat (length (contents b)).
Definition alignment (b : RawBlockBuffer) : Z := align b.

End RawBlock.

(** ** Blocks *)

(** The tuple the serializer writes. *)
Definition wire_block : Type :=
  KvBlockHeader * list Z * option Policy.PackedBlockPolicy *
  option PspKv.PspKvSidecarDescriptor.

(** What a block needs of [crc32fast] and [bincode]. *)
Class BlockCodec := {
  crc32 : list Z → Z;
  encode_block : wire_block → option (list Z);
  decode_block : list Z → option wire_block;
  decode_blocks : list Z → option (list wire_block);
}.

(** Decoding inverts a successful encoding (bincode's documented guarantee for
    serde types). *)
Class BlockCodecLaws `{BlockCodec} := {
  decode_encode_block : ∀ w bs, encode_block w = Some bs → decode_block bs = Some w;
}.

Module Block.

(** The reference counters of all blocks, by location. *)
Abbreviation counters := (gmap nat Z).

Record KvBlock := {
  header : KvBlockHeader;
  payload : list Z;
  ref_count : nat;
  precision_policy : option Policy.PackedBlockPolicy;
  sidecar : option PspKv.PspKvSidecarDescriptor;
}.

Section Block.
Context `{BlockCodec}.

(** [Arc::new(AtomicU32::new(1))]. *)
Definition alloc_counter (h : counters) : nat * counters :=
  let l := fresh (dom h) in (l, <[l := 1]> h).

Definition new (key : KvBlockKey) (bytes : list Z) (h : counters) : KvBlock * counters :=
  let checksum := crc32 bytes in
  let payload_len := wrap 32 (Z.of_nat (length bytes)) in
  let '(l, h) := alloc_counter h in
  ({| header := {| hdr_key := key; hdr_payload_len := payload_len;
                   hdr_checksum := checksum; hdr_flags := 0 |};
      payload := bytes; ref_count := l; precision_policy := None; sidecar := None |}, h).

Definition set_precision_policy (b : KvBlock) (p : option Policy.PackedBlockPolicy) : KvBlock :=
  {| header := header b; payload := payload b; ref_count := ref_count b;
     precision_policy := p; sidecar := sidecar b |}.

Definition set_sidecar (b : KvBlock) (s : option PspKv.PspKvSidecarDescriptor) : KvBlock :=
  {| header := header b; payload := payload b; ref_count := ref_count b;
     precision_policy := precision_policy b; sidecar := s |}.

Definition new_with_policy (key : KvBlockKey) (bytes : list Z)
    (p : option Policy.PackedBlockPolicy) (s : option PspKv.PspKvSidecarDescriptor)
    (h : counters) : KvBlock * counters :=
  let '(b, h) := new key bytes h in
  (set_sidecar (set_precision_policy b p) s, h).

Definition verify_checksum (b : KvBlock) : result KvBlockError unit :=
  let computed := crc32 (payload b) in
  if negb (computed =? hdr_checksum (header b))
  then Err (ChecksumMismatch (hdr_checksum (header b)) computed)
  else Ok ().

(** Writing through [payload_mut]: the caller's bytes, same length. *)
Definition write_payload (b : KvBlock) (i : nat) (v : Z) : KvBlock :=
  {| header := header b; payload := <[i := v]> (payload b); ref_count := ref_count b;
     precision_policy := precision_policy b; sidecar := sidecar b |}.

Definition update_checksum (b : KvBlock) : KvBlock :=
  {| header := {| hdr_key := hdr_key (header b);
                  hdr_payload_len := wrap 32 (Z.of_nat (length (payload b)));
                  hdr_checksum := crc32 (payload b);
                  hdr_flags := hdr_flags (header b) |};
     payload := payload b; ref_count := ref_count b;
     precision_policy := precision_policy b; sidecar := sidecar b |}.

(** [fetch_add] and [fetch_sub] wrap around in every profile. *)
Definition retain (b : KvBlock) (h : counters) : counters :=
  alter (λ c, wrap 32 (c + 1)) (ref_count b) h.

Definition release (b : KvBlock) (h : counters) : option Z * counters :=
  (h !! ref_count b, alter (λ c, wrap 32 (c - 1)) (ref_count b) h).

Definition serialize (b : KvBlock) : result KvBlockError (list Z) :=
  ok_or (encode_block (header b, payload b, precision_policy b, sidecar b))
        SerializationFailed.

Definition of_wire (w : wire_block) (h : counters) : KvBlock * counters :=
  let '(hd, p, pol, sc) := w in
  let '(l, h) := alloc_counter h in
  ({| header := hd; payload := p; ref_count := l; precision_policy := pol;
      sidecar := sc |}, h).

Definition deserialize (bytes : list Z) (h : counters) :
  result KvBlockError (KvBlock * counters) :=
  w ← ok_or (decode_block bytes) SerializationFailed;
  let '(b, h) := of_wire w h in
  _ ← verify_checksum b;
  Ok (b, h).

(** The loop of [deserialize_batch]. *)
Fixpoint build_batch (ws : list wire_block) (h : counters) :
  result KvBlockError (list KvBlock * counters) :=
  match ws with
  | [] => Ok ([], h)
  | w :: ws =>
      let '(b, h) := of_wire w h in
      _ ← verify_checksum b;
      '(bs, h) ← build_batch ws h;
      Ok (b :: bs, h)
  end.

Definition deserialize_batch (data : list Z) (h : counters) :
  result KvBlockError (list KvBlock * counters) :=
  ws ← ok_or (decode_blocks data) SerializationFailed;
  build_batch ws h.

End Block.
End Block.

(** ** A concrete codec

    An instance of the codec's laws, used to exhibit inputs: the tuple's
    canonical code as one number, and a sum of bytes as the checksum. *)

Module ExampleCodec.
Import Policy.

#[export] Instance header_eq_dec : EqDecision KvBlockHeader.
Proof. solve_decision. Defined.

#[export] Instance header_countable : Countable KvBlockHeader.
Proof.
  refine (inj_countable'
    (λ h, (hdr_key h, hdr_payload_len h, hdr_checksum h, hdr_flags h))
    (λ '(k, p, c, f), Build_KvBlockHeader k p c f) _).
  by intros [].
Defined.

#[export] Instance policy_countable : Countable Policy.PackedBlockPolicy.
Proof.
  refine (inj_countable' Policy.raw Policy.PackedPolicy _). by intros [].
Defined.

#[export] Instance sidecar_eq_dec : EqDecision PspKv.PspKvSidecarDescriptor.
Proof. solve_decision. Defined.

#[export] Instance sidecar_countable : Countable PspKv.PspKvSidecarDescriptor.
Proof.
  refine (inj_countable'
    (λ s, (PspKv.data_page_base_ptr s, PspKv.residual_page_ptr s,
           PspKv.head_presence_mask s, PspKv.base_precision s,
           PspKv.compression_level s, PspKv.head_group_size s,
           PspKv.reserved_flags s, PspKv.per_head_scale_e8m0 s,
           PspKv.reserved_padding s))
    (λ '(a, b, c, d, e, f, g, h, i),
       PspKv.Build_PspKvSidecarDescriptor a b c d e f g h i) _).
  by intros [].
Defined.

Definition decode_one {A} `{Countable A} (bs : list Z) : option A :=
  match bs with [Z.pos p] => decode p | _ => None end.

#[export] Instance example_codec : BlockCodec := {|
  crc32 bs := wrap 32 (foldr Z.add 0 bs);
  encode_block w := Some [Z.pos (encode w)];
  decode_block := decode_one;
  decode_blocks := decode_one;
|}.

#[export] Instance example_codec_laws : BlockCodecLaws.
Proof. split. intros w bs [= <-]. cbn. apply decode_encode. Qed.

End ExampleCodec.

(** ** Theorems *)

Module KvBlockTheorems.
Import Block ExampleCodec.

(** The part of a block that travels. *)
Definition wire (b : KvBlock) : wire_block :=
  (header b, payload b, precision_policy b, sidecar b).

Definition sound `{BlockCodec} (b : KvBlock) : Prop :=
  crc32 (payload b) = hdr_checksum (header b).

(** Of a wire form: the stored checksum is that of the payload. *)
Definition intact `{BlockCodec} (w : wire_block) : Prop :=
  let '(hd, p, _, _) := w in crc32 p = hdr_checksum hd.

Section Facts.
Context `{BlockCodec}.

Lemma verify_checksum_ok b : verify_checksum b = Ok () ↔ sound b.
Proof.
  unfold verify_checksum, sound. destruct (Z.eqb_spec (crc32 (payload b)) (hdr_checksum (header b)));
    cbn; split; (done || congruence).
Qed.

Lemma verify_checksum_err b e :
  verify_checksum b = Err e →
  e = ChecksumMismatch (hdr_checksum (header b)) (crc32 (payload b)) ∧ ¬ sound b.
Proof.
  unfold verify_checksum, sound. destruct (Z.eqb_spec (crc32 (payload b)) (hdr_checksum (header b)));
    cbn; [done|]. by intros [= <-].
Qed.

Lemma of_wire_spec w h b h' :
  of_wire w h = (b, h') →
  wire b = w ∧ h !! ref_count b = None ∧ h' = <[ref_count b := 1]> h.
Proof.
  destruct w as [[[hd p] pol] sc]. cbn. intros [= <- <-]. cbn.
  split_and!; [done| |done]. apply not_elem_of_dom, is_fresh.
Qed.

Lemma sound_wire b b' : wire b = wire b' → sound b → sound b'.
Proof. unfold wire, sound. intros [= -> -> _ _]. done. Qed.

(** A block that checks out: its wire form, and a counter of its own. *)
Lemma build_batch_spec ws h bs h' :
  build_batch ws h = Ok (bs, h') →
  wire <$> bs = ws ∧ Forall sound bs ∧ NoDup (ref_count <$> bs) ∧
  Forall (λ b, h !! ref_count b = None ∧ h' !! ref_count b = Some 1) bs ∧ h ⊆ h'.
Proof.
  revert h bs h'. induction ws as [|w ws IH]; intros h bs h' Hb; cbn in Hb.
  { simplify_eq. split_and!; [done|constructor..|done]. }
  destruct (of_wire w h) as [b h1] eqn:Hw.
  apply of_wire_spec in Hw as (Hwire & Hnone & ->).
  destruct (verify_checksum b) as [[]|] eqn:Hv; monad_simpl; [|done].
  apply verify_checksum_ok in Hv.
  destruct (build_batch ws _) as [[bs1 h2]|] eqn:Hrec; monad_simpl; [|done].
  simplify_eq. apply IH in Hrec as (Hws & Hs & Hnd & Hc & Hsub).
  assert (Hsub' : h ⊆ h').
  { etrans; [|exact Hsub]. by apply insert_subseteq. }
  split_and!.
  - cbn. by rewrite Hws.
  - by constructor.
  - cbn. constructor; [|done]. intros Hin. apply list_elem_of_fmap in Hin as (b' & Heq & Hin).
    rewrite Forall_forall in Hc. destruct (Hc b' Hin) as [Hc1 _].
    rewrite <- Heq, lookup_insert_eq in Hc1. done.
  - constructor.
    + split; [done|]. eapply lookup_weaken; [|exact Hsub]. by rewrite lookup_insert_eq.
    + eapply Forall_impl; [exact Hc|]. cbn. intros b' [H1 H2]. split; [|done].
      by apply lookup_insert_None in H1 as [? _].
  - done.
Qed.

(** A batch is built, or the first block that is not intact is reported. *)
Lemma build_batch_total ws h :
  (Forall intact ws ∧ ∃ r, build_batch ws h = Ok r) ∨
  (∃ good hd p pol sc rest, ws = good ++ (hd, p, pol, sc) :: rest ∧ Forall intact good ∧
     crc32 p ≠ hdr_checksum hd ∧
     build_batch ws h = Err (ChecksumMismatch (hdr_checksum hd) (crc32 p))).
Proof.
  revert h. induction ws as [|[[[hd p] pol] sc] ws IH]; intros h; [left; split; [done|by eexists]|].
  cbn [build_batch]. destruct (of_wire _ h) as [b h1] eqn:Hw.
  apply of_wire_spec in Hw as (Hwire & _ & _). unfold wire in Hwire. simplify_eq.
  destruct (verify_checksum b) as [[]|e] eqn:Hv; monad_simpl.
  - apply verify_checksum_ok in Hv.
    destruct (IH h1) as [[Hi [[bs h2] E]]|(good & hd & p & pol & sc & rest & -> & Hi & Hne & E)];
      rewrite E; monad_simpl; [left|right].
    + split; [by constructor|by eexists].
    + eexists (_ :: good), hd, p, pol, sc, rest. split_and!; [done|by constructor|done..].
  - right. apply verify_checksum_err in Hv as [-> Hns].
    eexists [], _, _, _, _, ws. split_and!; [done|constructor|exact Hns|done].
Qed.

End Facts.

(** ** Blocks that are changed and sent *)

(** What the owner of a block can do to it between its construction and its
    serialization. *)
Inductive edit :=
  | Write (i : nat) (v : Z)
  | UpdateChecksum
  | SetPolicy (p : option Policy.PackedBlockPolicy)
  | SetSidecar (s : option PspKv.PspKvSidecarDescriptor).

Definition apply_edit `{BlockCodec} (b : KvBlock) (e : edit) : KvBlock :=
  match e with
  | Write i v => write_payload b i v
  | UpdateChecksum => update_checksum b
  | SetPolicy p => set_precision_policy b p
  | SetSidecar s => set_sidecar b s
  end.

(** No payload byte was written after the last update of the checksum. *)
Definition fresh_checksum (es : list edit) : bool :=
  foldl (λ ok e, match e with Write _ _ => false | UpdateChecksum => true | _ => ok end) true es.

Lemma edits_spec `{BlockCodec} key bytes pol sc h0 es :
  let b := foldl apply_edit (new_with_policy key bytes pol sc h0).1 es in
  hdr_key (header b) = key ∧ length (payload b) = length bytes ∧
  hdr_payload_len (header b) = wrap 32 (Z.of_nat (length bytes)) ∧
  (fresh_checksum es = true → sound b).
Proof.
  induction es as [|e es IH] using rev_ind; [done|]. cbv zeta in *. unfold fresh_checksum in *.
  rewrite !foldl_app. cbn [foldl]. set (b := foldl apply_edit _ es) in *.
  destruct IH as (Hk & Hl & Hp & Hs). destruct e; cbn [apply_edit]; split_and!; try done.
  - cbn. by rewrite length_insert.
  - cbn. by rewrite Hl.
Qed.

(** Deserializing what a block serialized to. *)
Lemma deserialize_serialized `{BlockCodec, !BlockCodecLaws} b bs h :
  serialize b = Ok bs →
  (sound b ∧ ∃ b', deserialize bs h = Ok (b', <[ref_count b' := 1]> h) ∧ wire b' = wire b ∧
                   h !! ref_count b' = None) ∨
  (¬ sound b ∧ deserialize bs h
               = Err (ChecksumMismatch (hdr_checksum (header b)) (crc32 (payload b)))).
Proof.
  intros Hser. unfold serialize in Hser. destruct (encode_block _) as [bs'|] eqn:He; [|done].
  injection Hser as <-. apply decode_encode_block in He. unfold deserialize. rewrite He. monad_simpl.
  destruct (of_wire _ h) as [b' h'] eqn:Hw. apply of_wire_spec in Hw as (Hwire & Hnone & ->).
  fold (wire b) in Hwire. destruct (verify_checksum b') as [[]|e] eqn:Hv; monad_simpl.
  - left. apply verify_checksum_ok in Hv. split; [by eapply sound_wire|]. by exists b'.
  - right. apply verify_checksum_err in Hv as [-> Hns].
    split; [intros Hs; by eapply Hns, sound_wire|]. unfold wire in Hwire. by injection Hwire as -> -> _ _.
Qed.

(** C29. A block can be changed and sent: whatever payload bytes, policies and
    sidecars are set between its construction and its serialization, the block
    keeps its key and its length field, and it is deserialized exactly when its
    stored checksum is that of its payload, which is so in particular when no
    payload byte was written after the last [update_checksum].  The copy has
    the same header, payload, policy and sidecar and a reference counter of its
    own, starting at 1; otherwise the result is [ChecksumMismatch] with the
    stored and the computed sum. *)
Theorem edited_block_transfers `{BlockCodec, !BlockCodecLaws} key bytes pol sc h0 es bs h :
  let b := foldl apply_edit (new_with_policy key bytes pol sc h0).1 es in
  serialize b = Ok bs →
  hdr_key (header b) = key ∧ hdr_payload_len (header b) = wrap 32 (Z.of_nat (length (payload b))) ∧
  ((crc32 (payload b) = hdr_checksum (header b) ∧
    ∃ b', deserialize bs h = Ok (b', <[ref_count b' := 1]> h) ∧ wire b' = wire b ∧
          h !! ref_count b' = None) ∨
   (crc32 (payload b) ≠ hdr_checksum (header b) ∧ fresh_checksum es = false ∧
    deserialize bs h = Err (ChecksumMismatch (hdr_checksum (header b)) (crc32 (payload b))))).
Proof.
  intros b Hser. destruct (edits_spec key bytes pol sc h0 es) as (Hk & Hl & Hp & Hs). fold b in Hk, Hl, Hp, Hs.
  split_and!; [done|by rewrite Hl|].
  destruct (deserialize_serialized b bs h Hser) as [?|[Hns ?]]; [by left|right].
  split_and!; [done| |done]. destruct (fresh_checksum es); [|done]. by destruct Hns; apply Hs.
Qed.

(** A byte is written and the checksum is not updated. *)
Lemma edited_block_transfers_witness :
  let b := foldl apply_edit (new_with_policy (KvKey 1 2) [3; 4] None None ∅).1 [Write 0 9] in
  ∃ bs, serialize b = Ok bs ∧ deserialize bs ∅ = Err (ChecksumMismatch 7 13).
Proof.
  eexists. split; [vm_compute; reflexivity|].
  edestruct (edited_block_transfers (KvKey 1 2) [3; 4] None None ∅ [Write 0 9]) as (_ & _ & [[E _]|(_ & _ & E)]).
  - vm_compute. reflexivity.
  - vm_compute in E. discriminate E.
  - exact E.
Defined.

(** C40. Batches are decoded all or nothing, whatever the bytes: when they do not
    decode the result is [SerializationFailed]; when every decoded block has the
    checksum of its payload, the batch is exactly the decoded blocks, in order,
    each with a counter of its own that starts at 1 and is shared with no other
    block; otherwise the result is [ChecksumMismatch] with the stored and the
    computed sum of the first block that does not verify. *)
Theorem deserialize_batch_all_or_nothing `{BlockCodec} data h :
  match decode_blocks data with
  | None => deserialize_batch data h = Err SerializationFailed
  | Some ws =>
      (Forall intact ws ∧ ∃ bs h', deserialize_batch data h = Ok (bs, h') ∧ wire <$> bs = ws ∧
         NoDup (ref_count <$> bs) ∧
         Forall (λ b, h !! ref_count b = None ∧ h' !! ref_count b = Some 1) bs ∧ h ⊆ h') ∨
      (∃ good hd p pol sc rest, ws = good ++ (hd, p, pol, sc) :: rest ∧ Forall intact good ∧
         crc32 p ≠ hdr_checksum hd ∧
         deserialize_batch data h = Err (ChecksumMismatch (hdr_checksum hd) (crc32 p)))
  end.
Proof.
  unfold deserialize_batch. destruct (decode_blocks data) as [ws|]; monad_simpl; [|done].
  destruct (build_batch_total ws h) as [[Hi ([bs h'] & Hb)]|Hbad]; [left|by right].
  split; [done|]. exists bs, h'. split; [done|]. apply build_batch_spec in Hb as (Hw & _ & Hrest). by split.
Qed.

End KvBlockTheorems.
