(* ===== verification/HashIndex.v ===== *)
(** * The Robin Hood hash index (src/src/index/src/hash_index.rs)

    [ConcurrentHashIndex] is the bucket table with its counter, and an operation
    is one state-passing function.  The probing runs under the table lock;
    [insert] reads the counter for [check_capacity] before it takes the lock, so
    the model and its theorems are about operations that run one after the
    other.  The probe loops have no bound in the source: they
    are run with fuel [capacity], and the theorems show that this is enough on
    every reachable table.  The abstraction of a table is the finite map of
    its own [iter]. *)

From S2P Require Import Prelude F64 KvBlock.

Module Index.

Inductive HashIndexError :=
| KeyNotFound (k : KvBlockKey)
| CapacityExceeded (cap : Z)
| AllocationError (capacity align : Z)
| IndexUninitialized.

#[export] Instance HashIndexError_eq_dec : EqDecision HashIndexError.
Proof. solve_decision. Defined.

Record IndexSlotValue := SlotValue {
  tier_id : Z;
  block_offset : Z;
  payload_len : Z;
}.

#[export] Instance IndexSlotValue_eq_dec : EqDecision IndexSlotValue.
Proof. solve_decision. Defined.

Record HashIndexBucket := Bucket {
  key : KvBlockKey;
  value : IndexSlotValue;
  occupied : bool;
  probe_distance : Z;
}.

Definition empty : HashIndexBucket :=
  Bucket (KvKey 0 0) (SlotValue 0 0 0) false 0.

Record ConcurrentHashIndex := HashIndex {
  buckets : list HashIndexBucket;
  capacity : Z;
  mask : Z;
  count : Z;
}.

Definition MAX_LOAD_FACTOR : f64 := f64_lit 75 100.

(** [usize::next_power_of_two]. *)
Definition next_power_of_two `{BuildProfile} (z : Z) : outcome Z :=
  arith 64 (if z <=? 1 then 1 else 2 ^ Z.log2_up z).

Definition new `{BuildProfile} (cap : Z) : outcome ConcurrentHashIndex :=
  p ← next_power_of_two cap;
  let cap := Z.max p 16 in
  Ret (HashIndex (replicate (Z.to_nat cap) empty) cap (cap - 1) 0).

(** 64-bit FNV-1a over the 16 little-endian bytes of the key. *)
Definition hash_key (k : KvBlockKey) : Z :=
  foldl (λ hash b, wrap 64 (Z.lxor hash b * 0x100000001b3)) 0xcbf29ce484222325
        (to_le_bytes 8 (namespace_id k) ++ to_le_bytes 8 (block_id k)).

Definition len (self : ConcurrentHashIndex) : Z := count self.
Definition is_empty (self : ConcurrentHashIndex) : bool := len self =? 0.

Definition load_factor (self : ConcurrentHashIndex) : f64 :=
  f64_div (f64_of_Z (len self)) (f64_of_Z (capacity self)).

Definition check_capacity (self : ConcurrentHashIndex) : result HashIndexError unit :=
  if f64_gtb (load_factor self) MAX_LOAD_FACTOR
  then Err (CapacityExceeded (capacity self)) else Ok ().

Definition iter (self : ConcurrentHashIndex) : list (KvBlockKey * IndexSlotValue) :=
  (λ b, (key b, value b)) <$> filter (λ b, occupied b = true) (buckets self).

Section Loops.
Context `{BuildProfile} (cap msk : Z).

(** [idx = (idx + 1) & self.mask]. *)
Definition next_idx (idx : Z) : outcome Z :=
  i ← arith 64 (idx + 1); Ret (Z.land i msk).

Fixpoint insert_loop (fuel : nat) (bs : list HashIndexBucket) (cnt : Z)
    (curr_key : KvBlockKey) (curr_val : IndexSlotValue) (curr_dist idx : Z) :
  outcome (result HashIndexError unit * list HashIndexBucket * Z) :=
  match fuel with
  | O => OutOfFuel
  | S fuel =>
      b ← unwrap (bs !! Z.to_nat idx);
      if negb (occupied b) then
        Ret (Ok (), <[Z.to_nat idx := Bucket curr_key curr_val true curr_dist]> bs,
             wrap 64 (cnt + 1))
      else if bool_decide (key b = curr_key) then
        Ret (Ok (), <[Z.to_nat idx := Bucket (key b) curr_val (occupied b)
                                             (probe_distance b)]> bs, cnt)
      else
        let '(bs, curr_key, curr_val, curr_dist) :=
          if probe_distance b <? curr_dist then
            (<[Z.to_nat idx := Bucket curr_key curr_val (occupied b) curr_dist]> bs,
             key b, value b, probe_distance b)
          else (bs, curr_key, curr_val, curr_dist) in
        idx ← next_idx idx;
        curr_dist ← arith 16 (curr_dist + 1);
        if wrap 16 cap <? curr_dist then Ret (Err (CapacityExceeded cap), bs, cnt)
        else insert_loop fuel bs cnt curr_key curr_val curr_dist idx
  end.

Fixpoint get_loop (fuel : nat) (bs : list HashIndexBucket) (k : KvBlockKey)
    (dist idx : Z) : outcome (result HashIndexError IndexSlotValue) :=
  match fuel with
  | O => OutOfFuel
  | S fuel =>
      b ← unwrap (bs !! Z.to_nat idx);
      if negb (occupied b) || (probe_distance b <? dist) then Ret (Err (KeyNotFound k))
      else if bool_decide (key b = k) then Ret (Ok (value b))
      else
        idx ← next_idx idx;
        dist ← arith 16 (dist + 1);
        if wrap 16 cap <? dist then Ret (Err (KeyNotFound k))
        else get_loop fuel bs k dist idx
  end.

(** The inner loop of [remove]: backward-shift deletion. *)
Fixpoint shift_loop (fuel : nat) (bs : list HashIndexBucket) (prev_idx curr_idx : Z) :
  outcome (list HashIndexBucket) :=
  match fuel with
  | O => OutOfFuel
  | S fuel =>
      b ← unwrap (bs !! Z.to_nat curr_idx);
      if negb (occupied b) || (probe_distance b =? 0) then
        Ret (<[Z.to_nat prev_idx := empty]> bs)
      else
        d ← arith 16 (probe_distance b - 1);
        let b := Bucket (key b) (value b) (occupied b) d in
        let bs := <[Z.to_nat curr_idx := b]> bs in
        let bs := <[Z.to_nat prev_idx := b]> bs in
        next ← next_idx curr_idx;
        shift_loop fuel bs curr_idx next
  end.

Fixpoint remove_loop (fuel : nat) (bs : list HashIndexBucket) (cnt : Z)
    (k : KvBlockKey) (dist idx : Z) :
  outcome (result HashIndexError IndexSlotValue * list HashIndexBucket * Z) :=
  match fuel with
  | O => OutOfFuel
  | S fuel' =>
      b ← unwrap (bs !! Z.to_nat idx);
      if negb (occupied b) || (probe_distance b <? dist)
      then Ret (Err (KeyNotFound k), bs, cnt)
      else if bool_decide (key b = k) then
        curr ← next_idx idx;
        bs ← shift_loop (Z.to_nat cap) bs idx curr;
        Ret (Ok (value b), bs, wrap 64 (cnt - 1))
      else
        idx ← next_idx idx;
        dist ← arith 16 (dist + 1);
        remove_loop fuel' bs cnt k dist idx
  end.

End Loops.

Definition insert `{BuildProfile} (self : ConcurrentHashIndex) (k : KvBlockKey)
    (v : IndexSlotValue) : outcome (result HashIndexError unit * ConcurrentHashIndex) :=
  match check_capacity self with
  | Err e => Ret (Err e, self)
  | Ok _ =>
      '(r, bs, cnt) ← insert_loop (capacity self) (mask self) (Z.to_nat (capacity self))
                        (buckets self) (count self) k v 0
                        (Z.land (hash_key k) (mask self));
      Ret (r, HashIndex bs (capacity self) (mask self) cnt)
  end.

Definition get `{BuildProfile} (self : ConcurrentHashIndex) (k : KvBlockKey) :
  outcome (result HashIndexError IndexSlotValue) :=
  get_loop (capacity self) (mask self) (Z.to_nat (capacity self)) (buckets self) k 0
           (Z.land (hash_key k) (mask self)).

Definition remove `{BuildProfile} (self : ConcurrentHashIndex) (k : KvBlockKey) :
  outcome (result HashIndexError IndexSlotValue * ConcurrentHashIndex) :=
  '(r, bs, cnt) ← remove_loop (capacity self) (mask self) (Z.to_nat (capacity self))
                    (buckets self) (count self) k 0
                    (Z.land (hash_key k) (mask self));
  Ret (r, HashIndex bs (capacity self) (mask self) cnt).

End Index.

(** ** Tables with cyclic slots *)

Module Table.
Import Index.

Section Table.
Context (n : Z) (Hn : 2 < n).

(** The bucket at position [j] of the cyclic table, and its update. *)
Definition slot (B : list HashIndexBucket) (j : Z) : HashIndexBucket :=
  default empty (B !! Z.to_nat (j mod n)).

Definition upd (B : list HashIndexBucket) (j : Z) (b : HashIndexBucket) :
  list HashIndexBucket := <[Z.to_nat (j mod n) := b]> B.

(** The probe sequence length, -1 for an empty slot. *)
Definition psl (B : list HashIndexBucket) (j : Z) : Z :=
  if occupied (slot B j) then probe_distance (slot B j) else -1.

Definition home (k : KvBlockKey) : Z := hash_key k mod n.

Definition sized (B : list HashIndexBucket) : Prop := Z.of_nat (length B) = n.

(** An occupied slot lies [probe_distance] after its key's home slot. *)
Definition dist_ok (B : list HashIndexBucket) : Prop := ∀ j,
  occupied (slot B j) = true →
  0 ≤ probe_distance (slot B j) < n ∧
  (home (key (slot B j)) + probe_distance (slot B j)) mod n = j mod n.

Definition uniq (B : list HashIndexBucket) : Prop := ∀ i j,
  occupied (slot B i) = true → occupied (slot B j) = true →
  key (slot B i) = key (slot B j) → i mod n = j mod n.

(** The Robin Hood order. *)
Definition robin_hood (B : list HashIndexBucket) : Prop := ∀ j,
  psl B (j + 1) ≤ psl B j + 1.

Record table_ok (B : list HashIndexBucket) : Prop := {
  t_len : sized B;
  t_dist : dist_ok B;
  t_uniq : uniq B;
  t_rh : robin_hood B;
}.

Definition has (B : list HashIndexBucket) (k : KvBlockKey) (v : IndexSlotValue) : Prop :=
  ∃ j, occupied (slot B j) = true ∧ key (slot B j) = k ∧ value (slot B j) = v.

Definition rep (B : list HashIndexBucket) (m : gmap KvBlockKey IndexSlotValue) : Prop :=
  ∀ k v, m !! k = Some v ↔ has B k v.

Lemma mod_range j : 0 ≤ j mod n < n.
Proof. apply Z.mod_pos_bound. lia. Qed.

Lemma slot_mod B i j : i mod n = j mod n → slot B i = slot B j.
Proof. unfold slot. by intros ->. Qed.

Lemma psl_mod B i j : i mod n = j mod n → psl B i = psl B j.
Proof. unfold psl. intros E. by rewrite (slot_mod _ _ _ E). Qed.

Lemma upd_mod B i j b : i mod n = j mod n → upd B i b = upd B j b.
Proof. unfold upd. by intros ->. Qed.

Lemma upd_sized B j b : sized B → sized (upd B j b).
Proof. unfold sized, upd. by rewrite length_insert. Qed.

Lemma slot_upd_eq B i j b : sized B → i mod n = j mod n → slot (upd B i b) j = b.
Proof.
  unfold sized, slot, upd. intros HB ->. pose proof (mod_range j).
  by rewrite list_lookup_insert_eq by lia.
Qed.

Lemma slot_upd_ne B i j b : i mod n ≠ j mod n → slot (upd B i b) j = slot B j.
Proof.
  unfold slot, upd. intros Hne. pose proof (mod_range i). pose proof (mod_range j).
  by rewrite list_lookup_insert_ne by lia.
Qed.

Lemma slot_lookup B j : sized B → B !! Z.to_nat (j mod n) = Some (slot B j).
Proof.
  unfold sized, slot. intros HB. pose proof (mod_range j).
  destruct (lookup_lt_is_Some_2 B (Z.to_nat (j mod n))) as [b Hb]; [lia|].
  by rewrite Hb.
Qed.

Lemma lookup_slot B i b : sized B → B !! i = Some b → slot B (Z.of_nat i) = b.
Proof.
  unfold sized, slot. intros HB Hb. pose proof (lookup_lt_Some _ _ _ Hb).
  rewrite Z.mod_small by lia. rewrite Nat2Z.id. by rewrite Hb.
Qed.

Lemma psl_ge B j : dist_ok B → -1 ≤ psl B j.
Proof.
  unfold psl. intros Hd. destruct (occupied (slot B j)) eqn:E; [|lia].
  apply Hd in E. lia.
Qed.

Lemma psl_empty B j : occupied (slot B j) = false → psl B j = -1.
Proof. unfold psl. by intros ->. Qed.

Lemma psl_occupied B j :
  occupied (slot B j) = true → psl B j = probe_distance (slot B j).
Proof. unfold psl. by intros ->. Qed.

(** Walking back along the Robin Hood order. *)
Lemma robin_hood_chain B j (t : nat) :
  robin_hood B → psl B (j + Z.of_nat t) - Z.of_nat t ≤ psl B j.
Proof.
  intros Hr. induction t as [|t IH].
  - replace (j + Z.of_nat 0) with j by lia. lia.
  - specialize (Hr (j + Z.of_nat t)).
    replace (j + Z.of_nat (S t)) with (j + Z.of_nat t + 1) by lia. lia.
Qed.

Lemma mod_shift i j c : i mod n = j mod n ↔ (i + c) mod n = (j + c) mod n.
Proof.
  split; intros E.
  - by rewrite <- (Z.add_mod_idemp_l i), <- (Z.add_mod_idemp_l j), E by lia.
  - replace i with (i + c - c) by lia. replace j with (j + c - c) by lia.
    by rewrite <- (Zminus_mod_idemp_l (i + c)), <- (Zminus_mod_idemp_l (j + c)), E.
Qed.

Lemma mod_add_ne j c : 0 < c < n → (j + c) mod n ≠ j mod n.
Proof.
  intros Hc E. replace j with (0 + j) in E at 2 by lia. rewrite (Z.add_comm j) in E.
  apply mod_shift in E. rewrite !Z.mod_small in E by lia. lia.
Qed.

(** A key in the table sits at its own distance from home, and every slot of
    its probe path is at least as far from home. *)
Lemma probe_path B k j d :
  table_ok B → occupied (slot B j) = true → key (slot B j) = k →
  0 ≤ d ≤ probe_distance (slot B j) →
  let i := home k + d in
  occupied (slot B i) = true ∧ d ≤ probe_distance (slot B i) ∧
  (key (slot B i) = k → d = probe_distance (slot B j) ∧ slot B i = slot B j).
Proof.
  intros [_ Hd Hu Hr] Ho <- Hdd i.
  destruct (Hd j Ho) as [Hp Hj].
  pose proof (robin_hood_chain B i (Z.to_nat (probe_distance (slot B j) - d)) Hr) as Hc.
  rewrite Z2Nat.id in Hc by lia.
  rewrite (psl_mod B _ j) in Hc by (rewrite <- Hj; f_equal; subst i; lia).
  rewrite (psl_occupied B j) in Hc by done.
  assert (Hi : d ≤ psl B i) by lia.
  unfold psl in Hi. destruct (occupied (slot B i)) eqn:Eo; [|lia].
  split_and!; [done|lia|]. intros Hk.
  destruct (Hd i Eo) as [Hpi Hii]. rewrite Hk in Hii.
  assert (Hij : i mod n = j mod n) by (by apply Hu).
  assert (slot B i = slot B j) as E by (by apply slot_mod).
  split; [|done]. subst i. rewrite <- Hj in Hij. clear -Hij Hdd Hp Hn.
  rewrite (Z.add_comm _ d), (Z.add_comm _ (probe_distance (slot B j))) in Hij.
  apply mod_shift in Hij. rewrite !Z.mod_small in Hij by lia. done.
Qed.

Lemma psl_upd_ne B i j b : i mod n ≠ j mod n → psl (upd B i b) j = psl B j.
Proof. unfold psl. intros. by rewrite slot_upd_ne. Qed.

Lemma psl_upd_eq B i j b :
  sized B → i mod n = j mod n →
  psl (upd B i b) j = if occupied b then probe_distance b else -1.
Proof. unfold psl. intros. by rewrite slot_upd_eq. Qed.

(** A key absent from the abstract map is in no occupied slot. *)
Lemma rep_absent B m k j :
  rep B m → m !! k = None → occupied (slot B j) = true → key (slot B j) ≠ k.
Proof.
  intros Hr Hk Ho <-. assert (m !! key (slot B j) = Some (value (slot B j))) as E.
  { apply Hr. by exists j. }
  congruence.
Qed.

Lemma rep_key B m j :
  rep B m → occupied (slot B j) = true → m !! key (slot B j) = Some (value (slot B j)).
Proof. intros Hr Ho. apply Hr. by exists j. Qed.

(** Splits on whether slot [j] is the updated slot [i]. *)
Ltac slot_case i j :=
  destruct (decide (i mod n = j mod n));
  [rewrite ?(slot_upd_eq _ i j) in * by (try apply upd_sized; done)
  |rewrite ?(slot_upd_ne _ i j) in * by done].

(** Writing an entry over a slot that is nearer to home. *)
Lemma place_table B m k v d i (B' := upd B i (Bucket k v true d)) :
  table_ok B → rep B m → m !! k = None →
  0 ≤ d < n → (home k + d) mod n = i mod n →
  psl B i < d → d ≤ psl B (i - 1) + 1 →
  table_ok B'.
Proof.
  intros [Hl Hd Hu Hr] Hrep Hk Hdr Hi Hlt Hle. subst B'. split.
  - by apply upd_sized.
  - intros j. slot_case i j; [|apply Hd]. cbn. intros _. split; [done|congruence].
  - intros a b. slot_case i a; slot_case i b; cbn.
    + congruence.
    + intros _ Ho E. by destruct (rep_absent B m k b).
    + intros Ho _ E. by destruct (rep_absent B m k a).
    + apply Hu.
  - intros j. specialize (Hr j).
    destruct (decide (i mod n = j mod n)) as [E|E].
    + rewrite (psl_upd_eq _ i j) by done. cbn [occupied probe_distance].
      rewrite psl_upd_ne by (rewrite E; symmetry; apply mod_add_ne; lia).
      rewrite (psl_mod B i j) in Hlt by done. lia.
    + rewrite (psl_upd_ne _ i j) by done.
      destruct (decide (i mod n = (j + 1) mod n)) as [E'|E'].
      * rewrite (psl_upd_eq _ i (j + 1)) by done. cbn [occupied probe_distance].
        rewrite (psl_mod B (i - 1) j) in Hle; [lia|].
        apply (mod_shift (i - 1) j 1). rewrite <- E'. f_equal. lia.
      * by rewrite psl_upd_ne.
Qed.

Lemma place_rep B m k v d i (B' := upd B i (Bucket k v true d)) :
  sized B → uniq B → rep B m → m !! k = None →
  rep B' (<[k := v]> (if occupied (slot B i) then delete (key (slot B i)) m else m)).
Proof.
  intros Hl Hu Hrep Hk k' v'. subst B'.
  destruct (decide (k = k')) as [<-|Hne].
  - rewrite lookup_insert_eq. split.
    + intros [= <-]. exists i. by rewrite slot_upd_eq.
    + intros (j & Ho & Ek & Ev). slot_case i j; [by simplify_eq/=|].
      by destruct (rep_absent B m k j).
  - rewrite lookup_insert_ne by done.
    assert (Hif : (if occupied (slot B i) then delete (key (slot B i)) m else m) !! k' = Some v'
            ↔ m !! k' = Some v' ∧ (occupied (slot B i) = true → key (slot B i) ≠ k')).
    { destruct (occupied (slot B i)); rewrite ?lookup_delete_Some.
      - split; [intros [? ?]; by split|intros [? H2]; split; [by apply H2|done]].
      - split; [by intros ?|by intros [? _]]. }
    rewrite Hif, (Hrep k' v'). split.
    + intros [(j & Ho & Ek & Ev) Hki]. exists j.
      slot_case i j; [|done]. rewrite (slot_mod B i j) in Hki by done.
      by destruct (Hki Ho).
    + intros (j & Ho & Ek & Ev). slot_case i j; [by simplify_eq/=|]. split; [by exists j|].
      intros Hoi Hki. assert (i mod n = j mod n) by (apply Hu; congruence). done.
Qed.

(** Overwriting the value of the slot that holds the key. *)
Lemma set_value_ok B m i v
    (B' := upd B i (Bucket (key (slot B i)) v (occupied (slot B i)) (probe_distance (slot B i)))) :
  table_ok B → rep B m → occupied (slot B i) = true →
  table_ok B' ∧ rep B' (<[key (slot B i) := v]> m).
Proof.
  intros [Hl Hd Hu Hr] Hrep Ho. subst B'.
  set (b := Bucket (key (slot B i)) v (occupied (slot B i)) (probe_distance (slot B i))).
  assert (Hs : ∀ j, occupied (slot (upd B i b) j) = occupied (slot B j) ∧
                    key (slot (upd B i b) j) = key (slot B j) ∧
                    probe_distance (slot (upd B i b) j) = probe_distance (slot B j)).
  { intros j. slot_case i j; [|done]. subst b. cbn. by rewrite (slot_mod B i j). }
  split; [split|].
  - by apply upd_sized.
  - intros j. destruct (Hs j) as (-> & -> & ->). apply Hd.
  - intros a c. destruct (Hs a) as (-> & -> & _), (Hs c) as (-> & -> & _). apply Hu.
  - intros j. unfold psl. destruct (Hs j) as (-> & _ & ->), (Hs (j + 1)) as (-> & _ & ->).
    apply Hr.
  - intros k' v'. destruct (decide (key (slot B i) = k')) as [<-|Hne].
    + rewrite lookup_insert_eq. split.
      * intros [= <-]. exists i. by rewrite slot_upd_eq.
      * intros (j & Hoj & Ek & Ev). destruct (Hs j) as (Eo & Ek' & _).
        slot_case i j; [by simplify_eq/=|].
        assert (i mod n = j mod n) by (apply Hu; congruence). done.
    + rewrite lookup_insert_ne by done. rewrite (Hrep k' v'). split.
      * intros (j & Hoj & Ek & Ev). exists j. slot_case i j; [|done].
        rewrite (slot_mod B i j) in Hne by done. congruence.
      * intros (j & Hoj & Ek & Ev). slot_case i j; [by simplify_eq/=|]. by exists j.
Qed.

(** ** Deletion

    A table whose slot [p] has just been vacated: the Robin Hood order may
    fail only between [p] and its successor, by one. *)
Record hole_ok (T : list HashIndexBucket) (p : Z) : Prop := {
  h_len : sized T;
  h_dist : dist_ok T;
  h_uniq : uniq T;
  h_rh : ∀ j, j mod n ≠ p mod n → psl T (j + 1) ≤ psl T j + 1;
  h_gap : psl T (p + 1) ≤ psl T (p - 1) + 2;
  h_empty : occupied (slot T p) = false;
}.

Lemma vacate_hole B p :
  table_ok B → hole_ok (upd B p empty) p.
Proof.
  intros [Hl Hd Hu Hr].
  assert (Hs : ∀ j, occupied (slot (upd B p empty) j) = true →
                    p mod n ≠ j mod n ∧ slot (upd B p empty) j = slot B j).
  { intros j. slot_case p j; [done|]. done. }
  split.
  - by apply upd_sized.
  - intros j Ho. destruct (Hs j Ho) as [_ E]. rewrite E in *. by apply Hd.
  - intros a b Ha Hb. destruct (Hs a Ha) as [_ Ea], (Hs b Hb) as [_ Eb].
    rewrite Ea, Eb in *. by apply Hu.
  - intros j Hj. rewrite (psl_upd_ne _ p j) by done. specialize (Hr j).
    destruct (decide (p mod n = (j + 1) mod n)).
    + rewrite psl_upd_eq by done. cbn. pose proof (psl_ge B j Hd). lia.
    + by rewrite psl_upd_ne.
  - rewrite psl_upd_ne by (symmetry; apply mod_add_ne; lia).
    rewrite psl_upd_ne.
    + pose proof (Hr p). pose proof (Hr (p - 1)) as H1.
      replace (p - 1 + 1) with p in H1 by lia. lia.
    + replace p with (p - 1 + 1) at 1 by lia. apply mod_add_ne. lia.
  - by rewrite slot_upd_eq.
Qed.

Lemma vacate_rep B m p :
  sized B → uniq B → rep B m → occupied (slot B p) = true →
  rep (upd B p empty) (delete (key (slot B p)) m).
Proof.
  intros Hl Hu Hrep Ho k v. rewrite lookup_delete_Some, (Hrep k v). split.
  - intros [Hne (j & Hoj & Ek & Ev)]. exists j. slot_case p j; [|done].
    rewrite (slot_mod B p j) in Hne by done. congruence.
  - intros (j & Hoj & Ek & Ev). slot_case p j; [done|]. split; [|by exists j].
    intros E. assert (p mod n = j mod n) by (apply Hu; congruence). done.
Qed.

(** A hole followed by an empty slot or by an entry at home is harmless. *)
Lemma hole_closed T p : hole_ok T p → psl T (p + 1) ≤ 0 → table_ok T.
Proof.
  intros [Hl Hd Hu Hr Hg He] Hp. split; [done..|]. intros j.
  destruct (decide (j mod n = p mod n)) as [E|E]; [|by apply Hr].
  rewrite (psl_mod T (j + 1) (p + 1)) by (by apply mod_shift).
  rewrite (psl_empty T j) by (by rewrite (slot_mod T j p)). lia.
Qed.

(** Moving the next entry back into the hole moves the hole. *)
Definition moved (b : HashIndexBucket) : HashIndexBucket :=
  Bucket (key b) (value b) (occupied b) (probe_distance b - 1).

Lemma slot_shift T p b j (T' := upd (upd T p b) (p + 1) empty) :
  sized T →
  slot T' j = if decide ((p + 1) mod n = j mod n) then empty
              else if decide (p mod n = j mod n) then b else slot T j.
Proof.
  intros Hl. subst T'. slot_case (p + 1) j; [done|]. by slot_case p j.
Qed.

Lemma psl_shift T p b j (T' := upd (upd T p b) (p + 1) empty) :
  sized T → occupied b = true →
  psl T' j = if decide ((p + 1) mod n = j mod n) then -1
             else if decide (p mod n = j mod n) then probe_distance b else psl T j.
Proof.
  intros Hl Hb. subst T'. unfold psl. rewrite slot_shift by done.
  repeat case_decide; [done| |done]. by rewrite Hb.
Qed.

Lemma shift_hole T p (T' := upd (upd T p (moved (slot T (p + 1)))) (p + 1) empty) :
  hole_ok T p → occupied (slot T (p + 1)) = true →
  0 < probe_distance (slot T (p + 1)) →
  hole_ok T' (p + 1).
Proof.
  intros [Hl Hd Hu Hr Hg He] Ho Hpd. subst T'. set (b := slot T (p + 1)) in *.
  destruct (Hd (p + 1) Ho) as [Hb1 Hb2]. fold b in Hb1, Hb2.
  assert (Hpb : psl T (p + 1) = probe_distance b) by (by apply psl_occupied).
  split.
  - by do 2 apply upd_sized.
  - intros j. rewrite slot_shift by done. repeat case_decide; [done| |apply Hd].
    intros _. cbn. split; [lia|].
    apply (mod_shift _ _ 1). rewrite <- (proj1 (mod_shift p j 1)) by done.
    rewrite <- Hb2. f_equal. lia.
  - intros i j. rewrite !slot_shift by done. repeat case_decide; try done; cbn.
    + intros; congruence.
    + intros _ Hoj Ek. exfalso. assert ((p + 1) mod n = j mod n) by (by apply Hu). done.
    + intros Hoi _ Ek. exfalso. assert ((p + 1) mod n = i mod n) by (by symmetry; apply Hu). done.
    + apply Hu.
  - intros j Hj. rewrite !psl_shift by done.
    rewrite (decide_False (P := (p + 1) mod n = j mod n)) by congruence.
    destruct (decide ((p + 1) mod n = (j + 1) mod n)) as [E1|E1].
    { case_decide; cbn; [lia|]. pose proof (psl_ge T j Hd). lia. }
    rewrite (decide_False (P := p mod n = j mod n))
      by (intros E; apply E1; by apply mod_shift).
    case_decide as E2.
    + cbn. rewrite (psl_mod T (p - 1) j) in Hg; [lia|].
      apply (mod_shift _ _ 1). rewrite <- E2. f_equal. lia.
    + apply Hr. intros E. apply E1. symmetry. by apply mod_shift.
  - rewrite !psl_shift by done.
    rewrite decide_False by (symmetry; apply mod_add_ne; lia).
    rewrite decide_False by (rewrite <- Z.add_assoc; symmetry; apply mod_add_ne; lia).
    rewrite (decide_False (P := (p + 1) mod n = _))
      by (replace (p + 1 - 1) with p by lia; apply mod_add_ne; lia).
    rewrite decide_True by (f_equal; lia). cbn.
    enough (psl T (p + 1 + 1) ≤ psl T (p + 1) + 1) by lia.
    apply Hr, mod_add_ne. lia.
  - rewrite slot_shift by done. by rewrite decide_True.
Qed.

Lemma shift_rep T p m (T' := upd (upd T p (moved (slot T (p + 1)))) (p + 1) empty) :
  hole_ok T p → occupied (slot T (p + 1)) = true → rep T m → rep T' m.
Proof.
  intros [Hl _ _ _ _ He] Ho Hrep k v. subst T'. rewrite (Hrep k v). split.
  - intros (j & Hj & Ek & Ev).
    destruct (decide ((p + 1) mod n = j mod n)) as [E|E].
    + exists p. rewrite slot_shift, decide_False, decide_True
        by (done || apply mod_add_ne; lia).
      cbn. by rewrite (slot_mod T (p + 1) j).
    + exists j. rewrite slot_shift, (decide_False (P := (p + 1) mod n = _)) by done.
      rewrite decide_False; [done|]. intros E'. rewrite (slot_mod T p j) in He by done.
      congruence.
  - intros (j & Hj & Ek & Ev). rewrite slot_shift in * by done.
    repeat case_decide; [done| |].
    + by exists (p + 1).
    + by exists j.
Qed.

End Table.
End Table.

(** ** The loops on a well-formed table *)

Module Loops.
Import Index Table.

Section Loops.
Context `{BuildProfile} (k : Z) (Hk : 4 ≤ k ≤ 15).

Local Abbreviation n := (2 ^ k).

Lemma n_bounds : 16 ≤ n ≤ 32768.
Proof.
  split; [change 16 with (2 ^ 4)|change 32768 with (2 ^ 15)]; apply Z.pow_le_mono_r; lia.
Qed.

Lemma n_gt2 : 2 < n.
Proof. pose proof n_bounds. lia. Qed.

#[local] Hint Resolve n_gt2 : core.

Lemma next_idx_mod i : next_idx (n - 1) (i mod n) = Ret ((i + 1) mod n).
Proof.
  pose proof n_bounds. pose proof (mod_range n n_gt2 i). unfold next_idx.
  rewrite arith_ret by lia. monad_simpl.
  rewrite land_mask, Z.add_mod_idemp_l by lia. done.
Qed.

Lemma wrap_cap : wrap 16 n = n.
Proof. pose proof n_bounds. apply wrap_small. lia. Qed.

(** Unfolds one iteration at slot [i]. *)
Ltac step i Ht :=
  cbn [insert_loop get_loop remove_loop shift_loop];
  rewrite (slot_lookup n n_gt2 _ i) by (apply Ht); monad_simpl.

Ltac advance :=
  rewrite next_idx_mod; monad_simpl; rewrite ?arith_ret by lia; monad_simpl;
  rewrite ?wrap_cap.

(** Carrying an absent key: the loop places it, displacing richer entries,
    before it reaches an empty slot [e] positions ahead. *)
Lemma insert_loop_absent fuel B cnt m ck cv cd i e :
  table_ok n B → rep n B m → m !! ck = None →
  0 ≤ cd → (home n ck + cd) mod n = i mod n → cd ≤ psl n B (i - 1) + 1 →
  occupied (slot n B (i + e)) = false → 0 ≤ e < Z.of_nat fuel → cd + e < n →
  ∃ B', insert_loop n (n - 1) fuel B cnt ck cv cd (i mod n) = Ret (Ok (), B', wrap 64 (cnt + 1)) ∧
        table_ok n B' ∧ rep n B' (<[ck := cv]> m).
Proof.
  pose proof n_bounds as Hn.
  revert B m ck cv cd i e.
  induction fuel as [|fuel IH]; intros B m ck cv cd i e Ht Hrep Hck Hcd Hi Hle He Hf Hce;
    [lia|].
  step i Ht.
  destruct (occupied (slot n B i)) eqn:Ho; cbn [negb].
  2: { eexists. split; [done|].
       pose proof (place_rep n n_gt2 B m ck cv cd i (t_len _ _ Ht) (t_uniq _ _ Ht) Hrep Hck) as Hp.
       rewrite Ho in Hp. split; [|done].
       apply (place_table n n_gt2 B m); try done; [lia|]. rewrite psl_empty by done. lia. }
  rewrite bool_decide_eq_false_2 by (by apply (rep_absent n B m)).
  assert (e ≠ 0). { intros ->. rewrite Z.add_0_r in He. congruence. }
  destruct (Z.ltb_spec (probe_distance (slot n B i)) cd) as [Hlt|Hge].
  - set (b := slot n B i) in *.
    assert (Hpsl : psl n B i = probe_distance b) by (by apply psl_occupied).
    assert (Hk0 : key b ≠ ck) by (by apply (rep_absent n B m)).
    destruct (t_dist _ _ Ht i Ho) as [Hb1 Hb2]. fold b in Hb1, Hb2.
    pose proof (place_table n n_gt2 B m ck cv cd i Ht Hrep Hck ltac:(lia) Hi ltac:(lia) Hle) as Ht'.
    pose proof (place_rep n n_gt2 B m ck cv cd i (t_len _ _ Ht) (t_uniq _ _ Ht) Hrep Hck) as Hr'.
    fold b in Hr'. rewrite Ho in Hr'. advance.
    replace (n <? probe_distance b + 1) with false by lia.
    destruct (IH (upd n B i (Bucket ck cv true cd)) (<[ck := cv]> (delete (key b) m))
                (key b) (value b) (probe_distance b + 1) (i + 1) (e - 1))
      as (B' & HB' & Ht'' & Hr''); try done; try lia.
    + rewrite lookup_insert_ne by done. apply lookup_delete_eq.
    + rewrite Z.add_assoc. by apply mod_shift.
    + replace (i + 1 - 1) with i by lia. rewrite psl_upd_eq by (done || apply Ht).
      cbn. lia.
    + rewrite slot_upd_ne; [by replace (i + 1 + (e - 1)) with (i + e) by lia|done|].
      intros E. subst b. rewrite (slot_mod n B i (i + 1 + (e - 1))) in Ho by done.
      replace (i + 1 + (e - 1)) with (i + e) in Ho by lia. congruence.
    + exists B'. split; [exact HB'|]. split; [done|].
      replace (<[ck := cv]> m)
        with (<[key b := value b]> (<[ck := cv]> (delete (key b) m))); [done|].
      rewrite insert_insert_ne by done. f_equal.
      rewrite insert_delete_eq. apply insert_id. by apply rep_key.
  - advance. replace (n <? cd + 1) with false by lia.
    apply (IH B m ck cv (cd + 1) (i + 1) (e - 1)); try done; try lia.
    + rewrite Z.add_assoc. by apply mod_shift.
    + replace (i + 1 - 1) with i by lia. rewrite psl_occupied by done. lia.
    + by replace (i + 1 + (e - 1)) with (i + e) by lia.
Qed.

(** The probe of a present key [ck], [d] steps into its path. *)
Lemma path_step B ck j d :
  table_ok n B → occupied (slot n B j) = true → key (slot n B j) = ck →
  0 ≤ d ≤ probe_distance (slot n B j) → let i := home n ck + d in
  occupied (slot n B i) = true ∧ d ≤ probe_distance (slot n B i) ∧
  (key (slot n B i) = ck ∧ slot n B i = slot n B j ∨
   key (slot n B i) ≠ ck ∧ d < probe_distance (slot n B j) ∧ d + 1 < n).
Proof.
  intros Ht Ho Hj Hd i.
  destruct (probe_path n n_gt2 B ck j d Ht Ho Hj Hd) as (H1 & H2 & H3).
  destruct (t_dist _ _ Ht j Ho) as [Hp Hjj].
  split_and!; [done|done|].
  destruct (decide (key (slot n B i) = ck)) as [E|E]; [left; by destruct (H3 E)|].
  right. split; [done|]. destruct (decide (d = probe_distance (slot n B j))) as [->|]; [|lia].
  exfalso. apply E. subst i. rewrite Hj in Hjj.
  by rewrite (slot_mod n B (home n ck + probe_distance (slot n B j)) j).
Qed.

Lemma insert_loop_present fuel B cnt m ck cv cd j :
  table_ok n B → rep n B m → occupied (slot n B j) = true → key (slot n B j) = ck →
  0 ≤ cd ≤ probe_distance (slot n B j) →
  probe_distance (slot n B j) - cd < Z.of_nat fuel →
  ∃ B', insert_loop n (n - 1) fuel B cnt ck cv cd ((home n ck + cd) mod n) = Ret (Ok (), B', cnt) ∧
        table_ok n B' ∧ rep n B' (<[ck := cv]> m).
Proof.
  pose proof n_bounds as Hn. intros Ht Hrep Ho Hj. revert cd.
  induction fuel as [|fuel IH]; intros cd Hd Hf; [lia|].
  destruct (path_step B ck j cd Ht Ho Hj Hd) as (H1 & H2 & [[H3 H4]|(H3 & H4 & H5)]).
  - step (home n ck + cd) Ht. rewrite H1, bool_decide_eq_true_2 by done. cbn [negb].
    eexists. split; [done|].
    pose proof (set_value_ok n n_gt2 B m (home n ck + cd) cv Ht Hrep H1) as Hs.
    rewrite H3, H1 in Hs. by rewrite H3.
  - step (home n ck + cd) Ht. rewrite H1, bool_decide_eq_false_2 by done. cbn [negb].
    replace (probe_distance _ <? cd) with false by lia. advance.
    replace (n <? cd + 1) with false by lia.
    rewrite <- Z.add_assoc. apply IH; lia.
Qed.

Lemma get_loop_present fuel B ck d j :
  table_ok n B → occupied (slot n B j) = true → key (slot n B j) = ck →
  0 ≤ d ≤ probe_distance (slot n B j) →
  probe_distance (slot n B j) - d < Z.of_nat fuel →
  get_loop n (n - 1) fuel B ck d ((home n ck + d) mod n) = Ret (Ok (value (slot n B j))).
Proof.
  pose proof n_bounds as Hn. intros Ht Ho Hj. revert d.
  induction fuel as [|fuel IH]; intros d Hd Hf; [lia|].
  destruct (path_step B ck j d Ht Ho Hj Hd) as (H1 & H2 & [[H3 H4]|(H3 & H4 & H5)]).
  - step (home n ck + d) Ht. rewrite H1. replace (_ <? d) with false by lia.
    cbn [negb orb]. rewrite bool_decide_eq_true_2 by done. by rewrite H4.
  - step (home n ck + d) Ht. rewrite H1. replace (_ <? d) with false by lia.
    cbn [negb orb]. rewrite bool_decide_eq_false_2 by done. advance.
    replace (n <? d + 1) with false by lia. rewrite <- Z.add_assoc. apply IH; lia.
Qed.

(** The probe of an absent key stops at the latest at an empty slot. *)
Lemma get_loop_absent fuel B m ck d i e :
  table_ok n B → rep n B m → m !! ck = None → 0 ≤ d →
  occupied (slot n B (i + e)) = false → 0 ≤ e < Z.of_nat fuel → d + e < n →
  get_loop n (n - 1) fuel B ck d (i mod n) = Ret (Err (KeyNotFound ck)).
Proof.
  pose proof n_bounds as Hn. intros Ht Hrep Hck. revert d i e.
  induction fuel as [|fuel IH]; intros d i e Hd He Hf Hde; [lia|].
  step i Ht. destruct (occupied (slot n B i)) eqn:Ho; [|done]. cbn [negb orb].
  destruct (Z.ltb_spec (probe_distance (slot n B i)) d); [done|].
  rewrite bool_decide_eq_false_2 by (by apply (rep_absent n B m)).
  assert (e ≠ 0). { intros ->. rewrite Z.add_0_r in He. congruence. }
  advance. replace (n <? d + 1) with false by lia.
  apply (IH _ _ (e - 1)); try lia. by replace (i + 1 + (e - 1)) with (i + e) by lia.
Qed.

Lemma shift_loop_ok fuel B m p e :
  sized n B → hole_ok n (upd n B p empty) p → rep n (upd n B p empty) m →
  occupied (slot n B (p + 1 + e)) = false → 0 ≤ e < Z.of_nat fuel → e + 1 < n →
  ∃ B', shift_loop (n - 1) fuel B (p mod n) ((p + 1) mod n) = Ret B' ∧
        table_ok n B' ∧ rep n B' m.
Proof.
  pose proof n_bounds as Hn. revert B p e.
  induction fuel as [|fuel IH]; intros B p e Hl Hh Hrep He Hf Hen; [lia|].
  assert (Hp1 : p mod n ≠ (p + 1) mod n) by (symmetry; apply mod_add_ne; lia).
  assert (Hs : slot n (upd n B p empty) (p + 1) = slot n B (p + 1))
    by (by apply slot_upd_ne).
  cbn [shift_loop]. rewrite (slot_lookup n n_gt2 _ (p + 1)) by done. monad_simpl.
  destruct (negb (occupied (slot n B (p + 1))) || _) eqn:Hc.
  - exists (upd n B p empty). split; [done|]. split; [|done]. apply (hole_closed n n_gt2 _ p); [done|].
    unfold psl. rewrite Hs. destruct (occupied (slot n B (p + 1))) eqn:Ho; [|lia].
    cbn in Hc. lia.
  - apply orb_false_elim in Hc as [Hc1 Hc2]. apply negb_false_iff in Hc1.
    assert (Hpd : 0 < probe_distance (slot n B (p + 1)) < n).
    { rewrite <- Hs in *. pose proof (h_dist _ _ _ Hh (p + 1) Hc1). lia. }
    assert (e ≠ 0). { intros ->. rewrite Z.add_0_r in He. congruence. }
    rewrite arith_ret by lia. monad_simpl. rewrite next_idx_mod. monad_simpl.
    pose proof (shift_hole n n_gt2 _ p Hh) as Hh'.
    pose proof (shift_rep n n_gt2 _ p m Hh) as Hr'.
    rewrite Hs in Hh', Hr'. specialize (Hh' Hc1 ltac:(lia)). specialize (Hr' Hc1 Hrep).
    set (b := moved (slot n B (p + 1))) in *.
    change (Bucket _ _ _ _) with b.
    set (B1 := <[Z.to_nat (p mod n) := b]> (<[Z.to_nat ((p + 1) mod n) := b]> B)).
    assert (HB1 : upd n B1 (p + 1) empty = upd n (upd n (upd n B p empty) p b) (p + 1) empty).
    { subst B1. unfold upd. pose proof (mod_range n n_gt2 p).
      pose proof (mod_range n n_gt2 (p + 1)).
      rewrite list_insert_insert_eq, (list_insert_insert_ne B) by lia.
      by rewrite list_insert_insert_eq. }
    rewrite <- HB1 in Hh', Hr'.
    apply (IH B1 (p + 1) (e - 1)); try done; try lia.
    + by repeat apply upd_sized.
    + assert (Hse : slot n B1 (p + 1 + 1 + (e - 1)) = slot n B (p + 1 + e)).
      { replace (p + 1 + 1 + (e - 1)) with (p + 1 + e) by lia. subst B1.
        change (slot n (upd n (upd n B (p + 1) b) p b) (p + 1 + e) = slot n B (p + 1 + e)).
        rewrite !slot_upd_ne; [done|done|symmetry; apply mod_add_ne; lia|done|].
        rewrite <- Z.add_assoc. symmetry. apply mod_add_ne; lia. }
      by rewrite Hse.
Qed.

Lemma remove_loop_present fuel B cnt m ck d j j0 :
  table_ok n B → rep n B m → occupied (slot n B j) = true → key (slot n B j) = ck →
  occupied (slot n B j0) = false → 0 ≤ d ≤ probe_distance (slot n B j) →
  probe_distance (slot n B j) - d < Z.of_nat fuel →
  ∃ B', remove_loop n (n - 1) fuel B cnt ck d ((home n ck + d) mod n)
        = Ret (Ok (value (slot n B j)), B', wrap 64 (cnt - 1)) ∧
        table_ok n B' ∧ rep n B' (delete ck m).
Proof.
  pose proof n_bounds as Hn. intros Ht Hrep Ho Hj H0. revert d.
  induction fuel as [|fuel IH]; intros d Hd Hf; [lia|].
  destruct (path_step B ck j d Ht Ho Hj Hd) as (H1 & H2 & [[H3 H4]|(H3 & H4 & H5)]).
  - step (home n ck + d) Ht. rewrite H1. replace (_ <? d) with false by lia.
    cbn [negb orb]. rewrite bool_decide_eq_true_2 by done. advance.
    set (p := home n ck + d) in *. set (e := (j0 - (p + 1)) mod n).
    assert (Hpe : (p + 1 + e) mod n = j0 mod n).
    { subst e. rewrite Z.add_mod_idemp_r by lia. f_equal. lia. }
    pose proof (mod_range n n_gt2 (j0 - (p + 1))) as He. fold e in He.
    assert (e ≠ n - 1).
    { intros E. rewrite E in Hpe. replace (p + 1 + (n - 1)) with (p + 1 * n) in Hpe by lia.
      rewrite Z.mod_add in Hpe by lia. rewrite (slot_mod n B p j0) in H1 by done. congruence. }
    destruct (shift_loop_ok (Z.to_nat n) B (delete ck m) p e) as (B' & HB' & Ht' & Hr');
      [apply Ht|by apply vacate_hole| |by rewrite (slot_mod n B _ j0)|lia|lia|].
    { rewrite <- H3. apply vacate_rep; try done; apply Ht. }
    rewrite HB'. monad_simpl. exists B'. by rewrite H4.
  - step (home n ck + d) Ht. rewrite H1. replace (_ <? d) with false by lia.
    cbn [negb orb]. rewrite bool_decide_eq_false_2 by done. advance.
    rewrite <- Z.add_assoc. apply IH; lia.
Qed.

Lemma remove_loop_absent fuel B cnt m ck d i e :
  table_ok n B → rep n B m → m !! ck = None → 0 ≤ d →
  occupied (slot n B (i + e)) = false → 0 ≤ e < Z.of_nat fuel → d + e < n →
  remove_loop n (n - 1) fuel B cnt ck d (i mod n) = Ret (Err (KeyNotFound ck), B, cnt).
Proof.
  pose proof n_bounds as Hn. intros Ht Hrep Hck. revert d i e.
  induction fuel as [|fuel IH]; intros d i e Hd He Hf Hde; [lia|].
  step i Ht. destruct (occupied (slot n B i)) eqn:Ho; [|done]. cbn [negb orb].
  destruct (Z.ltb_spec (probe_distance (slot n B i)) d); [done|].
  rewrite bool_decide_eq_false_2 by (by apply (rep_absent n B m)).
  assert (e ≠ 0). { intros ->. rewrite Z.add_0_r in He. congruence. }
  advance. apply (IH _ _ (e - 1)); try lia.
  by replace (i + 1 + (e - 1)) with (i + e) by lia.
Qed.

(** ** The abstraction of a table *)

Lemma iter_keys_NoDup (bs : list HashIndexBucket) :
  (∀ i j a b, bs !! i = Some a → bs !! j = Some b →
     occupied a = true → occupied b = true → key a = key b → i = j) →
  NoDup (key <$> filter (λ b, occupied b = true) bs).
Proof.
  induction bs as [|b bs IH]; intros Hu; [constructor|].
  assert (NoDup (key <$> filter (λ b, occupied b = true) bs)) as Hnd.
  { apply IH. intros i j x y Hi Hj Hx Hy Hxy.
    by assert (S i = S j) as [= ?] by (by eapply Hu). }
  destruct (decide (occupied b = true)) as [Hb|Hb];
    [rewrite filter_cons_True by done|by rewrite filter_cons_False].
  cbn. constructor; [|done]. intros Hin.
  apply list_elem_of_fmap in Hin as (c & Hkc & [Hc Hin]%list_elem_of_filter).
  apply list_elem_of_lookup in Hin as [i Hi].
  by assert (0%nat = S i) by (by eapply (Hu 0%nat (S i) b c)).
Qed.

Lemma iter_NoDup B c msk cnt :
  table_ok n B → NoDup (iter (HashIndex B c msk cnt)).*1.
Proof.
  intros Ht. unfold iter. rewrite <- list_fmap_compose. cbn [buckets].
  apply iter_keys_NoDup. intros i j a b Hi Hj Ha Hb Hab.
  pose proof (lookup_lt_Some _ _ _ Hi). pose proof (lookup_lt_Some _ _ _ Hj).
  pose proof (t_len _ _ Ht) as Hl. unfold sized in Hl.
  apply (lookup_slot n) in Hi as Hi'; [|done..]. apply (lookup_slot n) in Hj as Hj'; [|done..].
  assert (Z.of_nat i mod n = Z.of_nat j mod n) as E.
  { apply (t_uniq _ _ Ht); by rewrite ?Hi', ?Hj'. }
  rewrite !Z.mod_small in E by lia. lia.
Qed.

Lemma elem_of_iter B c msk cnt ck v :
  table_ok n B → (ck, v) ∈ iter (HashIndex B c msk cnt) ↔ has n B ck v.
Proof.
  intros Ht. unfold iter. cbn [buckets]. rewrite list_elem_of_fmap. split.
  - intros (b & [= -> ->] & [Hb Hin]%list_elem_of_filter).
    apply list_elem_of_lookup in Hin as [i Hi].
    apply (lookup_slot n) in Hi; [|apply Ht]. exists (Z.of_nat i). by rewrite Hi.
  - intros (j & Ho & <- & <-). exists (slot n B j). split; [done|].
    apply list_elem_of_filter. split; [done|].
    eapply list_elem_of_lookup_2, (slot_lookup n n_gt2), Ht.
Qed.

End Loops.
End Loops.

(** ** Refinement of a finite map *)

Module HashIndexTheorems.
Import Index Table Loops.

Definition to_map (self : ConcurrentHashIndex) : gmap KvBlockKey IndexSlotValue :=
  list_to_map (iter self).

Record wf (self : ConcurrentHashIndex) (k : Z) : Prop := {
  wf_k : 4 ≤ k ≤ 15;
  wf_cap : capacity self = 2 ^ k;
  wf_mask : mask self = 2 ^ k - 1;
  wf_table : table_ok (2 ^ k) (buckets self);
  wf_count : count self = Z.of_nat (size (to_map self));
  wf_load : 4 * count self ≤ 3 * 2 ^ k + 4;
}.

Section Facts.
Context `{BuildProfile}.

Lemma rep_to_map self k : wf self k → rep (2 ^ k) (buckets self) (to_map self).
Proof.
  intros [Hk _ _ Ht _ _] ck v. destruct self as [B c msk cnt]. cbn in *.
  rewrite <- (elem_of_iter k Hk B c msk cnt ck v Ht). unfold to_map.
  rewrite elem_of_list_to_map; [done|]. by apply (iter_NoDup k Hk).
Qed.

Lemma rep_unique n B m1 m2 : rep n B m1 → rep n B m2 → m1 = m2.
Proof.
  intros H1 H2. apply map_eq. intros ck. apply option_eq. intros v.
  by rewrite (H1 ck v), (H2 ck v).
Qed.

(** The load bound leaves an empty slot. *)
Lemma wf_empty_slot self k :
  wf self k → ∃ j, occupied (slot (2 ^ k) (buckets self) j) = false.
Proof.
  intros [Hk _ _ Ht Hc Hl].
  destruct (decide (Forall (λ b, occupied b = true) (buckets self))) as [Hall|Hex].
  - exfalso. pose proof (t_len _ _ Ht) as Hlen. unfold sized in Hlen.
    pose proof (n_bounds k Hk).
    assert (size (to_map self) = length (buckets self)) as Hs; [|lia].
    unfold to_map. destruct self as [B c msk cnt]. cbn [buckets count] in *.
    rewrite map_size_list_to_map by (by apply (iter_NoDup k Hk)).
    unfold iter. rewrite length_fmap. cbn [buckets]. f_equal.
    clear -Hall. induction Hall as [|b B Hb _ IH]; [done|].
    rewrite filter_cons_True by done. by rewrite IH.
  - apply not_Forall_Exists in Hex; [|apply _].
    apply Exists_exists in Hex as (b & Hin & Hb).
    apply list_elem_of_lookup in Hin as [i Hi].
    exists (Z.of_nat i). rewrite (lookup_slot (2 ^ k) _ _ b); [|apply Ht|done].
    by apply not_true_is_false.
Qed.

(** The distance from a home slot to an empty slot. *)
Lemma wf_empty_ahead self k i :
  wf self k → ∃ e, 0 ≤ e < 2 ^ k ∧ occupied (slot (2 ^ k) (buckets self) (i + e)) = false.
Proof.
  intros Hw. destruct (wf_empty_slot self k Hw) as [j Hj].
  pose proof (n_gt2 k (wf_k _ _ Hw)) as Hn.
  exists ((j - i) mod 2 ^ k). split; [by apply mod_range|].
  rewrite (slot_mod _ _ _ j); [done|]. rewrite Z.add_mod_idemp_r by lia. f_equal. lia.
Qed.

Lemma start_idx self k ck :
  wf self k → Z.land (hash_key ck) (mask self) = (home (2 ^ k) ck + 0) mod 2 ^ k.
Proof.
  intros Hw. rewrite (wf_mask _ _ Hw), land_mask by (pose proof (wf_k _ _ Hw); lia).
  unfold home. rewrite Z.add_0_r, Z.mod_mod; [done|].
  pose proof (n_gt2 k (wf_k _ _ Hw)). lia.
Qed.

Lemma check_capacity_spec self k :
  wf self k →
  check_capacity self = if 3 * capacity self <? 4 * count self
                        then Err (CapacityExceeded (capacity self)) else Ok ().
Proof.
  intros Hw. unfold check_capacity, load_factor, MAX_LOAD_FACTOR, len.
  pose proof (n_bounds k (wf_k _ _ Hw)). pose proof (wf_load _ _ Hw).
  pose proof (wf_count _ _ Hw). pose proof (wf_k _ _ Hw).
  rewrite (wf_cap _ _ Hw) at 1. rewrite div_pow2_gt by lia.
  by rewrite (wf_cap _ _ Hw).
Qed.

(** A table that represents [m] after an operation. *)
Lemma wf_intro k B cnt m :
  4 ≤ k ≤ 15 → table_ok (2 ^ k) B → rep (2 ^ k) B m →
  cnt = Z.of_nat (size m) → 4 * cnt ≤ 3 * 2 ^ k + 4 →
  let self := HashIndex B (2 ^ k) (2 ^ k - 1) cnt in wf self k ∧ to_map self = m.
Proof.
  intros Hk Ht Hr Hc Hl self.
  assert (to_map self = m) as Hm.
  { apply (rep_unique (2 ^ k) B); [|done]. intros ck v.
    rewrite <- (elem_of_iter k Hk B (2 ^ k) (2 ^ k - 1) cnt ck v Ht).
    unfold to_map. rewrite elem_of_list_to_map; [done|]. by apply (iter_NoDup k Hk). }
  split; [|done].
  split; cbn [capacity mask buckets count]; try done. by rewrite Hm.
Qed.

Lemma insert_spec self k ck v :
  wf self k →
  let full := 3 * capacity self <? 4 * len self in
  ∃ self', insert self ck v
           = Ret (if full then Err (CapacityExceeded (capacity self)) else Ok (), self') ∧
           wf self' k ∧ capacity self' = capacity self ∧
           to_map self' = if full then to_map self else <[ck := v]> (to_map self).
Proof.
  intros Hw full. unfold insert. rewrite (check_capacity_spec self k Hw).
  change (len self) with (count self) in full. fold full.
  destruct full eqn:Hf; [by exists self|]. subst full.
  pose proof (n_bounds k (wf_k _ _ Hw)) as Hn. pose proof (wf_count _ _ Hw) as Hc.
  pose proof (rep_to_map self k Hw) as Hrep. pose proof (wf_table _ _ Hw) as Ht.
  rewrite (start_idx self k ck Hw), (wf_mask _ _ Hw), (wf_cap _ _ Hw) in *.
  destruct (to_map self !! ck) as [v0|] eqn:Hck.
  - destruct (proj1 (Hrep ck v0) Hck) as (j & Ho & Ek & _).
    destruct (t_dist _ _ Ht j Ho) as [Hd _].
    destruct (insert_loop_present k (wf_k _ _ Hw) (Z.to_nat (2 ^ k)) (buckets self)
                (count self) (to_map self) ck v 0 j)
      as (B' & HB' & Ht' & Hr'); [done..|lia|lia|].
    rewrite HB'. monad_simpl. eexists. split; [done|].
    destruct (wf_intro k B' (count self) (<[ck := v]> (to_map self))) as [? ?];
      [apply (wf_k _ _ Hw)|done|done| |apply (wf_load _ _ Hw)|done].
    rewrite map_size_insert_Some; [done|]. by eexists.
  - destruct (wf_empty_ahead self k (home (2 ^ k) ck + 0) Hw) as (e & He & Hoe).
    destruct (insert_loop_absent k (wf_k _ _ Hw) (Z.to_nat (2 ^ k)) (buckets self)
                (count self) (to_map self) ck v 0 (home (2 ^ k) ck + 0) e)
      as (B' & HB' & Ht' & Hr'); try done; try lia.
    { pose proof (psl_ge (2 ^ k) (buckets self) (home (2 ^ k) ck + 0 - 1) (t_dist _ _ Ht)). lia. }
    rewrite HB'. monad_simpl. eexists. split; [done|].
    destruct (wf_intro k B' (wrap 64 (count self + 1)) (<[ck := v]> (to_map self))) as [? ?];
      [apply (wf_k _ _ Hw)|done|done| | |done].
    + rewrite map_size_insert_None, wrap_small by (done || lia). lia.
    + rewrite wrap_small by lia. lia.
Qed.

Lemma get_spec self k ck :
  wf self k → get self ck = Ret (ok_or (to_map self !! ck) (KeyNotFound ck)).
Proof.
  intros Hw. unfold get. pose proof (n_bounds k (wf_k _ _ Hw)) as Hn.
  pose proof (rep_to_map self k Hw) as Hrep. pose proof (wf_table _ _ Hw) as Ht.
  rewrite (start_idx self k ck Hw), (wf_mask _ _ Hw), (wf_cap _ _ Hw).
  destruct (to_map self !! ck) as [v|] eqn:Hck.
  - destruct (proj1 (Hrep ck v) Hck) as (j & Ho & Ek & Ev).
    destruct (t_dist _ _ Ht j Ho) as [Hd _].
    rewrite (get_loop_present k (wf_k _ _ Hw) _ (buckets self) ck 0 j)
      by (done || lia). by rewrite Ev.
  - destruct (wf_empty_ahead self k (home (2 ^ k) ck + 0) Hw) as (e & He & Hoe).
    by rewrite (get_loop_absent k (wf_k _ _ Hw) _ (buckets self) (to_map self) ck 0 _ e)
      by (done || lia).
Qed.

Lemma remove_spec self k ck :
  wf self k →
  ∃ self', remove self ck = Ret (ok_or (to_map self !! ck) (KeyNotFound ck), self') ∧
           wf self' k ∧ capacity self' = capacity self ∧
           to_map self' = delete ck (to_map self).
Proof.
  intros Hw. unfold remove. pose proof (n_bounds k (wf_k _ _ Hw)) as Hn.
  pose proof (rep_to_map self k Hw) as Hrep. pose proof (wf_table _ _ Hw) as Ht.
  pose proof (wf_count _ _ Hw) as Hc. pose proof (wf_load _ _ Hw) as Hl.
  rewrite (start_idx self k ck Hw), (wf_mask _ _ Hw), (wf_cap _ _ Hw).
  destruct (to_map self !! ck) as [v|] eqn:Hck.
  - destruct (proj1 (Hrep ck v) Hck) as (j & Ho & Ek & Ev).
    destruct (t_dist _ _ Ht j Ho) as [Hd _]. destruct (wf_empty_slot self k Hw) as [j0 Hj0].
    destruct (remove_loop_present k (wf_k _ _ Hw) (Z.to_nat (2 ^ k)) (buckets self)
                (count self) (to_map self) ck 0 j j0) as (B' & HB' & Ht' & Hr');
      [done..|lia|lia|].
    rewrite HB'. monad_simpl. rewrite Ev. eexists. split; [done|].
    assert (size (to_map self) ≠ 0%nat) as Hne.
    { intros E%map_size_empty_inv. by rewrite E in Hck. }
    destruct (wf_intro k B' (wrap 64 (count self - 1)) (delete ck (to_map self))) as [? ?];
      [apply (wf_k _ _ Hw)|done|done| | |done].
    + rewrite map_size_delete_Some, wrap_small by (lia || by eexists). lia.
    + rewrite wrap_small by lia. lia.
  - destruct (wf_empty_ahead self k (home (2 ^ k) ck + 0) Hw) as (e & He & Hoe).
    rewrite (remove_loop_absent k (wf_k _ _ Hw) _ (buckets self) _ (to_map self) ck 0 _ e)
      by (done || lia). monad_simpl. exists self. split.
    { do 2 f_equal. clear -Hw. destruct Hw, self. cbn in *. by subst. }
    split_and!; [done|apply (wf_cap _ _ Hw)|]. symmetry. by apply delete_id.
Qed.

(** A new index of a requested capacity up to 32768. *)
Lemma new_spec c :
  0 ≤ c ≤ 32768 →
  ∃ self k, new c = Ret self ∧ wf self k ∧ to_map self = ∅ ∧ c ≤ capacity self.
Proof.
  intros Hc. unfold new, next_power_of_two.
  set (p := if c <=? 1 then 1 else 2 ^ Z.log2_up c).
  assert (Hp : ∃ k, 4 ≤ k ≤ 15 ∧ Z.max p 16 = 2 ^ k ∧ 0 ≤ p < 2 ^ 64 ∧ c ≤ p).
  { subst p. destruct (Z.leb_spec c 1); [exists 4; cbn; lia|].
    pose proof (Z.log2_up_spec c ltac:(lia)) as [_ Hup].
    assert (Z.log2_up c ≤ 15)
      by (change 15 with (Z.log2_up (2 ^ 15)); apply Z.log2_up_le_mono; lia).
    assert (2 ^ Z.log2_up c ≤ 2 ^ 15) by (apply Z.pow_le_mono_r; lia).
    destruct (Z.le_gt_cases 4 (Z.log2_up c)).
    - exists (Z.log2_up c).
      assert (2 ^ 4 ≤ 2 ^ Z.log2_up c) by (apply Z.pow_le_mono_r; lia). lia.
    - exists 4. assert (2 ^ Z.log2_up c ≤ 2 ^ 3) by (apply Z.pow_le_mono_r; lia). lia. }
  destruct Hp as (k & Hk & Hmax & Hp & Hcp). rewrite arith_ret by done. monad_simpl.
  rewrite Hmax. pose proof (n_bounds k Hk) as Hn.
  assert (Hemp : ∀ j, slot (2 ^ k) (replicate (Z.to_nat (2 ^ k)) empty) j = empty).
  { intros j. unfold slot. destruct (_ !! _) as [b|] eqn:E; [|done].
    by apply lookup_replicate in E as [-> _]. }
  destruct (wf_intro k (replicate (Z.to_nat (2 ^ k)) empty) 0 ∅) as [Hw Hm]; try done; try lia.
  - split.
    + unfold sized. rewrite length_replicate. lia.
    + intros j. by rewrite Hemp.
    + intros i j. by rewrite Hemp.
    + intros j. unfold psl. rewrite !Hemp. cbn. lia.
  - intros ck v. rewrite lookup_empty. split; [done|]. intros (j & Ho & _).
    by rewrite Hemp in Ho.
  - eexists _, k. split; [done|]. split_and!; [done|done|cbn [capacity]; lia].
Qed.

End Facts.

(** *** Operation sequences *)

Inductive Op :=
| OpInsert (k : KvBlockKey) (v : IndexSlotValue)
| OpGet (k : KvBlockKey)
| OpRemove (k : KvBlockKey).

Inductive Reply :=
| Inserted (r : result HashIndexError unit)
| Found (r : result HashIndexError IndexSlotValue)
| Removed (r : result HashIndexError IndexSlotValue).

Definition step `{BuildProfile} (self : ConcurrentHashIndex) (o : Op) :
  outcome (Reply * ConcurrentHashIndex) :=
  match o with
  | OpInsert k v => '(r, self) ← insert self k v; Ret (Inserted r, self)
  | OpGet k => r ← get self k; Ret (Found r, self)
  | OpRemove k => '(r, self) ← remove self k; Ret (Removed r, self)
  end.

Fixpoint run `{BuildProfile} (self : ConcurrentHashIndex) (os : list Op) :
  outcome (list Reply * ConcurrentHashIndex) :=
  match os with
  | [] => Ret ([], self)
  | o :: os =>
      '(r, self) ← step self o;
      '(rs, self) ← run self os;
      Ret (r :: rs, self)
  end.

(** The contract: a finite map that refuses insertions above 3/4 load. *)
Definition spec_step (cap : Z) (m : gmap KvBlockKey IndexSlotValue) (o : Op) :
  Reply * gmap KvBlockKey IndexSlotValue :=
  match o with
  | OpInsert k v =>
      if 3 * cap <? 4 * Z.of_nat (size m)
      then (Inserted (Err (CapacityExceeded cap)), m)
      else (Inserted (Ok ()), <[k := v]> m)
  | OpGet k => (Found (ok_or (m !! k) (KeyNotFound k)), m)
  | OpRemove k => (Removed (ok_or (m !! k) (KeyNotFound k)), delete k m)
  end.

Fixpoint spec_run (cap : Z) (m : gmap KvBlockKey IndexSlotValue) (os : list Op) :
  list Reply * gmap KvBlockKey IndexSlotValue :=
  match os with
  | [] => ([], m)
  | o :: os =>
      let '(r, m) := spec_step cap m o in
      let '(rs, m) := spec_run cap m os in
      (r :: rs, m)
  end.

Lemma step_refines `{BuildProfile} self k o :
  wf self k →
  ∃ self', step self o = Ret ((spec_step (capacity self) (to_map self) o).1, self') ∧
           wf self' k ∧ capacity self' = capacity self ∧
           to_map self' = (spec_step (capacity self) (to_map self) o).2.
Proof.
  intros Hw. destruct o as [ck v|ck|ck]; cbn [step spec_step].
  - destruct (insert_spec self k ck v Hw) as (self' & E & Hw' & Hcap & Hm).
    rewrite E. monad_simpl. exists self'. rewrite Hm. unfold len. rewrite (wf_count _ _ Hw).
    clear E Hm. by destruct (_ <? _).
  - rewrite (get_spec self k ck Hw). by exists self.
  - destruct (remove_spec self k ck Hw) as (self' & E & Hw' & Hcap & Hm).
    rewrite E. by exists self'.
Qed.

Lemma run_refines `{BuildProfile} os self k :
  wf self k →
  ∃ self', run self os = Ret ((spec_run (capacity self) (to_map self) os).1, self') ∧
           wf self' k ∧ to_map self' = (spec_run (capacity self) (to_map self) os).2.
Proof.
  revert self. induction os as [|o os IH]; intros self Hw; [by exists self|].
  destruct (step_refines self k o Hw) as (self1 & E1 & Hw1 & Hc1 & Hm1).
  destruct (IH self1 Hw1) as (self2 & E2 & Hw2 & Hm2).
  exists self2. cbn [run spec_run]. rewrite E1. monad_simpl. rewrite E2. monad_simpl.
  rewrite <- Hc1. rewrite Hm1 in *. rewrite Hc1 in *.
  destruct (spec_step _ _ o) as [r m]. cbn in *.
  by destruct (spec_run _ m os) as [rs m'].
Qed.

(** C2. The index is a finite map: for every requested capacity up to 32768
    and every sequence of insertions, lookups and removals, the Robin Hood
    table terminates without a panic (in either profile), answers exactly like
    a finite map that refuses insertions when more than 3/4 full, ends in a
    table that represents that map, and [len] is its number of keys. *)
Theorem hash_index_refines_map `{BuildProfile} c os :
  0 ≤ c ≤ 32768 →
  ∃ self, new c = Ret self ∧ c ≤ capacity self ∧
  ∃ self', run self os = Ret ((spec_run (capacity self) ∅ os).1, self') ∧
           to_map self' = (spec_run (capacity self) ∅ os).2 ∧
           len self' = Z.of_nat (size (to_map self')).
Proof.
  intros Hc. destruct (new_spec c Hc) as (self & k & Hnew & Hw & Hm & Hcap).
  exists self. split_and!; [done|done|].
  destruct (run_refines os self k Hw) as (self' & E & Hw' & Hm').
  rewrite Hm in E, Hm'. exists self'. split_and!; [done|done|apply (wf_count _ _ Hw')].
Qed.

Lemma hash_index_refines_map_witness :
  let os := [OpInsert (KvKey 0 1) (SlotValue 0 10 4); OpInsert (KvKey 0 1) (SlotValue 1 11 4);
             OpGet (KvKey 0 1); OpRemove (KvKey 0 1); OpGet (KvKey 0 1)] in
  ∃ self, new (H := Release) 10 = Ret self ∧ 10 ≤ capacity self ∧
  ∃ self', run (H := Release) self os = Ret ((spec_run (capacity self) ∅ os).1, self') ∧
           to_map self' = (spec_run (capacity self) ∅ os).2 ∧
           len self' = Z.of_nat (size (to_map self')).
Proof. intros os. apply (hash_index_refines_map (H := Release) 10 os). lia. Defined.

(** A table of 65536 buckets rejects the second key of any home slot:
    [self.capacity as u16] is 0 there, so the first probe past an occupied
    slot reports [CapacityExceeded] with a single key stored, and looking that
    key's neighbour up stops after one slot. *)
Theorem capacity_65536_rejects_collisions `{BuildProfile} c k1 v1 k2 v2 :
  32768 < c ≤ 65536 → k1 ≠ k2 → hash_key k1 mod 65536 = hash_key k2 mod 65536 →
  ∃ self self1, new c = Ret self ∧ insert self k1 v1 = Ret (Ok (), self1) ∧
    len self1 = 1 ∧ capacity self1 = 65536 ∧
    insert self1 k2 v2 = Ret (Err (CapacityExceeded 65536), self1).
Proof.
  intros Hc Hne Hh.
  assert (Hl : Z.log2_up c = 16) by (apply (Z.log2_up_unique c 16); lia).
  set (B := replicate (Z.to_nat 65536) empty).
  set (i := hash_key k1 mod 65536). assert (Hi : 0 ≤ i < 65536) by (by apply Z.mod_pos_bound).
  set (B1 := <[Z.to_nat i := Bucket k1 v1 true 0]> B).
  assert (Hlen : length B = Z.to_nat 65536) by apply length_replicate.
  assert (HB : B !! Z.to_nat i = Some empty) by (apply lookup_replicate_2; lia).
  assert (HB1 : B1 !! Z.to_nat i = Some (Bucket k1 v1 true 0))
    by (apply list_lookup_insert_eq; lia).
  assert (Hidx : ∀ k, Z.land (hash_key k) 65535 = hash_key k mod 65536)
    by (intros k; exact (land_mask (hash_key k) 16 ltac:(lia))).
  assert (Hcc : ∀ B cnt, 0 ≤ cnt ≤ 1 → check_capacity (HashIndex B 65536 65535 cnt) = Ok ()).
  { intros B' cnt Hcnt. unfold check_capacity, load_factor, MAX_LOAD_FACTOR, len. cbn [count capacity].
    change 65536 with (2 ^ 16). rewrite div_pow2_gt by lia.
    by replace (3 * 2 ^ 16 <? 4 * cnt) with false by lia. }
  assert (Hf : ∃ f, Z.to_nat 65536 = S f) by (exists (Z.to_nat 65535); lia).
  destruct Hf as [f Hf].
  exists (HashIndex B 65536 65535 0), (HashIndex B1 65536 65535 1). split_and!.
  - unfold new, next_power_of_two. replace (c <=? 1) with false by lia. by rewrite Hl.
  - unfold insert. rewrite Hcc by lia. cbn [capacity mask buckets count].
    rewrite Hf, Hidx. cbn [insert_loop]. fold i. by rewrite HB.
  - done.
  - done.
  - unfold insert. rewrite Hcc by lia. cbn [capacity mask buckets count].
    rewrite Hf, Hidx, <- Hh. cbn [insert_loop]. fold i. rewrite HB1. monad_simpl.
    cbn [occupied negb key probe_distance]. rewrite bool_decide_eq_false_2 by done.
    rewrite Z.ltb_irrefl. unfold next_idx. rewrite arith_ret by lia. monad_simpl.
    by rewrite arith_ret by lia.
Qed.

Lemma capacity_65536_rejects_collisions_witness :
  ∃ self self1, new (H := Dev) 65536 = Ret self ∧
    insert (H := Dev) self (KvKey 0 5611) (SlotValue 0 0 1) = Ret (Ok (), self1) ∧
    len self1 = 1 ∧ capacity self1 = 65536 ∧
    insert (H := Dev) self1 (KvKey 0 32768) (SlotValue 0 1 1)
    = Ret (Err (CapacityExceeded 65536), self1).
Proof.
  apply (capacity_65536_rejects_collisions (H := Dev)); [lia|done|reflexivity].
Defined.

End HashIndexTheorems.
