(* ===== verification/RadixTree.v ===== *)
(** * The radix tree of virtual addresses (src/src/index/src/radix_tree.rs)

    A trie of four levels of 16 bits.  The walk of [insert] mutates the nodes
    in place under the tree's write lock; the nodes are never shared, so the
    model rebuilds the path.  The abstraction of a tree is a finite map from
    addresses to leaf values. *)

From S2P Require Import Prelude KvBlock.

Module Radix.

Definition RADIX_BITS_PER_LEVEL : Z := 16.

Inductive RadixTreeError := AddressUnmapped (vaddr : Z).

Record RadixLeafValue := LeafValue {
  block_key : KvBlockKey;
  frame_offset : Z;
  flags : Z;
}.

Inductive Node :=
| Branch (children : gmap Z Node)
| Leaf (v : RadixLeafValue).

Definition new_branch : Node := Branch ∅.

Record ConcurrentRadixTree := RadixTree {
  root : Node;
  entry_count : Z;
}.

Definition new : ConcurrentRadixTree := RadixTree new_branch 0.

Definition extract_chunk (vaddr level : Z) : Z :=
  let shift := (3 - level) * RADIX_BITS_PER_LEVEL in
  wrap 16 (Z.land (Z.shiftr vaddr shift) 0xFFFF).

(** The loop of [insert] from [level] on, [todo] levels to go. *)
Fixpoint insert_from (todo : nat) (level : Z) (current : Node) (vaddr : Z)
    (value : RadixLeafValue) (cnt : Z) : outcome (result RadixTreeError unit * Node * Z) :=
  match todo with
  | O => Ret (Ok (), current, cnt)
  | S todo =>
      match current with
      | Branch children =>
          let chunk := extract_chunk vaddr level in
          if level =? 3 then
            if bool_decide (is_Some (children !! chunk))
            then Ret (Ok (), Branch (<[chunk := Leaf value]> children), cnt)
            else Ret (Ok (), Branch (<[chunk := Leaf value]> children), wrap 64 (cnt + 1))
          else
            let children :=
              if negb (bool_decide (is_Some (children !! chunk)))
              then <[chunk := new_branch]> children else children in
            child ← unwrap (children !! chunk);
            '(r, child, cnt) ← insert_from todo (level + 1) child vaddr value cnt;
            Ret (r, Branch (<[chunk := child]> children), cnt)
      | Leaf _ => Ret (Err (AddressUnmapped vaddr), current, cnt)
      end
  end.

Definition insert (self : ConcurrentRadixTree) (vaddr : Z) (value : RadixLeafValue) :
  outcome (result RadixTreeError unit * ConcurrentRadixTree) :=
  '(r, n, cnt) ← insert_from 4 0 (root self) vaddr value (entry_count self);
  Ret (r, RadixTree n cnt).

Fixpoint lookup_from (todo : nat) (level : Z) (current : Node) (vaddr : Z) :
  result RadixTreeError RadixLeafValue :=
  match todo with
  | O => match current with
         | Leaf v => Ok v
         | Branch _ => Err (AddressUnmapped vaddr)
         end
  | S todo =>
      match current with
      | Branch children =>
          match children !! extract_chunk vaddr level with
          | Some child => lookup_from todo (level + 1) child vaddr
          | None => Err (AddressUnmapped vaddr)
          end
      | Leaf _ => Err (AddressUnmapped vaddr)
      end
  end.

Definition lookup (self : ConcurrentRadixTree) (vaddr : Z) :
  result RadixTreeError RadixLeafValue := lookup_from 4 0 (root self) vaddr.

Definition lookup_range `{BuildProfile} (fuel : nat) (self : ConcurrentRadixTree)
    (start_vaddr end_vaddr step : Z) : outcome (list (Z * RadixLeafValue)) :=
  stride_loop fuel
    (λ curr results,
       match lookup self curr with
       | Ok v => results ++ [(curr, v)]
       | Err _ => results
       end) start_vaddr end_vaddr step [].

Definition len (self : ConcurrentRadixTree) : Z := entry_count self.
Definition is_empty (self : ConcurrentRadixTree) : bool := len self =? 0.

End Radix.

Module RadixFacts.
Import Radix.

(** A node with [todo] levels below it. *)
Fixpoint node_wf (todo : nat) (nd : Node) : Prop :=
  match todo, nd with
  | O, Leaf _ => True
  | S todo, Branch children => map_Forall (λ _ c, node_wf todo c) children
  | _, _ => False
  end.

(** The chunks of two addresses agree from level [4 - todo] down. *)
Definition same_tail (todo : nat) (v w : Z) : Prop :=
  ∀ l, 4 - Z.of_nat todo ≤ l < 4 → extract_chunk v l = extract_chunk w l.

Lemma extract_chunk_div v l :
  0 ≤ v → 0 ≤ l < 4 → extract_chunk v l = v / 2 ^ ((3 - l) * 16) mod 65536.
Proof.
  intros. unfold extract_chunk, RADIX_BITS_PER_LEVEL.
  rewrite (land_mask _ 16) by lia. rewrite Z.shiftr_div_pow2 by lia.
  apply wrap_small. apply Z.mod_pos_bound. lia.
Qed.

(** The four chunks determine a 64-bit address. *)
Lemma same_tail_eq v w :
  0 ≤ v < 2 ^ 64 → 0 ≤ w < 2 ^ 64 → same_tail 4 v w → v = w.
Proof.
  intros Hv Hw Hs.
  pose proof (Hs 0 ltac:(lia)) as H0. pose proof (Hs 1 ltac:(lia)) as H1.
  pose proof (Hs 2 ltac:(lia)) as H2. pose proof (Hs 3 ltac:(lia)) as H3.
  rewrite !extract_chunk_div in H0, H1, H2, H3 by lia.
  change (2 ^ ((3 - 0) * 16)) with (2 ^ 48) in H0.
  change (2 ^ ((3 - 1) * 16)) with (2 ^ 32) in H1.
  change (2 ^ ((3 - 2) * 16)) with (2 ^ 16) in H2.
  change (2 ^ ((3 - 3) * 16)) with 1 in H3.
  Z.to_euclidean_division_equations. lia.
Qed.

Lemma same_tail_S todo v w :
  (todo < 4)%nat →
  same_tail (S todo) v w ↔
  extract_chunk v (3 - Z.of_nat todo) = extract_chunk w (3 - Z.of_nat todo) ∧ same_tail todo v w.
Proof.
  intros Ht. unfold same_tail. split.
  - intros Hs. split; [apply Hs; lia|]. intros l Hl. apply Hs. lia.
  - intros [H1 H2] l Hl. destruct (decide (l = 3 - Z.of_nat todo)) as [->|]; [done|].
    apply H2. lia.
Qed.

(** The lookup of [w] in a branch whose child at the chunk of [v] changed. *)
Lemma lookup_branch_update todo ch v w child :
  lookup_from (S todo) (3 - Z.of_nat todo)
    (Branch (<[extract_chunk v (3 - Z.of_nat todo) := child]> ch)) w
  = if decide (extract_chunk v (3 - Z.of_nat todo) = extract_chunk w (3 - Z.of_nat todo))
    then lookup_from todo (3 - Z.of_nat todo + 1) child w
    else lookup_from (S todo) (3 - Z.of_nat todo) (Branch ch) w.
Proof.
  cbn [lookup_from]. rewrite lookup_insert. by case_decide.
Qed.

Lemma lookup_new_branch todo w :
  lookup_from (S todo) (3 - Z.of_nat todo) new_branch w = Err (AddressUnmapped w).
Proof. cbn. by rewrite lookup_empty. Qed.

(** The children after an intermediate step has made sure of its branch. *)
Definition ensure (ch : gmap Z Node) (c : Z) : gmap Z Node :=
  if negb (bool_decide (is_Some (ch !! c))) then <[c := new_branch]> ch else ch.

Lemma ensure_child todo ch c :
  map_Forall (λ _ d, node_wf (S todo) d) ch →
  ∃ child, ensure ch c !! c = Some child ∧ node_wf (S todo) child ∧
    (∀ w, lookup_from (S todo) (3 - Z.of_nat todo) child w =
          match ch !! c with
          | Some d => lookup_from (S todo) (3 - Z.of_nat todo) d w
          | None => Err (AddressUnmapped w) end) ∧
    map_Forall (λ _ d, node_wf (S todo) d) (ensure ch c).
Proof.
  intros Hwf. unfold ensure. destruct (ch !! c) as [d|] eqn:Ec.
  - rewrite bool_decide_eq_true_2 by (by eexists). exists d.
    split_and!; [done|by apply (map_Forall_lookup_1 _ _ _ _ Hwf) in Ec|done|done].
  - rewrite bool_decide_eq_false_2 by (by intros []). cbn [negb]. exists new_branch.
    rewrite lookup_insert_eq. split_and!; [done| |apply lookup_new_branch|].
    + apply map_Forall_empty.
    + apply map_Forall_insert_2; [apply map_Forall_empty|done].
Qed.

Lemma insert_from_spec todo nd v value cnt :
  (todo < 4)%nat → node_wf (S todo) nd →
  let look nd w := lookup_from (S todo) (3 - Z.of_nat todo) nd w in
  ∃ nd', insert_from (S todo) (3 - Z.of_nat todo) nd v value cnt
         = Ret (Ok (), nd', if is_ok (look nd v) then cnt else wrap 64 (cnt + 1)) ∧
         node_wf (S todo) nd' ∧
         (∀ w, same_tail (S todo) v w → look nd' w = Ok value) ∧
         (∀ w, ¬ same_tail (S todo) v w → look nd' w = look nd w).
Proof.
  revert nd. induction todo as [|todo IH]; intros nd Hlt Hwf look;
    destruct nd as [ch|]; try done.
  - cbn [insert_from]. change (3 - Z.of_nat 0 =? 3) with true.
    exists (Branch (<[extract_chunk v (3 - Z.of_nat 0) := Leaf value]> ch)). split_and!.
    + subst look. cbn [lookup_from].
      destruct (ch !! _) as [c|] eqn:E; [|done].
      destruct c; [|done]. by apply (map_Forall_lookup_1 _ _ _ _ Hwf) in E.
    + by apply map_Forall_insert_2.
    + intros w [Hc _]%same_tail_S; [|lia]. subst look. cbv beta.
      rewrite lookup_branch_update. by rewrite decide_True.
    + intros w Hns. subst look. cbv beta. rewrite lookup_branch_update.
      rewrite decide_False; [done|]. intros E. apply Hns, same_tail_S; [lia|].
      split; [done|]. intros l Hl. lia.
  - set (lv := 3 - Z.of_nat (S todo)) in *. set (c := extract_chunk v lv) in *.
    destruct (ensure_child todo ch c Hwf) as (child & Hc & Hcw & Hcl & Hall).
    set (ch' := ensure ch c) in *.
    destruct (IH child ltac:(lia) Hcw) as (child' & Hins & Hw' & Hsame & Hdiff).
    clear IH. cbv beta zeta in Hins, Hsame, Hdiff.
    assert (Hlv : lv + 1 = 3 - Z.of_nat todo) by lia.
    assert (Hlook : ∀ w, look (Branch ch') w = look (Branch ch) w).
    { intros w. subst look ch'. unfold ensure. cbn [lookup_from].
      destruct (ch !! c) as [d|] eqn:Ec.
      - by rewrite bool_decide_eq_true_2 by (by eexists).
      - rewrite bool_decide_eq_false_2 by (by intros []). cbn [negb].
        rewrite lookup_insert. case_decide as E; [|done]. rewrite <- E, Ec.
        cbn. by rewrite lookup_empty. }
    exists (Branch (<[c := child']> ch')). split_and!.
    + remember (S todo) as t eqn:Et. cbn [insert_from]. rewrite (proj2 (Z.eqb_neq lv 3)) by lia. fold c.
      change (if negb _ then _ else ch) with ch'. rewrite Hc. monad_simpl. rewrite Hlv, Hins. monad_simpl. do 3 f_equal.
      rewrite Hcl. subst look t. change (lookup_from (S (S todo)) lv (Branch ch) v) with
        (match ch !! c with
         | Some d => lookup_from (S todo) (lv + 1) d v
         | None => Err (AddressUnmapped v) end).
      rewrite Hlv. by destruct (ch !! c).
    + by apply map_Forall_insert_2.
    + intros w [Hcw' Ht]%same_tail_S; [|lia]. subst look. cbv beta. subst c lv.
      rewrite lookup_branch_update, decide_True by done. rewrite Hlv. by apply Hsame.
    + intros w Hns. rewrite <- Hlook. subst look. cbv beta. subst c lv.
      rewrite lookup_branch_update. case_decide as E; [|done].
      rewrite Hlv, Hdiff by (intros Ht; apply Hns, same_tail_S; [lia|done]).
      remember (S todo) as t eqn:Et. cbn [lookup_from]. by rewrite <- E, Hc, Hlv.
Qed.

(** A tree that represents a map of 64-bit addresses. *)
Record tree_rep (t : ConcurrentRadixTree) (m : gmap Z RadixLeafValue) : Prop := {
  tr_wf : node_wf 4 (root t);
  tr_dom : map_Forall (λ a _, 0 ≤ a < 2 ^ 64) m;
  tr_lookup : ∀ a, 0 ≤ a < 2 ^ 64 → lookup t a = ok_or (m !! a) (AddressUnmapped a);
  tr_count : entry_count t = wrap 64 (Z.of_nat (size m));
}.

Lemma new_rep : tree_rep new ∅.
Proof.
  split; [apply map_Forall_empty|apply map_Forall_empty| |done].
  intros a _. rewrite lookup_empty. apply (lookup_new_branch 3).
Qed.

Lemma insert_rep t m a v :
  tree_rep t m → 0 ≤ a < 2 ^ 64 →
  ∃ t', insert t a v = Ret (Ok (), t') ∧ tree_rep t' (<[a := v]> m).
Proof.
  intros [Hwf Hdom Hlook Hcnt] Ha.
  destruct (insert_from_spec 3 (root t) a v (entry_count t) ltac:(lia) Hwf)
    as (nd & Hins & Hwf' & Hsame & Hdiff).
  change (3 - Z.of_nat 3) with 0 in *. cbv beta in *.
  unfold insert. rewrite Hins. monad_simpl. eexists. split; [done|]. split; cbn [root entry_count].
  - done.
  - by apply map_Forall_insert_2.
  - intros b Hb. unfold lookup. cbn [root]. rewrite lookup_insert. case_decide as E.
    + subst b. by apply Hsame.
    + rewrite Hdiff by (intros Hs%same_tail_eq; done). by apply Hlook.
  - specialize (Hlook a Ha). unfold lookup in Hlook. rewrite Hlook, Hcnt.
    rewrite map_size_insert. destruct (m !! a); cbn [ok_or is_ok]; [done|].
    unfold wrap. rewrite Z.add_mod_idemp_l by lia. f_equal. lia.
Qed.

End RadixFacts.

Module RadixTheorems.
Import Radix RadixFacts.

(** Inserting a list of mappings in order. *)
Fixpoint insert_all (t : ConcurrentRadixTree) (l : list (Z * RadixLeafValue)) :
  outcome ConcurrentRadixTree :=
  match l with
  | [] => Ret t
  | (a, v) :: l =>
      '(r, t) ← insert t a v;
      match r with Ok _ => insert_all t l | Err _ => Panic end
  end.

Lemma insert_all_rep l t m :
  tree_rep t m → Forall (λ p, 0 ≤ p.1 < 2 ^ 64) l →
  ∃ t', insert_all t l = Ret t' ∧
        tree_rep t' (foldl (λ m p, <[p.1 := p.2]> m) m l).
Proof.
  revert t m. induction l as [|[a v] l IH]; intros t m Hr Hl; [by exists t|].
  apply Forall_cons in Hl as [Ha Hl].
  destruct (insert_rep t m a v Hr Ha) as (t1 & E1 & Hr1).
  cbn [insert_all foldl]. rewrite E1. monad_simpl. by apply IH.
Qed.

(** C22. The radix tree is an exact map: after any sequence of insertions of
    64-bit addresses into a new tree, every insertion has succeeded, [lookup]
    of any 64-bit address gives the last value inserted at exactly that
    address or [AddressUnmapped], and [len] counts the mapped addresses. *)
Theorem radix_tree_refines_map l :
  Forall (λ p, 0 ≤ p.1 < 2 ^ 64) l →
  let m := foldl (λ m p, <[p.1 := p.2]> m) (∅ : gmap Z RadixLeafValue) l in
  ∃ t, insert_all new l = Ret t ∧
       (∀ a, 0 ≤ a < 2 ^ 64 → lookup t a = ok_or (m !! a) (AddressUnmapped a)) ∧
       len t = wrap 64 (Z.of_nat (size m)).
Proof.
  intros Hl m. destruct (insert_all_rep l new ∅ new_rep Hl) as (t & E & [_ _ H1 H2]).
  by exists t.
Qed.

Lemma radix_tree_refines_map_witness :
  let l := [(0x1000, LeafValue (KvKey 0 1) 7 0); (0x7FFF00001000, LeafValue (KvKey 0 2) 8 0);
            (0x1000, LeafValue (KvKey 0 3) 9 1)] in
  let m := foldl (λ m p, <[p.1 := p.2]> m) (∅ : gmap Z RadixLeafValue) l in
  ∃ t, insert_all new l = Ret t ∧
       (∀ a, 0 ≤ a < 2 ^ 64 → lookup t a = ok_or (m !! a) (AddressUnmapped a)) ∧
       len t = wrap 64 (Z.of_nat (size m)).
Proof.
  intros l. apply (radix_tree_refines_map l). repeat constructor; cbn; lia.
Defined.

(** The hits of a range query, in address order. *)
Definition range_hits (t : ConcurrentRadixTree) (l : list Z) : list (Z * RadixLeafValue) :=
  omap (λ a, match lookup t a with Ok v => Some (a, v) | Err _ => None end) l.

Lemma range_hits_foldl t l acc :
  foldl (λ results a, match lookup t a with Ok v => results ++ [(a, v)] | Err _ => results end)
        acc l = acc ++ range_hits t l.
Proof.
  revert acc. induction l as [|a l IH]; intros acc; cbn [foldl]; [by rewrite app_nil_r|].
  rewrite IH. unfold range_hits. cbn [omap list_omap]. destruct (lookup t a); [|done].
  by rewrite <- app_assoc.
Qed.

(** Range queries terminate and are complete: with a positive step that
    cannot carry the cursor past the address space, [ceil((end-start)/step)]
    iterations are enough, and the result lists, in order, exactly the mapped
    addresses among [start, start+step, ...] below [end]. *)
Theorem lookup_range_complete `{BuildProfile} t start end_ step fuel :
  0 ≤ start → 0 < step → end_ + step ≤ 2 ^ 64 → (range_count start end_ step ≤ fuel)%nat →
  lookup_range fuel t start end_ step
  = Ret (range_hits t (range_addrs (range_count start end_ step) start step)).
Proof.
  intros. unfold lookup_range. rewrite stride_loop_spec by done.
  by rewrite range_hits_foldl.
Qed.

Lemma lookup_range_complete_witness :
  ∃ t, insert_all new [(0x2000, LeafValue (KvKey 0 1) 7 0)] = Ret t ∧
       lookup_range (H := Dev) 3 t 0x1000 0x4000 0x1000
       = Ret (range_hits t (range_addrs 3 0x1000 0x1000)).
Proof.
  eexists. split; [vm_compute; reflexivity|].
  apply (lookup_range_complete (H := Dev)); vm_compute; (done || lia).
Defined.

(** A zero step never leaves the loop. *)
Theorem lookup_range_zero_step `{BuildProfile} t start end_ fuel :
  0 ≤ start < end_ → end_ ≤ 2 ^ 64 → lookup_range fuel t start end_ 0 = OutOfFuel.
Proof.
  intros. by apply stride_loop_zero.
Qed.

End RadixTheorems.
