(* ===== verification/Eviction.v ===== *)
(** * The eviction policy (src/src/index/src/eviction.rs)

    [TwoQEvictionPolicy] keeps two queues; each method holds one queue lock
    at a time and never yields in between, so a method is one state-passing
    function.  The contract [Lru] is a list of distinct keys in order of last
    use. *)

From S2P Require Import Prelude KvBlock.

Module Eviction.

Inductive EvictionError := QueueEmpty | KeyNotFound.

#[export] Instance EvictionError_eq_dec : EqDecision EvictionError.
Proof. solve_decision. Defined.

Record TwoQEvictionPolicy := TwoQ {
  in_queue : list KvBlockKey;
  lru_queue : list KvBlockKey;
}.

Definition new : TwoQEvictionPolicy := TwoQ [] [].

(** [iter().position(|k| k == key)]. *)
Definition position (key : KvBlockKey) (q : list KvBlockKey) : option nat :=
  fst <$> list_find (λ k, k = key) q.

(** [VecDeque::remove(pos)]: the element and the queue without it. *)
Definition take_at (pos : nat) (q : list KvBlockKey) : option KvBlockKey * list KvBlockKey :=
  (q !! pos, delete pos q).

Definition touch (self : TwoQEvictionPolicy) (key : KvBlockKey) :
  outcome TwoQEvictionPolicy :=
  match position key (lru_queue self) with
  | Some pos =>
      let '(k, lru) := take_at pos (lru_queue self) in
      k ← unwrap k;
      Ret (TwoQ (in_queue self) (lru ++ [k]))
  | None =>
      match position key (in_queue self) with
      | Some pos =>
          let '(k, in_q) := take_at pos (in_queue self) in
          k ← unwrap k;
          Ret (TwoQ (in_q ++ [k]) (lru_queue self))
      | None => Ret (TwoQ (in_queue self ++ [key]) (lru_queue self))
      end
  end.

Definition evict_next (self : TwoQEvictionPolicy) :
  result EvictionError KvBlockKey * TwoQEvictionPolicy :=
  match lru_queue self with
  | k :: lru => (Ok k, TwoQ (in_queue self) lru)
  | [] =>
      match in_queue self with
      | k :: in_q => (Ok k, TwoQ in_q (lru_queue self))
      | [] => (Err QueueEmpty, self)
      end
  end.

Definition remove (self : TwoQEvictionPolicy) (key : KvBlockKey) :
  result EvictionError unit * TwoQEvictionPolicy :=
  match position key (lru_queue self) with
  | Some pos => (Ok (), TwoQ (in_queue self) (take_at pos (lru_queue self)).2)
  | None =>
      match position key (in_queue self) with
      | Some pos => (Ok (), TwoQ (take_at pos (in_queue self)).2 (lru_queue self))
      | None => (Err KeyNotFound, self)
      end
  end.

End Eviction.

(** ** The contract: least recently used *)

Module Lru.
Import Eviction.

Definition touch (q : list KvBlockKey) (k : KvBlockKey) : list KvBlockKey :=
  filter (λ k', k' ≠ k) q ++ [k].

Definition evict (q : list KvBlockKey) : result EvictionError KvBlockKey * list KvBlockKey :=
  match q with k :: q => (Ok k, q) | [] => (Err QueueEmpty, []) end.

Definition remove (q : list KvBlockKey) (k : KvBlockKey) :
  result EvictionError unit * list KvBlockKey :=
  (if bool_decide (k ∈ q) then Ok () else Err KeyNotFound, filter (λ k', k' ≠ k) q).

End Lru.

Module EvictionTheorems.
Import Eviction.

Lemma position_Some k q pos :
  NoDup q → position k q = Some pos →
  q !! pos = Some k ∧ delete pos q = filter (λ k', k' ≠ k) q ∧ k ∈ q.
Proof.
  unfold position. intros Hnd Hp.
  destruct (list_find _ q) as [[i k']|] eqn:E; [|done]. cbn in Hp. injection Hp as ->.
  apply list_find_Some in E as (Hi & -> & _).
  split_and!; [done| |by eapply list_elem_of_lookup_2].
  revert pos Hi. induction Hnd as [|x q Hx Hnd IH]; intros [|pos] Hi; [done..| |].
  - injection Hi as ->. rewrite filter_cons_False by (intros H; by apply H).
    cbn. symmetry. apply filter_all. intros y Hy ->. done.
  - cbn in Hi. rewrite filter_cons_True.
    + cbn. f_equal. by apply IH.
    + intros ->. apply Hx. by eapply list_elem_of_lookup_2.
Qed.

Lemma position_None k q : position k q = None → k ∉ q ∧ filter (λ k', k' ≠ k) q = q.
Proof.
  unfold position. destruct (list_find _ q) as [[]|] eqn:E; [done|]. intros _.
  apply list_find_None in E. rewrite Forall_forall in E.
  split; [by intros Hk; apply (E k)|]. apply filter_all. intros y Hy ->. by apply (E k).
Qed.

Inductive Op := Touch (k : KvBlockKey) | Evict | Remove (k : KvBlockKey).

Inductive Reply :=
| Touched
| Evicted (r : result EvictionError KvBlockKey)
| RemovedKey (r : result EvictionError unit).

Definition step (p : TwoQEvictionPolicy) (o : Op) : outcome (Reply * TwoQEvictionPolicy) :=
  match o with
  | Touch k => p ← touch p k; Ret (Touched, p)
  | Evict => let '(r, p) := evict_next p in Ret (Evicted r, p)
  | Remove k => let '(r, p) := remove p k in Ret (RemovedKey r, p)
  end.

Fixpoint run (p : TwoQEvictionPolicy) (os : list Op) : outcome (list Reply * TwoQEvictionPolicy) :=
  match os with
  | [] => Ret ([], p)
  | o :: os => '(r, p) ← step p o; '(rs, p) ← run p os; Ret (r :: rs, p)
  end.

Definition lru_step (q : list KvBlockKey) (o : Op) : Reply * list KvBlockKey :=
  match o with
  | Touch k => (Touched, Lru.touch q k)
  | Evict => let '(r, q) := Lru.evict q in (Evicted r, q)
  | Remove k => let '(r, q) := Lru.remove q k in (RemovedKey r, q)
  end.

Fixpoint lru_run (q : list KvBlockKey) (os : list Op) : list Reply * list KvBlockKey :=
  match os with
  | [] => ([], q)
  | o :: os => let '(r, q) := lru_step q o in let '(rs, q) := lru_run q os in (r :: rs, q)
  end.

Lemma lru_step_NoDup q o : NoDup q → NoDup (lru_step q o).2.
Proof.
  intros Hq. destruct o as [k| |k]; cbn.
  - apply NoDup_app. split_and!; [by apply NoDup_filter| |apply NoDup_singleton].
    intros x [Hx _]%list_elem_of_filter ->%list_elem_of_singleton. done.
  - destruct q; cbn; [constructor|]. by apply NoDup_cons in Hq as [_ ?].
  - by apply NoDup_filter.
Qed.

Lemma step_lru q o :
  NoDup q → step (TwoQ q []) o = Ret ((lru_step q o).1, TwoQ (lru_step q o).2 []).
Proof.
  intros Hq. destruct o as [k| |k]; cbn [step lru_step].
  - unfold touch, take_at, Lru.touch. cbn [lru_queue in_queue].
    change (position k []) with (@None nat).
    destruct (position k q) as [pos|] eqn:E.
    + apply position_Some in E as (-> & -> & _); [|done]. done.
    + apply position_None in E as [_ ->]. done.
  - by destruct q.
  - unfold remove, take_at. cbn [lru_queue in_queue].
    change (position k []) with (@None nat).
    destruct (position k q) as [pos|] eqn:E; cbn.
    + apply position_Some in E as (_ & -> & Hin); [|done]. by rewrite bool_decide_eq_true_2.
    + apply position_None in E as [Hn ->]. by rewrite bool_decide_eq_false_2.
Qed.

Lemma run_lru os q :
  NoDup q → run (TwoQ q []) os = Ret ((lru_run q os).1, TwoQ (lru_run q os).2 []).
Proof.
  revert q. induction os as [|o os IH]; intros q Hq; [done|].
  pose proof (lru_step_NoDup q o Hq) as Hq'. cbn [run lru_run].
  rewrite step_lru by done. monad_simpl.
  destruct (lru_step q o) as [r q']. cbn in *. rewrite (IH q' Hq').
  by destruct (lru_run q' os).
Qed.

(** C35. The eviction policy is exact LRU: for every sequence of touches,
    evictions and removals from a new policy, no call panics, every answer is
    that of a least-recently-used list of distinct keys, and the second queue
    ([lru_queue]) stays empty forever. *)
Theorem two_q_is_lru os :
  run new os = Ret ((lru_run [] os).1, TwoQ (lru_run [] os).2 []).
Proof. apply run_lru, NoDup_nil_2. Qed.

End EvictionTheorems.
