(* ===== verification/StagingPool.v ===== *)
(** * The staging pool (src/src/store/src/staging_pool.rs)

    A contiguous mapping cut into slots whose indices circulate through a
    bounded lock-free queue ([crossbeam]'s [ArrayQueue], a FIFO of capacity
    [num_slots]).  [mmap] is a parameter: it returns an address or an errno.
    [pool_step] is the protocol of clients that give back only slots they
    hold. *)

From S2P Require Import Prelude F64.

Module Staging.

Definition PAGE_SIZE_4K : Z := 4096.
Definition PAGE_SIZE_2M : Z := 2 * 1024 * 1024.

Inductive StagingPoolError :=
| MmapFailed (errno : Z)
| PoolExhausted (num_slots : Z)
| InvalidSlotIndex (slot_idx max_slots : Z).

Record StagingSlotHandle := SlotHandle {
  slot_idx : Z;
  vaddr : Z;
  size : Z;
}.

Record StagingMemoryPool := Pool {
  base_ptr : Z;
  total_bytes : Z;
  slot_page_size : Z;
  num_slots : Z;
  free_slots : list Z;
  numa_node : Z;
  is_freed : bool;
  active_popped_count : Z;
}.

(** [ArrayQueue::push] of a queue of capacity [cap]: [None] when full. *)
Definition queue_push (cap : Z) (q : list Z) (x : Z) : option (list Z) :=
  if Z.of_nat (length q) <? cap then Some (q ++ [x]) else None.

(** The loop that fills the queue with every index. *)
Definition fill_queue (cap : Z) : list Z :=
  foldl (λ q idx, default q (queue_push cap q idx)) [] (seqZ 0 cap).

Definition new `{BuildProfile} (mmap : Z → result Z Z) (num slot_size numa : Z) :
  outcome (result StagingPoolError StagingMemoryPool) :=
  if num =? 0 then Ret (Err (PoolExhausted 0)) else
  if (slot_size =? 0) || negb (slot_size mod PAGE_SIZE_4K =? 0)
  then Ret (Err (InvalidSlotIndex 0 0)) else
  total ← arith 64 (num * slot_size);
  match mmap total with
  | Err errno => Ret (Err (MmapFailed errno))
  | Ok raw_ptr =>
      if raw_ptr =? 0 then Ret (Err (MmapFailed 0)) else
      Ret (Ok {| base_ptr := raw_ptr; total_bytes := total; slot_page_size := slot_size;
                 num_slots := num; free_slots := fill_queue num; numa_node := numa;
                 is_freed := false; active_popped_count := 0 |})
  end.

Definition with_queue (p : StagingMemoryPool) (q : list Z) (active : Z) : StagingMemoryPool :=
  {| base_ptr := base_ptr p; total_bytes := total_bytes p;
     slot_page_size := slot_page_size p; num_slots := num_slots p; free_slots := q;
     numa_node := numa_node p; is_freed := is_freed p; active_popped_count := active |}.

Definition pop_slot `{BuildProfile} (self : StagingMemoryPool) :
  outcome (result StagingPoolError StagingSlotHandle * StagingMemoryPool) :=
  match free_slots self with
  | idx :: q =>
      off ← arith 64 (idx * slot_page_size self);
      va ← arith 64 (base_ptr self + off);
      Ret (Ok (SlotHandle idx va (slot_page_size self)),
           with_queue self q (wrap 64 (active_popped_count self + 1)))
  | [] => Ret (Err (PoolExhausted (num_slots self)), self)
  end.

Definition push_slot (self : StagingMemoryPool) (idx : Z) :
  result StagingPoolError unit * StagingMemoryPool :=
  if num_slots self <=? idx then (Err (InvalidSlotIndex idx (num_slots self)), self)
  else match queue_push (num_slots self) (free_slots self) idx with
       | Some q => (Ok (), with_queue self q (wrap 64 (active_popped_count self - 1)))
       | None => (Ok (), self)
       end.

Fixpoint pop_slots_batch `{BuildProfile} (self : StagingMemoryPool) (count : nat) :
  outcome (list StagingSlotHandle * StagingMemoryPool) :=
  match count with
  | O => Ret ([], self)
  | S count =>
      '(r, self) ← pop_slot self;
      match r with
      | Ok slot =>
          '(slots, self) ← pop_slots_batch self count;
          Ret (slot :: slots, self)
      | Err _ => Ret ([], self)
      end
  end.

Definition base_address (self : StagingMemoryPool) : Z := base_ptr self.
Definition total_size (self : StagingMemoryPool) : Z := total_bytes self.
Definition available_slots (self : StagingMemoryPool) : Z :=
  Z.of_nat (length (free_slots self)).
Definition active_slots (self : StagingMemoryPool) : Z := active_popped_count self.
Definition has_capacity (self : StagingMemoryPool) (count : Z) : bool :=
  count <=? available_slots self.
Definition utilization (self : StagingMemoryPool) : f64 :=
  if num_slots self =? 0 then S754_zero false
  else f64_div (f64_of_Z (active_slots self)) (f64_of_Z (num_slots self)).

(** [Drop]: unmaps once. *)
Definition drop (self : StagingMemoryPool) : option (Z * Z) * StagingMemoryPool :=
  (if is_freed self then None else Some (base_ptr self, total_bytes self),
   {| base_ptr := base_ptr self; total_bytes := total_bytes self;
      slot_page_size := slot_page_size self; num_slots := num_slots self;
      free_slots := free_slots self; numa_node := numa_node self; is_freed := true;
      active_popped_count := active_popped_count self |}).

End Staging.

Module StagingTheorems.
Import Staging.

(** ** The client protocol *)

Section Protocol.
Context `{BuildProfile}.

(** A pool together with the handles its clients hold. *)
Definition world : Type := StagingMemoryPool * list StagingSlotHandle.

Inductive pool_step : world → world → Prop :=
| StepPop p held h p' :
    pop_slot p = Ret (Ok h, p') → pool_step (p, held) (p', h :: held)
| StepExhausted p held e p' :
    pop_slot p = Ret (Err e, p') → pool_step (p, held) (p', held)
| StepPush p held1 h held2 r p' :
    push_slot p (slot_idx h) = (r, p') →
    pool_step (p, held1 ++ h :: held2) (p', held1 ++ held2).

(** Free and held indices are the indices of the pool, each once; a held
    handle is the slot's own address range. *)
Record pool_inv (w : world) : Prop := {
  pi_num : 0 < num_slots w.1;
  pi_size : 0 < slot_page_size w.1;
  pi_base : 0 < base_ptr w.1;
  pi_top : base_ptr w.1 + num_slots w.1 * slot_page_size w.1 ≤ 2 ^ 64;
  pi_perm : free_slots w.1 ++ (slot_idx <$> w.2) ≡ₚ seqZ 0 (num_slots w.1);
  pi_handles : Forall (λ h, vaddr h = base_ptr w.1 + slot_idx h * slot_page_size w.1 ∧
                            size h = slot_page_size w.1) w.2;
  pi_active : active_popped_count w.1 = Z.of_nat (length w.2);
}.

Lemma pi_range w i : pool_inv w → i ∈ free_slots w.1 ++ (slot_idx <$> w.2) → 0 ≤ i < num_slots w.1.
Proof.
  intros [] Hi. rewrite pi_perm0 in Hi. apply elem_of_seqZ in Hi. lia.
Qed.

Lemma pi_length w :
  pool_inv w → Z.of_nat (length (free_slots w.1)) + Z.of_nat (length w.2) = num_slots w.1.
Proof.
  intros []. apply Permutation_length in pi_perm0.
  rewrite length_app, length_fmap, length_seqZ in pi_perm0. lia.
Qed.

(** The address of a slot of the pool fits. *)
Lemma slot_addr_fits n sz base i :
  0 ≤ i < n → 0 < sz → 0 < base → base + n * sz ≤ 2 ^ 64 →
  0 ≤ i * sz ∧ base + i * sz + sz ≤ base + n * sz.
Proof. intros. nia. Qed.

Lemma pop_slot_spec w :
  pool_inv w →
  match free_slots w.1 with
  | [] => pop_slot w.1 = Ret (Err (PoolExhausted (num_slots w.1)), w.1)
  | idx :: q =>
      pop_slot w.1 = Ret (Ok (SlotHandle idx (base_ptr w.1 + idx * slot_page_size w.1)
                                         (slot_page_size w.1)),
                          with_queue w.1 q (active_popped_count w.1 + 1))
  end.
Proof.
  intros Hi. unfold pop_slot. destruct (free_slots w.1) as [|idx q] eqn:Ef; [done|].
  pose proof (pi_length w Hi) as Hl. rewrite Ef in Hl. cbn in Hl.
  assert (0 ≤ idx < num_slots w.1) as Hr.
  { apply (pi_range w idx Hi). rewrite Ef. left. }
  destruct Hi. destruct (slot_addr_fits (num_slots w.1) (slot_page_size w.1) (base_ptr w.1) idx); [done..|].
  rewrite arith_ret by lia. monad_simpl. rewrite arith_ret by lia. monad_simpl.
  assert (num_slots w.1 < 2 ^ 64) by nia. rewrite wrap_small; [done|]. lia.
Qed.

Lemma pool_inv_step w w' : pool_inv w → pool_step w w' → pool_inv w'.
Proof.
  intros Hi Hs. pose proof (pi_length w Hi) as Hl. pose proof (pop_slot_spec w Hi) as Hp.
  destruct Hs as [p held h p' E|p held e p' E|p held1 h held2 r p' E]; cbn [fst snd] in *.
  - destruct (free_slots p) as [|idx q] eqn:Ef; rewrite Hp in E; [done|].
    injection E as <- <-. destruct Hi. split; cbn in *; try done.
    + rewrite <- pi_perm0, Ef. cbn. by rewrite <- Permutation_middle.
    + by constructor.
    + lia.
  - destruct (free_slots p) as [|idx q] eqn:Ef; rewrite Hp in E; [|done]. by injection E as _ <-.
  - assert (0 ≤ slot_idx h < num_slots p) as Hr.
    { apply (pi_range _ (slot_idx h) Hi). cbn. apply elem_of_app. right.
      rewrite fmap_app. set_solver. }
    unfold push_slot, queue_push in E. rewrite length_app in Hl. cbn in Hl.
    replace (num_slots p <=? slot_idx h) with false in E by lia.
    replace (Z.of_nat (length (free_slots p)) <? num_slots p) with true in E by lia.
    injection E as <- <-. destruct Hi. cbn in *.
    assert (num_slots p < 2 ^ 64) by nia. split; cbn in *; try done.
    + rewrite <- pi_perm0, !fmap_app. cbn. rewrite <- app_assoc. cbn.
      by rewrite Permutation_middle.
    + rewrite !Forall_app, Forall_cons in *. tauto.
    + rewrite pi_active0, wrap_small, !length_app by (rewrite ?length_app; cbn; lia). cbn. lia.
Qed.

Lemma fill_queue_all n : 0 ≤ n → fill_queue n = seqZ 0 n.
Proof.
  intros Hn. unfold fill_queue.
  assert (Hk : ∀ k : nat, Z.of_nat k ≤ n →
    foldl (λ q idx, default q (queue_push n q idx)) [] (seqZ 0 (Z.of_nat k))
    = seqZ 0 (Z.of_nat k)).
  { induction k as [|k IH]; intros Hk; [done|].
    rewrite seqZ_S, foldl_snoc, IH by lia. unfold queue_push.
    rewrite length_seqZ, Nat2Z.id. by rewrite (proj2 (Z.ltb_lt (Z.of_nat k) n)) by lia. }
  specialize (Hk (Z.to_nat n)). rewrite Z2Nat.id in Hk by lia. apply Hk. lia.
Qed.

Lemma new_inv mmap num sz numa p :
  (∀ t a, mmap t = Ok a → 0 ≤ a ∧ a + t ≤ 2 ^ 64) →
  0 ≤ num → 0 ≤ sz → num * sz < 2 ^ 64 →
  new mmap num sz numa = Ret (Ok p) →
  pool_inv (p, []) ∧ num_slots p = num ∧ total_bytes p = num * sz ∧ slot_page_size p = sz.
Proof.
  intros Hm Hn Hs Hf. unfold new. destruct (Z.eqb_spec num 0); [done|].
  destruct (Z.eqb_spec sz 0); [done|]. cbn [orb]. case_if; [done|].
  rewrite arith_ret by nia. monad_simpl.
  destruct (mmap (num * sz)) as [a|] eqn:Ea; [|done]. apply Hm in Ea.
  destruct (Z.eqb_spec a 0); [done|]. intros [= <-].
  split_and!; [|done..]. split; cbn; try done; try lia.
  rewrite app_nil_r, fill_queue_all by lia. done.
Qed.

(** Two distinct indices of the pool have disjoint address ranges. *)
Lemma slot_ranges_disjoint base sz i j :
  0 < sz → i ≠ j → base + i * sz + sz ≤ base + j * sz ∨ base + j * sz + sz ≤ base + i * sz.
Proof. intros. destruct (Z.lt_total i j) as [|[|]]; [left|lia|right]; nia. Qed.

Lemma step_config w w' :
  pool_step w w' → slot_page_size w'.1 = slot_page_size w.1 ∧ num_slots w'.1 = num_slots w.1.
Proof.
  destruct 1 as [? ? ? ? E|? ? ? ? E|? ? ? ? ? ? E]; cbn in *.
  1, 2: unfold pop_slot in E; destruct (free_slots _); [by injection E as _ <-|];
        repeat (destruct (arith _ _); monad_simpl; [|done..]); by injection E as _ <-.
  unfold push_slot in E. destruct (_ <=? _); [by injection E as _ <-|].
  destruct (queue_push _ _ _); by injection E as _ <-.
Qed.

Lemma reachable_inv w w' :
  pool_inv w → rtc pool_step w w' →
  pool_inv w' ∧ slot_page_size w'.1 = slot_page_size w.1 ∧ num_slots w'.1 = num_slots w.1.
Proof.
  intros Hi Hr. induction Hr as [w|w1 w2 w3 Hst _ IH]; [done|].
  destruct (step_config _ _ Hst) as [<- <-]. apply IH. by eapply pool_inv_step.
Qed.

(** Distinct held handles have distinct slots. *)
Lemma held_distinct w i j hi hj :
  pool_inv w → w.2 !! i = Some hi → w.2 !! j = Some hj → i ≠ j → slot_idx hi ≠ slot_idx hj.
Proof.
  intros Hinv Hi Hj Hij E. apply Hij. pose proof (pi_perm _ Hinv) as Hperm.
  assert (NoDup (slot_idx <$> w.2)) as Hnd.
  { apply (NoDup_app (free_slots w.1) (slot_idx <$> w.2)). rewrite Hperm. apply NoDup_seqZ. }
  eapply (NoDup_lookup _ _ _ (slot_idx hi) Hnd); rewrite list_lookup_fmap.
  - by rewrite Hi.
  - by rewrite Hj, E.
Qed.

(** ** The protocol as rules for clients *)

Lemma pool_inv_perm p l1 l2 : pool_inv (p, l1) → l1 ≡ₚ l2 → pool_inv (p, l2).
Proof.
  intros [] Hp. split; cbn in *; try done.
  - by rewrite <- Hp.
  - by rewrite <- Hp.
  - by rewrite <- Hp.
Qed.

Lemma pool_pop p held :
  pool_inv (p, held) →
  ∃ r p', pop_slot p = Ret (r, p') ∧ num_slots p' = num_slots p ∧
    match r with
    | Ok h => pool_inv (p', h :: held)
    | Err e => p' = p ∧ free_slots p = [] ∧ e = PoolExhausted (num_slots p)
    end.
Proof.
  intros Hi. pose proof (pop_slot_spec _ Hi) as Hp. cbn [fst] in Hp.
  destruct (free_slots p) as [|idx q] eqn:Ef; do 2 eexists; (split; [exact Hp|]).
  - done.
  - split; [done|]. eapply pool_inv_step; [exact Hi|]. by apply StepPop.
Qed.

Lemma pool_push p h held :
  pool_inv (p, h :: held) →
  pool_inv ((push_slot p (slot_idx h)).2, held) ∧
  num_slots (push_slot p (slot_idx h)).2 = num_slots p.
Proof.
  intros Hi. destruct (push_slot p (slot_idx h)) as [r p'] eqn:E.
  assert (pool_step (p, [] ++ h :: held) (p', [] ++ held)) as Hs by by eapply StepPush.
  split; [exact (pool_inv_step _ _ Hi Hs)|]. by destruct (step_config _ _ Hs).
Qed.

(** C10. Slots are exclusive: under any interleaving of pops and of pushes of
    held slots, starting from a new pool, the handles in use denote disjoint
    ranges inside the mapping, free and active slots add up to [num_slots],
    and [pop_slot] succeeds exactly when a slot is not in use. *)
Theorem staging_slots_exclusive mmap num sz numa p0 p held :
  (∀ t a, mmap t = Ok a → 0 ≤ a ∧ a + t ≤ 2 ^ 64) →
  0 ≤ num → 0 ≤ sz → num * sz < 2 ^ 64 →
  new mmap num sz numa = Ret (Ok p0) →
  rtc pool_step (p0, []) (p, held) →
  (∀ i j hi hj, held !! i = Some hi → held !! j = Some hj → i ≠ j →
     vaddr hi + size hi ≤ vaddr hj ∨ vaddr hj + size hj ≤ vaddr hi) ∧
  Forall (λ h, base_ptr p ≤ vaddr h ∧ vaddr h + size h ≤ base_ptr p + num * sz) held ∧
  available_slots p + active_slots p = num ∧
  ((∃ h p', pop_slot p = Ret (Ok h, p')) ↔ Z.of_nat (length held) < num).
Proof.
  intros Hm Hn Hs Hf Hnew Hr.
  apply new_inv in Hnew as (Hinv0 & Hnum0 & _ & Hsz0); [|done..].
  destruct (reachable_inv _ _ Hinv0 Hr) as (Hinv & Hsz & Hnum). cbn in Hsz, Hnum.
  rewrite Hsz0 in Hsz. rewrite Hnum0 in Hnum.
  pose proof (pi_length _ Hinv) as Hl. pose proof (pop_slot_spec _ Hinv) as Hpop.
  pose proof (λ i, pi_range _ i Hinv) as Hrange. pose proof Hinv as Hinv'.
  destruct Hinv as [? ? ? ? Hperm Hh Hact]. cbn in *. rewrite <- Hnum, <- Hsz. split_and!.
  - intros i j hi hj Hi Hj Hij.
    pose proof (Forall_lookup_1 _ _ _ _ Hh Hi) as [-> ->].
    pose proof (Forall_lookup_1 _ _ _ _ Hh Hj) as [-> ->].
    apply slot_ranges_disjoint; [done|]. by eapply (held_distinct (p, held)).
  - apply Forall_forall. intros h Hin. rewrite Forall_forall in Hh. destruct (Hh h Hin) as [-> ->].
    assert (0 ≤ slot_idx h < num_slots p) by (apply Hrange; set_solver). nia.
  - unfold available_slots, active_slots. lia.
  - destruct (free_slots p) as [|idx q]; cbn in Hl; rewrite Hpop; split.
    + by intros (? & ? & ?).
    + lia.
    + lia.
    + intros _. by do 2 eexists.
Qed.

End Protocol.

(** A concrete mapping function: one fixed address. *)
Definition fixed_mmap (addr : Z) (t : Z) : result Z Z :=
  if (t <=? 2 ^ 64 - addr) then Ok addr else Err 12.

Lemma staging_slots_exclusive_witness :
  let p0 := Pool 65536 8192 4096 2 [0; 1] 0 false 0 in
  let p1 := Pool 65536 8192 4096 2 [1] 0 false 1 in
  let h := SlotHandle 0 65536 4096 in
  (∀ i j hi hj, [h] !! i = Some hi → [h] !! j = Some hj → i ≠ j →
     vaddr hi + size hi ≤ vaddr hj ∨ vaddr hj + size hj ≤ vaddr hi) ∧
  Forall (λ h, base_ptr p1 ≤ vaddr h ∧ vaddr h + size h ≤ base_ptr p1 + 2 * 4096) [h] ∧
  available_slots p1 + active_slots p1 = 2 ∧
  ((∃ h p', pop_slot (H := Dev) p1 = Ret (Ok h, p')) ↔ Z.of_nat (length [h]) < 2).
Proof.
  intros p0 p1 h.
  apply (staging_slots_exclusive (H := Dev) (fixed_mmap 65536) 2 4096 0 p0 p1 [h]).
  - intros t a. unfold fixed_mmap. destruct (t <=? 2 ^ 64 - 65536) eqn:E; [|done].
    intros [= <-]. lia.
  - lia.
  - lia.
  - lia.
  - reflexivity.
  - apply rtc_once. apply (StepPop (H := Dev)). reflexivity.
Defined.

(** Giving the same slot back twice is accepted, and the slot is then handed
    out twice: two live handles denote the same memory. *)
Theorem double_push_aliases `{BuildProfile} p h :
  free_slots p = [] → 2 ≤ num_slots p → 0 ≤ slot_idx h < num_slots p →
  0 < slot_page_size p → 0 < base_ptr p →
  base_ptr p + num_slots p * slot_page_size p ≤ 2 ^ 64 →
  ∃ p1 p2 p3 p4 h',
    push_slot p (slot_idx h) = (Ok (), p1) ∧ push_slot p1 (slot_idx h) = (Ok (), p2) ∧
    pop_slot p2 = Ret (Ok h', p3) ∧ pop_slot p3 = Ret (Ok h', p4).
Proof.
  intros Hf Hn Hi Hs Hb Ht.
  destruct (slot_addr_fits (num_slots p) (slot_page_size p) (base_ptr p) (slot_idx h)); [done..|].
  assert (Hpush : ∀ q a, Z.of_nat (length q) < num_slots p →
    push_slot (with_queue p q a) (slot_idx h)
    = (Ok (), with_queue p (q ++ [slot_idx h]) (wrap 64 (a - 1)))).
  { intros q a Hq. unfold push_slot, queue_push. cbn [with_queue num_slots free_slots].
    rewrite (proj2 (Z.leb_gt (num_slots p) (slot_idx h))) by lia.
    by rewrite (proj2 (Z.ltb_lt (Z.of_nat (length q)) (num_slots p))) by lia. }
  assert (Hpop : ∀ q a, pop_slot (with_queue p (slot_idx h :: q) a)
    = Ret (Ok (SlotHandle (slot_idx h) (base_ptr p + slot_idx h * slot_page_size p)
                          (slot_page_size p)), with_queue p q (wrap 64 (a + 1)))).
  { intros q a. unfold pop_slot. cbn [with_queue free_slots slot_page_size base_ptr].
    rewrite arith_ret by lia. monad_simpl. by rewrite arith_ret by lia. }
  assert (Hp : p = with_queue p [] (active_popped_count p)) by (destruct p; cbn in *; by subst).
  eexists (with_queue p [slot_idx h] _), (with_queue p [slot_idx h; slot_idx h] _),
    (with_queue p [slot_idx h] _), (with_queue p [] _), _.
  split_and!; [rewrite Hp at 1; apply Hpush; cbn; lia|apply Hpush; cbn; lia|apply Hpop|apply Hpop].
Qed.

End StagingTheorems.
