(* ===== verification/TierManager.v ===== *)
(** * Storage tiers (src/src/store/src/tier_manager.rs)

    Usage counters of the three tiers.  [Tier] gives each method as a
    state-passing function (one thread); [TierConcurrent] splits the methods
    at their atomic operations and interleaves any number of threads on the
    counter of one tier. *)

From S2P Require Import Prelude F64.

Module Tier.

Inductive StorageTier := Dram | Ssd | Vram.

#[export] Instance StorageTier_eq_dec : EqDecision StorageTier.
Proof. solve_decision. Defined.

Record TierCapacityConfig := TierConfig {
  tier : StorageTier;
  enabled : bool;
  max_capacity_bytes : Z;
  high_watermark_pct : spec_float;
  low_watermark_pct : spec_float;
  current_usage_bytes : Z;
}.

Definition default_dram : TierCapacityConfig :=
  TierConfig Dram true (16 * 1024 * 1024 * 1024) (f32_lit 85 100) (f32_lit 60 100) 0.
Definition default_ssd : TierCapacityConfig :=
  TierConfig Ssd true (256 * 1024 * 1024 * 1024) (f32_lit 90 100) (f32_lit 70 100) 0.
Definition default_vram : TierCapacityConfig :=
  TierConfig Vram true (8 * 1024 * 1024 * 1024) (f32_lit 90 100) (f32_lit 70 100) 0.

(** A [OnceLock] is [None] until its first use. *)
Record StorageTierManager := TierManager {
  dram_used_bytes : Z;
  ssd_used_bytes : Z;
  vram_used_bytes : Z;
  dram_config : option TierCapacityConfig;
  ssd_config : option TierCapacityConfig;
  vram_config : option TierCapacityConfig;
}.

Definition new : StorageTierManager := TierManager 0 0 0 None None None.

Definition get_counter (self : StorageTierManager) (t : StorageTier) : Z :=
  match t with
  | Dram => dram_used_bytes self
  | Ssd => ssd_used_bytes self
  | Vram => vram_used_bytes self
  end.

Definition set_counter (self : StorageTierManager) (t : StorageTier) (v : Z) :
  StorageTierManager :=
  let '(TierManager d s r cd cs cr) := self in
  match t with
  | Dram => TierManager v s r cd cs cr
  | Ssd => TierManager d v r cd cs cr
  | Vram => TierManager d s v cd cs cr
  end.

(** [OnceLock::get_or_init]. *)
Definition get_config (self : StorageTierManager) (t : StorageTier) :
  TierCapacityConfig * StorageTierManager :=
  let '(TierManager d s r cd cs cr) := self in
  match t with
  | Dram => let c := default default_dram cd in (c, TierManager d s r (Some c) cs cr)
  | Ssd => let c := default default_ssd cs in (c, TierManager d s r cd (Some c) cr)
  | Vram => let c := default default_vram cr in (c, TierManager d s r cd cs (Some c))
  end.

Definition allocate (self : StorageTierManager) (t : StorageTier) (size_bytes : Z) :
  StorageTierManager :=
  set_counter self t (wrap 64 (get_counter self t + size_bytes)).

(** With one thread the compare-exchange of the loop succeeds at once. *)
Definition deallocate (self : StorageTierManager) (t : StorageTier) (size_bytes : Z) :
  StorageTierManager :=
  set_counter self t (saturating_sub (get_counter self t) size_bytes).

Definition get_usage (self : StorageTierManager) (t : StorageTier) : Z := get_counter self t.

Definition can_allocate (self : StorageTierManager) (t : StorageTier) (size_bytes : Z) :
  bool * StorageTierManager :=
  let '(config, self) := get_config self t in
  let current := get_usage self t in
  (saturating_add 64 current size_bytes <=? max_capacity_bytes config, self).

Definition try_allocate (self : StorageTierManager) (t : StorageTier) (size_bytes : Z) :
  result (StorageTier * Z) unit * StorageTierManager :=
  let '(ok, self) := can_allocate self t size_bytes in
  if negb ok then (Err (t, size_bytes), self)
  else (Ok (), allocate self t size_bytes).

Definition utilization (self : StorageTierManager) (t : StorageTier) :
  f64 * StorageTierManager :=
  let '(config, self) := get_config self t in
  if max_capacity_bytes config =? 0 then (S754_zero false, self)
  else (f64_div (f64_of_Z (get_usage self t)) (f64_of_Z (max_capacity_bytes config)), self).

Definition allocate_batch (self : StorageTierManager) (l : list (StorageTier * Z)) :
  StorageTierManager := foldl (λ s '(t, n), allocate s t n) self l.

Definition deallocate_batch (self : StorageTierManager) (l : list (StorageTier * Z)) :
  StorageTierManager := foldl (λ s '(t, n), deallocate s t n) self l.

End Tier.

(** ** Threads on one counter *)

Module TierConcurrent.
Import Tier.

(** Where a thread is: before the first atomic operation of a method, between
    two of them, or done. *)
Inductive thread :=
| TryCheck (size : Z)                (* try_allocate, before the load of can_allocate *)
| TryAdd (size : Z)                  (* the check passed, before fetch_add *)
| DeallocLoad (size : Z)             (* deallocate, before the load *)
| DeallocCas (size current : Z)      (* before compare_exchange_weak *)
| Done.

Section Threads.
Context (max_capacity : Z).

(** One atomic operation of one thread on the counter [c]. *)
Inductive atomic_step : Z → thread → Z → thread → Prop :=
| StepCheckOk c n :
    (saturating_add 64 c n <=? max_capacity) = true → atomic_step c (TryCheck n) c (TryAdd n)
| StepCheckFail c n :
    (saturating_add 64 c n <=? max_capacity) = false → atomic_step c (TryCheck n) c Done
| StepAdd c n : atomic_step c (TryAdd n) (wrap 64 (c + n)) Done
| StepLoad c n : atomic_step c (DeallocLoad n) c (DeallocCas n c)
| StepCasOk c n : atomic_step c (DeallocCas n c) (saturating_sub c n) Done
| StepCasFail c n cur :                (* the weak exchange may fail spuriously *)
    atomic_step c (DeallocCas n cur) c (DeallocCas n c).

(** Any thread may move next. *)
Inductive sys_step : Z * list thread → Z * list thread → Prop :=
| SysStep c c' ts i t t' :
    ts !! i = Some t → atomic_step c t c' t' → sys_step (c, ts) (c', <[i := t']> ts).

End Threads.
End TierConcurrent.

Module TierTheorems.
Import Tier TierConcurrent.

(** ** One thread *)

Definition tier_max (t : StorageTier) : Z :=
  match t with
  | Dram => max_capacity_bytes default_dram
  | Ssd => max_capacity_bytes default_ssd
  | Vram => max_capacity_bytes default_vram
  end.

Record tier_inv (m : StorageTierManager) : Prop := {
  ti_usage : ∀ t, 0 ≤ get_usage m t ≤ tier_max t;
  ti_dram : dram_config m = None ∨ dram_config m = Some default_dram;
  ti_ssd : ssd_config m = None ∨ ssd_config m = Some default_ssd;
  ti_vram : vram_config m = None ∨ vram_config m = Some default_vram;
}.

Lemma get_set m t v t' :
  get_usage (set_counter m t v) t' = if bool_decide (t = t') then v else get_usage m t'.
Proof. destruct m, t, t'; done. Qed.

Lemma get_config_inv m t :
  tier_inv m →
  max_capacity_bytes (get_config m t).1 = tier_max t ∧
  (∀ t', get_usage (get_config m t).2 t' = get_usage m t') ∧ tier_inv (get_config m t).2.
Proof.
  destruct m as [d s r cd cs cr]. intros [Hu Hd Hs Hr]. cbn in Hd, Hs, Hr.
  destruct t; cbn; (split_and!; [|by intros []|split; cbn; [exact Hu|..]]); try done;
    destruct Hd as [->| ->], Hs as [->| ->], Hr as [->| ->]; auto.
Qed.

Lemma set_counter_inv m t v :
  tier_inv m → 0 ≤ v ≤ tier_max t → tier_inv (set_counter m t v).
Proof.
  intros [Hu Hd Hs Hr] Hv. split; [|by destruct m, t..].
  intros t'. rewrite get_set. destruct (bool_decide_reflect (t = t')) as [<-|]; [done|apply Hu].
Qed.

Lemma tier_max_bound t : 0 ≤ tier_max t < 2 ^ 63.
Proof. destruct t; cbn; lia. Qed.

Lemma try_allocate_spec m t n :
  tier_inv m → 0 ≤ n →
  let fits := get_usage m t + n <=? tier_max t in
  (try_allocate m t n).1 = (if fits then Ok () else Err (t, n)) ∧
  tier_inv (try_allocate m t n).2 ∧
  ∀ t', get_usage (try_allocate m t n).2 t' =
        get_usage m t' + (if bool_decide (t = t') && fits then n else 0).
Proof.
  intros Hi Hn fits. destruct (get_config_inv m t Hi) as (Hmax & Hu & Hi').
  unfold try_allocate, can_allocate. destruct (get_config m t) as [c m']. cbn in *.
  rewrite Hmax, Hu. pose proof (ti_usage _ Hi t). pose proof (tier_max_bound t).
  assert ((saturating_add 64 (get_usage m t) n <=? tier_max t) = fits) as ->.
  { subst fits. unfold saturating_add. apply eq_true_iff_eq. rewrite !Z.leb_le. lia. }
  destruct fits eqn:Ef; subst fits; cbn.
  - unfold allocate. change (get_counter m' t) with (get_usage m' t). rewrite Hu.
    rewrite wrap_small by lia. split_and!; [done|by apply set_counter_inv; [|lia]|].
    intros t'. rewrite get_set, andb_true_r.
    destruct (bool_decide_reflect (t = t')) as [<-|]; [done|]. rewrite Hu. lia.
  - split_and!; [done|done|]. intros t'. rewrite Hu, andb_false_r. lia.
Qed.

Lemma deallocate_spec m t n :
  tier_inv m → 0 ≤ n →
  tier_inv (deallocate m t n) ∧
  ∀ t', get_usage (deallocate m t n) t' =
        if bool_decide (t = t') then Z.max 0 (get_usage m t' - n) else get_usage m t'.
Proof.
  intros Hi Hn. unfold deallocate, saturating_sub. pose proof (ti_usage _ Hi t) as Hu.
  split; [apply set_counter_inv; [done|]; unfold get_usage in Hu; lia|].
  intros t'. rewrite get_set. by destruct (bool_decide_reflect (t = t')) as [<-|].
Qed.

Inductive Op := OpTry (t : StorageTier) (n : Z) | OpDealloc (t : StorageTier) (n : Z).

Definition op_size (o : Op) : Z := match o with OpTry _ n | OpDealloc _ n => n end.

Definition step (m : StorageTierManager) (o : Op) : StorageTierManager :=
  match o with
  | OpTry t n => (try_allocate m t n).2
  | OpDealloc t n => deallocate m t n
  end.

(** With one thread no tier exceeds its capacity: after any sequence of
    [try_allocate] and [deallocate] calls from a new manager every tier's usage
    is between 0 and its configured maximum, and the next [try_allocate] is
    accepted exactly when the new usage still fits, changing that tier only. *)
Theorem tier_usage_within_capacity os t n :
  Forall (λ o, 0 ≤ op_size o) os → 0 ≤ n →
  let m := foldl step new os in
  let fits := get_usage m t + n <=? tier_max t in
  (∀ t', 0 ≤ get_usage m t' ≤ tier_max t') ∧
  (try_allocate m t n).1 = (if fits then Ok () else Err (t, n)) ∧
  ∀ t', get_usage (try_allocate m t n).2 t' =
        get_usage m t' + (if bool_decide (t = t') && fits then n else 0).
Proof.
  intros Hos Hn m fits.
  assert (Hi : tier_inv m).
  { subst m. assert (tier_inv new) as H0 by (split; [by intros []|by left..]).
    clear fits. revert H0. generalize new.
    induction Hos as [|o os Ho _ IH]; intros m Hm; [done|]. cbn. apply IH.
    destruct o; cbn in *; [by apply try_allocate_spec|by apply deallocate_spec]. }
  destruct (try_allocate_spec m t n Hi Hn) as (H1 & _ & H3).
  split_and!; [apply Hi|done|done].
Qed.

Lemma tier_usage_within_capacity_witness :
  let m := foldl step new [OpTry Vram 4096; OpDealloc Ssd 10; OpTry Dram (2 ^ 40)] in
  let fits := get_usage m Dram + 512 <=? tier_max Dram in
  (∀ t', 0 ≤ get_usage m t' ≤ tier_max t') ∧
  (try_allocate m Dram 512).1 = (if fits then Ok () else Err (Dram, 512)) ∧
  ∀ t', get_usage (try_allocate m Dram 512).2 t' =
        get_usage m t' + (if bool_decide (Dram = t') && fits then 512 else 0).
Proof.
  apply (tier_usage_within_capacity [OpTry Vram 4096; OpDealloc Ssd 10; OpTry Dram (2 ^ 40)]);
    [repeat constructor; cbn; lia|lia].
Defined.

(** ** Interleaved threads *)

(** Bytes the threads have yet to give back. *)
Definition pending (t : thread) : Z :=
  match t with DeallocLoad n | DeallocCas n _ => n | _ => 0 end.

Definition is_dealloc (t : thread) : Prop :=
  match t with DeallocLoad n | DeallocCas n _ => 0 ≤ n | Done => True | _ => False end.

Definition total_pending (ts : list thread) : Z := zsum_with pending ts.

Lemma total_pending_nonneg ts : Forall is_dealloc ts → 0 ≤ total_pending ts.
Proof.
  intros H. apply zsum_with_nonneg. eapply Forall_impl; [exact H|].
  intros []; cbn; lia.
Qed.

(** Let thread [i] take the step [c]. *)
Ltac sys_move i c :=
  eapply rtc_l; [eapply (SysStep _ _ _ _ i); [reflexivity|apply c]|cbn].

(** Concurrent [deallocate] calls lose no update: however the loads and
    compare-exchanges of any number of threads interleave (spurious failures
    included), once all have finished the counter is the initial usage minus
    everything given back, clamped at zero. *)
Theorem deallocate_interleaving max c0 ns c ts :
  0 ≤ c0 → Forall (λ n, 0 ≤ n) ns →
  rtc (sys_step max) (c0, DeallocLoad <$> ns) (c, ts) →
  Forall (λ t, t = Done) ts →
  c = Z.max 0 (c0 - foldr Z.add 0 ns).
Proof.
  intros Hc0 Hns Hr Hdone.
  assert (Hinv : ∀ w w', rtc (sys_step max) w w' → 0 ≤ w.1 → Forall is_dealloc w.2 →
    0 ≤ w'.1 ∧ Forall is_dealloc w'.2 ∧
    Z.max 0 (w'.1 - total_pending w'.2) = Z.max 0 (w.1 - total_pending w.2)).
  { clear. induction 1 as [w|w1 w2 w3 Hs _ IH]; [done|]. intros H1 H2.
    destruct Hs as [c c' ts i t t' Hi Ha]. cbn in *.
    pose proof (Forall_lookup_1 _ _ _ _ H2 Hi) as Ht.
    pose proof (zsum_with_insert pending ts i t t' Hi) as Hp.
    assert (is_dealloc t' ∧ 0 ≤ c' ∧ (c' = c ∧ pending t' = pending t ∨
              c' = Z.max 0 (c - pending t) ∧ pending t' = 0)) as (Ht' & Hc' & Hcase).
    { inversion Ha; subst; cbn in *; unfold saturating_sub; try done; split_and!; try done; lia. }
    assert (Forall is_dealloc (<[i := t']> ts)) as H2' by (by apply Forall_insert).
    destruct (IH Hc' H2') as (? & ? & E). split_and!; [done|done|].
    rewrite E. pose proof (total_pending_nonneg _ H2'). unfold total_pending in *. lia. }
  destruct (Hinv _ _ Hr) as (H1 & _ & E); cbn in *; [done| |].
  { apply Forall_fmap. by eapply Forall_impl. }
  assert (total_pending ts = 0) as E0.
  { apply zsum_with_zero. eapply Forall_impl; [exact Hdone|]. by intros ? ->. }
  assert (total_pending (DeallocLoad <$> ns) = foldr Z.add 0 ns) as E1.
  { clear. unfold total_pending. induction ns; cbn; [done|]. by rewrite IHns. }
  unfold total_pending in *. lia.
Qed.

Lemma deallocate_interleaving_witness : 5 = Z.max 0 (10 - foldr Z.add 0 [3; 2]).
Proof.
  apply (deallocate_interleaving 100 10 [3; 2] 5 [Done; Done]); [lia|repeat constructor; lia| |].
  - sys_move 0%nat StepLoad. sys_move 1%nat StepLoad. sys_move 0%nat StepCasOk.
    sys_move 1%nat StepCasFail. sys_move 1%nat StepCasOk. apply rtc_refl.
  - repeat constructor.
Defined.

(** [try_allocate] checks and adds in two steps, so two threads can pass
    the check together: for every capacity the counter can reach twice the
    maximum. *)
Theorem try_allocate_race_exceeds_capacity max :
  0 < max → 2 * max < 2 ^ 64 →
  rtc (sys_step max) (0, [TryCheck max; TryCheck max]) (2 * max, [Done; Done]).
Proof.
  intros Hm Hb.
  assert (Hc : (saturating_add 64 0 max <=? max) = true) by (unfold saturating_add; lia).
  sys_move 0%nat (StepCheckOk _ _ _ Hc). sys_move 1%nat (StepCheckOk _ _ _ Hc).
  sys_move 0%nat StepAdd. sys_move 1%nat StepAdd.
  rewrite !wrap_small by (rewrite ?wrap_small; lia).
  replace (0 + max + max) with (2 * max) by lia. apply rtc_refl.
Qed.

Lemma try_allocate_race_exceeds_capacity_witness :
  rtc (sys_step (tier_max Vram)) (0, [TryCheck (tier_max Vram); TryCheck (tier_max Vram)])
      (2 * tier_max Vram, [Done; Done]).
Proof. apply try_allocate_race_exceeds_capacity; cbn; lia. Defined.

End TierTheorems.
