(* ===== verification/Diff.v ===== *)
(** * Page diffs (src/src/klnk/klnk-core/src/diff.rs)

    [compute_diff] scans two pages as 64-bit words, merges runs of modified
    words, trims the matching bytes at both ends of a run, and compares the
    tail byte by byte; [apply_patch] writes the chunks back.  Pages are lists
    of bytes; the loops run with fuel equal to the page length. *)

From S2P Require Import Prelude.

Module Diff.

Inductive DiffError :=
| SizeMismatch (dirty_len base_len : nat)
| OutOfBoundsPatch (offset len page_len : nat).

Record PageDiffChunk := DiffChunk { offset : Z; bytes : list Z }.

Record PageDiffList := DiffList {
  page_vaddr : Z;
  page_size : nat;
  chunks : list PageDiffChunk;
}.

Definition total_modified_bytes (d : PageDiffList) : nat :=
  foldr (λ c n, (length (bytes c) + n)%nat) 0%nat (chunks d).

Definition is_empty (d : PageDiffList) : bool :=
  match chunks d with [] => true | _ => false end.

Definition word_stride : nat := 8.

(** The [i]-th 64-bit word of a page (little endian). *)
Definition word (p : list Z) (i : nat) : Z :=
  from_le_bytes (take word_stride (drop (i * word_stride) p)).

Section Scan.
Context (dirty base : list Z).

(** [dirty_page[i] == baseline_page[i]]. *)
Definition byte_eq (i : nat) : outcome bool :=
  d ← unwrap (dirty !! i);
  b ← unwrap (base !! i);
  Ret (d =? b).

(** Merge contiguous modified words. *)
Fixpoint merge_loop (fuel word_count word_idx chunk_end : nat) : outcome (nat * nat) :=
  if (word_idx <? word_count)%nat && negb (word dirty word_idx =? word base word_idx) then
    match fuel with
    | O => OutOfFuel
    | S fuel => merge_loop fuel word_count (S word_idx) (chunk_end + word_stride)
    end
  else Ret (word_idx, chunk_end).

(** Trim leading matching bytes. *)
Fixpoint trim_start (fuel real_start chunk_end : nat) : outcome nat :=
  if (real_start <? chunk_end)%nat then
    eq ← byte_eq real_start;
    if eq : bool then
      match fuel with O => OutOfFuel | S fuel => trim_start fuel (S real_start) chunk_end end
    else Ret real_start
  else Ret real_start.

(** Trim trailing matching bytes. *)
Fixpoint trim_end (fuel real_end real_start : nat) : outcome nat :=
  if (real_start <? real_end)%nat then
    eq ← byte_eq (real_end - 1);
    if eq : bool then
      match fuel with O => OutOfFuel | S fuel => trim_end fuel (real_end - 1) real_start end
    else Ret real_end
  else Ret real_end.

(** The slice [dirty_page[s..e].to_vec()]. *)
Definition slice (s e : nat) : list Z := take (e - s) (drop s dirty).

(** The word loop; [fuel] also bounds the inner loops. *)
Fixpoint word_loop (fuel inner word_count word_idx : nat) (acc : list PageDiffChunk) :
  outcome (list PageDiffChunk) :=
  if (word_idx <? word_count)%nat then
    match fuel with
    | O => OutOfFuel
    | S fuel =>
        if negb (word dirty word_idx =? word base word_idx) then
          let chunk_start := (word_idx * word_stride)%nat in
          '(word_idx, chunk_end) ←
            merge_loop inner word_count (S word_idx) (chunk_start + word_stride);
          real_start ← trim_start inner chunk_start chunk_end;
          real_end ← trim_end inner chunk_end real_start;
          let acc :=
            if (real_start <? real_end)%nat
            then acc ++ [DiffChunk (wrap 32 (Z.of_nat real_start)) (slice real_start real_end)]
            else acc in
          word_loop fuel inner word_count word_idx acc
        else word_loop fuel inner word_count (S word_idx) acc
    end
  else Ret acc.

(** The tail loop [for i in processed_tail..page_size]. *)
Fixpoint tail_loop (idxs : list nat) (acc : list PageDiffChunk) : outcome (list PageDiffChunk) :=
  match idxs with
  | [] => Ret acc
  | i :: idxs =>
      eq ← byte_eq i;
      d ← unwrap (dirty !! i);
      tail_loop idxs (if eq : bool then acc
                    else acc ++ [DiffChunk (wrap 32 (Z.of_nat i)) [d]])
  end.

End Scan.

Definition compute_diff (va : Z) (dirty base : list Z) : outcome (result DiffError PageDiffList) :=
  if negb (length dirty =? length base)%nat
  then Ret (Err (SizeMismatch (length dirty) (length base)))
  else
    let page_size := length dirty in
    let word_count := (page_size / word_stride)%nat in
    cs ← word_loop dirty base page_size page_size word_count 0 [];
    let processed_tail := (word_count * word_stride)%nat in
    cs ← (if (processed_tail <? page_size)%nat
          then tail_loop dirty base (seq processed_tail (page_size - processed_tail)) cs
          else Ret cs);
    Ret (Ok (DiffList va page_size cs)).

(** [target_page[start..end].copy_from_slice(bytes)]. *)
Definition splice (t : list Z) (start : nat) (bs : list Z) : list Z :=
  take start t ++ bs ++ drop (start + length bs) t.

Fixpoint apply_chunks `{BuildProfile} (t : list Z) (cs : list PageDiffChunk) :
  outcome (result DiffError unit * list Z) :=
  match cs with
  | [] => Ret (Ok (), t)
  | c :: cs =>
      let start := Z.to_nat (offset c) in
      end_ ← arith 64 (offset c + Z.of_nat (length (bytes c)));
      if (length t <? Z.to_nat end_)%nat
      then Ret (Err (OutOfBoundsPatch start (length (bytes c)) (length t)), t)
      else apply_chunks (splice t start (bytes c)) cs
  end.

Definition apply_patch `{BuildProfile} (target : list Z) (d : PageDiffList) :
  outcome (result DiffError unit * list Z) := apply_chunks target (chunks d).

End Diff.

Module DiffFacts.
Import Diff.

Lemma from_le_bytes_inj a b :
  is_bytes a → is_bytes b → length a = length b → from_le_bytes a = from_le_bytes b → a = b.
Proof.
  intros Ha. revert b. induction Ha as [|x a Hx _ IH]; intros [|y b] Hb Hl He; try done.
  apply Forall_cons in Hb as [Hy Hb]. cbn in *. assert (x = y) by lia. subst.
  f_equal. apply IH; [done|lia|lia].
Qed.

Section Pages.
Context (dirty base : list Z).
Context (Hlen : length dirty = length base).
Context (Hd : is_bytes dirty) (Hb : is_bytes base).

Local Abbreviation n := (length dirty).

(** The page whose first [k] bytes are already those of the dirty page. *)
Definition mix (k : nat) : list Z := take k dirty ++ drop k base.

Lemma mix_lookup k i :
  (k ≤ n)%nat → mix k !! i = if decide (i < k)%nat then dirty !! i else base !! i.
Proof.
  intros Hk. unfold mix. case_decide.
  - rewrite lookup_app_l by (rewrite length_take; lia). by rewrite lookup_take_lt.
  - rewrite lookup_app_r by (rewrite length_take; lia).
    rewrite lookup_drop, length_take. f_equal. lia.
Qed.

Lemma mix_length k : (k ≤ n)%nat → length (mix k) = n.
Proof. intros. unfold mix. rewrite length_app, length_take, length_drop. lia. Qed.

Lemma mix_ext k k' :
  (k ≤ k' ≤ n)%nat → (∀ i, (k ≤ i < k')%nat → dirty !! i = base !! i) → mix k = mix k'.
Proof.
  intros Hk Heq. apply list_eq. intros i. rewrite !mix_lookup by lia.
  repeat case_decide; try done; try lia. symmetry. apply Heq. lia.
Qed.

Lemma mix_splice s e : (s ≤ e ≤ n)%nat → splice (mix s) s (slice dirty s e) = mix e.
Proof.
  intros Hse. unfold splice, slice. rewrite length_take, length_drop.
  replace (s + (e - s) `min` (n - s))%nat with e by lia.
  unfold mix. rewrite take_app_le, take_take by (rewrite length_take; lia).
  rewrite drop_app_ge, drop_drop, length_take by (rewrite length_take; lia).
  replace (s `min` s)%nat with s by lia.
  replace (s + (e - s `min` n))%nat with e by lia.
  rewrite app_assoc, take_take_drop. by replace (s + (e - s))%nat with e by lia.
Qed.

Lemma byte_eq_spec i :
  (i < n)%nat → ∃ b, byte_eq dirty base i = Ret b ∧ (b = true ↔ dirty !! i = base !! i).
Proof.
  intros Hi. unfold byte_eq.
  destruct (lookup_lt_is_Some_2 dirty i ltac:(lia)) as [x ->].
  destruct (lookup_lt_is_Some_2 base i ltac:(lia)) as [y ->]. monad_simpl.
  exists (x =? y). split; [done|]. rewrite Z.eqb_eq. split; [by intros ->|by intros [= ->]].
Qed.

Lemma trim_start_spec fuel rs ce :
  (rs ≤ ce ≤ n)%nat → (ce - rs ≤ fuel)%nat →
  ∃ r, trim_start dirty base fuel rs ce = Ret r ∧ (rs ≤ r ≤ ce)%nat ∧
       (∀ i, (rs ≤ i < r)%nat → dirty !! i = base !! i) ∧
       ((r < ce)%nat → dirty !! r ≠ base !! r).
Proof.
  revert rs. induction fuel as [|fuel IH]; intros rs Hr Hf; cbn [trim_start];
    (destruct (Nat.ltb_spec rs ce); [|exists rs; split_and!; (done || lia)]); [lia|].
  destruct (byte_eq_spec rs) as (b & -> & Hbe); [lia|]. monad_simpl. destruct b.
  - destruct (IH (S rs)) as (r & -> & H1 & H2 & H3); [lia..|].
    exists r. split_and!; [done|lia|lia| |done].
    intros i Hi. destruct (decide (i = rs)) as [->|]; [by apply Hbe|]. apply H2. lia.
  - exists rs. split_and!; [done|lia|lia|lia|]. intros _ E. by apply Hbe in E.
Qed.

Lemma trim_end_spec fuel re rs :
  (rs ≤ re ≤ n)%nat → (re - rs ≤ fuel)%nat →
  ∃ r, trim_end dirty base fuel re rs = Ret r ∧ (rs ≤ r ≤ re)%nat ∧
       (∀ i, (r ≤ i < re)%nat → dirty !! i = base !! i) ∧
       ((rs < r)%nat → dirty !! (r - 1)%nat ≠ base !! (r - 1)%nat).
Proof.
  revert re. induction fuel as [|fuel IH]; intros re Hr Hf; cbn [trim_end];
    (destruct (Nat.ltb_spec rs re); [|exists re; split_and!; (done || lia)]); [lia|].
  destruct (byte_eq_spec (re - 1)) as (b & -> & Hbe); [lia|]. monad_simpl. destruct b.
  - destruct (IH (re - 1)%nat) as (r & -> & H1 & H2 & H3); [lia..|].
    exists r. split_and!; [done|lia|lia| |done].
    intros i Hi. destruct (decide (i = re - 1)%nat) as [->|]; [by apply Hbe|]. apply H2. lia.
  - exists re. split_and!; [done|lia|lia|lia|]. intros _ E. by apply Hbe in E.
Qed.

Lemma merge_loop_spec fuel wc wi :
  (wi ≤ wc)%nat → (wc - wi ≤ fuel)%nat →
  ∃ wi', merge_loop dirty base fuel wc wi (wi * word_stride) = Ret (wi', wi' * word_stride)%nat ∧
         (wi ≤ wi' ≤ wc)%nat.
Proof.
  revert wi. induction fuel as [|fuel IH]; intros wi Hw Hf; cbn [merge_loop];
    case_if; try (exists wi; split; [done|lia]); reflect_bools.
  - match goal with H : (_ <? _)%nat = true |- _ => apply Nat.ltb_lt in H end. lia.
  - match goal with H : (_ <? _)%nat = true |- _ => apply Nat.ltb_lt in H end.
    replace (wi * word_stride + word_stride)%nat with (S wi * word_stride)%nat
      by (unfold word_stride; lia).
    destruct (IH (S wi)) as (wi' & -> & ?); [lia..|]. exists wi'. split; [done|lia].
Qed.

(** Equal words have equal bytes. *)
Lemma word_eq_bytes i j :
  word dirty i = word base i → (S i * word_stride ≤ n)%nat →
  (i * word_stride ≤ j < S i * word_stride)%nat → dirty !! j = base !! j.
Proof.
  intros Hw Hi Hj. unfold word in Hw. unfold word_stride in *.
  apply from_le_bytes_inj in Hw;
    [|by apply Forall_take, Forall_drop|by apply Forall_take, Forall_drop
     |rewrite !length_take, !length_drop; lia].
  apply (f_equal (λ l, l !! (j - i * 8)%nat)) in Hw.
  rewrite !lookup_take_lt, !lookup_drop in Hw by lia.
  by replace (i * 8 + (j - i * 8))%nat with j in Hw by lia.
Qed.

Context (Hn : Z.of_nat n ≤ 2 ^ 32).
Context `{BuildProfile}.

(** A chunk that is a slice of the dirty page whose first and last bytes were
    modified. *)
Definition tight (c : PageDiffChunk) : Prop :=
  ∃ s e, offset c = Z.of_nat s ∧ bytes c = slice dirty s e ∧ (s < e ≤ n)%nat ∧
         dirty !! s ≠ base !! s ∧ dirty !! (e - 1)%nat ≠ base !! (e - 1)%nat.

(** The chunks found so far patch the first [k] bytes. *)
Definition good (acc : list PageDiffChunk) (k : nat) : Prop :=
  (k ≤ n)%nat ∧ apply_chunks base acc = Ret (Ok (), mix k) ∧ Forall tight acc.

Lemma apply_chunks_app t a b t' :
  apply_chunks t a = Ret (Ok (), t') → apply_chunks t (a ++ b) = apply_chunks t' b.
Proof.
  revert t. induction a as [|c a IH]; intros t; cbn [apply_chunks app]; [by intros [= ->]|].
  destruct (arith _ _) as [z| |]; monad_simpl; [|done..].
  destruct (_ <? _)%nat; [done|]. apply IH.
Qed.

Lemma good_skip acc k k' :
  good acc k → (k ≤ k' ≤ n)%nat → (∀ i, (k ≤ i < k')%nat → dirty !! i = base !! i) → good acc k'.
Proof.
  intros (Hk & Ha & Ht) Hk' Heq. split_and!; [lia| |done]. by rewrite <- (mix_ext k k').
Qed.

Lemma good_push acc s e :
  good acc s → (s < e ≤ n)%nat →
  dirty !! s ≠ base !! s → dirty !! (e - 1)%nat ≠ base !! (e - 1)%nat →
  good (acc ++ [DiffChunk (wrap 32 (Z.of_nat s)) (slice dirty s e)]) e.
Proof.
  intros (Hk & Ha & Ht) Hse H1 H2. rewrite wrap_small by lia.
  split_and!; [lia| |apply Forall_app; split; [done|]].
  - rewrite (apply_chunks_app _ _ _ _ Ha). cbn [apply_chunks offset bytes].
    assert (length (slice dirty s e) = e - s)%nat as Hl.
    { unfold slice. rewrite length_take, length_drop. lia. }
    rewrite Hl, arith_ret by lia. monad_simpl.
    rewrite mix_length, (proj2 (Nat.ltb_ge _ _)) by lia.
    by rewrite Nat2Z.id, mix_splice by lia.
  - constructor; [|constructor]. by exists s, e.
Qed.

Lemma word_loop_spec fuel wc wi acc :
  (wc * word_stride ≤ n)%nat → (wi ≤ wc)%nat → (wc - wi ≤ fuel)%nat →
  good acc (wi * word_stride) →
  ∃ acc', word_loop dirty base fuel n wc wi acc = Ret acc' ∧ good acc' (wc * word_stride).
Proof.
  intros Hwc. revert wi acc.
  induction fuel as [|fuel IH]; intros wi acc Hwi Hf Hg; cbn [word_loop];
    (destruct (Nat.ltb_spec wi wc) as [Hlt|Hge];
     [|exists acc; split; [done|]; by replace wc with wi by lia]); [lia|].
  destruct (Z.eqb_spec (word dirty wi) (word base wi)) as [Hw|Hw]; cbn [negb].
  - apply IH; [lia|lia|]. apply (good_skip _ (wi * word_stride)); [done| |].
    + unfold word_stride in *. lia.
    + intros i Hi. apply (word_eq_bytes wi); [done| |done]. unfold word_stride in *. lia.
  - destruct (merge_loop_spec n wc (S wi)) as (wi' & Hm & Hwi'); [lia| |].
    { unfold word_stride in *. lia. }
    replace (wi * word_stride + word_stride)%nat with (S wi * word_stride)%nat
      by (unfold word_stride; lia).
    rewrite Hm. monad_simpl.
    assert (wi * word_stride ≤ wi' * word_stride ≤ n)%nat as Hb1 by (unfold word_stride in *; lia).
    destruct (trim_start_spec n (wi * word_stride) (wi' * word_stride))
      as (rs & -> & Hrs & Hs1 & Hs2); [lia..|]. monad_simpl.
    destruct (trim_end_spec n (wi' * word_stride) rs) as (re & -> & Hre & He1 & He2); [lia..|].
    monad_simpl. apply IH; [lia|lia|].
    apply (good_skip _ _ rs) in Hg; [|lia|done].
    destruct (Nat.ltb_spec rs re).
    + apply (good_skip _ re); [|lia|done]. apply good_push; [done|lia|apply Hs2; lia|by apply He2].
    + apply (good_skip _ rs); [done|lia|]. intros i Hi. apply He1. lia.
Qed.

Lemma tail_loop_spec k i acc :
  (i + k = n)%nat → good acc i →
  ∃ acc', tail_loop dirty base (seq i k) acc = Ret acc' ∧ good acc' n.
Proof.
  revert i acc. induction k as [|k IH]; intros i acc Hi Hg; cbn [seq tail_loop].
  { exists acc. split; [done|]. by replace n with i by lia. }
  destruct (byte_eq_spec i) as (b & -> & Hbe); [lia|]. monad_simpl.
  destruct (lookup_lt_is_Some_2 dirty i ltac:(lia)) as [x Hx]. rewrite Hx. monad_simpl.
  apply IH; [lia|]. destruct b.
  - apply (good_skip _ i); [done|lia|]. intros j Hj. replace j with i by lia. by apply Hbe.
  - replace [x] with (slice dirty i (S i)).
    + assert (dirty !! i ≠ base !! i) by (intros E; by apply Hbe in E).
      apply good_push; [done|lia|done|]. by replace (S i - 1)%nat with i by lia.
    + unfold slice. replace (S i - i)%nat with 1%nat by lia. by rewrite (drop_S _ x i).
Qed.

Lemma compute_diff_good va :
  ∃ cs, compute_diff va dirty base = Ret (Ok (DiffList va n cs)) ∧ good cs n.
Proof.
  unfold compute_diff. rewrite (proj2 (Nat.eqb_eq _ _)) by done. cbn [negb].
  assert (n / word_stride * word_stride ≤ n)%nat as Hwc.
  { rewrite Nat.mul_comm. by apply Nat.Div0.mul_div_le. }
  destruct (word_loop_spec n (n / word_stride) 0 []) as (cs & -> & Hg); [done|lia| | |].
  { unfold word_stride in *. lia. }
  { split_and!; [lia|done|constructor]. }
  monad_simpl. destruct (Nat.ltb_spec (n / word_stride * word_stride) n).
  - destruct (tail_loop_spec (n - n / word_stride * word_stride)
                (n / word_stride * word_stride) cs) as (cs' & -> & Hg'); [lia|done|].
    by exists cs'.
  - exists cs. split; [done|]. by replace n with (n / word_stride * word_stride)%nat by lia.
Qed.

End Pages.
End DiffFacts.

Module DiffTheorems.
Import Diff DiffFacts.

(** C11. Diffs round-trip: for two pages of the same length (up to 4 GiB, the
    range of a chunk offset) [compute_diff] succeeds, applying the patch to the
    baseline gives exactly the dirty page, every chunk is a non-empty slice of
    the dirty page that starts and ends at a modified byte, and the diff is
    empty exactly when the pages are equal. *)
Theorem diff_roundtrip `{BuildProfile} va dirty base :
  length dirty = length base → Z.of_nat (length dirty) ≤ 2 ^ 32 →
  is_bytes dirty → is_bytes base →
  ∃ d, compute_diff va dirty base = Ret (Ok d) ∧ page_size d = length dirty ∧
       apply_patch base d = Ret (Ok (), dirty) ∧
       Forall (tight dirty base) (chunks d) ∧
       (is_empty d = true ↔ dirty = base).
Proof.
  intros Hlen Hn Hd Hb.
  destruct (compute_diff_good dirty base Hlen Hd Hb Hn va) as (cs & E & _ & Ha & Ht).
  assert (mix dirty base (length dirty) = dirty) as Hmix.
  { unfold mix. rewrite firstn_all, drop_ge by lia. apply app_nil_r. }
  rewrite Hmix in Ha. eexists. split_and!; [done|done|done|done|].
  unfold is_empty. cbn [chunks]. destruct cs as [|c cs]; split; try done.
  - intros _. cbn in Ha. congruence.
  - intros ->. apply Forall_cons in Ht as [(s & e & _ & _ & _ & Hne & _) _]. done.
Qed.

Lemma diff_roundtrip_witness :
  let dirty := [1; 2; 3; 4; 5; 6; 7; 8; 9; 10] in
  let base := [1; 2; 0; 4; 0; 6; 7; 8; 9; 11] in
  ∃ d, compute_diff 4096 dirty base = Ret (Ok d) ∧ page_size d = length dirty ∧
       apply_patch (H := Dev) base d = Ret (Ok (), dirty) ∧
       Forall (tight dirty base) (chunks d) ∧
       (is_empty d = true ↔ dirty = base).
Proof.
  intros dirty base. apply (diff_roundtrip (H := Dev));
    [reflexivity|cbn; lia|repeat constructor|repeat constructor]; lia.
Defined.

(** A chunk as it can arrive over the wire: a [u32] offset and a byte vector. *)
Definition chunk_ok (c : PageDiffChunk) : Prop :=
  0 ≤ offset c < 2 ^ 32 ∧ Z.of_nat (length (bytes c)) < 2 ^ 63.

Definition in_bounds (len : nat) (c : PageDiffChunk) : Prop :=
  offset c + Z.of_nat (length (bytes c)) ≤ Z.of_nat len.

(** Patches are memory safe: whatever chunks a patch carries,
    [apply_patch] does not panic and keeps the page length, it reports success
    exactly when every chunk is inside the page, and otherwise the error names
    a chunk that is not. *)
Theorem apply_patch_safe `{BuildProfile} target d :
  Forall chunk_ok (chunks d) →
  ∃ r t', apply_patch target d = Ret (r, t') ∧ length t' = length target ∧
    (r = Ok () ↔ Forall (in_bounds (length target)) (chunks d)) ∧
    (∀ o l p, r = Err (OutOfBoundsPatch o l p) → p = length target ∧ (p < o + l)%nat).
Proof.
  unfold apply_patch. generalize (chunks d). clear d. intros cs Hcs. revert target.
  induction Hcs as [|c cs [Ho Hl] _ IH]; intros t; cbn [apply_chunks].
  { exists (Ok ()), t. split_and!; [done|done| |done]. split; [constructor|done]. }
  rewrite arith_ret by lia. monad_simpl.
  destruct (Nat.ltb_spec (length t) (Z.to_nat (offset c + Z.of_nat (length (bytes c))))).
  - do 2 eexists. split_and!; [done|done| |].
    + split; [done|]. intros [Hc _]%Forall_cons. unfold in_bounds in Hc. lia.
    + intros o l p [= <- <- <-]. split; [done|]. lia.
  - assert (length (splice t (Z.to_nat (offset c)) (bytes c)) = length t) as Hlt.
    { unfold splice. rewrite !length_app, length_take, length_drop. lia. }
    destruct (IH (splice t (Z.to_nat (offset c)) (bytes c))) as (r & t' & -> & Ht' & Hok & Herr).
    rewrite Hlt in *. exists r, t'. split_and!; [done|lia| |].
    + rewrite Forall_cons, Hok. unfold in_bounds. intuition lia.
    + intros o l p Hr. rewrite <- Hlt. rewrite Hlt. by apply Herr.
Qed.

Lemma apply_patch_safe_witness :
  let d := DiffList 0 4 [DiffChunk 1 [7]; DiffChunk 3 [8; 9]] in
  ∃ r t', apply_patch (H := Dev) [1; 2; 3; 4] d = Ret (r, t') ∧ length t' = 4%nat ∧
    (r = Ok () ↔ Forall (in_bounds 4) (chunks d)) ∧
    (∀ o l p, r = Err (OutOfBoundsPatch o l p) → p = 4%nat ∧ (p < o + l)%nat).
Proof.
  intros d. apply (apply_patch_safe (H := Dev) [1; 2; 3; 4] d).
  repeat constructor; cbn; lia.
Defined.

End DiffTheorems.
