(* ===== verification/Domain.v ===== *)
(** * Domain types of the DSM core (src/src/klnk/klnk-core/src/domain.rs)

    Node and region identifiers, protection flags, coherence states, region
    descriptors with their address arithmetic, page entries and remote
    endpoints. *)

From S2P Require Import Prelude.

Abbreviation NodeId := Z (only parsing).

Record GlobalRegionId := RegionId { owner_pid : Z; shmid : Z }.

#[export] Instance GlobalRegionId_eq_dec : EqDecision GlobalRegionId.
Proof. solve_decision. Defined.

#[export] Instance GlobalRegionId_countable : Countable GlobalRegionId.
Proof.
  refine (inj_countable' (λ r, (owner_pid r, shmid r)) (λ '(p, s), RegionId p s) _).
  by intros [].
Defined.

(** Linux [PROT_*] values. *)
Definition PROT_NONE : Z := 0.
Definition PROT_READ : Z := 1.
Definition PROT_WRITE : Z := 2.
Definition PROT_EXEC : Z := 4.

Definition can_read (flags : Z) : bool := negb (Z.land flags PROT_READ =? 0).
Definition can_write (flags : Z) : bool := negb (Z.land flags PROT_WRITE =? 0).
Definition flags_bitor (a b : Z) : Z := Z.lor a b.

Inductive PageCoherenceState := Invalid | SharedRead | ExclusiveWrite | InFlight.

#[export] Instance PageCoherenceState_eq_dec : EqDecision PageCoherenceState.
Proof. solve_decision. Defined.

Record MemoryRegionDescriptor := {
  region_id : GlobalRegionId;
  main_vaddr : Z;
  region_size : Z;
  staging_vaddr : Z;
  staging_num_pages : Z;
  staging_page_size : Z;
  prot_flags : Z;
  mem_flags : Z;
  region_version : Z;
}.

#[export] Instance MemoryRegionDescriptor_eq_dec : EqDecision MemoryRegionDescriptor.
Proof. solve_decision. Defined.

Definition contains_range `{BuildProfile} (d : MemoryRegionDescriptor) (vaddr len : Z) :
  outcome bool :=
  and_then (main_vaddr d <=? vaddr)
    (a ← arith 64 (vaddr + len);
     b ← arith 64 (main_vaddr d + region_size d);
     Ret (a <=? b)).

Definition offset_of `{BuildProfile} (d : MemoryRegionDescriptor) (vaddr : Z) :
  outcome (option Z) :=
  inside ← and_then (main_vaddr d <=? vaddr)
             (b ← arith 64 (main_vaddr d + region_size d); Ret (vaddr <? b));
  if inside : bool then
    o ← arith 64 (vaddr - main_vaddr d); Ret (Some o)
  else Ret None.

Record DistributedPageEntry := PageEntry {
  page_vaddr : Z;
  page_size : Z;
  coherence_state : PageCoherenceState;
  primary_owner : NodeId;
  replica_holders : list NodeId;
  version : Z;
  metadata : list Z;
}.

Definition new_entry (vaddr size : Z) (owner : NodeId) : DistributedPageEntry :=
  PageEntry vaddr size Invalid owner [] 0 [].

Definition new_with_metadata (vaddr size : Z) (owner : NodeId) (md : list Z) :
  DistributedPageEntry := PageEntry vaddr size Invalid owner [] 0 md.

Record RemoteEndpointInfo := {
  node_id : NodeId;
  socket_addr : SocketAddr;
  metadata_vaddr : Z;
  metadata_rkey : Z;
  metadata_len : Z;
  metadata_version : Z;
  invalidation_vaddr : Z;
  invalidation_rkey : Z;
  invalidation_len : Z;
  numa_node : Z;
  supports_gdr : bool;
}.

Definition new_endpoint (id : NodeId) (addr : SocketAddr) : RemoteEndpointInfo := {|
  node_id := id; socket_addr := addr; metadata_vaddr := 0; metadata_rkey := 0;
  metadata_len := 0; metadata_version := 0; invalidation_vaddr := 0;
  invalidation_rkey := 0; invalidation_len := 0; numa_node := 0; supports_gdr := false |}.

Definition set_metadata_region (e : RemoteEndpointInfo) (vaddr rkey len ver : Z) :
  RemoteEndpointInfo := {|
  node_id := node_id e; socket_addr := socket_addr e; metadata_vaddr := vaddr;
  metadata_rkey := rkey; metadata_len := len; metadata_version := ver;
  invalidation_vaddr := invalidation_vaddr e; invalidation_rkey := invalidation_rkey e;
  invalidation_len := invalidation_len e; numa_node := numa_node e;
  supports_gdr := supports_gdr e |}.

Definition set_invalidation_region (e : RemoteEndpointInfo) (vaddr rkey len : Z) :
  RemoteEndpointInfo := {|
  node_id := node_id e; socket_addr := socket_addr e; metadata_vaddr := metadata_vaddr e;
  metadata_rkey := metadata_rkey e; metadata_len := metadata_len e;
  metadata_version := metadata_version e; invalidation_vaddr := vaddr;
  invalidation_rkey := rkey; invalidation_len := len; numa_node := numa_node e;
  supports_gdr := supports_gdr e |}.

Module DomainTheorems.

(** A region whose addresses are 64-bit. *)
Definition region_fits (d : MemoryRegionDescriptor) : Prop :=
  0 ≤ main_vaddr d ∧ 0 ≤ region_size d ∧ main_vaddr d + region_size d < 2 ^ 64.

(** Region arithmetic: for a region inside the address space and a range
    that does not wrap around, [contains_range] decides inclusion and
    [offset_of] returns the offset of exactly the addresses of the region,
    without a panic. *)
Theorem region_arithmetic `{BuildProfile} d vaddr len :
  region_fits d → 0 ≤ vaddr → 0 ≤ len → vaddr + len < 2 ^ 64 →
  contains_range d vaddr len =
    Ret (bool_decide (main_vaddr d ≤ vaddr ∧ vaddr + len ≤ main_vaddr d + region_size d)) ∧
  offset_of d vaddr =
    Ret (if bool_decide (main_vaddr d ≤ vaddr < main_vaddr d + region_size d)
         then Some (vaddr - main_vaddr d) else None).
Proof.
  intros (H1 & H2 & H3) Hv Hl Hvl. unfold contains_range, offset_of, and_then.
  rewrite !(arith_ret 64 (vaddr + len)), !(arith_ret 64 (main_vaddr d + region_size d)) by lia.
  destruct (Z.leb_spec (main_vaddr d) vaddr); monad_simpl.
  - rewrite arith_ret by lia. split.
    + f_equal. apply eq_true_iff_eq. rewrite bool_decide_eq_true, Z.leb_le. lia.
    + destruct (Z.ltb_spec vaddr (main_vaddr d + region_size d)); monad_simpl;
        [rewrite bool_decide_eq_true_2|rewrite bool_decide_eq_false_2]; done || lia.
  - rewrite !bool_decide_eq_false_2 by lia. done.
Qed.

Definition example_region : MemoryRegionDescriptor := {|
  region_id := RegionId 7 (-1); main_vaddr := 0x10000; region_size := 0x4000;
  staging_vaddr := 0; staging_num_pages := 4; staging_page_size := 4096;
  prot_flags := 3; mem_flags := 0; region_version := 0 |}.

Lemma region_arithmetic_witness :
  contains_range (H := Dev) example_region 0x11000 0x1000 =
    Ret (bool_decide (0x10000 ≤ 0x11000 ∧ 0x11000 + 0x1000 ≤ 0x10000 + 0x4000)) ∧
  offset_of (H := Dev) example_region 0x11000 =
    Ret (if bool_decide (0x10000 ≤ 0x11000 < 0x10000 + 0x4000)
         then Some (0x11000 - 0x10000) else None).
Proof.
  apply (region_arithmetic (H := Dev) example_region 0x11000 0x1000);
    [unfold region_fits; cbn; lia|lia|lia|lia].
Defined.

(** In [release] the end of a range wraps around, and a range that reaches the
    end of the address space is taken to lie inside the region. *)
Theorem contains_range_wraps d vaddr :
  region_fits d → main_vaddr d ≤ vaddr < 2 ^ 64 → 0 < vaddr →
  contains_range (H := Release) d vaddr (2 ^ 64 - vaddr) = Ret true.
Proof.
  intros (H1 & H2 & H3) Hv Hp. unfold contains_range, and_then.
  rewrite (proj2 (Z.leb_le _ _)) by lia.
  rewrite (arith_ret 64 (main_vaddr d + region_size d)) by lia.
  replace (vaddr + (2 ^ 64 - vaddr)) with (2 ^ 64) by lia.
  change (arith 64 (2 ^ 64)) with (Ret 0). monad_simpl.
  by rewrite (proj2 (Z.leb_le _ _)) by lia.
Qed.

End DomainTheorems.
