(* ===== verification/ControlPlane.v ===== *)
(** * The control plane (src/src/klnk/klnk-core/src/control_plane.rs)

    Regions, page coherence entries, remote nodes and locks of one node.  The
    [DashMap]s are finite maps; an entry is behind an [Arc] that [make_mut]
    copies when shared, so entries have value semantics.  Every method is one
    state-passing function. *)

From S2P Require Import Prelude Domain.

Module Control.

Inductive ControlPlaneError :=
| RegionAlreadyExists (r : GlobalRegionId)
| RegionNotFound (r : GlobalRegionId)
| AddressNotMapped (r : GlobalRegionId) (vaddr : Z)
| LockConflict (resource_id client_pid : Z)
| LockNotHeld (resource_id client_pid : Z).

#[export] Instance ControlPlaneError_eq_dec : EqDecision ControlPlaneError.
Proof. solve_decision. Defined.

Record LockState := Lock {
  resource_id : Z;
  current_owner_pid : option Z;
  waiting_pids : list Z;
}.

Record ControlPlaneManager := ControlPlane {
  local_node_id : NodeId;
  regions : gmap GlobalRegionId MemoryRegionDescriptor;
  page_states : gmap Z DistributedPageEntry;
  remote_nodes : gmap Z RemoteEndpointInfo;
  locks : gmap Z LockState;
}.

Definition new (local : NodeId) : ControlPlaneManager := ControlPlane local ∅ ∅ ∅ ∅.

Definition with_regions (s : ControlPlaneManager) r p : ControlPlaneManager :=
  ControlPlane (local_node_id s) r p (remote_nodes s) (locks s).
Definition with_pages (s : ControlPlaneManager) p : ControlPlaneManager :=
  with_regions s (regions s) p.
Definition with_locks (s : ControlPlaneManager) l : ControlPlaneManager :=
  ControlPlane (local_node_id s) (regions s) (page_states s) (remote_nodes s) l.

(** The page size of a region, and the fuel of its page loops: one iteration
    per 4096 bytes is enough. *)
Definition unit_size (d : MemoryRegionDescriptor) : Z := Z.max (staging_page_size d) 4096.
Definition page_fuel (d : MemoryRegionDescriptor) : nat := Z.to_nat (region_size d / 4096 + 1).

Section Regions.
Context `{BuildProfile}.

Definition register_region_with_metadata (self : ControlPlaneManager)
    (d : MemoryRegionDescriptor) (md : list Z) :
  outcome (result ControlPlaneError unit * ControlPlaneManager) :=
  if bool_decide (is_Some (regions self !! region_id d))
  then Ret (Err (RegionAlreadyExists (region_id d)), self)
  else
    let size := unit_size d in
    end_addr ← arith 64 (main_vaddr d + region_size d);
    pages ← stride_loop (page_fuel d)
              (λ curr, <[curr := new_with_metadata curr size (local_node_id self) md]>)
              (main_vaddr d) end_addr size (page_states self);
    Ret (Ok (), with_regions self (<[region_id d := d]> (regions self)) pages).

Definition register_region (self : ControlPlaneManager) (d : MemoryRegionDescriptor) :
  outcome (result ControlPlaneError unit * ControlPlaneManager) :=
  register_region_with_metadata self d [].

Definition deregister_region (self : ControlPlaneManager) (id : GlobalRegionId) :
  outcome (result ControlPlaneError unit * ControlPlaneManager) :=
  match regions self !! id with
  | Some d =>
      let size := unit_size d in
      end_addr ← arith 64 (main_vaddr d + region_size d);
      pages ← stride_loop (page_fuel d) (λ curr, delete curr) (main_vaddr d) end_addr size
                (page_states self);
      Ret (Ok (), with_regions self (delete id (regions self)) pages)
  | None => Ret (Err (RegionNotFound id), self)
  end.

Definition get_region (self : ControlPlaneManager) (id : GlobalRegionId) :
  result ControlPlaneError MemoryRegionDescriptor :=
  ok_or (regions self !! id) (RegionNotFound id).

(** *** Page entries *)

Definition update_page_state (self : ControlPlaneManager) (vaddr : Z)
    (new_state : PageCoherenceState) (owner : NodeId) : outcome (bool * ControlPlaneManager) :=
  match page_states self !! vaddr with
  | Some e =>
      e' ← (if bool_decide (new_state = ExclusiveWrite) then
              v ← arith 64 (version e + 1);
              Ret (PageEntry (page_vaddr e) (page_size e) new_state owner [] v (metadata e))
            else Ret (PageEntry (page_vaddr e) (page_size e) new_state owner
                        (replica_holders e) (version e) (metadata e)));
      Ret (true, with_pages self (<[vaddr := e']> (page_states self)))
  | None => Ret (false, self)
  end.

Fixpoint update_page_states_batch (self : ControlPlaneManager)
    (updates : list (Z * PageCoherenceState * NodeId)) :
  outcome (list bool * ControlPlaneManager) :=
  match updates with
  | [] => Ret ([], self)
  | (addr, st, owner) :: updates =>
      '(b, self) ← update_page_state self addr st owner;
      '(bs, self) ← update_page_states_batch self updates;
      Ret (b :: bs, self)
  end.

End Regions.

(** [get_mut] and a change of the replica list or the metadata. *)
Definition alter_entry (self : ControlPlaneManager) (vaddr : Z)
    (f : DistributedPageEntry → DistributedPageEntry) : bool * ControlPlaneManager :=
  match page_states self !! vaddr with
  | Some e => (true, with_pages self (<[vaddr := f e]> (page_states self)))
  | None => (false, self)
  end.

Definition set_replicas (rs : list NodeId) (e : DistributedPageEntry) : DistributedPageEntry :=
  PageEntry (page_vaddr e) (page_size e) (coherence_state e) (primary_owner e) rs
            (version e) (metadata e).

Definition add_reader (self : ControlPlaneManager) (vaddr : Z) (reader : NodeId) :
  bool * ControlPlaneManager :=
  alter_entry self vaddr (λ e,
    if bool_decide (reader ∈ replica_holders e) then e
    else set_replicas (replica_holders e ++ [reader]) e).

Definition remove_reader (self : ControlPlaneManager) (vaddr : Z) (reader : NodeId) :
  bool * ControlPlaneManager :=
  alter_entry self vaddr (λ e, set_replicas (filter (λ n, n ≠ reader) (replica_holders e)) e).

Definition batch (f : ControlPlaneManager → Z → NodeId → bool * ControlPlaneManager) :=
  fix go (self : ControlPlaneManager) (l : list (Z * NodeId)) : list bool * ControlPlaneManager :=
    match l with
    | [] => ([], self)
    | (addr, node) :: l =>
        let '(b, self) := f self addr node in
        let '(bs, self) := go self l in (b :: bs, self)
    end.

Definition add_readers_batch := batch add_reader.
Definition remove_readers_batch := batch remove_reader.

Definition get_readers (self : ControlPlaneManager) (vaddr : Z) : option (list NodeId) :=
  replica_holders <$> page_states self !! vaddr.
Definition lookup_page_state (self : ControlPlaneManager) (vaddr : Z) :
  option DistributedPageEntry := page_states self !! vaddr.
Definition get_page_version (self : ControlPlaneManager) (vaddr : Z) : option Z :=
  version <$> page_states self !! vaddr.

(** The iteration order of a [DashMap] is unspecified; this is one of them. *)
Definition get_all_page_states (self : ControlPlaneManager) : list DistributedPageEntry :=
  (map_to_list (page_states self)).*2.

Definition set_page_metadata (self : ControlPlaneManager) (vaddr : Z) (md : list Z) :
  bool * ControlPlaneManager :=
  alter_entry self vaddr (λ e,
    PageEntry (page_vaddr e) (page_size e) (coherence_state e) (primary_owner e)
              (replica_holders e) (version e) md).

Definition get_page_metadata (self : ControlPlaneManager) (vaddr : Z) : option (list Z) :=
  metadata <$> page_states self !! vaddr.

(** *** Remote nodes *)

Definition register_remote_node (self : ControlPlaneManager) (info : RemoteEndpointInfo) :
  ControlPlaneManager :=
  ControlPlane (local_node_id self) (regions self) (page_states self)
    (<[node_id info := info]> (remote_nodes self)) (locks self).

Definition remove_remote_node (self : ControlPlaneManager) (id : NodeId) : ControlPlaneManager :=
  ControlPlane (local_node_id self) (regions self) (page_states self)
    (delete id (remote_nodes self)) (locks self).

Definition get_remote_node (self : ControlPlaneManager) (id : NodeId) :
  option RemoteEndpointInfo := remote_nodes self !! id.
Definition get_all_remote_nodes (self : ControlPlaneManager) : list RemoteEndpointInfo :=
  (map_to_list (remote_nodes self)).*2.

(** *** Locks *)

Definition acquire_lock (self : ControlPlaneManager) (rid pid : Z) :
  result ControlPlaneError unit * ControlPlaneManager :=
  let st := default (Lock rid None []) (locks self !! rid) in
  match current_owner_pid st with
  | None =>
      (Ok (), with_locks self (<[rid := Lock (resource_id st) (Some pid) (waiting_pids st)]> (locks self)))
  | Some owner =>
      if owner =? pid then (Ok (), with_locks self (<[rid := st]> (locks self)))
      else
        let w := if bool_decide (pid ∈ waiting_pids st) then waiting_pids st
                 else waiting_pids st ++ [pid] in
        (Err (LockConflict rid pid),
         with_locks self (<[rid := Lock (resource_id st) (Some owner) w]> (locks self)))
  end.

Definition release_lock (self : ControlPlaneManager) (rid pid : Z) :
  result ControlPlaneError unit * ControlPlaneManager :=
  match locks self !! rid with
  | Some st =>
      if bool_decide (current_owner_pid st = Some pid) then
        let st' := match waiting_pids st with
                   | next :: rest => Lock (resource_id st) (Some next) rest
                   | [] => Lock (resource_id st) None []
                   end in
        (Ok (), with_locks self (<[rid := st']> (locks self)))
      else (Err (LockNotHeld rid pid), self)
  | None => (Err (LockNotHeld rid pid), self)
  end.

End Control.

Module ControlFacts.
Import Control.

(** A region whose page loops stay inside the address space. *)
Definition region_ok (d : MemoryRegionDescriptor) : Prop :=
  0 ≤ main_vaddr d ∧ 0 ≤ region_size d ∧ main_vaddr d + region_size d + unit_size d ≤ 2 ^ 64.

(** The base addresses of the pages of a region. *)
Definition pages_of (d : MemoryRegionDescriptor) : list Z :=
  range_addrs (range_count (main_vaddr d) (main_vaddr d + region_size d) (unit_size d))
              (main_vaddr d) (unit_size d).

Lemma page_fuel_enough d :
  region_ok d →
  (range_count (main_vaddr d) (main_vaddr d + region_size d) (unit_size d) ≤ page_fuel d)%nat.
Proof.
  intros (H1 & H2 & _). unfold range_count, page_fuel.
  assert (4096 ≤ unit_size d) by (unfold unit_size; lia).
  replace (main_vaddr d + region_size d - main_vaddr d + unit_size d - 1)
    with (region_size d - 1 + 1 * unit_size d) by lia.
  rewrite Z.div_add by lia.
  assert ((region_size d - 1) / unit_size d ≤ region_size d / 4096); [|lia].
  etrans; [apply (Z.div_le_mono _ (region_size d)); lia|].
  apply Z.div_le_compat_l; lia.
Qed.

Section Regions.
Context `{BuildProfile}.

Lemma register_spec self d md :
  region_ok d → regions self !! region_id d = None →
  let e a := new_with_metadata a (unit_size d) (local_node_id self) md in
  ∃ pages, register_region_with_metadata self d md
           = Ret (Ok (), with_regions self (<[region_id d := d]> (regions self)) pages) ∧
           ∀ a, pages !! a = if bool_decide (a ∈ pages_of d) then Some (e a)
                             else page_states self !! a.
Proof.
  intros Hok Hnone e. pose proof (page_fuel_enough d Hok) as Hf. destruct Hok as (H1 & H2 & H3).
  assert (4096 ≤ unit_size d) by (unfold unit_size; lia).
  unfold register_region_with_metadata. rewrite Hnone.
  rewrite bool_decide_eq_false_2 by (by intros []).
  rewrite arith_ret by lia. monad_simpl. rewrite stride_loop_spec by (done || lia).
  monad_simpl. eexists. split; [done|]. intros a. apply foldl_insert_lookup.
Qed.

Lemma deregister_spec self id d :
  region_ok d → regions self !! id = Some d →
  ∃ pages, deregister_region self id
           = Ret (Ok (), with_regions self (delete id (regions self)) pages) ∧
           ∀ a, pages !! a = if bool_decide (a ∈ pages_of d) then None
                             else page_states self !! a.
Proof.
  intros Hok Hsome. pose proof (page_fuel_enough d Hok) as Hf. destruct Hok as (H1 & H2 & H3).
  assert (4096 ≤ unit_size d) by (unfold unit_size; lia).
  unfold deregister_region. rewrite Hsome.
  rewrite arith_ret by lia. monad_simpl. rewrite stride_loop_spec by (done || lia).
  monad_simpl. eexists. split; [done|]. intros a. apply foldl_delete_lookup.
Qed.

End Regions.
End ControlFacts.

(** ** The lock interface

    What the lock table promises to its clients: per resource a queue of
    distinct process ids whose head owns the lock. *)

Module LockSpec.

Definition acquire (q : list Z) (pid : Z) : bool * list Z :=
  match q with
  | [] => (true, [pid])
  | owner :: _ =>
      if owner =? pid then (true, q)
      else (false, if bool_decide (pid ∈ q) then q else q ++ [pid])
  end.

Definition release (q : list Z) (pid : Z) : bool * list Z :=
  match q with
  | owner :: rest => if owner =? pid then (true, rest) else (false, q)
  | [] => (false, q)
  end.

End LockSpec.

Class LockService (S : Type) := {
  lock_wf : S → Prop;
  lock_queue : S → Z → list Z;
  lock_acquire : S → Z → Z → bool * S;
  lock_release : S → Z → Z → bool * S;
}.

Class LockServiceLaws (S : Type) `{LockService S} := {
  lock_queue_NoDup : ∀ s rid, lock_wf s → NoDup (lock_queue s rid);
  lock_acquire_wf : ∀ s rid pid, lock_wf s → lock_wf (lock_acquire s rid pid).2;
  lock_release_wf : ∀ s rid pid, lock_wf s → lock_wf (lock_release s rid pid).2;
  lock_acquire_spec : ∀ s rid pid, lock_wf s →
    (lock_acquire s rid pid).1 = (LockSpec.acquire (lock_queue s rid) pid).1 ∧
    ∀ r, lock_queue (lock_acquire s rid pid).2 r =
         if r =? rid then (LockSpec.acquire (lock_queue s rid) pid).2 else lock_queue s r;
  lock_release_spec : ∀ s rid pid, lock_wf s →
    (lock_release s rid pid).1 = (LockSpec.release (lock_queue s rid) pid).1 ∧
    ∀ r, lock_queue (lock_release s rid pid).2 r =
         if r =? rid then (LockSpec.release (lock_queue s rid) pid).2 else lock_queue s r;
}.

Module LockClient.

Inductive Op := OpAcquire (rid pid : Z) | OpRelease (rid pid : Z).

Section Client.
Context {S : Type} `{LockServiceLaws S}.

Definition step (s : S) (o : Op) : S :=
  match o with
  | OpAcquire rid pid => (lock_acquire s rid pid).2
  | OpRelease rid pid => (lock_release s rid pid).2
  end.

Lemma step_wf s o : lock_wf s → lock_wf (step s o).
Proof. destruct o; cbn; [apply lock_acquire_wf|apply lock_release_wf]. Qed.

(** The owner of a resource keeps it across every operation that is not its
    own release. *)
Lemma owner_kept s o rid p :
  lock_wf s → head (lock_queue s rid) = Some p → o ≠ OpRelease rid p →
  head (lock_queue (step s o) rid) = Some p.
Proof.
  intros Hw Hh Ho. destruct o as [r pid|r pid]; cbn [step].
  - destruct (lock_acquire_spec s r pid Hw) as [_ ->].
    destruct (Z.eqb_spec rid r) as [<-|]; [|done].
    destruct (lock_queue s rid) as [|o q]; [done|]. cbn in *. injection Hh as ->.
    destruct (p =? pid); [done|]. cbn. by destruct (bool_decide _).
  - destruct (lock_release_spec s r pid Hw) as [_ ->].
    destruct (Z.eqb_spec rid r) as [<-|]; [|done].
    destruct (lock_queue s rid) as [|o q]; [done|]. cbn in *. injection Hh as ->.
    destruct (Z.eqb_spec p pid) as [<-|]; [done|]. done.
Qed.

Lemma run_owner os s rid p :
  lock_wf s → head (lock_queue s rid) = Some p → Forall (λ o, o ≠ OpRelease rid p) os →
  lock_wf (foldl step s os) ∧ head (lock_queue (foldl step s os) rid) = Some p.
Proof.
  intros Hw Hh Hos. revert s Hw Hh. induction Hos as [|o os Ho _ IH]; intros s Hw Hh; [done|].
  cbn. apply IH; [by apply step_wf|by apply owner_kept].
Qed.

(** An operation of another process on an owned resource is refused. *)
Lemma foreign_refused s rid p q :
  lock_wf s → head (lock_queue s rid) = Some p → q ≠ p →
  (lock_acquire s rid q).1 = false ∧ (lock_release s rid q).1 = false.
Proof.
  intros Hw Hh Hq. destruct (lock_acquire_spec s rid q Hw) as [-> _].
  destruct (lock_release_spec s rid q Hw) as [-> _].
  destruct (lock_queue s rid) as [|o r]; [done|]. cbn in *. injection Hh as ->.
  by rewrite (proj2 (Z.eqb_neq p q)) by congruence.
Qed.

Lemma acquired_head s rid p :
  lock_wf s → (lock_acquire s rid p).1 = true →
  head (lock_queue (lock_acquire s rid p).2 rid) = Some p.
Proof.
  intros Hw. destruct (lock_acquire_spec s rid p Hw) as [-> Hq]. rewrite Hq, Z.eqb_refl.
  destruct (lock_queue s rid) as [|o r]; [done|]. cbn.
  destruct (Z.eqb_spec o p) as [->|]; done.
Qed.

End Client.
End LockClient.

(** ** The control plane implements the interface *)

Module ControlLocks.
Import Control.

Definition queue_of (st : LockState) : list Z :=
  match current_owner_pid st with None => [] | Some o => o :: waiting_pids st end.

Definition lock_ok (st : LockState) : Prop :=
  NoDup (queue_of st) ∧ (current_owner_pid st = None → waiting_pids st = []).

Definition queue (s : ControlPlaneManager) (rid : Z) : list Z :=
  match locks s !! rid with Some st => queue_of st | None => [] end.

#[export] Instance control_locks : LockService ControlPlaneManager := {|
  lock_wf s := map_Forall (λ _ st, lock_ok st) (locks s);
  lock_queue := queue;
  lock_acquire s rid pid := let '(r, s) := acquire_lock s rid pid in (is_ok r, s);
  lock_release s rid pid := let '(r, s) := release_lock s rid pid in (is_ok r, s);
|}.

Lemma queue_set s rid st r :
  queue (with_locks s (<[rid := st]> (locks s))) r = if r =? rid then queue_of st else queue s r.
Proof.
  unfold queue. cbn [with_locks locks]. rewrite lookup_insert, Z.eqb_sym.
  destruct (decide (rid = r)) as [->|Hne]; [by rewrite Z.eqb_refl|].
  by rewrite (proj2 (Z.eqb_neq rid r)).
Qed.

Lemma default_lock_ok s rid :
  map_Forall (λ _ st, lock_ok st) (locks s) →
  let st := default (Lock rid None []) (locks s !! rid) in
  lock_ok st ∧ queue s rid = queue_of st.
Proof.
  intros Hw. unfold queue. destruct (locks s !! rid) as [st|] eqn:E; cbn.
  - split; [|done]. by apply (map_Forall_lookup_1 _ _ _ _ Hw) in E.
  - split; [|done]. split; [constructor|done].
Qed.

Lemma acquire_control s rid pid :
  map_Forall (λ _ st, lock_ok st) (locks s) →
  let q := LockSpec.acquire (queue s rid) pid in
  ∃ r st, acquire_lock s rid pid = (r, with_locks s (<[rid := st]> (locks s))) ∧
          is_ok r = q.1 ∧ queue_of st = q.2 ∧ lock_ok st.
Proof.
  intros Hw. destruct (default_lock_ok s rid Hw) as [[Hnd Hnone] ->]. unfold acquire_lock.
  destruct (default (Lock rid None []) (locks s !! rid)) as [id owner w].
  unfold queue_of in *. cbn [current_owner_pid waiting_pids resource_id] in *.
  destruct owner as [o|]; cbn [LockSpec.acquire].
  - destruct (Z.eqb_spec o pid) as [->|Hne].
    + do 2 eexists. split_and!; [done|done|done|]. by split.
    + do 2 eexists. split_and!; [done|done| |]; cbn.
      * destruct (bool_decide_reflect (pid ∈ w)), (bool_decide_reflect (pid ∈ o :: w)); set_solver.
      * split; [|done]. cbn. destruct (bool_decide_reflect (pid ∈ w)); [done|].
        apply NoDup_cons in Hnd as [Ho Hnd]. apply NoDup_cons. split; [set_solver|].
        apply NoDup_app. split_and!; [done|set_solver|apply NoDup_singleton].
  - rewrite Hnone by done. do 2 eexists. split_and!; [done|done|done|].
    split; [|done]. apply NoDup_singleton.
Qed.

Lemma release_control s rid pid :
  map_Forall (λ _ st, lock_ok st) (locks s) →
  let q := LockSpec.release (queue s rid) pid in
  ∃ r s', release_lock s rid pid = (r, s') ∧ is_ok r = q.1 ∧
          map_Forall (λ _ st, lock_ok st) (locks s') ∧
          ∀ r', queue s' r' = if r' =? rid then q.2 else queue s r'.
Proof.
  intros Hw. unfold release_lock.
  assert (Hsame : ∀ r', queue s r' = if r' =? rid then queue s rid else queue s r').
  { intros r'. by destruct (Z.eqb_spec r' rid) as [->|]. }
  assert (Hq : queue s rid = match locks s !! rid with Some st => queue_of st | None => [] end)
    by done.
  destruct (locks s !! rid) as [st|] eqn:Est; rewrite Hq in *.
  2: { exists (Err (LockNotHeld rid pid)), s. by split_and!. }
  pose proof (map_Forall_lookup_1 _ _ _ _ Hw Est) as [Hnd Hnone]. cbn in Hnd, Hnone.
  destruct st as [id owner w]. unfold queue_of in *. cbn [current_owner_pid waiting_pids resource_id] in *.
  destruct (bool_decide_reflect (owner = Some pid)) as [->|Hne].
  - cbn. rewrite Z.eqb_refl. do 2 eexists. split_and!; [done|done| |].
    + apply map_Forall_insert_2; [|done]. apply NoDup_cons in Hnd as [_ Hnd].
      destruct w as [|nx w]; [by split; [constructor|]|by split].
    + intros r'. rewrite queue_set. by destruct w.
  - assert (LockSpec.release (match owner with Some o => o :: w | None => [] end) pid
            = (false, match owner with Some o => o :: w | None => [] end)) as ->.
    { destruct owner as [o|]; [|done]. cbn. by rewrite (proj2 (Z.eqb_neq o pid)) by congruence. }
    do 2 eexists. split_and!; [done|done|done|]. done.
Qed.

#[export] Instance control_lock_laws : LockServiceLaws ControlPlaneManager.
Proof.
  split; cbn [lock_wf lock_queue lock_acquire lock_release control_locks].
  - intros s rid Hw. destruct (default_lock_ok s rid Hw) as [[Hnd _] ->]. done.
  - intros s rid pid Hw. destruct (acquire_control s rid pid Hw) as (r & st & -> & _ & _ & Hok).
    cbn. by apply map_Forall_insert_2.
  - intros s rid pid Hw. by destruct (release_control s rid pid Hw) as (r & s' & -> & _ & ? & _).
  - intros s rid pid Hw. destruct (acquire_control s rid pid Hw) as (r & st & -> & Hr & Hq & _).
    split; [done|]. intros r'. cbn [snd]. by rewrite queue_set, Hq.
  - intros s rid pid Hw. by destruct (release_control s rid pid Hw) as (r & s' & -> & ? & _ & ?).
Qed.

End ControlLocks.

Module ControlTheorems.
Import Control ControlFacts LockClient ControlLocks.

(** ** Locks *)

(** C7. Mutual exclusion: whatever lock operations ran before, once a process
    has acquired a resource, no interleaving of lock operations that does not
    contain its own release lets another process acquire or release that
    resource. *)
Theorem lock_mutual_exclusion node os1 rid p s2 os2 q :
  acquire_lock (foldl step (new node) os1) rid p = (Ok (), s2) →
  Forall (λ o, o ≠ OpRelease rid p) os2 → q ≠ p →
  let s3 := foldl step s2 os2 in
  (∃ s4, acquire_lock s3 rid q = (Err (LockConflict rid q), s4)) ∧
  release_lock s3 rid q = (Err (LockNotHeld rid q), s3).
Proof.
  intros Hacq Hos Hq s3.
  assert (Hw1 : lock_wf (foldl step (new node) os1)).
  { assert (lock_wf (new node)) as H0 by apply map_Forall_empty.
    revert H0. generalize (new node). clear. induction os1 as [|o os IH]; intros s H0; [done|].
    cbn. apply IH. by apply step_wf. }
  pose proof (acquired_head (foldl step (new node) os1) rid p Hw1) as Hh.
  pose proof (lock_acquire_wf (foldl step (new node) os1) rid p Hw1) as Hw2.
  cbn [lock_acquire control_locks] in Hh, Hw2. rewrite Hacq in Hh, Hw2. cbn [fst snd is_ok] in Hh, Hw2.
  destruct (run_owner os2 s2 rid p Hw2 (Hh eq_refl) Hos) as [Hw3 Hh3]. fold s3 in Hw3, Hh3.
  destruct (foreign_refused s3 rid p q Hw3 Hh3 Hq) as [Ha Hr].
  cbn [lock_acquire lock_release control_locks] in Ha, Hr. clear -Ha Hr. split.
  - unfold acquire_lock in *. destruct (current_owner_pid _); [|done].
    destruct (_ =? _); [done|]. by eexists.
  - unfold release_lock in *. destruct (locks s3 !! rid) as [st|]; [|done].
    by destruct (bool_decide _).
Qed.

Lemma lock_mutual_exclusion_witness :
  let s2 := (acquire_lock (new 1) 7 100).2 in
  let s3 := foldl step s2 [OpAcquire 7 200; OpRelease 7 200; OpAcquire 8 200] in
  (∃ s4, acquire_lock s3 7 300 = (Err (LockConflict 7 300), s4)) ∧
  release_lock s3 7 300 = (Err (LockNotHeld 7 300), s3).
Proof.
  apply (lock_mutual_exclusion 1 [] 7 100 _ [OpAcquire 7 200; OpRelease 7 200; OpAcquire 8 200] 300);
    [reflexivity|repeat constructor; done|done].
Defined.

(** Waiters are served first come, first served: after any history, if the
    waiting line of a resource is [qs] (owner first), then as the successive
    owners release it, ownership passes down [qs] in order. *)
Theorem lock_fifo_handoff node os rid i :
  let s := foldl step (new node) os in
  let qs := queue s rid in
  queue (foldl step s (OpRelease rid <$> take i qs)) rid = drop i qs.
Proof.
  intros s qs.
  assert (Hw : lock_wf s).
  { subst s. assert (lock_wf (new node)) as H0 by apply map_Forall_empty.
    clear qs. revert H0. generalize (new node).
    induction os as [|o os IH]; intros s H0; [done|]. cbn. apply IH. by apply step_wf. }
  assert (Hqs : queue s rid = qs) by done. clearbody s qs. revert s qs Hw Hqs.
  induction i as [|i IH]; intros s qs Hw Hqs; [done|].
  destruct qs as [|p qs]; [done|]. cbn [take fmap list_fmap foldl drop].
  apply IH; [by apply step_wf|].
  destruct (lock_release_spec s rid p Hw) as [_ Hq].
  change (lock_queue (step s (OpRelease rid p)) rid = qs).
  cbn [step]. rewrite Hq, Z.eqb_refl. change (lock_queue s rid) with (queue s rid).
  rewrite Hqs. cbn. by rewrite Z.eqb_refl.
Qed.

(** ** Regions and pages *)

(** Registration and deregistration are inverse: registering a region whose
    pages are not yet mapped succeeds without overflow, creates exactly one
    fresh [Invalid] entry (version 0, the given metadata) at the base of each
    coherence unit and changes no other page, and deregistering it restores the
    control plane exactly. *)
Theorem register_deregister_inverse `{BuildProfile} self d md :
  region_ok d → regions self !! region_id d = None →
  (∀ a, a ∈ pages_of d → page_states self !! a = None) →
  ∃ s1, register_region_with_metadata self d md = Ret (Ok (), s1) ∧
        get_region s1 (region_id d) = Ok d ∧
        (∀ a, lookup_page_state s1 a =
              if bool_decide (a ∈ pages_of d)
              then Some (new_with_metadata a (unit_size d) (local_node_id self) md)
              else lookup_page_state self a) ∧
        deregister_region s1 (region_id d) = Ret (Ok (), self).
Proof.
  intros Hok Hnone Hfree.
  destruct (register_spec self d md Hok Hnone) as (pages & Hreg & Hp).
  eexists. split_and!; [done| |done|].
  - unfold get_region. cbn. by rewrite lookup_insert_eq.
  - destruct (deregister_spec (with_regions self (<[region_id d := d]> (regions self)) pages)
                (region_id d) d Hok) as (pages' & -> & Hp'); [apply lookup_insert_eq|].
    do 2 f_equal. destruct self as [node rs ps rn ls]. unfold with_regions in *.
    cbn [regions page_states local_node_id remote_nodes locks] in *. f_equal.
    + by apply delete_insert_id.
    + apply map_eq. intros a. rewrite Hp', Hp.
      destruct (bool_decide_reflect (a ∈ pages_of d)); [|done]. by rewrite Hfree.
Qed.

Lemma register_deregister_inverse_witness :
  let d := DomainTheorems.example_region in
  ∃ s1, register_region_with_metadata (H := Release) (new 1) d [9] = Ret (Ok (), s1) ∧
        get_region s1 (region_id d) = Ok d ∧
        (∀ a, lookup_page_state s1 a =
              if bool_decide (a ∈ pages_of d)
              then Some (new_with_metadata a (unit_size d) 1 [9])
              else lookup_page_state (new 1) a) ∧
        deregister_region (H := Release) s1 (region_id d) = Ret (Ok (), new 1).
Proof.
  intros d. apply (register_deregister_inverse (H := Release) (new 1) d [9]);
    [repeat split; vm_compute; discriminate|reflexivity|reflexivity].
Defined.

(** Registering a region over pages of another one resets their entries: a
    page that had been written (any version) reads as version 0 again, so a
    reader's cached version 0 copy looks current, and deregistering the newcomer
    deletes the page although the first region is still registered. *)
Theorem overlapping_region_resets_pages `{BuildProfile} self d md a :
  region_ok d → regions self !! region_id d = None → a ∈ pages_of d →
  ∃ s1 s2, register_region_with_metadata self d md = Ret (Ok (), s1) ∧
    get_page_version s1 a = Some 0 ∧
    deregister_region s1 (region_id d) = Ret (Ok (), s2) ∧
    regions s2 = regions self ∧ lookup_page_state s2 a = None.
Proof.
  intros Hok Hnone Ha.
  destruct (register_spec self d md Hok Hnone) as (pages & Hreg & Hp).
  destruct (deregister_spec (with_regions self (<[region_id d := d]> (regions self)) pages)
              (region_id d) d Hok) as (pages' & Hder & Hp'); [apply lookup_insert_eq|].
  do 2 eexists. split_and!; [done| |done| |].
  - unfold get_page_version. cbn. by rewrite Hp, bool_decide_eq_true_2.
  - cbn. by apply delete_insert_id.
  - unfold lookup_page_state. cbn. by rewrite Hp', bool_decide_eq_true_2.
Qed.

Lemma overlapping_region_resets_pages_witness :
  let d := DomainTheorems.example_region in
  let self := with_pages (new 1) {[0x10000 := PageEntry 0x10000 4096 ExclusiveWrite 1 [] 5 []]} in
  ∃ s1 s2, register_region_with_metadata (H := Dev) self d [] = Ret (Ok (), s1) ∧
    get_page_version s1 0x10000 = Some 0 ∧
    deregister_region (H := Dev) s1 (region_id d) = Ret (Ok (), s2) ∧
    regions s2 = regions self ∧ lookup_page_state s2 0x10000 = None.
Proof.
  intros d self. apply (overlapping_region_resets_pages (H := Dev) self d [] 0x10000);
    [repeat split; vm_compute; discriminate|reflexivity|].
  vm_compute. left.
Defined.

(** ** Coherence entries *)

Inductive PageOp :=
| PUpdate (a : Z) (st : PageCoherenceState) (owner : NodeId)
| PAddReader (a : Z) (n : NodeId)
| PRemoveReader (a : Z) (n : NodeId)
| PSetMetadata (a : Z) (md : list Z).

Definition page_step `{BuildProfile} (s : ControlPlaneManager) (o : PageOp) :
  outcome ControlPlaneManager :=
  match o with
  | PUpdate a st owner => '(_, s) ← update_page_state s a st owner; Ret s
  | PAddReader a n => Ret (add_reader s a n).2
  | PRemoveReader a n => Ret (remove_reader s a n).2
  | PSetMetadata a md => Ret (set_page_metadata s a md).2
  end.

Fixpoint page_run `{BuildProfile} (s : ControlPlaneManager) (os : list PageOp) :
  outcome ControlPlaneManager :=
  match os with [] => Ret s | o :: os => s ← page_step s o; page_run s os end.

(** The exclusive writes of page [a]. *)
Definition is_write (a : Z) (o : PageOp) : bool :=
  match o with PUpdate b st _ => (b =? a) && bool_decide (st = ExclusiveWrite) | _ => false end.

Definition writes (a : Z) (os : list PageOp) : Z :=
  Z.of_nat (length (filter (λ o, is_write a o = true) os)).

(** Entries: distinct readers, a version below [bound]. *)
Definition entry_ok (bound : Z) (e : DistributedPageEntry) : Prop :=
  NoDup (replica_holders e) ∧ 0 ≤ version e ≤ bound.

(** The page an operation is about, and what it does to its entry. *)
Definition op_addr (o : PageOp) : Z :=
  match o with PUpdate a _ _ | PAddReader a _ | PRemoveReader a _ | PSetMetadata a _ => a end.

Definition op_fun (o : PageOp) (e : DistributedPageEntry) : DistributedPageEntry :=
  match o with
  | PUpdate _ st owner =>
      PageEntry (page_vaddr e) (page_size e) st owner
        (if bool_decide (st = ExclusiveWrite) then [] else replica_holders e)
        (version e + if bool_decide (st = ExclusiveWrite) then 1 else 0) (metadata e)
  | PAddReader _ n =>
      if bool_decide (n ∈ replica_holders e) then e
      else set_replicas (replica_holders e ++ [n]) e
  | PRemoveReader _ n => set_replicas (filter (λ m, m ≠ n) (replica_holders e)) e
  | PSetMetadata _ md =>
      PageEntry (page_vaddr e) (page_size e) (coherence_state e) (primary_owner e)
        (replica_holders e) (version e) md
  end.

Lemma with_pages_id s : with_pages s (page_states s) = s.
Proof. by destruct s. Qed.

Lemma alter_Some (m : gmap Z DistributedPageEntry) f a e :
  m !! a = Some e → alter f a m = <[a := f e]> m.
Proof.
  intros He. apply map_eq. intros b. rewrite lookup_alter, lookup_insert.
  case_decide; [subst; by rewrite He|done].
Qed.

Lemma alter_None (m : gmap Z DistributedPageEntry) f a : m !! a = None → alter f a m = m.
Proof.
  intros He. apply map_eq. intros b. rewrite lookup_alter. case_decide; [subst; by rewrite He|done].
Qed.

Lemma alter_entry_alter s a f :
  (alter_entry s a f).2 = with_pages s (alter f a (page_states s)).
Proof.
  unfold alter_entry. destruct (page_states s !! a) as [e|] eqn:E; cbn [snd].
  - by rewrite (alter_Some _ _ _ e).
  - by rewrite alter_None, with_pages_id.
Qed.

Lemma page_step_alter `{BuildProfile} s o bound :
  map_Forall (λ _ e, entry_ok bound e) (page_states s) → bound + 1 < 2 ^ 64 →
  page_step s o = Ret (with_pages s (alter (op_fun o) (op_addr o) (page_states s))).
Proof.
  intros Hok Hb. destruct o as [a st owner|a n|a n|a md]; cbn [page_step];
    [|f_equal; apply alter_entry_alter..].
  unfold update_page_state. cbn [op_addr].
  destruct (page_states s !! a) as [e|] eqn:E; monad_simpl.
  - pose proof (map_Forall_lookup_1 _ _ _ _ Hok E) as [_ Hv]. rewrite (alter_Some _ _ _ e) by done.
    cbn [op_fun]. rewrite arith_ret by lia. monad_simpl.
    destruct (bool_decide (st = ExclusiveWrite)); monad_simpl; [done|]. by rewrite Z.add_0_r.
  - by rewrite alter_None, with_pages_id.
Qed.

Lemma op_fun_ok o e bound :
  entry_ok bound e →
  entry_ok (bound + 1) (op_fun o e) ∧
  version (op_fun o e) = version e + (if is_write (op_addr o) o then 1 else 0) ∧
  (is_write (op_addr o) o = true → replica_holders (op_fun o e) = []).
Proof.
  intros [Hnd Hv]. destruct o as [a st owner|a n|a n|a md]; cbn; rewrite ?Z.eqb_refl; cbn.
  - destruct (bool_decide (st = ExclusiveWrite)); cbn; split_and!; try done; try lia;
      (split; cbn; [done || constructor|lia]).
  - case_if; split_and!; try done; try (cbn; lia); (split; cbn; [|lia]); [done|].
    reflect_bools. apply NoDup_app. split_and!; [done|set_solver|apply NoDup_singleton].
  - split_and!; [split; cbn; [by apply NoDup_filter|lia]|lia|done].
  - split_and!; [split; cbn; [done|lia]|lia|done].
Qed.

Lemma is_write_other a o : op_addr o ≠ a → is_write a o = false.
Proof. destruct o; cbn; [|done..]. intros. by rewrite (proj2 (Z.eqb_neq _ _)). Qed.

Lemma entries_step s o bound :
  map_Forall (λ _ e, entry_ok bound e) (page_states s) →
  map_Forall (λ _ e, entry_ok (bound + 1) e) (alter (op_fun o) (op_addr o) (page_states s)).
Proof.
  intros Hok a e'. rewrite lookup_alter. case_decide as E.
  - destruct (page_states s !! a) as [e|] eqn:Ea; subst; rewrite Ea; [|done].
    intros [= <-]. apply op_fun_ok. by apply (map_Forall_lookup_1 _ _ _ _ Hok) in Ea.
  - intros He. apply (map_Forall_lookup_1 _ _ _ _ Hok) in He as [? ?]. split; [done|lia].
Qed.

(** Versions count exclusive writes: along any sequence of page operations
    (state updates, reader changes, metadata changes, in any order and on any
    pages) the version of a mapped page grows by exactly the number of
    transitions of that page to [ExclusiveWrite], the run does not panic, and
    reader lists stay free of duplicates. *)
Theorem page_version_counts_writes `{BuildProfile} s os a e bound :
  map_Forall (λ _ e, entry_ok bound e) (page_states s) →
  bound + Z.of_nat (length os) < 2 ^ 64 →
  page_states s !! a = Some e →
  ∃ s' e', page_run s os = Ret s' ∧ lookup_page_state s' a = Some e' ∧
           version e' = version e + writes a os ∧ NoDup (replica_holders e').
Proof.
  revert s e bound. induction os as [|o os IH]; intros s e bound Hok Hb He; cbn [page_run].
  { exists s, e. split_and!; [done|done|unfold writes; cbn; lia|].
    by apply (map_Forall_lookup_1 _ _ _ _ Hok) in He as [? _]. }
  cbn [length] in Hb. rewrite (page_step_alter s o bound) by (done || lia). monad_simpl.
  pose proof (map_Forall_lookup_1 _ _ _ _ Hok He) as Hoe. cbn in Hoe.
  set (e1 := if decide (op_addr o = a) then op_fun o e else e).
  assert (version e1 = version e + if is_write a o then 1 else 0) as Hv1.
  { subst e1. case_decide as E; [subst; by apply (op_fun_ok o e bound)|].
    rewrite is_write_other by done. lia. }
  destruct (IH (with_pages s (alter (op_fun o) (op_addr o) (page_states s))) e1 (bound + 1))
    as (s' & e' & -> & Hl & Hv & Hnd).
  - by apply entries_step.
  - lia.
  - cbn. rewrite lookup_alter. subst e1. case_decide as E; [subst; by rewrite He|done].
  - exists s', e'. split_and!; [done|done| |done]. rewrite Hv, Hv1. unfold writes.
    destruct (is_write a o) eqn:Ew;
      [rewrite filter_cons_True by done|rewrite filter_cons_False by (by rewrite Ew)]; cbn; lia.
Qed.

Lemma page_version_counts_writes_witness :
  let s := with_pages (new 1) {[4096 := PageEntry 4096 4096 Invalid 1 [2; 3] 5 []]} in
  let os := [PAddReader 4096 4; PUpdate 4096 ExclusiveWrite 2; PUpdate 4096 SharedRead 2;
             PUpdate 8192 ExclusiveWrite 2; PUpdate 4096 ExclusiveWrite 3] in
  ∃ s' e', page_run (H := Dev) s os = Ret s' ∧ lookup_page_state s' 4096 = Some e' ∧
           version e' = 5 + writes 4096 os ∧ NoDup (replica_holders e').
Proof.
  intros s os.
  apply (page_version_counts_writes (H := Dev) s os 4096 (PageEntry 4096 4096 Invalid 1 [2; 3] 5 []) 5).
  - apply map_Forall_singleton. split; [|cbn; lia].
    cbn. apply NoDup_cons. split; [set_solver|apply NoDup_singleton].
  - cbn. lia.
  - reflexivity.
Defined.

End ControlTheorems.
