(* ===== verification/Raft.v ===== *)
(** * The Raft state engine (src/src/master/src/raft_state.rs)

    One node's state and its handlers.  Every handler holds the state's write
    lock for its whole body, so it is one state-passing function; the commit
    callback is modelled by the entries it is called with.  [RaftRun] is the
    sequences of events at a node.  [master/src/lib.rs] does not declare this
    module: the theorems are about the file, which the crate does not build. *)

From S2P Require Import Prelude Domain.

Module Raft.

Inductive RaftRole := Follower | Candidate | Leader.

#[export] Instance RaftRole_eq_dec : EqDecision RaftRole.
Proof. solve_decision. Defined.

Inductive RaftStateError :=
| NotLeader (n : NodeId) (leader : option NodeId)
| StaleTerm (request_term current_term : Z)
| LogIndexOutOfBounds (index last_index : Z).

Record RaftConfig := RConfig {
  embedded : bool;
  initial_peers : list NodeId;
  etcd_endpoints : list string;
}.

Definition default_config (local : NodeId) : RaftConfig :=
  RConfig true [local] ["http://127.0.0.1:2379"%string].

Inductive RaftLogEntry :=
| Command (index term : Z) (payload : list Z)
| LockAcquire (resource_id client_pid : Z)
| LockRelease (resource_id client_pid : Z).

#[export] Instance RaftLogEntry_eq_dec : EqDecision RaftLogEntry.
Proof. solve_decision. Defined.

Definition entry_term (e : RaftLogEntry) : Z :=
  match e with Command _ t _ => t | _ => 0 end.

Definition set_term (e : RaftLogEntry) (t : Z) : RaftLogEntry :=
  match e with Command i _ p => Command i t p | _ => e end.

Record RaftNodeState := RaftNode {
  node_id : NodeId;
  role : RaftRole;
  current_term : Z;
  voted_for : option NodeId;
  leader_id : option NodeId;
  log : list RaftLogEntry;
  commit_index : Z;
  last_applied : Z;
  peers : list NodeId;
  next_index : gmap Z Z;
  match_index : gmap Z Z;
}.

Record RaftEngine := Engine {
  config : RaftConfig;
  state : RaftNodeState;
  term_counter : Z;
  has_callback : bool;
}.

Definition new (id : NodeId) (cfg : RaftConfig) : RaftEngine :=
  Engine cfg (RaftNode id Follower 0 None None [] 0 0 (initial_peers cfg) ∅ ∅) 0 false.

Definition set_commit_callback (self : RaftEngine) : RaftEngine :=
  Engine (config self) (state self) (term_counter self) true.

Definition with_state (self : RaftEngine) (s : RaftNodeState) (tc : Z) : RaftEngine :=
  Engine (config self) s tc (has_callback self).

(** Field updates. *)
Definition set_vote (s : RaftNodeState) (v : option NodeId) : RaftNodeState :=
  RaftNode (node_id s) (role s) (current_term s) v (leader_id s) (log s) (commit_index s)
    (last_applied s) (peers s) (next_index s) (match_index s).
Definition set_log (s : RaftNodeState) (l : list RaftLogEntry) : RaftNodeState :=
  RaftNode (node_id s) (role s) (current_term s) (voted_for s) (leader_id s) l (commit_index s)
    (last_applied s) (peers s) (next_index s) (match_index s).
Definition set_commit (s : RaftNodeState) (c : Z) : RaftNodeState :=
  RaftNode (node_id s) (role s) (current_term s) (voted_for s) (leader_id s) (log s) c
    (last_applied s) (peers s) (next_index s) (match_index s).
Definition set_term_role (s : RaftNodeState) (t : Z) (r : RaftRole) : RaftNodeState :=
  RaftNode (node_id s) r t (voted_for s) (leader_id s) (log s) (commit_index s)
    (last_applied s) (peers s) (next_index s) (match_index s).
Definition set_leader (s : RaftNodeState) (l : option NodeId) : RaftNodeState :=
  RaftNode (node_id s) (role s) (current_term s) (voted_for s) l (log s) (commit_index s)
    (last_applied s) (peers s) (next_index s) (match_index s).

Definition log_len (s : RaftNodeState) : Z := Z.of_nat (length (log s)).

(** The three proposals differ in the entry they push. *)
Definition propose (self : RaftEngine) (mk : Z → RaftNodeState → RaftLogEntry) :
  result RaftStateError Z * RaftEngine :=
  let s := state self in
  if negb (bool_decide (role s = Leader)) then (Err (NotLeader (node_id s) (leader_id s)), self)
  else
    let new_index := log_len s + 1 in
    (Ok new_index,
     with_state self (set_log s (log s ++ [mk new_index s])) (term_counter self)).

Definition propose_command (self : RaftEngine) (payload : list Z) :=
  propose self (λ i s, Command i (current_term s) payload).
Definition propose_lock_acquire (self : RaftEngine) (rid pid : Z) :=
  propose self (λ _ _, LockAcquire rid pid).
Definition propose_lock_release (self : RaftEngine) (rid pid : Z) :=
  propose self (λ _ _, LockRelease rid pid).

Definition last_log_term (s : RaftNodeState) : Z :=
  match last (log s) with Some e => entry_term e | None => 0 end.

Definition handle_request_vote (self : RaftEngine) (candidate : NodeId)
    (term last_log_index last_term_arg : Z) : result RaftStateError bool * RaftEngine :=
  let s := state self in
  if term <? current_term s then (Err (StaleTerm term (current_term s)), self)
  else
    let '(s, tc) :=
      if current_term s <? term
      then (set_leader (set_vote (set_term_role s term Follower) None) None, term)
      else (s, term_counter self) in
    let last_index := log_len s in
    let last_term := last_log_term s in
    let up_to_date := (last_term <? last_term_arg)
                      || ((last_term_arg =? last_term) && (last_index <=? last_log_index)) in
    let can_vote := (bool_decide (voted_for s = None)
                     || bool_decide (voted_for s = Some candidate)) && up_to_date in
    if can_vote then (Ok true, with_state self (set_vote s (Some candidate)) tc)
    else (Ok false, with_state self s tc).

Definition handle_append_entries (self : RaftEngine) (leader : NodeId)
    (term prev_log_index prev_log_term : Z) (entries : list RaftLogEntry) (leader_commit : Z) :
  outcome (result RaftStateError bool * RaftEngine) :=
  let s := state self in
  if term <? current_term s then Ret (Ok false, self)
  else
    let '(s, tc) :=
      if current_term s <? term then (set_term_role s term Follower, term)
      else (s, term_counter self) in
    let s := set_vote (set_leader s (Some leader)) None in
    let finish s :=
      let s := set_log s (log s ++ ((λ e, set_term e term) <$> entries)) in
      let s := if commit_index s <? leader_commit
               then set_commit s (Z.min leader_commit (log_len s)) else s in
      (Ok true, with_state self s tc) in
    if 0 <? prev_log_index then
      if log_len s <? prev_log_index then Ret (Ok false, with_state self s tc)
      else
        prev ← unwrap (log s !! Z.to_nat (prev_log_index - 1));
        if negb (entry_term prev =? prev_log_term)
        then Ret (Ok false, with_state self
                              (set_log s (take (Z.to_nat (prev_log_index - 1)) (log s))) tc)
        else Ret (finish s)
    else Ret (finish s).

Definition promote_to_leader (self : RaftEngine) : RaftEngine :=
  let s := state self in
  let others := filter (λ n, n ≠ node_id s) (peers s) in
  with_state self
    (RaftNode (node_id s) Leader (current_term s) (voted_for s) (Some (node_id s)) (log s)
       (commit_index s) (last_applied s) (peers s)
       (foldl (λ m n, <[n := log_len s + 1]> m) (next_index s) others)
       (foldl (λ m n, <[n := 0]> m) (match_index s) others))
    (term_counter self).

Definition start_election `{BuildProfile} (self : RaftEngine) : outcome RaftEngine :=
  let s := state self in
  t ← arith 64 (current_term s + 1);
  Ret (with_state self
         (set_leader (set_vote (set_term_role s t Candidate) (Some (node_id s))) None) t).

(** Returns the entries the callback is invoked with, if it is. *)
Definition commit_to_index (self : RaftEngine) (target : Z) :
  result RaftStateError unit * list RaftLogEntry * RaftEngine :=
  let s := state self in
  if log_len s <? target then (Err (LogIndexOutOfBounds target (log_len s)), [], self)
  else if commit_index s <? target then
    let old := commit_index s in
    let delivered :=
      if has_callback self
      then take (Z.to_nat (target - old)) (drop (Z.to_nat old) (log s)) else [] in
    (Ok (), delivered, with_state self (set_commit s target) (term_counter self))
  else (Ok (), [], self).

End Raft.

(** ** Events at a node *)

Module RaftRun.
Import Raft.

Inductive Event :=
| EvCommand (payload : list Z)
| EvLockAcquire (rid pid : Z)
| EvLockRelease (rid pid : Z)
| EvVote (candidate : NodeId) (term last_index last_term : Z)
| EvAppend (leader : NodeId) (term prev_index prev_term : Z) (entries : list RaftLogEntry)
           (leader_commit : Z)
| EvPromote
| EvElection
| EvCommit (target : Z).

(** What an event makes visible: a vote given to a candidate in a term, or
    entries handed to the commit callback. *)
Inductive Out :=
| Quiet
| Voted (term : Z) (candidate : NodeId)
| Delivered (es : list RaftLogEntry).

Definition step `{BuildProfile} (e : RaftEngine) (ev : Event) : outcome (Out * RaftEngine) :=
  match ev with
  | EvCommand p => Ret (Quiet, (propose_command e p).2)
  | EvLockAcquire r p => Ret (Quiet, (propose_lock_acquire e r p).2)
  | EvLockRelease r p => Ret (Quiet, (propose_lock_release e r p).2)
  | EvVote c t i lt =>
      let '(r, e) := handle_request_vote e c t i lt in
      Ret (match r with Ok true => Voted t c | _ => Quiet end, e)
  | EvAppend l t pi pt es lc => '(_, e) ← handle_append_entries e l t pi pt es lc; Ret (Quiet, e)
  | EvPromote => Ret (Quiet, promote_to_leader e)
  | EvElection =>
      e ← start_election e;
      Ret (Voted (current_term (state e)) (node_id (state e)), e)
  | EvCommit i => let '(_, es, e) := commit_to_index e i in Ret (Delivered es, e)
  end.

Fixpoint run `{BuildProfile} (e : RaftEngine) (evs : list Event) :
  outcome (list Out * RaftEngine) :=
  match evs with
  | [] => Ret ([], e)
  | ev :: evs => '(o, e) ← step e ev; '(os, e) ← run e evs; Ret (o :: os, e)
  end.

Definition is_append (ev : Event) : bool :=
  match ev with EvAppend _ _ _ _ _ _ => true | _ => false end.

End RaftRun.

Module RaftFacts.
Import Raft RaftRun.

Section Facts.
Context `{BuildProfile}.

Definition synced (e : RaftEngine) : Prop := term_counter e = current_term (state e).

(** How each event moves the term, the vote and the log. *)
Lemma step_term e ev o e' :
  step e ev = Ret (o, e') → 0 ≤ current_term (state e) → current_term (state e) + 1 < 2 ^ 64 →
  current_term (state e) ≤ current_term (state e') ∧ (synced e → synced e').
Proof.
  intros Hs H0 Hb. unfold synced. destruct ev; cbn [step] in Hs; monad_simpl.
  1-3: injection Hs as _ <-; unfold propose_command, propose_lock_acquire,
         propose_lock_release, propose; case_if; cbn; (split; [lia|done]).
  - unfold handle_request_vote in Hs. destruct (term <? _) eqn:E1; [by injection Hs as _ <-|].
    destruct (_ <? term) eqn:E2; case_if_in Hs; injection Hs as _ <-; cbn; (split; [lia|done]).
  - unfold handle_append_entries in Hs. destruct (term <? _) eqn:E1; [by injection Hs as _ <-|].
    destruct (_ <? term) eqn:E2; cbn in Hs;
      repeat (case_if_in Hs; monad_simpl); try (injection Hs as _ <-; cbn; split; [lia|done]);
      destruct (_ !! _); monad_simpl; try done;
      repeat (case_if_in Hs; monad_simpl); injection Hs as _ <-; cbn; (split; [lia|done]).
  - injection Hs as _ <-. cbn. split; [lia|done].
  - unfold start_election in Hs. rewrite arith_ret in Hs by lia. monad_simpl.
    injection Hs as _ <-. cbn. split; [lia|done].
  - unfold commit_to_index in Hs. repeat case_if_in Hs; injection Hs as _ <-; cbn; (split; [lia|done]).
Qed.

(** The branches of [handle_append_entries]; it never panics. *)
Lemma append_cases e l t pi pt es lc :
  ∃ r e', handle_append_entries e l t pi pt es lc = Ret (r, e') ∧
  let s := state e in let s' := state e' in
  (e' = e ∨
   log s' = log s ∧ commit_index s' = commit_index s ∨
   (∃ prev, 0 < pi ∧ log s !! Z.to_nat (pi - 1) = Some prev ∧ entry_term prev ≠ pt ∧
      current_term s ≤ t ∧
      log s' = take (Z.to_nat (pi - 1)) (log s) ∧ commit_index s' = commit_index s) ∨
   (log s' = log s ++ ((λ x, set_term x t) <$> es) ∧
    commit_index s' = if commit_index s <? lc then Z.min lc (log_len s') else commit_index s)).
Proof.
  unfold handle_append_entries. destruct (Z.ltb_spec t (current_term (state e))) as [|Ht].
  { do 2 eexists. split; [done|]. by left. }
  set (p := if current_term (state e) <? t then _ else _).
  assert (Hp : log p.1 = log (state e) ∧ commit_index p.1 = commit_index (state e))
    by (subst p; by destruct (_ <? t)).
  destruct p as [s tc]. destruct Hp as [Hlog Hc]. cbn [fst] in *.
  assert (Hfin : ∀ (s1 : RaftNodeState),
    log s1 = log s → commit_index s1 = commit_index s →
    let s2 := set_log s1 (log s1 ++ ((λ x, set_term x t) <$> es)) in
    let s3 := if commit_index s2 <? lc then set_commit s2 (Z.min lc (log_len s2)) else s2 in
    log s3 = log (state e) ++ ((λ x, set_term x t) <$> es) ∧
    commit_index s3 = if commit_index (state e) <? lc then Z.min lc (log_len s3)
                      else commit_index (state e)).
  { intros s1 H1 H2 s2 s3. subst s2 s3. unfold log_len. cbn. rewrite H2, Hc.
    destruct (_ <? lc); cbn; by rewrite H1, Hlog, ?H2, ?Hc. }
  destruct (Z.ltb_spec 0 pi) as [Hpi|Hpi].
  2: { do 2 eexists. split; [done|]. right. right. right.
    exact (Hfin (set_vote (set_leader s (Some l)) None) eq_refl eq_refl). }
  destruct (Z.ltb_spec (log_len (set_vote (set_leader s (Some l)) None)) pi) as [Hlt|Hge].
  { do 2 eexists. split; [done|]. right. left. by cbn. }
  unfold log_len in Hge. cbn in Hge. cbn [log set_vote set_leader].
  destruct (lookup_lt_is_Some_2 (log s) (Z.to_nat (pi - 1))) as [prev Hprev]; [lia|].
  rewrite Hprev. monad_simpl. destruct (Z.eqb_spec (entry_term prev) pt); cbn [negb].
  - do 2 eexists. split; [done|]. right. right. right.
    exact (Hfin (set_vote (set_leader s (Some l)) None) eq_refl eq_refl).
  - do 2 eexists. split; [done|]. right. right. left. exists prev. cbn.
    rewrite <- Hlog, <- Hc. done.
Qed.

(** Events other than [AppendEntries] only extend the log. *)
Lemma step_log e ev o e' :
  step e ev = Ret (o, e') → is_append ev = false →
  log (state e) `prefix_of` log (state e') ∧
  (commit_index (state e) ≤ log_len (state e) →
   commit_index (state e) ≤ commit_index (state e') ≤ log_len (state e')).
Proof.
  intros Hs Ha. destruct ev; cbn [step is_append] in Hs, Ha; monad_simpl; try done.
  1-3: injection Hs as _ <-; unfold propose_command, propose_lock_acquire, propose_lock_release,
         propose; case_if; unfold log_len; cbn; rewrite ?length_app;
         (split; [done || by eexists|cbn; lia]).
  - unfold handle_request_vote in Hs. destruct (term <? _); [by injection Hs as _ <-|].
    destruct (_ <? term); case_if_in Hs; injection Hs as _ <-; unfold log_len; cbn; (split; [done|lia]).
  - injection Hs as _ <-. unfold log_len. cbn. split; [done|lia].
  - unfold start_election in Hs. destruct (arith _ _); monad_simpl; [|done..].
    injection Hs as _ <-. unfold log_len. cbn. split; [done|lia].
  - unfold commit_to_index in Hs. repeat case_if_in Hs; injection Hs as _ <-; unfold log_len in *;
      cbn; (split; [done|lia]).
Qed.

End Facts.
End RaftFacts.

Module RaftTheorems.
Import Raft RaftRun RaftFacts.

(** One event at a node whose term is not the last 64-bit value. *)
Inductive node_step `{BuildProfile} (e e' : RaftEngine) : Prop :=
| NodeStep ev o :
    step e ev = Ret (o, e') → current_term (state e) + 1 < 2 ^ 64 → node_step e e'.

(** Terms only grow: along every run of events (proposals, votes, appends,
    promotions, elections, commits) the current term never decreases, and the
    lock-free [term_counter] that [current_term()] reads always equals it. *)
Theorem raft_term_monotone `{BuildProfile} e e' :
  synced e → 0 ≤ current_term (state e) → rtc node_step e e' →
  current_term (state e) ≤ current_term (state e') ∧ synced e'.
Proof.
  intros Hs H0 Hr. induction Hr as [e|e1 e2 e3 [ev o Hst Hb] _ IH]; [done|].
  destruct (step_term _ _ _ _ Hst H0 Hb) as [H1 H2].
  destruct IH as [H3 H4]; [auto|lia|]. split; [lia|done].
Qed.

Lemma raft_term_monotone_witness :
  let e := new 1 (default_config 1) in
  let e' := Engine (default_config 1)
              (RaftNode 1 Candidate 4 (Some 1) None [] 0 0 [1] ∅ ∅) 4 false in
  current_term (state e) ≤ current_term (state e') ∧ synced e'.
Proof.
  intros e e'. apply (raft_term_monotone (H := Dev) e e'); [reflexivity|cbn; lia|].
  eapply rtc_l; [eapply (NodeStep (H := Dev) _ _ (EvVote 2 3 0 0)); [reflexivity|cbn; lia]|].
  eapply rtc_l; [eapply (NodeStep (H := Dev) _ _ EvElection); [reflexivity|cbn; lia]|].
  apply rtc_refl.
Defined.

(** Votes seen so far are in older terms, or are the current vote. *)
Definition votes_inv (e : RaftEngine) (os : list Out) : Prop :=
  ∀ t c, Voted t c ∈ os →
    t < current_term (state e) ∨ t = current_term (state e) ∧ voted_for (state e) = Some c.

Lemma votes_inv_step `{BuildProfile} e ev o e' os :
  0 ≤ current_term (state e) → step e ev = Ret (o, e') → is_append ev = false →
  current_term (state e) + 1 < 2 ^ 64 → votes_inv e os → votes_inv e' (o :: os) ∧
  ∀ t c c', o = Voted t c → Voted t c' ∈ os → c = c'.
Proof.
  intros H0 Hs Ha Hb Hinv.
  assert (Hkeep : o = Quiet ∨ (∃ es, o = Delivered es) →
    current_term (state e') = current_term (state e) → voted_for (state e') = voted_for (state e) →
    votes_inv e' (o :: os) ∧ ∀ t c c', o = Voted t c → Voted t c' ∈ os → c = c').
  { intros Ho H1 H2. split; [|by destruct Ho as [->|[? ->]]].
    intros t c Hin. rewrite H1, H2. apply Hinv. destruct Ho as [->|[? ->]]; set_solver. }
  destruct ev; cbn [step is_append] in Hs, Ha; monad_simpl; try done.
  1-3: injection Hs as <- <-; apply Hkeep; [by left|..]; unfold propose_command,
         propose_lock_acquire, propose_lock_release, propose; by case_if.
  - unfold handle_request_vote in Hs.
    destruct (Z.ltb_spec term (current_term (state e))); [injection Hs as <- <-; by apply Hkeep; [left|..]|].
    destruct (Z.ltb_spec (current_term (state e)) term); case_if_in Hs; injection Hs as <- <-; cbn in *.
    + split.
      * intros t c Hin. cbn. apply elem_of_cons in Hin as [[= -> ->]|Hin]; [by right|].
        left. destruct (Hinv t c Hin) as [|[-> _]]; lia.
      * intros t c c' [= -> ->] Hin. destruct (Hinv _ _ Hin) as [|[? _]]; lia.
    + split; [|done]. intros t c Hin. cbn. apply elem_of_cons in Hin as [|Hin]; [done|].
      left. destruct (Hinv t c Hin) as [|[-> _]]; lia.
    + assert (term = current_term (state e)) as Et by lia. reflect_bools.
      assert (Hsame : ∀ c', Voted term c' ∈ os → c' = candidate).
      { intros c' Hin. destruct (Hinv _ _ Hin) as [|[_ Hv]]; [lia|].
        match goal with Hc : bool_decide (voted_for _ = None) = true ∨ _ |- _ =>
          destruct Hc as [Hc|Hc] end; reflect_bools; congruence. }
      split.
      * intros t c Hin. cbn. apply elem_of_cons in Hin as [[= -> ->]|Hin]; [by right|].
        destruct (Hinv t c Hin) as [|[Et' Hv]]; [by left|]. right. split; [done|].
        f_equal. symmetry. apply Hsame. by rewrite Et, <- Et'.
      * intros t c c' [= <- <-] Hin. symmetry. by apply Hsame.
    + apply Hkeep; [by left|done|done].
  - injection Hs as <- <-. apply Hkeep; [by left|done|done].
  - unfold start_election in Hs. rewrite arith_ret in Hs by lia. monad_simpl.
    injection Hs as <- <-. split.
    + intros t c Hin. cbn in *. apply elem_of_cons in Hin as [[= -> ->]|Hin]; [by right|].
      left. destruct (Hinv t c Hin) as [|[-> _]]; lia.
    + intros t c c' [= <- <-] Hin. cbn in Hin. destruct (Hinv _ _ Hin) as [|[? _]]; lia.
  - unfold commit_to_index in Hs. repeat case_if_in Hs; injection Hs as <- <-;
      (apply Hkeep; [right; by eexists|done|done]).
Qed.

(** Runs without [AppendEntries], with what they made visible (latest first). *)
Inductive vote_run `{BuildProfile} (e0 : RaftEngine) : list Out → RaftEngine → Prop :=
| VoteRunNil : vote_run e0 [] e0
| VoteRunStep os e ev o e' :
    vote_run e0 os e → step e ev = Ret (o, e') → is_append ev = false →
    current_term (state e) + 1 < 2 ^ 64 → vote_run e0 (o :: os) e'.

(** One vote per term, between heartbeats: in any run of votes, elections,
    proposals, promotions and commits without an [AppendEntries], a node never
    gives two different candidates (itself included) its vote in one term. *)
Theorem vote_once_per_term `{BuildProfile} e0 os e t c1 c2 :
  0 ≤ current_term (state e0) → vote_run e0 os e →
  Voted t c1 ∈ os → Voted t c2 ∈ os → c1 = c2.
Proof.
  intros H0 Hr.
  assert (0 ≤ current_term (state e) ∧ votes_inv e os ∧
          ∀ t c1 c2, Voted t c1 ∈ os → Voted t c2 ∈ os → c1 = c2) as (_ & _ & ?).
  { induction Hr as [|os e ev o e' _ (IH0 & IHi & IHu) Hs Ha Hb].
    - split_and!; [done|by intros ? ? ?%not_elem_of_nil|by intros ? ? ? ?%not_elem_of_nil].
    - destruct (votes_inv_step e ev o e' os IH0 Hs Ha Hb IHi) as [Hi Hu].
      destruct (step_term _ _ _ _ Hs IH0 Hb) as [Hm _].
      split_and!; [lia|done|]. intros t' x y Hx Hy.
      apply elem_of_cons in Hx as [<-|Hx]; apply elem_of_cons in Hy as [Hy|Hy].
      + by simplify_eq.
      + by eapply Hu.
      + symmetry. by eapply Hu.
      + by eapply IHu. }
  eauto.
Qed.

Lemma vote_once_per_term_witness : 2 = 2.
Proof.
  refine (vote_once_per_term (H := Dev) (new 1 (default_config 1))
            [Quiet; Voted 3 2; Voted 3 2] _ 3 2 2 _ _ _ _); [cbn; lia| | |].
  - eapply (VoteRunStep (H := Dev) _ _ _ (EvVote 5 3 0 0));
      [eapply (VoteRunStep (H := Dev) _ _ _ (EvVote 2 3 0 0));
         [eapply (VoteRunStep (H := Dev) _ _ _ (EvVote 2 3 0 0));
            [apply VoteRunNil|reflexivity|reflexivity|reflexivity]
         |reflexivity|reflexivity|reflexivity]
      |reflexivity|reflexivity|reflexivity].
  - right. left.
  - right. right. left.
Defined.

(** A heartbeat erases the vote: after [AppendEntries] from the term's
    leader, a node that has voted in that term votes again in the same term, for
    any candidate whose log is up to date; the cluster can then elect two leaders
    in one term. *)
Theorem heartbeat_allows_second_vote e leader c pi :
  let s := state e in
  let t := current_term s in
  log_len s ≤ pi →
  ∃ e1 e2, handle_append_entries e leader t 0 0 [] 0 = Ret (Ok true, e1) ∧
    handle_request_vote e1 c t pi (last_log_term s) = (Ok true, e2) ∧
    current_term (state e2) = t ∧ voted_for (state e2) = Some c.
Proof.
  intros s t Hpi. subst s t. unfold handle_append_entries. rewrite Z.ltb_irrefl.
  cbn [fmap list_fmap Z.ltb Z.compare]. do 2 eexists. split; [done|].
  rewrite app_nil_r.
  unfold handle_request_vote. cbn [state with_state].
  set (s1 := if _ <? 0 then _ else _).
  assert (Hs1 : current_term s1 = current_term (state e) ∧ voted_for s1 = None ∧
                log s1 = log (state e) ∧ role s1 = role (state e))
    by (subst s1; by destruct (_ <? 0)).
  destruct Hs1 as (Ht & Hv & Hl & _). rewrite Ht, Z.ltb_irrefl.
  unfold last_log_term, log_len in *. rewrite Hv, Hl, Z.eqb_refl.
  rewrite (proj2 (Z.leb_le _ _)) by done. rewrite orb_true_r. cbn [andb].
  rewrite bool_decide_eq_true_2 by done. split; [reflexivity|]. split; [exact Ht|done].
Qed.

Lemma heartbeat_allows_second_vote_witness :
  let e := Engine (default_config 2) (RaftNode 2 Follower 1 (Some 1) None [] 0 0 [1; 2; 3] ∅ ∅) 1 false in
  ∃ e1 e2, handle_append_entries e 1 1 0 0 [] 0 = Ret (Ok true, e1) ∧
    handle_request_vote e1 3 1 0 0 = (Ok true, e2) ∧
    current_term (state e2) = 1 ∧ voted_for (state e2) = Some 3.
Proof.
  intros e. apply (heartbeat_allows_second_vote e 1 3 0). discriminate.
Defined.

(** An append that hits a conflict does so above the commit index, as the
    leader's log contains every committed entry. *)
Definition conflict_above_commit (e : RaftEngine) (ev : Event) : Prop :=
  match ev with
  | EvAppend _ t pi pt _ _ =>
      ∀ prev, current_term (state e) ≤ t → 0 < pi →
        log (state e) !! Z.to_nat (pi - 1) = Some prev → entry_term prev ≠ pt →
        commit_index (state e) < pi
  | _ => True
  end.

Inductive commit_step `{BuildProfile} (e e' : RaftEngine) : Prop :=
| CommitStep ev o : step e ev = Ret (o, e') → conflict_above_commit e ev → commit_step e e'.

Definition commit_ok (e : RaftEngine) : Prop :=
  0 ≤ commit_index (state e) ≤ log_len (state e).

Definition committed (e : RaftEngine) : list RaftLogEntry :=
  take (Z.to_nat (commit_index (state e))) (log (state e)).

Lemma prefix_take {A} (l l' : list A) i j :
  l `prefix_of` l' → (i ≤ j)%nat → (i ≤ length l)%nat → take i l `prefix_of` take j l'.
Proof.
  intros [k ->] Hij Hi. exists (take (j - i) (drop i (l ++ k))).
  rewrite <- (take_app_le l k i) by done. rewrite take_take_drop. f_equal. lia.
Qed.

Lemma commit_step_stable `{BuildProfile} e e' :
  commit_ok e → commit_step e e' → commit_ok e' ∧ committed e `prefix_of` committed e'.
Proof.
  intros [Hc0 Hc1] [ev o Hs Hconf]. unfold commit_ok, committed.
  destruct (is_append ev) eqn:Ha.
  - destruct ev as [| | | |l t pi pt es lc| | |]; try done. cbn [step] in Hs.
    destruct (append_cases e l t pi pt es lc) as (r & e1 & E & Hcases).
    rewrite E in Hs. monad_simpl. injection Hs as _ ->. clear E.
    destruct Hcases as [->|[[Hl Hc]|[(prev & Hpi & Hp & Ht & Hcur & Hl & Hc)|[Hl Hc]]]].
    + done.
    + unfold log_len in *. by rewrite Hl, Hc.
    + pose proof (Hconf prev Hcur Hpi Hp Ht) as Hlt. pose proof (lookup_lt_Some _ _ _ Hp).
      unfold log_len in *. rewrite Hl, Hc, length_take, take_take. split; [lia|].
      apply prefix_take; [done|lia|lia].
    + assert (log (state e) `prefix_of` log (state e')) as Hpre by (rewrite Hl; by eexists).
      assert (log_len (state e) ≤ log_len (state e')).
      { unfold log_len. apply prefix_length in Hpre. lia. }
      destruct (Z.ltb_spec (commit_index (state e)) lc); rewrite Hc;
        (split; [lia|]; apply prefix_take; [done|lia|unfold log_len in *; lia]).
  - destruct (step_log e ev o e' Hs Ha) as [Hpre Hc]. specialize (Hc Hc1).
    split; [lia|]. apply prefix_take; [done|lia|unfold log_len in *; lia].
Qed.

(** C26. Committed entries are never lost or changed: along every run whose
    [AppendEntries] conflicts lie above the commit index (Raft's leader
    completeness), the commit index stays inside the log and only grows, and
    the committed prefix is only ever extended. *)
Theorem committed_prefix_stable `{BuildProfile} e e' :
  commit_ok e → rtc commit_step e e' →
  commit_ok e' ∧ committed e `prefix_of` committed e'.
Proof.
  intros Hc Hr. induction Hr as [e|e1 e2 e3 Hst _ IH]; [done|].
  destruct (commit_step_stable _ _ Hc Hst) as [H1 H2]. destruct (IH H1) as [H3 H4].
  split; [done|]. by etrans.
Qed.

Lemma committed_prefix_stable_witness :
  let e := new 1 (default_config 1) in
  let e' := Engine (default_config 1)
              (RaftNode 1 Follower 2 None (Some 9) [Command 1 2 [5]; LockAcquire 3 4] 1 0 [1] ∅ ∅)
              2 false in
  commit_ok e' ∧ committed e `prefix_of` committed e'.
Proof.
  intros e e'. apply (committed_prefix_stable (H := Dev) e e'); [split; discriminate|].
  apply (rtc_l _ _ (Engine (default_config 1)
    (RaftNode 1 Follower 2 None (Some 9) [Command 1 2 [5]] 1 0 [1] ∅ ∅) 2 false)).
  { apply (CommitStep (H := Dev) _ _ (EvAppend 9 2 0 0 [Command 1 0 [5]] 1) Quiet); [reflexivity|].
    intros prev _ Hpi. discriminate Hpi. }
  apply rtc_once.
  apply (CommitStep (H := Dev) _ _ (EvAppend 9 2 1 2 [LockAcquire 3 4] 1) Quiet); [reflexivity|].
  intros prev _ _ [= <-] Hne. destruct Hne. reflexivity.
Defined.

Definition delivered (o : Out) : list RaftLogEntry :=
  match o with Delivered es => es | _ => [] end.

Lemma step_delivers `{BuildProfile} e ev o e' :
  step e ev = Ret (o, e') → is_append ev = false → has_callback e = true → commit_ok e →
  committed e' = committed e ++ delivered o ∧ has_callback e' = true ∧ commit_ok e'.
Proof.
  intros Hs Ha Hcb [Hc0 Hc1]. destruct (step_log e ev o e' Hs Ha) as [[k Hk] Hc].
  specialize (Hc Hc1).
  assert (Hsame : commit_index (state e') = commit_index (state e) → delivered o = [] →
            committed e' = committed e ++ delivered o).
  { intros E ->. unfold committed. rewrite E, Hk, app_nil_r. apply take_app_le.
    unfold log_len in Hc1. lia. }
  assert (has_callback e' = has_callback e) as Hcb'.
  { destruct ev; cbn [step is_append] in Hs, Ha; monad_simpl; try done.
    1-3: injection Hs as _ <-; unfold propose_command, propose_lock_acquire,
           propose_lock_release, propose; by case_if.
    - unfold handle_request_vote in Hs. repeat case_if_in Hs; by injection Hs as _ <-.
    - by injection Hs as _ <-.
    - unfold start_election in Hs. destruct (arith _ _); monad_simpl; [|done..]. by injection Hs as _ <-.
    - unfold commit_to_index in Hs. repeat case_if_in Hs; by injection Hs as _ <-. }
  split_and!; [|congruence|split; lia].
  destruct ev; cbn [step is_append] in Hs, Ha; monad_simpl; try done.
  1-3: injection Hs as <- <-; apply Hsame; [|done]; unfold propose_command,
         propose_lock_acquire, propose_lock_release, propose; by case_if.
  - unfold handle_request_vote in Hs. repeat case_if_in Hs; injection Hs as <- <-; by apply Hsame.
  - injection Hs as <- <-. by apply Hsame.
  - unfold start_election in Hs. destruct (arith _ _); monad_simpl; [|done..].
    injection Hs as <- <-. by apply Hsame.
  - unfold commit_to_index in Hs. rewrite Hcb in Hs.
    repeat case_if_in Hs; injection Hs as <- <-; try (by apply Hsame).
    unfold committed. cbn. rewrite take_take_drop. f_equal. lia.
Qed.

(** The commit callback sees every entry once, in order: over any run
    without [AppendEntries] at a node with a registered callback, the entries
    handed to the callback, concatenated, are exactly the newly committed part
    of the log. *)
Theorem commit_callback_exactly_once `{BuildProfile} evs e os e' :
  run e evs = Ret (os, e') → Forall (λ ev, is_append ev = false) evs →
  has_callback e = true → commit_ok e →
  committed e' = committed e ++ concat (delivered <$> os).
Proof.
  intros Hr Hev. revert e os Hr.
  induction Hev as [|ev evs Ha _ IH]; intros e os Hr Hcb Hc; cbn [run] in Hr.
  { injection Hr as <- <-. cbn. by rewrite app_nil_r. }
  destruct (step e ev) as [[o e1]| |] eqn:Hs; monad_simpl; [|done..].
  destruct (step_delivers e ev o e1 Hs Ha Hcb Hc) as (H1 & H2 & H3).
  destruct (run e1 evs) as [[os1 e2]| |] eqn:Hr1; monad_simpl; [|done..].
  injection Hr as <- <-. rewrite (IH e1 os1 Hr1 H2 H3), H1. cbn. by rewrite <- app_assoc.
Qed.

Lemma commit_callback_exactly_once_witness :
  let e := set_commit_callback (promote_to_leader (new 1 (default_config 1))) in
  let evs := [EvCommand [7]; EvLockAcquire 1 2; EvCommit 1; EvCommit 1; EvLockRelease 1 2; EvCommit 3] in
  ∃ os e', run (H := Dev) e evs = Ret (os, e') ∧
           committed e' = committed e ++ concat (delivered <$> os).
Proof.
  intros e evs. do 2 eexists. split; [vm_compute; reflexivity|].
  apply (commit_callback_exactly_once (H := Dev) evs e);
    [vm_compute; reflexivity|repeat constructor|reflexivity|split; discriminate].
Defined.

Lemma append_at_start e l t es :
  current_term (state e) ≤ t →
  ∃ e1, handle_append_entries e l t 0 0 es 0 = Ret (Ok true, e1) ∧
        current_term (state e1) = t ∧
        log (state e1) = log (state e) ++ ((λ x, set_term x t) <$> es).
Proof.
  intros Ht. unfold handle_append_entries. rewrite (proj2 (Z.ltb_ge _ _)) by done.
  cbn [Z.ltb Z.compare].
  destruct (Z.ltb_spec (current_term (state e)) t); eexists; (split; [reflexivity|]);
    cbn [state with_state]; case_if; cbn; (split; [lia|done]).
Qed.

(** Delivering the same [AppendEntries] twice appends its entries twice: the
    handler appends after the end of the log instead of after [prev_log_index]. *)
Theorem append_retry_duplicates e l t es :
  current_term (state e) ≤ t → es ≠ [] →
  ∃ e1 e2, handle_append_entries e l t 0 0 es 0 = Ret (Ok true, e1) ∧
    handle_append_entries e1 l t 0 0 es 0 = Ret (Ok true, e2) ∧
    let es' := (λ x, set_term x t) <$> es in
    log (state e2) = log (state e) ++ es' ++ es'.
Proof.
  intros Ht Hes. destruct (append_at_start e l t es Ht) as (e1 & E1 & Ht1 & Hl1).
  destruct (append_at_start e1 l t es) as (e2 & E2 & _ & Hl2); [lia|].
  exists e1, e2. split_and!; [done|done|]. by rewrite Hl2, Hl1, <- app_assoc.
Qed.

(** A conflict below the commit index truncates committed entries: the handler
    has no guard. *)
Theorem conflict_truncates_committed e l t pt prev rest :
  log (state e) = prev :: rest → entry_term prev ≠ pt → current_term (state e) ≤ t →
  ∃ e', handle_append_entries e l t 1 pt [] 0 = Ret (Ok false, e') ∧ log (state e') = [] ∧
        commit_index (state e') = commit_index (state e).
Proof.
  intros Hl Hp Ht. unfold handle_append_entries.
  rewrite (proj2 (Z.ltb_ge _ _)) by done. cbn [Z.ltb Z.compare].
  destruct (_ <? t); unfold log_len; cbn [log set_vote set_leader set_term_role]; rewrite Hl;
    (rewrite (proj2 (Z.ltb_ge _ _)) by (cbn [length]; lia));
    change (Z.to_nat (1 - 1)) with 0%nat; cbn [lookup list_lookup]; monad_simpl;
    rewrite (proj2 (Z.eqb_neq _ _)) by done; by eexists.
Qed.

End RaftTheorems.
