(* ===== verification/Config.v ===== *)
(** * Configuration schema, defaults and node identifiers

    [Config] models [config/src/lib.rs]: the records the TOML files
    deserialize to, their defaults, loading (the file system and the TOML
    parser are arguments, since neither is part of the program) and
    [parsed_node_id], which turns ["node-5"] into [5]. *)

From Stdlib Require Import Ascii String.
From stdpp Require Import strings pretty.
From S2P Require Import Prelude F64.

Module Config.

Local Open Scope string_scope.
Local Open Scope Z_scope.

Record GeneralConfig := {
  log_level : string;
  control_socket : string;
  data_bind_addr : string;
  node_id : string;
}.

Record KlnkConfig := {
  enable_uffd_move : bool;
  fallback_copy : bool;
  staging_num_pages : Z;
  huge_page_size : Z;
}.

Record TierConfig := {
  l0_enabled : bool;
  l0_device_ids : list Z;
  l1_enabled : bool;
  l2_enabled : bool;
  l2_path : string;
}.

Record StoreConfig := { tier : TierConfig; block_size : Z }.

Record RaftConfig := {
  embedded : bool;
  initial_peers : list string;
  etcd_endpoints : list string;
}.

Record SchedulerConfig := {
  prefetch_window : Z;
  l0_promote_threshold : Z;
  l1_demote_idle_secs : Z;
  lru_decay : f64;
}.

Record ShardingConfig := { shard_count : Z }.

Record MasterConfig := {
  raft : RaftConfig;
  scheduler : SchedulerConfig;
  sharding : ShardingConfig;
}.

Record RdmaConfig := {
  device_name : string;
  enable_gdr : bool;
  rq_prepost_count : Z;
  control_immediate : bool;
}.

Record TcpConfig := { io_uring_enabled : bool; tcp_port : Z }.

Record TransportConfig := {
  default_protocol : string;
  rdma : RdmaConfig;
  tcp : TcpConfig;
}.

Record EbpfConfig := {
  enabled : bool;
  program_path : string;
  report_interval_ms : Z;
}.

Record TuningConfig := {
  numa_node : Z;
  operation_timeout_ms : Z;
  memlock_limit : Z;
}.

Record PrecisionConfig := {
  format_generation : Z;
  sink_window : Z;
  local_window : Z;
  critical_layer_count : Z;
  elevated_pressure_threshold : f64;
  nominal_pressure_threshold : f64;
  critical_pressure_threshold : f64;
  critical_relax_threshold : f64;
}.

Record VirthubConfig := {
  general : GeneralConfig;
  klnk : KlnkConfig;
  store : StoreConfig;
  master : MasterConfig;
  transport : TransportConfig;
  ebpf : EbpfConfig;
  tuning : TuningConfig;
  precision : PrecisionConfig;
}.

(** [impl Default for PrecisionConfig]. *)
Definition default_precision : PrecisionConfig := {|
  format_generation := 1;
  sink_window := 16;
  local_window := 64;
  critical_layer_count := 2;
  elevated_pressure_threshold := f64_lit 78 100;
  nominal_pressure_threshold := f64_lit 70 100;
  critical_pressure_threshold := f64_lit 88 100;
  critical_relax_threshold := f64_lit 82 100;
|}.

(** [impl Default for VirthubConfig]. *)
Definition default : VirthubConfig := {|
  general := {|
    log_level := "info";
    control_socket := "/tmp/virthub_control.sock";
    data_bind_addr := "0.0.0.0:19001";
    node_id := "node-1";
  |};
  klnk := {|
    enable_uffd_move := true;
    fallback_copy := true;
    staging_num_pages := 16;
    huge_page_size := 2097152;
  |};
  store := {|
    tier := {|
      l0_enabled := false;
      l0_device_ids := [0; 1];
      l1_enabled := true;
      l2_enabled := false;
      l2_path := "/mnt/nvme/virthub_cache";
    |};
    block_size := 2097152;
  |};
  master := {|
    raft := {|
      embedded := true;
      initial_peers := ["node-1"; "node-2"; "node-3"];
      etcd_endpoints := ["http://127.0.0.1:2379"];
    |};
    scheduler := {|
      prefetch_window := 8;
      l0_promote_threshold := 100;
      l1_demote_idle_secs := 60;
      lru_decay := f64_lit 8 10;
    |};
    sharding := {| shard_count := 64 |};
  |};
  transport := {|
    default_protocol := "rdma";
    rdma := {|
      device_name := EmptyString;
      enable_gdr := false;
      rq_prepost_count := 1024;
      control_immediate := true;
    |};
    tcp := {| io_uring_enabled := true; tcp_port := 19002 |};
  |};
  ebpf := {|
    enabled := true;
    program_path := "/usr/lib/virthub/stride_tracer.bpf.o";
    report_interval_ms := 100;
  |};
  tuning := {|
    numa_node := -1;
    operation_timeout_ms := 500;
    memlock_limit := 0;
  |};
  precision := default_precision;
|}.

(** ** Loading *)

Section Load.
  (** [std::fs::read_to_string] and [toml::from_str]. *)
  Context {IoErr TomlErr : Type}.
  Context (read_to_string : string → result IoErr string).
  Context (from_str : string → result TomlErr VirthubConfig).

Inductive ConfigError :=
  | IoError (path : string) (source : IoErr)
  | ParseError (path : string) (source : TomlErr).

Definition load_from_file (path : string) : result ConfigError VirthubConfig :=
  content ← map_err (IoError path) (read_to_string path);
  map_err (ParseError path) (from_str content).

(** [env] is the value of [VIRTHUB_CONFIG]. *)
Definition load_default (env : option string) : result ConfigError VirthubConfig :=
  load_from_file (from_option id "conf/virthub.toml" env).

End Load.

(** ** Node identifiers *)

Fixpoint strip_prefix (pat s : string) : option string :=
  match pat, s with
  | EmptyString, _ => Some s
  | String a pat', String b s' =>
      if decide (a = b) then strip_prefix pat' s' else None
  | String _ _, EmptyString => None
  end.

(** [str::trim_start_matches]: the pattern is stripped as often as it occurs;
    the length of the string bounds the number of times. *)
Fixpoint trim_start_matches_go (fuel : nat) (pat s : string) : string :=
  match fuel with
  | O => s
  | S fuel' =>
      match strip_prefix pat s with
      | Some s' => trim_start_matches_go fuel' pat s'
      | None => s
      end
  end.

Definition trim_start_matches (pat s : string) : string :=
  trim_start_matches_go (String.length s) pat s.

Definition to_digit (c : ascii) : option Z :=
  let n := Z.of_nat (Ascii.nat_of_ascii c) in
  if (48 <=? n) && (n <=? 57) then Some (n - 48) else None.

(** [str::parse::<u64>]: an optional plus sign, then decimal digits, at least
    one, with the value checked against the width. *)
Fixpoint parse_digits (acc : Z) (s : string) : option Z :=
  match s with
  | EmptyString => Some acc
  | String c s' =>
      d ← to_digit c;
      if acc * 10 + d <? 2 ^ 64 then parse_digits (acc * 10 + d) s' else None
  end.

Definition parse_u64 (s : string) : option Z :=
  match s with
  | EmptyString => None
  | String "+" EmptyString => None
  | String "+" s' => parse_digits 0 s'
  | _ => parse_digits 0 s
  end.

Definition parsed_node_id (self : VirthubConfig) : Z :=
  from_option id 1 (parse_u64 (trim_start_matches "node-" (node_id (general self)))).

End Config.

Module ConfigTheorems.
Import Config.
Local Open Scope string_scope.
Local Open Scope Z_scope.

Lemma to_digit_pretty (x : N) :
  (x < 10)%N → to_digit (pretty_N_char x) = Some (Z.of_N x).
Proof.
  intros Hx. assert (x ∈ [0; 1; 2; 3; 4; 5; 6; 7; 8; 9]%N) as Hin.
  { apply list_elem_of_In. cbn. lia. }
  repeat (apply elem_of_cons in Hin as [->|Hin]; [done|]).
  by apply not_elem_of_nil in Hin.
Qed.

(** Reading the decimal digits of [x] and then [s] continues at [x]. *)
Lemma parse_digits_pretty (x : N) s :
  Z.of_N x < 2 ^ 64 → parse_digits 0 (pretty_N_go x s) = parse_digits (Z.of_N x) s.
Proof.
  revert s. induction (N.lt_wf_0 x) as [x _ IH]. intros s Hx.
  destruct (decide (x = 0)%N) as [->|Hx0]; [by rewrite pretty_N_go_0|].
  rewrite pretty_N_go_step by lia.
  rewrite IH; [|apply N.div_lt; lia|rewrite N2Z.inj_div; apply Z.div_lt_upper_bound; lia].
  cbn [parse_digits]. rewrite to_digit_pretty by (apply N.mod_lt; lia). cbn [mbind option_bind].
  replace (Z.of_N (x / 10) * 10 + Z.of_N (x mod 10)) with (Z.of_N x)
    by (rewrite N2Z.inj_div, N2Z.inj_mod; pose proof (Z.div_mod (Z.of_N x) 10); lia).
  by rewrite (proj2 (Z.ltb_lt _ _)) by lia.
Qed.

(** A printed number starts with a digit. *)
Lemma pretty_head (x : N) s :
  x ≠ 0%N → ∃ d r, (d < 10)%N ∧ pretty_N_go x s = String (pretty_N_char d) r.
Proof.
  revert s. induction (N.lt_wf_0 x) as [x _ IH]. intros s Hx0.
  rewrite pretty_N_go_step by lia.
  destruct (decide (x / 10 = 0)%N) as [->|Hd].
  - rewrite pretty_N_go_0. exists (x mod 10)%N, s. split; [apply N.mod_lt; lia|done].
  - apply IH; [apply N.div_lt; lia|done].
Qed.

Lemma pretty_N_cons (x : N) :
  ∃ d r, (d < 10)%N ∧ pretty x = String (pretty_N_char d) r.
Proof.
  unfold pretty, pretty_N. case_decide as Hx; [by exists 0%N, EmptyString|].
  by apply pretty_head.
Qed.

Lemma parse_u64_pretty (x : N) :
  Z.of_N x < 2 ^ 64 → parse_u64 (pretty x) = Some (Z.of_N x).
Proof.
  intros Hx. transitivity (parse_digits 0 (pretty x)).
  - destruct (pretty_N_cons x) as (d & r & Hd & ->).
    assert (Hc : pretty_N_char d ≠ "+"%char).
    { intros E. pose proof (to_digit_pretty d Hd) as Ht. by rewrite E in Ht. }
    unfold parse_u64. repeat case_match; by simplify_eq.
  - unfold pretty, pretty_N. case_decide as H0; [by subst|].
    by rewrite parse_digits_pretty.
Qed.

Lemma strip_prefix_app pat s : strip_prefix pat (pat +:+ s) = Some s.
Proof.
  induction pat as [|c pat IH]; [done|].
  change (String c pat +:+ s) with (String c (pat +:+ s)). cbn [strip_prefix].
  by rewrite decide_True.
Qed.

Lemma strip_node_pretty (x : N) : strip_prefix "node-" (pretty x) = None.
Proof.
  destruct (pretty_N_cons x) as (d & r & Hd & ->). cbn [strip_prefix].
  rewrite decide_False; [done|].
  intros E. pose proof (to_digit_pretty d Hd) as Ht. by rewrite <- E in Ht.
Qed.

Fixpoint repeat_prefix (k : nat) (pat s : string) : string :=
  match k with
  | O => s
  | S k' => pat +:+ repeat_prefix k' pat s
  end.

Lemma repeat_prefix_length k s :
  (k ≤ String.length (repeat_prefix k "node-" s))%nat.
Proof.
  induction k as [|k IH]; [lia|]. cbn [repeat_prefix].
  set (r := repeat_prefix k "node-" s) in *.
  change (String.length ("node-" +:+ r)) with (5 + String.length r)%nat. lia.
Qed.

Lemma trim_node_pretty fuel k (x : N) :
  (k ≤ fuel)%nat →
  trim_start_matches_go fuel "node-" (repeat_prefix k "node-" (pretty x)) = pretty x.
Proof.
  revert k. induction fuel as [|fuel IH]; intros [|k] Hk; cbn [repeat_prefix]; try lia; [done| |].
  - cbn [trim_start_matches_go]. by rewrite strip_node_pretty.
  - cbn [trim_start_matches_go]. rewrite strip_prefix_app. apply IH. lia.
Qed.

(** Node identifiers survive the configuration file: the decimal name of
    any 64-bit identifier, alone or behind any number of ["node-"] prefixes,
    is parsed back to that identifier. *)
Theorem parsed_node_id_roundtrip (cfg : VirthubConfig) (k : nat) (n : N) :
  Z.of_N n < 2 ^ 64 →
  node_id (general cfg) = repeat_prefix k "node-" (pretty n) →
  parsed_node_id cfg = Z.of_N n.
Proof.
  intros Hn E. unfold parsed_node_id. rewrite E. unfold trim_start_matches.
  by rewrite (trim_node_pretty _ _ _ (repeat_prefix_length k _)), parse_u64_pretty.
Qed.

Lemma parsed_node_id_roundtrip_witness : parsed_node_id default = 1.
Proof.
  apply (parsed_node_id_roundtrip default 1 1); reflexivity.
Defined.

(** A name that is not a number is node 1, whatever it is. *)
Lemma parsed_node_id_fallback cfg :
  parse_u64 (trim_start_matches "node-" (node_id (general cfg))) = None →
  parsed_node_id cfg = 1.
Proof. intros E. unfold parsed_node_id. by rewrite E. Qed.

End ConfigTheorems.
