(* ===== verification/ConfigToml.v ===== *)
(** * The configuration files

    [Toml] models what [config/src/lib.rs] accepts: TOML documents as sequences
    of headers and pairs, the tables they denote, and the [Deserialize]
    implementations that the records of [Config] derive: every field is looked
    up under its name and read at its type, and only [precision] has a default.
    Which of several errors a file is refused for is not modelled, and nothing
    is written: the program serializes no configuration.  The last part holds
    the two files of [conf/], line by line. *)

From stdpp Require Import strings.
From S2P Require Import Prelude F64 Config.

Module Toml.
Local Open Scope string_scope.
Local Open Scope Z_scope.

#[warnings="-register-all"]
Inductive value :=
  | VString (s : string)
  | VInteger (z : Z)
  | VFloat (f : f64)
  | VBoolean (b : bool)
  | VArray (l : list value)
  | VTable (t : list (string * value)).

Definition table : Type := list (string * value).

Fixpoint lookup (t : table) (k : string) : option value :=
  match t with
  | [] => None
  | (k', v) :: t => if bool_decide (k' = k) then Some v else lookup t k
  end.

(** ** Documents *)

Inductive line := Header (path : list string) | Pair (key : string) (v : value).

Fixpoint update (t : table) (k : string) (f : option value → option value) : option table :=
  match t with
  | [] => v ← f None; Some [(k, v)]
  | (k', v') :: t =>
      if bool_decide (k' = k) then v ← f (Some v'); Some ((k', v) :: t)
      else t ← update t k f; Some ((k', v') :: t)
  end.

(** The table at [path], created where it is missing, is changed by [f]. *)
Fixpoint at_path (path : list string) (f : table → option table) (t : table) : option table :=
  match path with
  | [] => f t
  | k :: path =>
      update t k (λ v, match v with
                       | None => VTable <$> at_path path f []
                       | Some (VTable t) => VTable <$> at_path path f t
                       | Some _ => None
                       end)
  end.

(** A key is given once. *)
Definition add_pair (k : string) (v : value) (t : table) : option table :=
  update t k (λ o, match o with None => Some v | Some _ => None end).

(** A pair belongs to the table of the last header; a table is opened once. *)
Fixpoint read_lines (ls : list line) (opened : list (list string)) (here : list string) (t : table) :
    option table :=
  match ls with
  | [] => Some t
  | Header path :: ls =>
      if bool_decide (path ∈ opened) then None
      else t ← at_path path Some t; read_lines ls (path :: opened) path t
  | Pair k v :: ls => t ← at_path here (add_pair k v) t; read_lines ls opened here t
  end.

Definition table_of (doc : list line) : option table := read_lines doc [] [] [].

(** ** Deserialize *)

Inductive DeError := MissingField (name : string) | InvalidType | InvalidValue.

Definition de_string (v : value) : result DeError string :=
  match v with VString s => Ok s | _ => Err InvalidType end.
Definition de_bool (v : value) : result DeError bool :=
  match v with VBoolean b => Ok b | _ => Err InvalidType end.
Definition de_f64 (v : value) : result DeError f64 :=
  match v with VFloat f => Ok f | VInteger z => Ok (f64_of_Z z) | _ => Err InvalidType end.

(** The integers of a file are 64-bit signed ones; a field takes those of its
    own width. *)
Definition de_range (lo hi : Z) (v : value) : result DeError Z :=
  match v with
  | VInteger z => if (lo <=? z) && (z <? hi) then Ok z else Err InvalidValue
  | _ => Err InvalidType
  end.
Definition de_uint (w : Z) : value → result DeError Z := de_range 0 (2 ^ w).
Definition de_int (w : Z) : value → result DeError Z := de_range (- 2 ^ (w - 1)) (2 ^ (w - 1)).

Fixpoint de_elements {A : Type} (d : value → result DeError A) (l : list value) : result DeError (list A) :=
  match l with
  | [] => Ok []
  | v :: l => a ← d v; l ← de_elements d l; Ok (a :: l)
  end.
Definition de_list {A : Type} (d : value → result DeError A) (v : value) : result DeError (list A) :=
  match v with VArray l => de_elements d l | _ => Err InvalidType end.

Definition field {A : Type} (t : table) (name : string) (d : value → result DeError A) : result DeError A :=
  match lookup t name with Some v => d v | None => Err (MissingField name) end.

Definition field_or {A : Type} (t : table) (name : string) (default : A)
    (d : value → result DeError A) : result DeError A :=
  match lookup t name with Some v => d v | None => Ok default end.

Definition de_struct {A : Type} (d : table → result DeError A) (v : value) : result DeError A :=
  match v with VTable t => d t | _ => Err InvalidType end.

Definition de_GeneralConfig : value → result DeError Config.GeneralConfig := de_struct (λ t,
  log_level ← field t "log_level" de_string;
  control_socket ← field t "control_socket" de_string;
  data_bind_addr ← field t "data_bind_addr" de_string;
  node_id ← field t "node_id" de_string;
  Ok {| Config.log_level := log_level;
        Config.control_socket := control_socket;
        Config.data_bind_addr := data_bind_addr;
        Config.node_id := node_id |}).

Definition de_KlnkConfig : value → result DeError Config.KlnkConfig := de_struct (λ t,
  enable_uffd_move ← field t "enable_uffd_move" de_bool;
  fallback_copy ← field t "fallback_copy" de_bool;
  staging_num_pages ← field t "staging_num_pages" (de_uint 64);
  huge_page_size ← field t "huge_page_size" (de_uint 64);
  Ok {| Config.enable_uffd_move := enable_uffd_move;
        Config.fallback_copy := fallback_copy;
        Config.staging_num_pages := staging_num_pages;
        Config.huge_page_size := huge_page_size |}).

Definition de_TierConfig : value → result DeError Config.TierConfig := de_struct (λ t,
  l0_enabled ← field t "l0_enabled" de_bool;
  l0_device_ids ← field t "l0_device_ids" (de_list (de_uint 32));
  l1_enabled ← field t "l1_enabled" de_bool;
  l2_enabled ← field t "l2_enabled" de_bool;
  l2_path ← field t "l2_path" de_string;
  Ok {| Config.l0_enabled := l0_enabled;
        Config.l0_device_ids := l0_device_ids;
        Config.l1_enabled := l1_enabled;
        Config.l2_enabled := l2_enabled;
        Config.l2_path := l2_path |}).

Definition de_StoreConfig : value → result DeError Config.StoreConfig := de_struct (λ t,
  tier ← field t "tier" de_TierConfig;
  block_size ← field t "block_size" (de_uint 64);
  Ok {| Config.tier := tier;
        Config.block_size := block_size |}).

Definition de_RaftConfig : value → result DeError Config.RaftConfig := de_struct (λ t,
  embedded ← field t "embedded" de_bool;
  initial_peers ← field t "initial_peers" (de_list de_string);
  etcd_endpoints ← field t "etcd_endpoints" (de_list de_string);
  Ok {| Config.embedded := embedded;
        Config.initial_peers := initial_peers;
        Config.etcd_endpoints := etcd_endpoints |}).

Definition de_SchedulerConfig : value → result DeError Config.SchedulerConfig := de_struct (λ t,
  prefetch_window ← field t "prefetch_window" (de_uint 64);
  l0_promote_threshold ← field t "l0_promote_threshold" (de_uint 64);
  l1_demote_idle_secs ← field t "l1_demote_idle_secs" (de_uint 64);
  lru_decay ← field t "lru_decay" de_f64;
  Ok {| Config.prefetch_window := prefetch_window;
        Config.l0_promote_threshold := l0_promote_threshold;
        Config.l1_demote_idle_secs := l1_demote_idle_secs;
        Config.lru_decay := lru_decay |}).

Definition de_ShardingConfig : value → result DeError Config.ShardingConfig := de_struct (λ t,
  shard_count ← field t "shard_count" (de_uint 64);
  Ok {| Config.shard_count := shard_count |}).

Definition de_MasterConfig : value → result DeError Config.MasterConfig := de_struct (λ t,
  raft ← field t "raft" de_RaftConfig;
  scheduler ← field t "scheduler" de_SchedulerConfig;
  sharding ← field t "sharding" de_ShardingConfig;
  Ok {| Config.raft := raft;
        Config.scheduler := scheduler;
        Config.sharding := sharding |}).

Definition de_RdmaConfig : value → result DeError Config.RdmaConfig := de_struct (λ t,
  device_name ← field t "device_name" de_string;
  enable_gdr ← field t "enable_gdr" de_bool;
  rq_prepost_count ← field t "rq_prepost_count" (de_uint 64);
  control_immediate ← field t "control_immediate" de_bool;
  Ok {| Config.device_name := device_name;
        Config.enable_gdr := enable_gdr;
        Config.rq_prepost_count := rq_prepost_count;
        Config.control_immediate := control_immediate |}).

Definition de_TcpConfig : value → result DeError Config.TcpConfig := de_struct (λ t,
  io_uring_enabled ← field t "io_uring_enabled" de_bool;
  tcp_port ← field t "tcp_port" (de_uint 16);
  Ok {| Config.io_uring_enabled := io_uring_enabled;
        Config.tcp_port := tcp_port |}).

Definition de_TransportConfig : value → result DeError Config.TransportConfig := de_struct (λ t,
  default_protocol ← field t "default_protocol" de_string;
  rdma ← field t "rdma" de_RdmaConfig;
  tcp ← field t "tcp" de_TcpConfig;
  Ok {| Config.default_protocol := default_protocol;
        Config.rdma := rdma;
        Config.tcp := tcp |}).

Definition de_EbpfConfig : value → result DeError Config.EbpfConfig := de_struct (λ t,
  enabled ← field t "enabled" de_bool;
  program_path ← field t "program_path" de_string;
  report_interval_ms ← field t "report_interval_ms" (de_uint 64);
  Ok {| Config.enabled := enabled;
        Config.program_path := program_path;
        Config.report_interval_ms := report_interval_ms |}).

Definition de_TuningConfig : value → result DeError Config.TuningConfig := de_struct (λ t,
  numa_node ← field t "numa_node" (de_int 32);
  operation_timeout_ms ← field t "operation_timeout_ms" (de_uint 64);
  memlock_limit ← field t "memlock_limit" (de_uint 64);
  Ok {| Config.numa_node := numa_node;
        Config.operation_timeout_ms := operation_timeout_ms;
        Config.memlock_limit := memlock_limit |}).

Definition de_PrecisionConfig : value → result DeError Config.PrecisionConfig := de_struct (λ t,
  format_generation ← field t "format_generation" (de_uint 8);
  sink_window ← field t "sink_window" (de_uint 64);
  local_window ← field t "local_window" (de_uint 64);
  critical_layer_count ← field t "critical_layer_count" (de_uint 64);
  elevated_pressure_threshold ← field t "elevated_pressure_threshold" de_f64;
  nominal_pressure_threshold ← field t "nominal_pressure_threshold" de_f64;
  critical_pressure_threshold ← field t "critical_pressure_threshold" de_f64;
  critical_relax_threshold ← field t "critical_relax_threshold" de_f64;
  Ok {| Config.format_generation := format_generation;
        Config.sink_window := sink_window;
        Config.local_window := local_window;
        Config.critical_layer_count := critical_layer_count;
        Config.elevated_pressure_threshold := elevated_pressure_threshold;
        Config.nominal_pressure_threshold := nominal_pressure_threshold;
        Config.critical_pressure_threshold := critical_pressure_threshold;
        Config.critical_relax_threshold := critical_relax_threshold |}).

Definition de_VirthubConfig : value → result DeError Config.VirthubConfig := de_struct (λ t,
  general ← field t "general" de_GeneralConfig;
  klnk ← field t "klnk" de_KlnkConfig;
  store ← field t "store" de_StoreConfig;
  master ← field t "master" de_MasterConfig;
  transport ← field t "transport" de_TransportConfig;
  ebpf ← field t "ebpf" de_EbpfConfig;
  tuning ← field t "tuning" de_TuningConfig;
  precision ← field_or t "precision" Config.default_precision de_PrecisionConfig;
  Ok {| Config.general := general;
        Config.klnk := klnk;
        Config.store := store;
        Config.master := master;
        Config.transport := transport;
        Config.ebpf := ebpf;
        Config.tuning := tuning;
        Config.precision := precision |}).

(** [toml::from_str], on the document [parse] reads from the text. *)
Definition from_str {Syntax : Type} (parse : string → result Syntax (list line)) (s : string) :
    result (Syntax + option DeError) Config.VirthubConfig :=
  match parse s with
  | Err e => Err (inl e)
  | Ok doc =>
      match table_of doc with
      | None => Err (inr None)
      | Some t => map_err (inr ∘ Some) (de_VirthubConfig (VTable t))
      end
  end.

End Toml.

(** ** conf/virthub.toml and conf/cluster.toml *)

Module ConfFiles.
Import Toml.
Local Open Scope string_scope.
Local Open Scope Z_scope.

Definition virthub_toml : list line := [
  Header ["general"];
  Pair "log_level" (VString "info");
  Pair "control_socket" (VString "/tmp/virthub_control.sock");
  Pair "data_bind_addr" (VString "0.0.0.0:19001");
  Pair "node_id" (VString "node-1");
  Header ["klnk"];
  Pair "enable_uffd_move" (VBoolean true);
  Pair "fallback_copy" (VBoolean true);
  Pair "staging_num_pages" (VInteger 16);
  Pair "huge_page_size" (VInteger 2097152);
  Header ["store"];
  Header ["store"; "tier"];
  Pair "l0_enabled" (VBoolean false);
  Pair "l0_device_ids" (VArray [VInteger 0; VInteger 1]);
  Pair "l1_enabled" (VBoolean true);
  Pair "l1_max_blocks" (VInteger 8192);
  Pair "l1_high_watermark" (VFloat (f64_lit 85 100));
  Pair "l1_low_watermark" (VFloat (f64_lit 70 100));
  Pair "l2_enabled" (VBoolean false);
  Pair "l2_path" (VString "/mnt/nvme/virthub_cache");
  Pair "l2_max_size_gb" (VInteger 100);
  Pair "l2_max_iops" (VInteger 10000);
  Pair "block_size" (VInteger 2097152);
  Header ["master"];
  Header ["master"; "raft"];
  Pair "embedded" (VBoolean true);
  Pair "initial_peers" (VArray [VString "node-1"; VString "node-2"; VString "node-3"]);
  Pair "etcd_endpoints" (VArray [VString "http://127.0.0.1:2379"]);
  Header ["master"; "scheduler"];
  Pair "prefetch_window" (VInteger 8);
  Pair "l0_promote_threshold" (VInteger 100);
  Pair "l1_demote_idle_secs" (VInteger 60);
  Pair "lru_decay" (VFloat (f64_lit 8 10));
  Header ["master"; "sharding"];
  Pair "shard_count" (VInteger 64);
  Header ["transport"];
  Pair "default_protocol" (VString "rdma");
  Header ["transport"; "rdma"];
  Pair "device_name" (VString EmptyString);
  Pair "enable_gdr" (VBoolean false);
  Pair "rq_prepost_count" (VInteger 1024);
  Pair "control_immediate" (VBoolean true);
  Header ["transport"; "tcp"];
  Pair "io_uring_enabled" (VBoolean true);
  Pair "tcp_port" (VInteger 19002);
  Header ["ebpf"];
  Pair "enabled" (VBoolean true);
  Pair "program_path" (VString "/usr/lib/virthub/stride_tracer.bpf.o");
  Pair "report_interval_ms" (VInteger 100);
  Header ["tuning"];
  Pair "numa_node" (VInteger (-1));
  Pair "operation_timeout_ms" (VInteger 500);
  Pair "memlock_limit" (VInteger 17179869184);
  Header ["vllm"];
  Pair "connector_version" (VString "auto");
  Header ["precision"];
  Pair "format_generation" (VInteger 1);
  Pair "sink_window" (VInteger 16);
  Pair "local_window" (VInteger 64);
  Pair "critical_layer_count" (VInteger 2);
  Pair "elevated_pressure_threshold" (VFloat (f64_lit 78 100));
  Pair "nominal_pressure_threshold" (VFloat (f64_lit 70 100));
  Pair "critical_pressure_threshold" (VFloat (f64_lit 88 100));
  Pair "critical_relax_threshold" (VFloat (f64_lit 82 100));
  Header ["security"];
  Pair "enable_auth" (VBoolean false);
  Header ["observability"];
  Pair "metrics_bind_addr" (VString "0.0.0.0:9090");
  Pair "detailed_latency" (VBoolean false);
  Header ["validation"];
  Pair "strict_mode" (VBoolean false);
  Pair "validate_hardware" (VBoolean true);
  Pair "required_kernel_features" (VString "userfaultfd, huge_pages, rdma_cm");
  Pair "min_kernel_version" (VString "6.8.0")].

Definition cluster_toml : list line := [
  Header ["general"];
  Pair "log_level" (VString "info");
  Pair "control_socket" (VString "/tmp/virthub_control.sock");
  Pair "data_bind_addr" (VString "0.0.0.0:19001");
  Pair "node_id" (VString "node-1");
  Header ["klnk"];
  Pair "enable_uffd_move" (VBoolean true);
  Pair "fallback_copy" (VBoolean true);
  Pair "staging_num_pages" (VInteger 64);
  Pair "huge_page_size" (VInteger 2097152);
  Header ["store"];
  Pair "block_size" (VInteger 2097152);
  Header ["store"; "tier"];
  Pair "l0_enabled" (VBoolean true);
  Pair "l0_device_ids" (VArray [VInteger 0; VInteger 1; VInteger 2; VInteger 3]);
  Pair "l1_enabled" (VBoolean true);
  Pair "l1_high_watermark" (VFloat (f64_lit 85 100));
  Pair "l1_low_watermark" (VFloat (f64_lit 70 100));
  Pair "l2_enabled" (VBoolean true);
  Pair "l2_path" (VString "/mnt/nvme/virthub_cache");
  Pair "l2_max_size_gb" (VInteger 200);
  Header ["master"];
  Header ["master"; "raft"];
  Pair "embedded" (VBoolean true);
  Pair "initial_peers" (VArray [VString "node-1"; VString "node-2"; VString "node-3"]);
  Pair "etcd_endpoints" (VArray [VString "http://127.0.0.1:2379"]);
  Header ["master"; "scheduler"];
  Pair "prefetch_window" (VInteger 8);
  Pair "l0_promote_threshold" (VInteger 100);
  Pair "l1_demote_idle_secs" (VInteger 60);
  Pair "lru_decay" (VFloat (f64_lit 8 10));
  Header ["master"; "sharding"];
  Pair "shard_count" (VInteger 64);
  Header ["transport"];
  Pair "default_protocol" (VString "rdma");
  Header ["transport"; "rdma"];
  Pair "device_name" (VString EmptyString);
  Pair "enable_gdr" (VBoolean true);
  Pair "rq_prepost_count" (VInteger 2048);
  Pair "control_immediate" (VBoolean true);
  Pair "selective_signaling" (VBoolean true);
  Pair "signal_batch_size" (VInteger 16);
  Header ["transport"; "tcp"];
  Pair "io_uring_enabled" (VBoolean true);
  Pair "tcp_port" (VInteger 19002);
  Header ["ebpf"];
  Pair "enabled" (VBoolean true);
  Pair "program_path" (VString "/usr/lib/virthub/stride_tracer.bpf.o");
  Pair "report_interval_ms" (VInteger 100);
  Header ["tuning"];
  Pair "numa_node" (VInteger (-1));
  Pair "operation_timeout_ms" (VInteger 500);
  Pair "memlock_limit" (VInteger 17179869184);
  Header ["vllm"];
  Pair "connector_version" (VString "auto");
  Header ["precision"];
  Pair "format_generation" (VInteger 2);
  Pair "sink_window" (VInteger 16);
  Pair "local_window" (VInteger 64);
  Pair "critical_layer_count" (VInteger 2);
  Pair "elevated_pressure_threshold" (VFloat (f64_lit 78 100));
  Pair "nominal_pressure_threshold" (VFloat (f64_lit 70 100));
  Pair "critical_pressure_threshold" (VFloat (f64_lit 88 100));
  Pair "critical_relax_threshold" (VFloat (f64_lit 82 100));
  Header ["security"];
  Pair "enable_auth" (VBoolean false);
  Header ["observability"];
  Pair "metrics_bind_addr" (VString "0.0.0.0:9090");
  Pair "detailed_latency" (VBoolean false);
  Header ["validation"];
  Pair "strict_mode" (VBoolean false);
  Pair "validate_hardware" (VBoolean true);
  Pair "required_kernel_features" (VString "userfaultfd, huge_pages, rdma_cm");
  Pair "min_kernel_version" (VString "6.8.0")].

End ConfFiles.

Module TomlTheorems.
Import Toml ConfFiles.
Local Open Scope string_scope.
Local Open Scope Z_scope.

(** A file may leave the precision section out, and no other. *)
Lemma precision_optional t :
  lookup t "precision" = None →
  de_VirthubConfig (VTable t)
  = de_VirthubConfig (VTable (t ++ [("precision", VTable [
      ("format_generation", VInteger 1); ("sink_window", VInteger 16);
      ("local_window", VInteger 64); ("critical_layer_count", VInteger 2);
      ("elevated_pressure_threshold", VFloat (f64_lit 78 100));
      ("nominal_pressure_threshold", VFloat (f64_lit 70 100));
      ("critical_pressure_threshold", VFloat (f64_lit 88 100));
      ("critical_relax_threshold", VFloat (f64_lit 82 100))])])%list).
Proof.
  assert (Hl : ∀ k v, k ≠ "precision" → lookup (t ++ [("precision", v)])%list k = lookup t k).
  { intros k v Hk. induction t as [|[x y] t IH]; cbn [app lookup];
      [by rewrite bool_decide_eq_false_2|by case_bool_decide]. }
  assert (Hp : ∀ v, lookup t "precision" = None → lookup (t ++ [("precision", v)])%list "precision" = Some v).
  { intros v. clear Hl. induction t as [|[x y] t IH]; cbn [app lookup]; [done|].
    case_bool_decide; [done|exact IH]. }
  intros Hn. unfold de_VirthubConfig, de_struct, field, field_or.
  rewrite (Hp _ Hn), Hn. rewrite !Hl by discriminate. reflexivity.
Qed.

(** What the shipped files load to: [conf/cluster.toml] is accepted, its
    unknown sections and keys ignored; [conf/virthub.toml], the one loaded by
    default, is refused, since its [block_size] line stands below the header
    [store.tier] and the section [store] has none.  Above that header the same
    line is accepted. *)
Theorem shipped_files_load :
  (∀ path, Config.load_from_file (IoErr := unit) Ok (from_str (Syntax := unit) (λ _, Ok virthub_toml)) path
     = Err (Config.ParseError path (inr (Some (MissingField "block_size"))))) ∧
  (∃ c, from_str (Syntax := unit) (λ _, Ok cluster_toml) "conf/cluster.toml" = Ok c ∧
        Config.block_size (Config.store c) = 2097152 ∧ Config.parsed_node_id c = 1 ∧
        Config.format_generation (Config.precision c) = 2) ∧
  ∃ pre tier post c, virthub_toml = (pre ++ tier ++ Pair "block_size" (VInteger 2097152) :: post)%list ∧
    from_str (Syntax := unit) (λ _, Ok (pre ++ Pair "block_size" (VInteger 2097152) :: tier ++ post)%list)
      "conf/virthub.toml" = Ok c.
Proof.
  split; [intros path; vm_compute; reflexivity|]. split.
  - eexists. split; [vm_compute; reflexivity|]. split_and!; reflexivity.
  - exists (take 11 virthub_toml), (take 11 (drop 11 virthub_toml)), (drop 23 virthub_toml).
    eexists. split; [reflexivity|]. vm_compute. reflexivity.
Qed.

End TomlTheorems.
