(* ===== verification/RaftStore.v ===== *)
(** * The Raft engine's settings

    The constructors and accessors of [master/src/raft_state.rs]: settings read
    from the configuration, and what the engine shows of its state.
    [save_state] and [load_state] are left out: they do not type-check. *)

From stdpp Require Import strings pretty.
From S2P Require Import Prelude Domain Config Raft.

Module RaftStore.
Import Raft.

(** ** Settings *)

Inductive StoreError :=
  | InvalidPeerFormat (peer : string).

Definition parse_peer (peer_str : string) : result StoreError NodeId :=
  match Config.parse_u64 (Config.trim_start_matches "node-" peer_str) with
  | Some id_num => Ok id_num
  | None => Err (InvalidPeerFormat peer_str)
  end.

Fixpoint parse_peers (l : list string) : result StoreError (list NodeId) :=
  match l with
  | [] => Ok []
  | peer_str :: l => id ← parse_peer peer_str; ids ← parse_peers l; Ok (id :: ids)
  end.

Definition from_app_config (cfg : Config.VirthubConfig) : result StoreError RaftConfig :=
  let r := Config.raft (Config.master cfg) in
  initial_peers ← parse_peers (Config.initial_peers r);
  Ok (RConfig (Config.embedded r) initial_peers (Config.etcd_endpoints r)).

Definition from_config (node_id : NodeId) (cfg : Config.VirthubConfig) : result StoreError RaftEngine :=
  raft_cfg ← from_app_config cfg; Ok (new node_id raft_cfg).

(** ** Accessors *)

Definition get_role (self : RaftEngine) : RaftRole := role (state self).
Definition get_current_term (self : RaftEngine) : Z := term_counter self.
Definition get_leader_id (self : RaftEngine) : option NodeId := leader_id (state self).
Definition get_log (self : RaftEngine) : list RaftLogEntry := log (state self).
Definition last_log_index (self : RaftEngine) : Z := log_len (state self).

End RaftStore.

Module RaftStoreTheorems.
Import Raft RaftRun RaftStore RaftFacts.

(** *** Settings *)

Definition node_name (n : N) : string := "node-" +:+ pretty n.

Lemma parse_peer_name n : Z.of_N n < 2 ^ 64 → parse_peer (node_name n) = Ok (Z.of_N n).
Proof.
  intros Hn. change (node_name n) with (ConfigTheorems.repeat_prefix 1 "node-" (pretty n)).
  unfold parse_peer, Config.trim_start_matches.
  pose proof (ConfigTheorems.repeat_prefix_length 1 (pretty n)) as Hl.
  rewrite (ConfigTheorems.trim_node_pretty _ 1 n Hl). by rewrite ConfigTheorems.parse_u64_pretty.
Qed.

(** An engine is built from exactly the configurations whose peers are all
    node names, and it knows those peers. *)
Theorem engine_from_config cfg id ns :
  Config.initial_peers (Config.raft (Config.master cfg)) = node_name <$> ns →
  Forall (λ n, Z.of_N n < 2 ^ 64) ns →
  ∃ e, from_config id cfg = Ok e ∧ peers (state e) = Z.of_N <$> ns ∧ get_role e = Follower ∧
       get_current_term e = 0 ∧ last_log_index e = 0.
Proof.
  intros Hp Hn. unfold from_config, from_app_config. rewrite Hp.
  assert (parse_peers (node_name <$> ns) = Ok (Z.of_N <$> ns)) as ->.
  { clear Hp. induction Hn as [|n ns Hn _ IH]; [done|]. cbn [fmap list_fmap parse_peers].
    cbv beta in Hn. by rewrite parse_peer_name, IH. }
  by eexists.
Qed.

Lemma bad_peer_refused cfg id good peer rest :
  Config.initial_peers (Config.raft (Config.master cfg)) = good ++ peer :: rest →
  Forall (λ p, ∃ n, parse_peer p = Ok n) good →
  Config.parse_u64 (Config.trim_start_matches "node-" peer) = None →
  from_config id cfg = Err (InvalidPeerFormat peer).
Proof.
  intros Hp Hg Hb. unfold from_config, from_app_config. rewrite Hp.
  enough (parse_peers (good ++ peer :: rest) = Err (InvalidPeerFormat peer)) as -> by done.
  clear Hp. induction Hg as [|p good [n E] _ IH]; cbn [app parse_peers].
  - unfold parse_peer. by rewrite Hb.
  - by rewrite E, IH.
Qed.

End RaftStoreTheorems.
