(* ===== verification/Scheduler.v ===== *)
(** * Cluster placement scheduler

    [Scheduler] models [master/src/scheduler.rs]: the node registry, the three
    placement policies, the reservation counters, and the precision predictor
    and memory-pressure state the scheduler owns.  The theorems characterise
    every outcome of [schedule_allocation] and relate the counters to the
    placements that are live.  [master/src/lib.rs] does not declare this module:
    the theorems are about the file, which the crate does not build. *)

From S2P Require Import Prelude F64 Precision Config.

Module Scheduler.

Inductive SchedulingPolicy := LeastLoaded | RoundRobin | NumaAffinity.

Inductive SchedulerError :=
  | NoNodeAvailable (requested_bytes : Z)
  | NodeNotFound (node : Z)
  | CapacityExceeded (node_id available_bytes requested_bytes : Z).

Record SchedulerConfig := {
  prefetch_window : Z;
  l0_promote_threshold : Z;
  l1_demote_idle_secs : Z;
  lru_decay : f64;
  shard_count : Z;
}.

Definition default_config : SchedulerConfig := {|
  prefetch_window := 8;
  l0_promote_threshold := 100;
  l1_demote_idle_secs := 60;
  lru_decay := f64_lit 8 10;
  shard_count := 64;
|}.

Definition from_app_config (config : Config.VirthubConfig) : SchedulerConfig :=
  let s := Config.scheduler (Config.master config) in {|
    prefetch_window := Config.prefetch_window s;
    l0_promote_threshold := Config.l0_promote_threshold s;
    l1_demote_idle_secs := Config.l1_demote_idle_secs s;
    lru_decay := Config.lru_decay s;
    shard_count := Config.shard_count (Config.sharding (Config.master config));
  |}.

Record NodeResourceCapacity := {
  node_id : Z;
  total_memory_bytes : Z;
  allocated_memory_bytes : Z;
  numa_nodes : Z;
  active_rdma_qps : Z;
  is_online : bool;
}.

Definition new_capacity (id total numa : Z) : NodeResourceCapacity := {|
  node_id := id;
  total_memory_bytes := total;
  allocated_memory_bytes := 0;
  numa_nodes := numa;
  active_rdma_qps := 0;
  is_online := true;
|}.

(** The atomic counter of a node after a store. *)
Definition with_allocated (c : NodeResourceCapacity) (v : Z) : NodeResourceCapacity := {|
  node_id := node_id c;
  total_memory_bytes := total_memory_bytes c;
  allocated_memory_bytes := v;
  numa_nodes := numa_nodes c;
  active_rdma_qps := active_rdma_qps c;
  is_online := is_online c;
|}.

Definition available_memory_bytes (self : NodeResourceCapacity) : Z :=
  let allocated := allocated_memory_bytes self in
  if allocated <? total_memory_bytes self then total_memory_bytes self - allocated else 0.

Definition load_ratio (self : NodeResourceCapacity) : f64 :=
  if total_memory_bytes self =? 0 then f64_of_Z 1
  else f64_div (f64_of_Z (allocated_memory_bytes self))
               (f64_of_Z (total_memory_bytes self)).

Record PlacementDecision := {
  selected_node_id : Z;
  target_numa_node : Z;
  allocated_vaddr : Z;
  size_bytes : Z;
  shard_id : Z;
}.

Record ClusterScheduler := {
  policy : SchedulingPolicy;
  config : SchedulerConfig;
  nodes : gmap Z NodeResourceCapacity;
  next_rr_index : Z;
  predictor : option PredictorM.Predictor;
  pressure_state : Hysteresis.MemoryPressureState;
}.

Definition new (policy : SchedulingPolicy) (config : SchedulerConfig) :
    ClusterScheduler :=
  {| policy := policy; config := config; nodes := ∅; next_rr_index := 0;
     predictor := None; pressure_state := Hysteresis.Nominal |}.

Definition from_config (config : Config.VirthubConfig) : ClusterScheduler :=
  new LeastLoaded (from_app_config config).

Definition with_nodes (self : ClusterScheduler)
    (ns : gmap Z NodeResourceCapacity) : ClusterScheduler :=
  {| policy := policy self; config := config self; nodes := ns;
     next_rr_index := next_rr_index self; predictor := predictor self;
     pressure_state := pressure_state self |}.

Definition with_rr (self : ClusterScheduler) (i : Z) : ClusterScheduler :=
  {| policy := policy self; config := config self; nodes := nodes self;
     next_rr_index := i; predictor := predictor self;
     pressure_state := pressure_state self |}.

Definition with_predictor (self : ClusterScheduler) (p : PredictorM.Predictor) :
    ClusterScheduler :=
  {| policy := policy self; config := config self; nodes := nodes self;
     next_rr_index := next_rr_index self; predictor := Some p;
     pressure_state := pressure_state self |}.

Definition with_pressure (self : ClusterScheduler)
    (h : Hysteresis.MemoryPressureState) : ClusterScheduler :=
  {| policy := policy self; config := config self; nodes := nodes self;
     next_rr_index := next_rr_index self; predictor := predictor self;
     pressure_state := h |}.

(** ** Precision prediction *)

Definition init_predictor `{BuildProfile} (self : ClusterScheduler)
    (total_layers : Z) : outcome ClusterScheduler :=
  p ← PredictorM.new total_layers; Ret (with_predictor self p).

Definition has_predictor (self : ClusterScheduler) : bool :=
  bool_decide (is_Some (predictor self)).

Definition update_memory_pressure (self : ClusterScheduler)
    (free_blocks total_blocks : Z) : ClusterScheduler :=
  if total_blocks =? 0 then self
  else
    let mu := f64_sub (f64_of_Z 1)
                (f64_div (f64_of_Z free_blocks) (f64_of_Z total_blocks)) in
    with_pressure self (Hysteresis.update (pressure_state self) mu).

Definition current_pressure_state (self : ClusterScheduler) :
    Hysteresis.MemoryPressureState :=
  pressure_state self.

Definition predict_block_policy `{BuildProfile} (self : ClusterScheduler)
    (layer_idx token_start seq_len head_mask : Z) (retrieval_flag : bool) :
    outcome (option Policy.PackedBlockPolicy) :=
  match predictor self with
  | Some p =>
      w ← PredictorM.predict p layer_idx token_start seq_len
            (current_pressure_state self) head_mask retrieval_flag;
      Ret (Some w)
  | None => Ret None
  end.

(** ** Registry *)

Definition register_node (self : ClusterScheduler) (c : NodeResourceCapacity) :
    ClusterScheduler :=
  with_nodes self (<[node_id c := c]> (nodes self)).

Definition unregister_node (self : ClusterScheduler) (id : Z) : ClusterScheduler :=
  with_nodes self (delete id (nodes self)).

Definition node_count (self : ClusterScheduler) : Z := Z.of_nat (size (nodes self)).

(** ** Placement *)

Definition candidate : Type := Z * Z * f64 * Z.

Definition c_id (c : candidate) : Z := c.1.1.1.
Definition c_load (c : candidate) : f64 := c.1.2.

(** The body of the candidate loop: [None] is [continue]. *)
Definition candidate_of (size : Z) (target_numa_hint : option Z)
    (capacity : NodeResourceCapacity) : option candidate :=
  if negb (is_online capacity) then None
  else
    let available := available_memory_bytes capacity in
    if available <? size then None
    else if match target_numa_hint with
            | Some hint => numa_nodes capacity <=? hint
            | None => false
            end then None
    else Some (node_id capacity, available, load_ratio capacity, numa_nodes capacity).

(** [Iterator::min_by] with [partial_cmp().unwrap_or(Equal)]: the later
    element replaces the minimum only when the minimum compares greater. *)
Fixpoint min_by_load (best : candidate) (l : list candidate) : candidate :=
  match l with
  | [] => best
  | c :: l' =>
      min_by_load (match SFcompare (c_load best) (c_load c) with
                   | Some Gt => c
                   | _ => best
                   end) l'
  end.

Section Schedule.
Context `{BuildProfile} `{!IterOrder NodeResourceCapacity}.

Definition candidates (self : ClusterScheduler) (size : Z) (hint : option Z) :
    list candidate :=
  omap (λ kv, candidate_of size hint kv.2) (iter_order (nodes self)).

(** The node the policy selects, and the round-robin counter after it. *)
Definition select_node (self : ClusterScheduler) (first : candidate)
    (rest : list candidate) : outcome (ClusterScheduler * Z) :=
  match policy self with
  | LeastLoaded => Ret (self, c_id (min_by_load first rest))
  | RoundRobin =>
      let cs := first :: rest in
      let idx := next_rr_index self `mod` Z.of_nat (length cs) in
      c ← unwrap (cs !! Z.to_nat idx);
      Ret (with_rr self (wrap 64 (next_rr_index self + 1)), c_id c)
  | NumaAffinity => Ret (self, c_id first)
  end.

Definition schedule_allocation (self : ClusterScheduler) (size : Z)
    (target_numa_hint : option Z) :
    outcome (ClusterScheduler * result SchedulerError PlacementDecision) :=
  match candidates self size target_numa_hint with
  | [] => Ret (self, Err (NoNodeAvailable size))
  | first :: rest =>
      '(self, selected_id) ← select_node self first rest;
      match nodes self !! selected_id with
      | None => Ret (self, Err (NodeNotFound selected_id))
      | Some node_ref =>
          let self := with_nodes self
            (<[selected_id := with_allocated node_ref
                 (wrap 64 (allocated_memory_bytes node_ref + size))]> (nodes self)) in
          if shard_count (config self) =? 0 then Panic
          else
            let shard := selected_id `mod` shard_count (config self) in
            base ← arith 64 (selected_id * 0x1000000000);
            vaddr ← arith 64 (0x7fff00000000 + base);
            Ret (self, Ok {| selected_node_id := selected_id;
                             target_numa_node := from_option id 0 target_numa_hint;
                             allocated_vaddr := vaddr;
                             size_bytes := size;
                             shard_id := shard |})
      end
  end.

Definition release_allocation (self : ClusterScheduler) (id size : Z) :
    ClusterScheduler :=
  match nodes self !! id with
  | None => self
  | Some node_ref =>
      let current := allocated_memory_bytes node_ref in
      with_nodes self
        (<[id := with_allocated node_ref
             (if size <=? current then current - size else 0)]> (nodes self))
  end.

End Schedule.
End Scheduler.

Module SchedulerFacts.
Import Scheduler.

(** What the registry guarantees of a node: its key is its identifier, small
    enough for its address window to fit, and its counter is within its size. *)
Definition node_ok (k : Z) (c : NodeResourceCapacity) : Prop :=
  node_id c = k ∧ 0 ≤ k ≤ 2 ^ 28 - 2048 ∧
  0 ≤ allocated_memory_bytes c ≤ total_memory_bytes c ∧
  total_memory_bytes c < 2 ^ 64.

Definition valid (self : ClusterScheduler) : Prop :=
  0 < shard_count (config self) ∧ 0 ≤ next_rr_index self ∧
  map_Forall node_ok (nodes self).

(** A node that can hold the request. *)
Definition eligible (size : Z) (hint : option Z) (c : NodeResourceCapacity) : Prop :=
  is_online c = true ∧ allocated_memory_bytes c + size ≤ total_memory_bytes c ∧
  ∀ h, hint = Some h → h < numa_nodes c.

Lemma load_ratio_not_nan k c : node_ok k c → is_nan (load_ratio c) = false.
Proof.
  intros (_ & _ & Ha & Ht). unfold load_ratio.
  destruct (Z.eqb_spec (total_memory_bytes c) 0); [done|].
  apply f64_div_not_nan; lia.
Qed.

Lemma available_exact k c :
  node_ok k c →
  available_memory_bytes c = total_memory_bytes c - allocated_memory_bytes c.
Proof.
  intros (_ & _ & Ha & _). unfold available_memory_bytes. case_if; reflect_bools; lia.
Qed.

Lemma candidate_of_spec size hint k c x :
  0 ≤ size → node_ok k c →
  candidate_of size hint c = Some x ↔
  eligible size hint c ∧
  x = (k, available_memory_bytes c, load_ratio c, numa_nodes c).
Proof.
  intros Hs Hok. pose proof (available_exact k c Hok) as Hav. destruct Hok as (<- & _).
  unfold candidate_of, eligible. rewrite Hav.
  destruct (is_online c); cbn [negb]; [|split; [done|by intros [[? _] _]]].
  destruct (Z.ltb_spec (total_memory_bytes c - allocated_memory_bytes c) size).
  { split; [done|]. intros [(_ & ? & _) _]. lia. }
  destruct hint as [h|]; [destruct (Z.leb_spec (numa_nodes c) h)|].
  - split; [done|]. intros [(_ & _ & Hh) _]. specialize (Hh h eq_refl). lia.
  - split; [|by intros [_ ->]].
    intros [= <-]. split_and!; auto; [lia|]. by intros ? [= <-].
  - split; [|by intros [_ ->]]. intros [= <-]. by split_and!; [|lia|..].
Qed.

Lemma SFcompare_leb x y :
  is_nan x = false → is_nan y = false →
  match SFcompare x y with Some Gt => f64_leb y x = true | _ => f64_leb x y = true end.
Proof.
  intros Hx Hy. destruct (f64_leb_total x y Hx Hy) as [E|E].
  - unfold f64_leb, SFleb in E |- *. by destruct (SFcompare x y) as [[]|].
  - destruct (SFcompare x y) as [[]|] eqn:C; try done; unfold f64_leb, SFleb; try by rewrite C.
    by destruct x as [|[]| |], y as [|[]| |].
Qed.

Lemma f64_leb_refl x : is_nan x = false → f64_leb x x = true.
Proof. intros Hx. by destruct (f64_leb_total x x Hx Hx). Qed.

(** [min_by] returns an element whose load is at most every other's. *)
Lemma min_by_load_spec l : ∀ b,
  (∀ c, c ∈ b :: l → is_nan (c_load c) = false) →
  min_by_load b l ∈ b :: l ∧
  ∀ c, c ∈ b :: l → f64_leb (c_load (min_by_load b l)) (c_load c) = true.
Proof.
  induction l as [|x l IH]; intros b Hn; cbn [min_by_load].
  { split; [by left|]. intros c Hc. apply list_elem_of_singleton in Hc as ->.
    apply f64_leb_refl, Hn. by left. }
  set (b' := match _ with Some Gt => x | _ => b end).
  pose proof (SFcompare_leb (c_load b) (c_load x)
    (Hn b ltac:(by left)) (Hn x ltac:(by right; left))) as Hcmp.
  assert (Hb' : b' = b ∨ b' = x) by (unfold b'; repeat case_match; auto).
  assert (Hle : f64_leb (c_load b') (c_load b) = true ∧
                f64_leb (c_load b') (c_load x) = true).
  { unfold b'. pose proof (f64_leb_refl (c_load b) (Hn b ltac:(by left))).
    pose proof (f64_leb_refl (c_load x) (Hn x ltac:(by right; left))).
    by destruct (SFcompare (c_load b) (c_load x)) as [[]|]. }
  assert (Hsub : ∀ c, c ∈ b' :: l → c ∈ b :: x :: l).
  { intros c. rewrite !elem_of_cons. intros [->|Hc]; [destruct Hb' as [->| ->]|]; auto. }
  destruct (IH b') as [Hin Hmin]; [by auto|].
  split; [by apply Hsub|]. intros c Hc.
  apply elem_of_cons in Hc as [->|Hc]; [|apply elem_of_cons in Hc as [->|Hc]].
  - eapply f64_leb_trans; [apply Hmin; by left|apply Hle].
  - eapply f64_leb_trans; [apply Hmin; by left|apply Hle].
  - apply Hmin. by right.
Qed.

Section Facts.
Context `{BuildProfile} `{!IterOrder NodeResourceCapacity}
        `{!IterOrderLaws NodeResourceCapacity}.

Lemma elem_of_candidates self size hint x :
  valid self → 0 ≤ size →
  x ∈ candidates self size hint ↔
  ∃ k c, nodes self !! k = Some c ∧ eligible size hint c ∧
         x = (k, available_memory_bytes c, load_ratio c, numa_nodes c).
Proof.
  intros (_ & _ & Hv) Hs. unfold candidates. rewrite list_elem_of_omap. split.
  - intros ([k c] & Hkc%elem_of_iter_order & Hx).
    apply (candidate_of_spec size hint k c) in Hx; [|done|by apply Hv].
    exists k, c. by destruct Hx.
  - intros (k & c & Hk & He & Hx). exists (k, c).
    split; [by apply elem_of_iter_order|]. cbn [snd].
    apply (candidate_of_spec size hint k c); auto.
Qed.

(** The selection returns one of the candidates, the least loaded one under
    that policy, and changes only the round-robin counter. *)
Lemma select_node_spec self first rest :
  0 ≤ next_rr_index self →
  (∀ c, c ∈ first :: rest → is_nan (c_load c) = false) →
  ∃ rr x, select_node self first rest = Ret (with_rr self rr, c_id x) ∧
    0 ≤ rr ∧ x ∈ first :: rest ∧
    (policy self = LeastLoaded →
     ∀ c, c ∈ first :: rest → f64_leb (c_load x) (c_load c) = true).
Proof.
  intros Hrr Hn. unfold select_node.
  assert (Hid : with_rr self (next_rr_index self) = self) by (by destruct self).
  destruct (policy self) eqn:Hp.
  - destruct (min_by_load_spec rest first Hn) as [Hin Hmin].
    exists (next_rr_index self), (min_by_load first rest). by rewrite Hid.
  - pose proof (Z.mod_pos_bound (next_rr_index self) (Z.of_nat (length (first :: rest))))
      as Hb. cbn [length] in Hb |- *.
    set (i := Z.to_nat _).
    destruct (lookup_lt_is_Some_2 (first :: rest) i) as [x Hx]; [cbn [length]; unfold i; lia|].
    rewrite Hx. exists (wrap 64 (next_rr_index self + 1)), x. cbn [unwrap mbind].
    split_and!; [done| |by eapply list_elem_of_lookup_2|done].
    apply Z.mod_pos_bound. lia.
  - exists (next_rr_index self), first. rewrite Hid.
    split_and!; [done|done|by left|done].
Qed.

End Facts.
End SchedulerFacts.

Module SchedulerTheorems.
Import Scheduler SchedulerFacts.

Lemma wrap_vaddr_fits k : 0 ≤ k ≤ 2 ^ 28 - 2048 →
  0 ≤ k * 0x1000000000 < 2 ^ 64 ∧ 0 ≤ 0x7fff00000000 + k * 0x1000000000 < 2 ^ 64.
Proof. lia. Qed.

(** The registry after a reservation or release on a node. *)
Lemma valid_set_allocated self rr k c v :
  valid self → 0 ≤ rr → nodes self !! k = Some c → 0 ≤ v ≤ total_memory_bytes c →
  valid (with_nodes (with_rr self rr) (<[k := with_allocated c v]> (nodes self))).
Proof.
  intros (Hs & _ & Hv) Hrr Hk Hb. split_and!; [done|done|].
  apply map_Forall_insert_2; [|done].
  destruct (Hv k c Hk) as (? & ? & ? & ?). split_and!; cbn; auto; lia.
Qed.

Section Theorems.
Context `{BuildProfile} `{!IterOrder NodeResourceCapacity}
        `{!IterOrderLaws NodeResourceCapacity}.

(** What [schedule_allocation] promises on each outcome. *)
Definition schedule_post (self : ClusterScheduler) (size : Z) (hint : option Z)
    (r : outcome (ClusterScheduler * result SchedulerError PlacementDecision)) : Prop :=
  match r with
  | Ret (self', Ok d) =>
      let k := selected_node_id d in
      ∃ rr c, nodes self !! k = Some c ∧ eligible size hint c ∧
        self' = with_nodes (with_rr self rr)
          (<[k := with_allocated c (allocated_memory_bytes c + size)]> (nodes self)) ∧
        valid self' ∧
        size_bytes d = size ∧ target_numa_node d = from_option id 0 hint ∧
        0 ≤ shard_id d < shard_count (config self) ∧
        allocated_vaddr d = 0x7fff00000000 + k * 0x1000000000 ∧
        (policy self = LeastLoaded →
         ∀ k' c', nodes self !! k' = Some c' → eligible size hint c' →
         f64_leb (load_ratio c) (load_ratio c') = true)
  | Ret (self', Err e) =>
      e = NoNodeAvailable size ∧ self' = self ∧
      map_Forall (λ _ c, ¬ eligible size hint c) (nodes self)
  | Panic | OutOfFuel => False
  end.

Lemma schedule_allocation_post (self : ClusterScheduler) (size : Z)
    (hint : option Z) :
  valid self → 0 ≤ size →
  schedule_post self size hint (schedule_allocation self size hint).
Proof.
  intros Hv Hs. unfold schedule_allocation.
  pose proof (λ x, elem_of_candidates self size hint x Hv Hs) as Hc.
  destruct (candidates self size hint) as [|first rest].
  { cbn. split_and!; [done|done|]. intros k c Hk He.
    eapply not_elem_of_nil, Hc. eauto. }
  destruct (select_node_spec self first rest) as (rr & x & -> & Hrr & Hx & Hmin).
  { by destruct Hv as (_ & ? & _). }
  { intros c (k & n & Hk & _ & ->)%Hc. eapply load_ratio_not_nan, Hv, Hk. }
  apply Hc in Hx as (k & c & Hk & He & ->). monad_simpl; cbn [c_id fst nodes with_rr].
  pose proof (proj2 (proj2 Hv) k c Hk) as (_ & Hkb & Hab & Htb).
  rewrite Hk. destruct Hv as (Hsh & Hr & Hn). cbn [config with_nodes with_rr].
  rewrite (proj2 (Z.eqb_neq _ _)) by lia.
  destruct (wrap_vaddr_fits k Hkb) as [Hf1 Hf2].
  rewrite arith_ret by done. monad_simpl. rewrite arith_ret by done. monad_simpl.
  rewrite wrap_small by (destruct He; lia).
  exists rr, c. split_and!; try done.
  - apply valid_set_allocated; [done|done|done|]. destruct He; lia.
  - by apply Z.mod_pos_bound.
  - by apply Z.mod_pos_bound.
  - intros Hp k' c' Hk' He'. apply (Hmin Hp (k', available_memory_bytes c', load_ratio c', numa_nodes c')).
    apply Hc. by exists k', c'.
Qed.

(** C24. A placement request is answered correctly whatever the policy and the
    order in which the registry is iterated, on a scheduler with at least one
    shard whose registry holds every node under its own identifier, at most
    2^28 - 2048, with no more bytes allocated than it has: a decision names a registered,
    online node with room for the request and enough NUMA nodes, reserves
    exactly the requested bytes on it and nothing elsewhere, keeps every
    counter within its node's memory, and under [LeastLoaded] no eligible node
    has a smaller load ratio (as the double the code compares); an error is
    returned only when no node is eligible, and then nothing changes. *)
Theorem schedule_allocation_correct (self : ClusterScheduler) (size : Z)
    (hint : option Z) :
  valid self → 0 ≤ size →
  schedule_post self size hint (schedule_allocation self size hint).
Proof. apply schedule_allocation_post. Qed.

(** ** Accounting

    A client places regions and later releases placements it holds; [live] is
    the list of the decisions it holds. *)

Definition live_on (k : Z) (live : list PlacementDecision) : Z :=
  zsum_with (λ d, if selected_node_id d =? k then size_bytes d else 0) live.

Inductive client_step : ClusterScheduler * list PlacementDecision →
    ClusterScheduler * list PlacementDecision → Prop :=
  | step_placed s live size hint s' d :
      0 ≤ size → schedule_allocation s size hint = Ret (s', Ok d) →
      client_step (s, live) (s', d :: live)
  | step_refused s live size hint s' e :
      0 ≤ size → schedule_allocation s size hint = Ret (s', Err e) →
      client_step (s, live) (s', live)
  | step_release s live i d :
      live !! i = Some d →
      client_step (s, live)
        (release_allocation s (selected_node_id d) (size_bytes d), delete i live).

(** Every node is as registered, except that its counter has grown by the
    live placements on it. *)
Definition accounted (s0 s : ClusterScheduler) (live : list PlacementDecision) : Prop :=
  (∀ k, nodes s !! k =
     (λ c, with_allocated c (allocated_memory_bytes c + live_on k live)) <$> nodes s0 !! k) ∧
  Forall (λ d, 0 ≤ size_bytes d) live.

Lemma live_on_nonneg k live : Forall (λ d, 0 ≤ size_bytes d) live → 0 ≤ live_on k live.
Proof.
  intros Hl. apply zsum_with_nonneg. eapply Forall_impl; [exact Hl|].
  intros d Hd. cbv beta in *. destruct (_ =? _); lia.
Qed.

Lemma with_allocated_twice c v w :
  with_allocated (with_allocated c v) w = with_allocated c w.
Proof. done. Qed.

Lemma release_accounted s0 s live i d :
  valid s0 → valid s → accounted s0 s live → live !! i = Some d →
  let s' := release_allocation s (selected_node_id d) (size_bytes d) in
  valid s' ∧ accounted s0 s' (delete i live).
Proof.
  intros Hv0 Hv [Ha Hl] Hi. cbv zeta. unfold release_allocation.
  assert (Hl' : Forall (λ d, 0 ≤ size_bytes d) (delete i live)) by (by apply Forall_delete).
  pose proof (Forall_lookup_1 _ _ _ _ Hl Hi) as Hd. cbv beta in Hd.
  pose proof (live_on_nonneg (selected_node_id d) _ Hl') as Hnn.
  assert (Hdel : ∀ k, live_on k live = (if selected_node_id d =? k then size_bytes d else 0) +
    live_on k (delete i live)) 
    by (intros k; exact (zsum_with_delete (λ d, if selected_node_id d =? k then _ else 0) _ _ _ Hi)).
  pose proof (Hdel (selected_node_id d)) as Hdd. rewrite Z.eqb_refl in Hdd.
  pose proof (Ha (selected_node_id d)) as Hk.
  destruct (nodes s0 !! selected_node_id d) as [c0|] eqn:Hc0; cbn in Hk; rewrite Hk.
  - pose proof (proj2 (proj2 Hv0) _ _ Hc0) as (_ & _ & Hb0 & _).
    pose proof (proj2 (proj2 Hv) _ _ Hk) as (_ & _ & Hb & _).
    cbn [allocated_memory_bytes total_memory_bytes with_allocated] in Hb |- *.
    rewrite (proj2 (Z.leb_le _ _)) by lia. split.
    + apply (valid_set_allocated s (next_rr_index s) _ _ _ Hv); [apply Hv|done|cbn; lia].
    + split; [|done]. intros k. cbn [nodes with_nodes].
      destruct (Z.eqb_spec (selected_node_id d) k) as [<-|Hne].
      * rewrite lookup_insert_eq, Hc0, with_allocated_twice. cbn. do 2 f_equal. lia.
      * rewrite lookup_insert_ne, Ha, Hdel, (proj2 (Z.eqb_neq _ _)) by done. done.
  - split; [done|]. split; [|done]. intros k. rewrite Ha.
    destruct (Z.eqb_spec (selected_node_id d) k) as [<-|Hne]; [by rewrite Hc0|].
    rewrite Hdel, (proj2 (Z.eqb_neq _ _)) by done. done.
Qed.

Lemma step_accounted s0 s live s' live' :
  valid s0 → valid s → accounted s0 s live → client_step (s, live) (s', live') →
  valid s' ∧ accounted s0 s' live'.
Proof.
  intros Hv0 Hv Hacc Hst. pose proof Hacc as [Ha Hl]. inversion Hst as [? ? ? ? ? ? Hs E|? ? ? ? ? ? Hs E|? ? ? d Hi]; subst.
  - pose proof (schedule_allocation_post _ size hint Hv Hs) as Hp. rewrite E in Hp.
    destruct Hp as (rr & c & Hk & _ & -> & Hv' & Hsz & _).
    split; [done|]. split; [|constructor; [lia|done]].
    intros k. unfold live_on. cbn [nodes with_nodes zsum_with]. fold (live_on k live).
    destruct (Z.eqb_spec (selected_node_id d) k) as [<-|Hne].
    + rewrite lookup_insert_eq. rewrite Ha in Hk.
      destruct (nodes s0 !! selected_node_id d) as [c0|]; [|done].
      injection Hk as <-. cbn. f_equal. rewrite with_allocated_twice. f_equal. lia.
    + by rewrite lookup_insert_ne, Ha by done.
  - pose proof (schedule_allocation_post _ size hint Hv Hs) as Hp. rewrite E in Hp.
    by destruct Hp as (_ & -> & _).
  - by apply release_accounted.
Qed.

(** The counters account for the live placements: after any sequence of
    placements, refusals and releases of placements the client holds, every
    registered node is still registered unchanged, except that its counter is
    the initial one plus the sizes of the placements live on it, which never
    exceeds its memory; so releasing everything restores the counters. *)
Theorem placements_accounted (s0 s : ClusterScheduler) (live : list PlacementDecision) :
  valid s0 → rtc client_step (s0, []) (s, live) →
  accounted s0 s live ∧
  map_Forall (λ _ c, allocated_memory_bytes c ≤ total_memory_bytes c) (nodes s).
Proof.
  intros Hv Hrun.
  cut (valid s ∧ accounted s0 s live).
  { intros [(_ & _ & Hn) Hacc]. split; [done|]. intros k c Hk.
    by destruct (Hn k c Hk) as (_ & _ & [_ ?] & _). }
  refine (rtc_ind_r (λ st, valid st.1 ∧ accounted s0 st.1 st.2) (s0, []) _ _ _ Hrun).
  - split; [done|]. split; [|by apply Forall_nil]. intros k. cbn [fst snd live_on zsum_with].
    destruct (nodes s0 !! k) as [c|]; [|done]. cbn. f_equal.
    rewrite Z.add_0_r. by destruct c.
  - intros [s1 l1] [s2 l2] _ Hst [? ?]. by eapply step_accounted.
Qed.

End Theorems.

(** Two 10 GiB nodes, as in the tests of the source. *)
Definition two_nodes : ClusterScheduler :=
  register_node
    (register_node (new LeastLoaded default_config)
       (new_capacity 1 10737418240 2))
    (new_capacity 2 10737418240 2).

Lemma two_nodes_valid : valid two_nodes.
Proof.
  split_and!; [done|done|].
  repeat (apply map_Forall_insert_2; [by split_and!|]). apply map_Forall_empty.
Qed.

#[local] Instance in_key_order : IterOrder NodeResourceCapacity := map_to_list.
#[local] Instance in_key_order_laws : IterOrderLaws NodeResourceCapacity.
Proof. intros m; reflexivity. Qed.

Lemma schedule_allocation_correct_witness :
  schedule_post two_nodes 1024 (Some 1)
    (schedule_allocation (H := Dev) two_nodes 1024 (Some 1)).
Proof.
  apply (schedule_allocation_correct (H := Dev) two_nodes 1024 (Some 1));
    [apply two_nodes_valid|lia].
Defined.

Definition placed : PlacementDecision :=
  {| selected_node_id := 2; target_numa_node := 0;
     allocated_vaddr := 0x7fff00000000 + 2 * 0x1000000000; size_bytes := 1024;
     shard_id := 2 |}.

Definition after_placed : ClusterScheduler :=
  with_nodes two_nodes
    (<[2 := with_allocated (new_capacity 2 10737418240 2) 1024]> (nodes two_nodes)).

Lemma schedule_two_nodes :
  schedule_allocation (H := Dev) two_nodes 1024 None = Ret (after_placed, Ok placed).
Proof. vm_compute. reflexivity. Qed.

Lemma placements_accounted_witness :
  accounted two_nodes after_placed [placed] ∧
  map_Forall (λ _ c, allocated_memory_bytes c ≤ total_memory_bytes c) (nodes after_placed).
Proof.
  apply (placements_accounted (H := Dev) two_nodes after_placed [placed]).
  - apply two_nodes_valid.
  - apply rtc_once. apply (step_placed _ _ 1024 None); [lia|apply schedule_two_nodes].
Defined.

(** The memory-pressure test of the source expects [Nominal] after the second
    update; the code needs one update per level on the way down. *)
Lemma pressure_relaxes_one_level :
  let s1 := update_memory_pressure two_nodes 10 100 in
  let s2 := update_memory_pressure s1 90 100 in
  current_pressure_state s1 = Hysteresis.Critical ∧
  current_pressure_state s2 = Hysteresis.Elevated.
Proof. split; vm_compute; reflexivity. Qed.

(** With more free than total blocks the ratio is negative: it is not clamped. *)
Lemma pressure_not_clamped :
  f64_ltb (f64_sub (f64_of_Z 1) (f64_div (f64_of_Z 300) (f64_of_Z 100))) (f64_of_Z 0) = true.
Proof. vm_compute. reflexivity. Qed.

(** A zero shard count makes every successful placement panic, after the
    memory has been reserved. *)
Lemma zero_shards_panic :
  let cfg := {| prefetch_window := 8; l0_promote_threshold := 100;
                l1_demote_idle_secs := 60; lru_decay := f64_lit 8 10;
                shard_count := 0 |} in
  schedule_allocation (H := Release)
    (register_node (new LeastLoaded cfg) (new_capacity 1 4096 1)) 1024 None = Panic.
Proof. vm_compute. reflexivity. Qed.

End SchedulerTheorems.
