(* ===== verification/Coordinator.v ===== *)
(** * Cluster membership

    [Coordinator] models [master/src/coordinator.rs]: registration, heartbeats
    and eviction of nodes.  Instants are nanoseconds on a monotonic clock and
    are arguments of the operations that read the clock.  [Membership] is the
    abstract specification, the set of members with their last heartbeat, and
    the theorem shows that the coordinator implements it. *)

From stdpp Require Import strings.
From S2P Require Import Prelude.

Module Coordinator.

Inductive MasterError :=
  | Internal (msg : string)
  | NodeAlreadyExists (id : Z)
  | NodeNotFound (id : Z)
  | BindError (addr reason : string).

Record NodeDescriptor := {
  node_id : Z;
  endpoint_addr : string;
  last_heartbeat : Z;
  is_active : bool;
}.

Record MasterCoordinatorConfig := {
  heartbeat_timeout_ms : Z;
  listen_addr : string;
}.

Definition default_config : MasterCoordinatorConfig :=
  {| heartbeat_timeout_ms := 5000; listen_addr := "0.0.0.0:9090" |}.

Record CoordinatorMetrics := {
  total_registrations : Z;
  total_heartbeats : Z;
  total_evictions : Z;
}.

Record MasterCoordinator := {
  config : MasterCoordinatorConfig;
  nodes : gmap Z NodeDescriptor;
  running : bool;
  active_count : Z;
  metrics : CoordinatorMetrics;
}.

Definition new (config : MasterCoordinatorConfig) : MasterCoordinator :=
  {| config := config; nodes := ∅; running := true; active_count := 0;
     metrics := {| total_registrations := 0; total_heartbeats := 0;
                   total_evictions := 0 |} |}.

(** The state after the node table, the counter and the metrics are stored. *)
Definition store (self : MasterCoordinator) (ns : gmap Z NodeDescriptor)
    (count : Z) (m : CoordinatorMetrics) : MasterCoordinator :=
  {| config := config self; nodes := ns; running := running self;
     active_count := count; metrics := m |}.

(** [fetch_add] and [fetch_sub] wrap. *)
Definition fetch_add (a n : Z) : Z := wrap 64 (a + n).
Definition fetch_sub (a n : Z) : Z := wrap 64 (a - n).

Definition register_node (self : MasterCoordinator) (now id : Z)
    (endpoint_addr : string) : MasterCoordinator * result MasterError () :=
  if decide (is_Some (nodes self !! id)) then (self, Err (NodeAlreadyExists id))
  else
    let descriptor := {| node_id := id; endpoint_addr := endpoint_addr;
                         last_heartbeat := now; is_active := true |} in
    let m := metrics self in
    (store self (<[id := descriptor]> (nodes self))
       (fetch_add (active_count self) 1)
       {| total_registrations := fetch_add (total_registrations m) 1;
          total_heartbeats := total_heartbeats m;
          total_evictions := total_evictions m |},
     Ok tt).

Definition record_heartbeat (self : MasterCoordinator) (now id : Z) :
    MasterCoordinator * result MasterError () :=
  match nodes self !! id with
  | Some node =>
      let count := if is_active node then active_count self
                   else fetch_add (active_count self) 1 in
      let node' := {| node_id := node_id node; endpoint_addr := endpoint_addr node;
                      last_heartbeat := now; is_active := true |} in
      let m := metrics self in
      (store self (<[id := node']> (nodes self)) count
         {| total_registrations := total_registrations m;
            total_heartbeats := fetch_add (total_heartbeats m) 1;
            total_evictions := total_evictions m |},
       Ok tt)
  | None => (self, Err (NodeNotFound id))
  end.

Definition active_node_count (self : MasterCoordinator) : Z := active_count self.

(** [Instant::elapsed] saturates at zero. *)
Definition elapsed (now since : Z) : Z := Z.max 0 (now - since).

Definition timeout_ns (self : MasterCoordinator) : Z :=
  heartbeat_timeout_ms (config self) * 1000000.

Definition is_stale (self : MasterCoordinator) (now : Z) (desc : NodeDescriptor) : bool :=
  is_active desc && (timeout_ns self <? elapsed now (last_heartbeat desc)).

Definition deactivate (desc : NodeDescriptor) : NodeDescriptor :=
  {| node_id := node_id desc; endpoint_addr := endpoint_addr desc;
     last_heartbeat := last_heartbeat desc; is_active := false |}.

(** [clock id] is the instant at which the scan reads the clock for [id]. *)
Definition stale_ids `{!IterOrder NodeDescriptor} (self : MasterCoordinator)
    (clock : Z → Z) : list Z :=
  (filter (λ kv, is_stale self (clock kv.1) kv.2 = true) (iter_order (nodes self))).*1.

Definition evict_stale_nodes `{!IterOrder NodeDescriptor} (self : MasterCoordinator)
    (clock : Z → Z) : MasterCoordinator * list Z :=
  let stale := stale_ids self clock in
  let marked := foldl (λ ns id, alter deactivate id ns) (nodes self) stale in
  let remaining := foldl (λ ns id, delete id ns) marked stale in
  let n := Z.of_nat (length stale) in
  let m := metrics self in
  (if decide (stale = []) then store self remaining (active_count self) m
   else store self remaining (fetch_sub (active_count self) n)
          {| total_registrations := total_registrations m;
             total_heartbeats := total_heartbeats m;
             total_evictions := fetch_add (total_evictions m) n |},
   stale).

Definition remove_node (self : MasterCoordinator) (id : Z) :
    MasterCoordinator * result MasterError () :=
  match nodes self !! id with
  | Some desc =>
      (store self (delete id (nodes self))
         (if is_active desc then fetch_sub (active_count self) 1 else active_count self)
         (metrics self),
       Ok tt)
  | None => (self, Err (NodeNotFound id))
  end.

Definition get_node (self : MasterCoordinator) (id : Z) : result MasterError NodeDescriptor :=
  ok_or (nodes self !! id) (NodeNotFound id).

Definition get_all_nodes `{!IterOrder NodeDescriptor} (self : MasterCoordinator) :
    list NodeDescriptor :=
  (iter_order (nodes self)).*2.

Definition shutdown (self : MasterCoordinator) : MasterCoordinator :=
  {| config := config self; nodes := nodes self; running := false;
     active_count := active_count self; metrics := metrics self |}.

Definition get_metrics (self : MasterCoordinator) : CoordinatorMetrics := metrics self.

End Coordinator.

(** ** The specification: who is a member, and since when it was last heard *)

Module Membership.
Import Coordinator.

Abbreviation t := (gmap Z (string * Z)) (only parsing).

Inductive op :=
  | OpRegister (now id : Z) (addr : string)
  | OpHeartbeat (now id : Z)
  | OpEvict (clock : Z → Z)
  | OpRemove (id : Z).

Inductive answer := Done (r : result MasterError ()) | Evicted (ids : gset Z).

(** A member is silent when it was not heard for longer than the timeout. *)
Definition silent (timeout : Z) (clock : Z → Z) (kv : Z * (string * Z)) : Prop :=
  timeout < Z.max 0 (clock kv.1 - kv.2.2).

#[export] Instance silent_dec timeout clock kv : Decision (silent timeout clock kv).
Proof. unfold silent. apply _. Defined.

Definition step (timeout : Z) (m : t) (o : op) : t * answer :=
  match o with
  | OpRegister now id addr =>
      match m !! id with
      | Some _ => (m, Done (Err (NodeAlreadyExists id)))
      | None => (<[id := (addr, now)]> m, Done (Ok tt))
      end
  | OpHeartbeat now id =>
      match m !! id with
      | Some (addr, _) => (<[id := (addr, now)]> m, Done (Ok tt))
      | None => (m, Done (Err (NodeNotFound id)))
      end
  | OpEvict clock =>
      (filter (λ kv, ¬ silent timeout clock kv) m,
       Evicted (dom (filter (silent timeout clock) m)))
  | OpRemove id =>
      match m !! id with
      | Some _ => (delete id m, Done (Ok tt))
      | None => (m, Done (Err (NodeNotFound id)))
      end
  end.

End Membership.

Module CoordinatorTheorems.
Import Coordinator Membership.

(** The membership a coordinator stands for. *)
Definition members (s : MasterCoordinator) : Membership.t :=
  (λ d, (endpoint_addr d, last_heartbeat d)) <$> nodes s.

(** Every node in the table is active and stored under its identifier, a
    [u32]; the counter is the number of nodes. *)
Definition node_ok (k : Z) (d : NodeDescriptor) : Prop :=
  node_id d = k ∧ is_active d = true ∧ 0 ≤ k < 2 ^ 32.

Definition inv (s : MasterCoordinator) : Prop :=
  map_Forall node_ok (nodes s) ∧ active_count s = Z.of_nat (size (nodes s)).

Definition op_ok (o : Membership.op) : Prop :=
  match o with
  | OpRegister _ id _ | OpHeartbeat _ id | OpRemove id => 0 ≤ id < 2 ^ 32
  | OpEvict _ => True
  end.

Lemma size_bound {A} (m : gmap Z A) (n : Z) :
  0 ≤ n → map_Forall (λ k _, 0 ≤ k < n) m → Z.of_nat (size m) ≤ n.
Proof.
  intros Hn Hm. rewrite <- length_map_to_list, <- (length_fmap fst).
  assert ((map_to_list m).*1 ⊆+ seqZ 0 n) as Hsub%submseteq_length.
  { apply NoDup_submseteq; [apply NoDup_fst_map_to_list|]. intros k Hk.
    apply elem_of_seqZ. apply list_elem_of_fmap in Hk as ([k' v] & -> & Hkv).
    apply elem_of_map_to_list in Hkv. apply (Hm k' v) in Hkv. cbn. lia. }
  rewrite length_seqZ in Hsub. lia.
Qed.

Lemma inv_size s : inv s → 0 ≤ Z.of_nat (size (nodes s)) ≤ 2 ^ 32.
Proof.
  intros [Hn _]. split; [lia|]. apply size_bound; [lia|].
  intros k d Hk. by destruct (Hn k d Hk) as (_ & _ & ?).
Qed.

(** Marking and removing a list of identifiers deletes exactly those. *)
Lemma foldl_alter_lookup (l : list Z) : ∀ (m : gmap Z NodeDescriptor) k,
  k ∉ l → foldl (λ ns id, alter deactivate id ns) m l !! k = m !! k.
Proof.
  induction l as [|x l IH]; intros m k Hk; [done|]. cbn [foldl].
  apply not_elem_of_cons in Hk as [Hkx Hkl].
  rewrite (IH _ _ Hkl). by apply lookup_alter_ne.
Qed.

Lemma NoDup_fst_filter {A} (P : Z * A → Prop) `{∀ x, Decision (P x)} (l : list (Z * A)) :
  NoDup l.*1 → NoDup (filter P l).*1.
Proof.
  induction l as [|x l IH]; [done|]. rewrite fmap_cons. intros [Hx Hl]%NoDup_cons.
  rewrite filter_cons. case_decide; [|by apply IH]. rewrite fmap_cons.
  apply NoDup_cons. split; [|by apply IH].
  rewrite list_elem_of_fmap. intros (y & Hy & Hin). apply Hx.
  rewrite Hy. apply list_elem_of_fmap_2. by apply list_elem_of_filter in Hin as [_ ?].
Qed.

Section Refinement.
Context `{!IterOrder NodeDescriptor} `{!IterOrderLaws NodeDescriptor}.

(** The operations of the coordinator, with the answers of the specification. *)
Definition cstep (s : MasterCoordinator) (o : Membership.op) :
    MasterCoordinator * Membership.answer :=
  match o with
  | OpRegister now id addr =>
      let '(s', r) := register_node s now id addr in (s', Done r)
  | OpHeartbeat now id => let '(s', r) := record_heartbeat s now id in (s', Done r)
  | OpEvict clock =>
      let '(s', ids) := evict_stale_nodes s clock in (s', Evicted (list_to_set ids))
  | OpRemove id => let '(s', r) := remove_node s id in (s', Done r)
  end.

Lemma elem_of_stale s clock k :
  k ∈ stale_ids s clock ↔
  ∃ d, nodes s !! k = Some d ∧ is_stale s (clock k) d = true.
Proof.
  unfold stale_ids. rewrite list_elem_of_fmap. split.
  - intros ([k' d] & -> & Hf). apply list_elem_of_filter in Hf as [Hs Hkv].
    apply elem_of_iter_order in Hkv. eauto.
  - intros (d & Hk & Hs). exists (k, d). split; [done|].
    apply list_elem_of_filter. by rewrite elem_of_iter_order.
Qed.

Lemma stale_NoDup s clock : NoDup (stale_ids s clock).
Proof.
  apply NoDup_fst_filter, iter_order_NoDup.
Qed.

Lemma evict_lookup s clock k :
  nodes (evict_stale_nodes s clock).1 !! k =
  if bool_decide (k ∈ stale_ids s clock) then None else nodes s !! k.
Proof.
  unfold evict_stale_nodes. cbn [fst].
  transitivity (foldl (λ ns id, delete id ns)
    (foldl (λ ns id, alter deactivate id ns) (nodes s) (stale_ids s clock))
    (stale_ids s clock) !! k); [by case_decide|].
  rewrite foldl_delete_lookup. case_bool_decide; [done|]. by apply foldl_alter_lookup.
Qed.

Lemma foldl_delete_size {A} (l : list Z) : ∀ m : gmap Z A,
  NoDup l → (∀ k, k ∈ l → is_Some (m !! k)) →
  Z.of_nat (size (foldl (λ ns id, delete id ns) m l)) = Z.of_nat (size m) - Z.of_nat (length l).
Proof.
  induction l as [|x l IH]; intros m Hnd Hin; cbn [foldl length]; [lia|].
  apply NoDup_cons in Hnd as [Hx Hnd].
  destruct (Hin x) as [v Hv]; [by left|].
  rewrite IH; [|done|].
  - rewrite map_size_delete_Some by eauto.
    assert (0 < size m)%nat by (apply Nat.neq_0_lt_0, map_size_non_empty_iff; by intros ->). lia.
  - intros k Hk. rewrite lookup_delete_ne by (by intros ->). apply Hin. by right.
Qed.

Lemma evict_nodes s clock :
  nodes (evict_stale_nodes s clock).1 =
  foldl (λ ns id, delete id ns) (nodes s) (stale_ids s clock).
Proof. apply map_eq. intros k. by rewrite evict_lookup, foldl_delete_lookup. Qed.

Lemma is_stale_silent s now k d :
  node_ok k d →
  is_stale s (now k) d = true ↔
  silent (timeout_ns s) now (k, (endpoint_addr d, last_heartbeat d)).
Proof.
  intros (_ & Ha & _). unfold is_stale, silent, elapsed. rewrite Ha. cbn. lia.
Qed.

Lemma evict_inv s clock : inv s → inv (evict_stale_nodes s clock).1.
Proof.
  intros Hinv. pose proof (inv_size s Hinv) as Hsz. destruct Hinv as [Hn Hc]. split.
  - intros k d. rewrite evict_lookup. case_bool_decide; [done|]. apply Hn.
  - rewrite evict_nodes, foldl_delete_size; [|apply stale_NoDup|].
    2:{ intros k (d & -> & _)%elem_of_stale. eauto. }
    unfold evict_stale_nodes. cbn [fst].
    destruct (decide (stale_ids s clock = [])) as [->|Hne]; cbn [active_count store].
    { cbn [length]. lia. }
    unfold fetch_sub. rewrite wrap_small; [lia|].
    assert (Z.of_nat (length (stale_ids s clock)) ≤ Z.of_nat (size (nodes s))).
    { rewrite <- iter_order_length. unfold stale_ids. rewrite length_fmap.
      apply inj_le, length_filter. }
    lia.
Qed.

Lemma evict_members s clock :
  inv s →
  members (evict_stale_nodes s clock).1 =
    filter (λ kv, ¬ silent (timeout_ns s) clock kv) (members s) ∧
  list_to_set (stale_ids s clock) =
    dom (filter (silent (timeout_ns s) clock) (members s)).
Proof.
  intros [Hn _]. split.
  - apply map_eq. intros k. unfold members.
    rewrite map_lookup_filter, !lookup_fmap, evict_lookup.
    destruct (nodes s !! k) as [d|] eqn:Hk; cbn; [|by case_bool_decide].
    pose proof (is_stale_silent s clock k d (Hn k d Hk)) as Hs.
    destruct (bool_decide_reflect (k ∈ stale_ids s clock)) as [He|He].
    + apply elem_of_stale in He as (d' & Hk' & Hst). simplify_eq.
      rewrite option_guard_False; [done|]. intros H. by apply H, Hs.
    + rewrite option_guard_True; [done|]. intros H. apply He, elem_of_stale.
      exists d. split; [done|by apply Hs].
  - apply set_eq. intros k. rewrite elem_of_list_to_set, elem_of_stale, elem_of_dom.
    unfold is_Some. setoid_rewrite map_lookup_filter_Some. unfold members.
    split.
    + intros (d & Hk & Hs). exists (endpoint_addr d, last_heartbeat d).
      rewrite lookup_fmap, Hk. split; [done|]. by apply is_stale_silent; [apply Hn|].
    + intros (v & Hv & Hs). rewrite lookup_fmap in Hv.
      destruct (nodes s !! k) as [d|] eqn:Hk; [|done]. injection Hv as <-.
      exists d. split; [done|]. by apply is_stale_silent; [apply Hn|].
Qed.

Lemma inv_insert s k d :
  inv s → node_ok k d →
  map_Forall node_ok (<[k := d]> (nodes s)) ∧
  Z.of_nat (size (<[k := d]> (nodes s))) =
    Z.of_nat (size (nodes s)) + (if decide (is_Some (nodes s !! k)) then 0 else 1).
Proof.
  intros [Hn _] Hd. split; [by apply map_Forall_insert_2|].
  destruct (nodes s !! k) as [d'|] eqn:Hk.
  - rewrite decide_True, map_size_insert_Some by eauto. lia.
  - rewrite decide_False, map_size_insert_None by (by try intros [? ?]). lia.
Qed.

(** One operation keeps the invariant and is the specification's step. *)
Lemma cstep_refines s o :
  inv s → op_ok o →
  inv (cstep s o).1 ∧ timeout_ns (cstep s o).1 = timeout_ns s ∧
  Membership.step (timeout_ns s) (members s) o = (members (cstep s o).1, (cstep s o).2).
Proof.
  intros Hinv Ho. pose proof (inv_size s Hinv) as Hsz. pose proof Hinv as [Hn Hc].
  destruct o as [now id addr|now id|clock|id]; cbn [cstep Membership.step op_ok] in *.
  - unfold members at 1. rewrite lookup_fmap. unfold register_node.
    destruct (inv_insert s id {| node_id := id; endpoint_addr := addr;
      last_heartbeat := now; is_active := true |} Hinv) as [Hn' Hs']; [split_and!; cbn; auto; lia|].
    destruct (nodes s !! id) as [d|] eqn:Hk; cbn [fmap option_fmap option_map].
    { by rewrite decide_True by eauto. }
    rewrite decide_False in Hs' by (by intros [? ?]).
    rewrite decide_False by (by intros [? ?]). cbn [fst snd].
    split_and!; [split; [done|]|done|].
    + cbn [nodes store active_count]. unfold fetch_add. rewrite wrap_small; lia.
    + unfold members. cbn [nodes store]. by rewrite fmap_insert.
  - unfold members at 1. rewrite lookup_fmap. unfold record_heartbeat.
    destruct (nodes s !! id) as [d|] eqn:Hk; cbn [fmap option_fmap option_map]; [|done].
    destruct (Hn id d Hk) as (Hid & Ha & _).
    destruct (inv_insert s id {| node_id := node_id d; endpoint_addr := endpoint_addr d;
      last_heartbeat := now; is_active := true |} Hinv) as [Hn' Hs']; [split_and!; cbn; auto; lia|].
    rewrite Hk, decide_True in Hs' by eauto. cbn [fst snd]. rewrite Ha.
    split_and!; [split; [done|]|done|].
    + cbn [nodes store active_count]. lia.
    + unfold members. cbn [nodes store]. by rewrite fmap_insert.
  - destruct (evict_members s clock Hinv) as [Hm Hs].
    pose proof (evict_inv s clock Hinv) as Hi.
    destruct (evict_stale_nodes s clock) as [s' ids] eqn:E. cbn [fst snd] in *.
    assert (ids = stale_ids s clock ∧ timeout_ns s' = timeout_ns s) as [-> Ht].
    { unfold evict_stale_nodes in E. injection E as <- <-. by case_decide. }
    split; [done|split; [done|]]. by rewrite Hm, Hs.
  - unfold members at 1. rewrite lookup_fmap. unfold remove_node.
    destruct (nodes s !! id) as [d|] eqn:Hk; cbn [fmap option_fmap option_map]; [|done].
    destruct (Hn id d Hk) as (_ & Ha & _). rewrite Ha. cbn [fst snd].
    assert (0 < size (nodes s))%nat
      by (apply Nat.neq_0_lt_0, map_size_non_empty_iff; by intros E; rewrite E in Hk).
    split_and!; [split|done|].
    + by apply map_Forall_delete.
    + cbn [nodes store active_count]. rewrite map_size_delete_Some by eauto.
      unfold fetch_sub. rewrite wrap_small; lia.
    + unfold members. cbn [nodes store]. by rewrite fmap_delete.
Qed.

Fixpoint crun (s : MasterCoordinator) (ops : list Membership.op) :
    MasterCoordinator * list Membership.answer :=
  match ops with
  | [] => (s, [])
  | o :: ops' =>
      let '(s', a) := cstep s o in
      let '(s'', l) := crun s' ops' in (s'', a :: l)
  end.

Fixpoint spec_run (timeout : Z) (m : Membership.t) (ops : list Membership.op) :
    Membership.t * list Membership.answer :=
  match ops with
  | [] => (m, [])
  | o :: ops' =>
      let '(m', a) := Membership.step timeout m o in
      let '(m'', l) := spec_run timeout m' ops' in (m'', a :: l)
  end.

Lemma crun_refines ops : ∀ s,
  inv s → Forall op_ok ops →
  let '(s', answers) := crun s ops in
  inv s' ∧ spec_run (timeout_ns s) (members s) ops = (members s', answers).
Proof.
  induction ops as [|o ops IH]; intros s Hs Hops; [done|].
  apply Forall_cons in Hops as [Ho Hops]. cbn [crun spec_run].
  destruct (cstep_refines s o Hs Ho) as (Hi & Ht & ->).
  destruct (cstep s o) as [s1 a]. cbn [fst snd] in *.
  specialize (IH s1 Hi Hops). destruct (crun s1 ops) as [s2 l].
  rewrite <- Ht. destruct IH as [? ->]. done.
Qed.

(** C16. The coordinator implements cluster membership: whatever sequence of
    registrations, heartbeats, eviction scans and removals is executed, its
    answers are those of the specification (in particular a scan evicts
    exactly the members not heard from for longer than the timeout, however
    the table is iterated), and [active_node_count] is the number of members
    although no scan computes it. *)
Theorem coordinator_refines_membership (cfg : MasterCoordinatorConfig)
    (ops : list Membership.op) :
  Forall op_ok ops →
  let '(s, answers) := crun (new cfg) ops in
  spec_run (heartbeat_timeout_ms cfg * 1000000) ∅ ops = (members s, answers) ∧
  active_node_count s = Z.of_nat (size (members s)).
Proof.
  intros Hops. pose proof (crun_refines ops (new cfg)) as Hr.
  destruct (crun (new cfg) ops) as [s answers].
  destruct Hr as [Hi Hr]; [split; [apply map_Forall_empty|reflexivity]|done|].
  split; [|unfold members; rewrite map_size_fmap; apply Hi].
  rewrite <- Hr. unfold members. cbn [nodes new]. by rewrite fmap_empty.
Qed.

End Refinement.

#[local] Instance in_key_order : IterOrder NodeDescriptor := map_to_list.
#[local] Instance in_key_order_laws : IterOrderLaws NodeDescriptor.
Proof. intros m. reflexivity. Qed.

Definition lifecycle : list Membership.op :=
  [ OpRegister 0 1 "127.0.0.1:8001"; OpRegister 1 2 "127.0.0.1:8002";
    OpHeartbeat 4000000000 2; OpEvict (λ _, 6000000000); OpHeartbeat 6000000001 1 ].

Lemma coordinator_refines_membership_witness :
  let '(s, answers) := crun (new default_config) lifecycle in
  spec_run 5000000000 ∅ lifecycle = (members s, answers) ∧
  active_node_count s = Z.of_nat (size (members s)).
Proof.
  apply (coordinator_refines_membership default_config lifecycle).
  repeat constructor; cbn; lia.
Defined.

(** Heartbeats never reactivate a node: the table holds active nodes only, and
    an evicted node has to register again. *)
Lemma evicted_heartbeat_not_found s clock now id :
  inv s → id ∈ stale_ids s clock →
  (record_heartbeat (evict_stale_nodes s clock).1 now id).2 = Err (NodeNotFound id).
Proof.
  intros _ Hin. unfold record_heartbeat. by rewrite evict_lookup, bool_decide_eq_true_2.
Qed.

End CoordinatorTheorems.
