(* ===== verification/Limits.v ===== *)
(** * Resource limits and backpressure of the daemon

    [Limits] models [klnk-daemon/src/limits.rs].  Its operations are written
    twice: as functions, for one caller, and in [LimitsConcurrent] as threads
    whose steps are the single atomic accesses of the source, for the theorem
    that no interleaving oversubscribes the limits.  The daemon binary does not
    use this file: [klnk-daemon/src/main.rs] declares an inline module [limits]
    whose reservations do nothing, so the theorems are about [limits.rs] only. *)

From stdpp Require Import strings.
From S2P Require Import Prelude F64.

Module Limits.

Inductive LimitsError :=
  | MemoryLimitExceeded (requested current limit : Z)
  | DescriptorLimitExceeded (current max : Z)
  | HighWatermarkBackpressure (usage_pct threshold_pct : f64).

Record DaemonResourceConfig := {
  max_staging_bytes : Z;
  high_watermark_pct : f64;
  low_watermark_pct : f64;
  max_active_descriptors : Z;
}.

Definition default_config : DaemonResourceConfig := {|
  max_staging_bytes := 8 * 1024 * 1024 * 1024;
  high_watermark_pct := f64_lit 85 100;
  low_watermark_pct := f64_lit 60 100;
  max_active_descriptors := 1024;
|}.

Definition validate (self : DaemonResourceConfig) : result string () :=
  if max_staging_bytes self =? 0 then Err "max_staging_bytes must be > 0"
  else if f64_leb (high_watermark_pct self) (low_watermark_pct self)
  then Err "high_watermark_pct must be greater than low_watermark_pct"
  else if f64_gtb (high_watermark_pct self) (f64_of_Z 1)
          || f64_ltb (low_watermark_pct self) (f64_of_Z 0)
  then Err "watermark percentages must be in [0.0, 1.0]"
  else if max_active_descriptors self =? 0
  then Err "max_active_descriptors must be > 0"
  else Ok tt.

Record ResourceLimiter := {
  config : DaemonResourceConfig;
  used_staging_bytes : Z;
  active_descriptors : Z;
  backpressure_active : bool;
}.

Definition new (config : DaemonResourceConfig) : result string ResourceLimiter :=
  _ ← validate config;
  Ok {| config := config; used_staging_bytes := 0; active_descriptors := 0;
        backpressure_active := false |}.

Definition set_used (self : ResourceLimiter) (v : Z) : ResourceLimiter :=
  {| config := config self; used_staging_bytes := v;
     active_descriptors := active_descriptors self;
     backpressure_active := backpressure_active self |}.

Definition set_active (self : ResourceLimiter) (v : Z) : ResourceLimiter :=
  {| config := config self; used_staging_bytes := used_staging_bytes self;
     active_descriptors := v; backpressure_active := backpressure_active self |}.

Definition set_flag (self : ResourceLimiter) (b : bool) : ResourceLimiter :=
  {| config := config self; used_staging_bytes := used_staging_bytes self;
     active_descriptors := active_descriptors self; backpressure_active := b |}.

Definition memory_usage_ratio (self : ResourceLimiter) : f64 :=
  let current := f64_of_Z (used_staging_bytes self) in
  let limit := f64_of_Z (max_staging_bytes (config self)) in
  if SFeqb limit (f64_of_Z 0) then f64_of_Z 0 else f64_div current limit.

(** The flag computed from a usage ratio and the flag that was loaded. *)
Definition next_flag (cfg : DaemonResourceConfig) (usage : f64) (active : bool) : bool :=
  if active then f64_geb usage (low_watermark_pct cfg)
  else f64_geb usage (high_watermark_pct cfg).

Definition update_backpressure (self : ResourceLimiter) : ResourceLimiter :=
  set_flag self
    (next_flag (config self) (memory_usage_ratio self) (backpressure_active self)).

Definition is_backpressure_active (self : ResourceLimiter) : bool :=
  backpressure_active self.

Definition f64_mul (x y : f64) : f64 := SFmul 53 1024 x y.

Definition check_backpressure (self : ResourceLimiter) : result LimitsError () :=
  let usage_pct := memory_usage_ratio self in
  let high := high_watermark_pct (config self) in
  if f64_geb usage_pct high
  then Err (HighWatermarkBackpressure (f64_mul usage_pct (f64_of_Z 100))
              (f64_mul high (f64_of_Z 100)))
  else Ok tt.

(** One caller: the compare-and-swap succeeds at once. *)
Definition reserve_memory `{BuildProfile} (self : ResourceLimiter) (bytes : Z) :
    outcome (ResourceLimiter * result LimitsError ()) :=
  let limit := max_staging_bytes (config self) in
  let current := used_staging_bytes self in
  sum ← arith 64 (current + bytes);
  if limit <? sum then Ret (self, Err (MemoryLimitExceeded bytes current limit))
  else Ret (update_backpressure (set_used self sum), Ok tt).

Definition release_memory (self : ResourceLimiter) (bytes : Z) : ResourceLimiter :=
  update_backpressure (set_used self (saturating_sub (used_staging_bytes self) bytes)).

Definition register_descriptor (self : ResourceLimiter) :
    ResourceLimiter * result LimitsError () :=
  let max := max_active_descriptors (config self) in
  let current := active_descriptors self in
  if max <=? current then (self, Err (DescriptorLimitExceeded current max))
  else (set_active self (current + 1), Ok tt).

Definition unregister_descriptor (self : ResourceLimiter) : ResourceLimiter :=
  set_active self (saturating_sub (active_descriptors self) 1).

End Limits.

(** ** Interleavings

    A memory client reserves [n] bytes, holds them, and releases them; a
    descriptor client registers, holds and unregisters.  Every constructor is
    a program point of the source; the values are what the thread has loaded.
    [compare_exchange_weak] may fail spuriously. *)

Module LimitsConcurrent.
Import Limits.

Inductive thread :=
  | ResLoad (n : Z)
  | ResCas (n current : Z)
  | ResUsage (n : Z)
  | ResFlag (n : Z) (usage : f64)
  | ResStore (n : Z) (flag : bool)
  | Holding (n : Z)
  | RelLoad (n : Z)
  | RelCas (n current : Z)
  | RelUsage
  | RelFlag (usage : f64)
  | RelStore (flag : bool)
  | RegLoad
  | RegCas (current : Z)
  | Registered
  | UnregLoad
  | UnregCas (current : Z)
  | Finished
  | Refused (e : LimitsError)
  | Panicked.

Section Steps.
Context `{BuildProfile}.

Inductive atomic_step : ResourceLimiter → thread → ResourceLimiter → thread → Prop :=
  | res_load s n : atomic_step s (ResLoad n) s (ResCas n (used_staging_bytes s))
  | res_panic s n c :
      arith 64 (c + n) = Panic → atomic_step s (ResCas n c) s Panicked
  | res_refused s n c sum :
      arith 64 (c + n) = Ret sum → max_staging_bytes (config s) < sum →
      atomic_step s (ResCas n c) s
        (Refused (MemoryLimitExceeded n c (max_staging_bytes (config s))))
  | res_cas_ok s n c sum :
      arith 64 (c + n) = Ret sum → sum ≤ max_staging_bytes (config s) →
      used_staging_bytes s = c →
      atomic_step s (ResCas n c) (set_used s sum) (ResUsage n)
  | res_cas_fail s n c sum :
      arith 64 (c + n) = Ret sum → sum ≤ max_staging_bytes (config s) →
      atomic_step s (ResCas n c) s (ResCas n (used_staging_bytes s))
  | res_usage s n : atomic_step s (ResUsage n) s (ResFlag n (memory_usage_ratio s))
  | res_flag s n u :
      atomic_step s (ResFlag n u) s
        (ResStore n (next_flag (config s) u (backpressure_active s)))
  | res_store s n b : atomic_step s (ResStore n b) (set_flag s b) (Holding n)
  | hold_release s n : atomic_step s (Holding n) s (RelLoad n)
  | rel_load s n : atomic_step s (RelLoad n) s (RelCas n (used_staging_bytes s))
  | rel_cas_ok s n c :
      used_staging_bytes s = c →
      atomic_step s (RelCas n c) (set_used s (saturating_sub c n)) RelUsage
  | rel_cas_fail s n c :
      atomic_step s (RelCas n c) s (RelCas n (used_staging_bytes s))
  | rel_usage s : atomic_step s RelUsage s (RelFlag (memory_usage_ratio s))
  | rel_flag s u :
      atomic_step s (RelFlag u) s
        (RelStore (next_flag (config s) u (backpressure_active s)))
  | rel_store s b : atomic_step s (RelStore b) (set_flag s b) Finished
  | reg_load s : atomic_step s RegLoad s (RegCas (active_descriptors s))
  | reg_refused s c :
      max_active_descriptors (config s) ≤ c →
      atomic_step s (RegCas c) s
        (Refused (DescriptorLimitExceeded c (max_active_descriptors (config s))))
  | reg_cas_ok s c :
      c < max_active_descriptors (config s) → active_descriptors s = c →
      atomic_step s (RegCas c) (set_active s (c + 1)) Registered
  | reg_cas_fail s c :
      c < max_active_descriptors (config s) →
      atomic_step s (RegCas c) s (RegCas (active_descriptors s))
  | reg_leave s : atomic_step s Registered s UnregLoad
  | unreg_load s : atomic_step s UnregLoad s (UnregCas (active_descriptors s))
  | unreg_cas_ok s c :
      active_descriptors s = c →
      atomic_step s (UnregCas c) (set_active s (saturating_sub c 1)) Finished
  | unreg_cas_fail s c :
      atomic_step s (UnregCas c) s (UnregCas (active_descriptors s)).

Inductive sys_step : ResourceLimiter * list thread → ResourceLimiter * list thread → Prop :=
  | sys_step_at s ts i t s' t' :
      ts !! i = Some t → atomic_step s t s' t' →
      sys_step (s, ts) (s', <[i := t']> ts).

End Steps.
End LimitsConcurrent.

Module LimitsTheorems.
Import Limits LimitsConcurrent.

(** The bytes and descriptors a thread holds at each program point. *)
Definition held (t : thread) : Z :=
  match t with
  | ResUsage n | ResFlag n _ | ResStore n _ | Holding n | RelLoad n | RelCas n _ => n
  | _ => 0
  end.

Definition held_desc (t : thread) : Z :=
  match t with Registered | UnregLoad | UnregCas _ => 1 | _ => 0 end.

Definition terminal (t : thread) : Prop :=
  match t with Finished | Refused _ => True | _ => False end.

(** Requests are small enough for the checked sum to fit the word. *)
Definition thread_ok (max : Z) (t : thread) : Prop :=
  match t with
  | ResLoad n => 0 ≤ n ∧ max + n < 2 ^ 64
  | ResCas n c => 0 ≤ n ∧ max + n < 2 ^ 64 ∧ 0 ≤ c ≤ max
  | Panicked => False
  | _ => 0 ≤ held t
  end.

Record limiter_inv (cfg : DaemonResourceConfig) (w : ResourceLimiter * list thread) : Prop := {
  li_config : config w.1 = cfg;
  li_threads : Forall (thread_ok (max_staging_bytes cfg)) w.2;
  li_used : used_staging_bytes w.1 = zsum_with held w.2;
  li_limit : used_staging_bytes w.1 ≤ max_staging_bytes cfg;
  li_desc : active_descriptors w.1 = zsum_with held_desc w.2;
  li_desc_limit : active_descriptors w.1 ≤ max_active_descriptors cfg;
}.

Lemma thread_ok_held max ts :
  Forall (thread_ok max) ts →
  Forall (λ t, 0 ≤ held t) ts ∧ Forall (λ t, 0 ≤ held_desc t) ts.
Proof.
  intros H. split; (eapply Forall_impl; [exact H|]); intros []; cbn; lia.
Qed.

(** What one atomic access does to the counters and the thread. *)
Lemma atomic_step_effect `{BuildProfile} cfg s t s' t' :
  config s = cfg → atomic_step s t s' t' → thread_ok (max_staging_bytes cfg) t →
  0 ≤ held t ≤ used_staging_bytes s → used_staging_bytes s ≤ max_staging_bytes cfg →
  0 ≤ held_desc t ≤ active_descriptors s →
  active_descriptors s ≤ max_active_descriptors cfg →
  config s' = cfg ∧ thread_ok (max_staging_bytes cfg) t' ∧
  used_staging_bytes s' = used_staging_bytes s - held t + held t' ∧
  used_staging_bytes s' ≤ max_staging_bytes cfg ∧
  active_descriptors s' = active_descriptors s - held_desc t + held_desc t' ∧
  active_descriptors s' ≤ max_active_descriptors cfg.
Proof.
  intros <- Hst Hok Hu Hul Hd Hdl.
  destruct Hst; cbn [thread_ok held held_desc config set_used set_active set_flag
    used_staging_bytes active_descriptors] in *; unfold saturating_sub in *;
    try (rewrite arith_ret in * by lia); simplify_eq; split_and!; auto; lia.
Qed.

Lemma limiter_inv_step `{BuildProfile} cfg w w' :
  sys_step w w' → limiter_inv cfg w → limiter_inv cfg w'.
Proof.
  intros [s ts i t s' t' Hi Hst] [Hc Ht Hu Hul Hd Hdl]. cbn [fst snd] in *.
  pose proof (Forall_lookup_1 _ _ _ _ Ht Hi) as Hok.
  destruct (thread_ok_held _ _ Ht) as [Hn Hnd].
  pose proof (zsum_with_ge _ _ _ _ Hn Hi). pose proof (zsum_with_ge _ _ _ _ Hnd Hi).
  pose proof (Forall_lookup_1 _ _ _ _ Hn Hi). pose proof (Forall_lookup_1 _ _ _ _ Hnd Hi).
  cbv beta in *.
  destruct (atomic_step_effect cfg s t s' t' Hc Hst Hok ltac:(lia) ltac:(lia) ltac:(lia)
    ltac:(lia)) as (? & ? & ? & ? & ? & ?).
  constructor; cbn [fst snd]; auto.
  - by apply Forall_insert.
  - rewrite (zsum_with_insert held ts i t t' Hi). lia.
  - rewrite (zsum_with_insert held_desc ts i t t' Hi). lia.
Qed.

(** The limits hold under every interleaving: let any number of clients
    reserve, hold and release memory and any number register and unregister
    descriptors, each step being one atomic access (weak exchanges may fail
    spuriously).  At every moment the counters are exactly what the clients
    hold and within the configured limits, no client panics, and when all
    clients have finished or been refused both counters are back at zero. *)
Theorem limiter_interleaving `{BuildProfile} cfg s0 (ns : list Z) (k : nat) s ts :
  new cfg = Ok s0 → 0 ≤ max_staging_bytes cfg → 0 ≤ max_active_descriptors cfg →
  Forall (λ n, 0 ≤ n ∧ max_staging_bytes cfg + n < 2 ^ 64) ns →
  rtc sys_step (s0, (ResLoad <$> ns) ++ replicate k RegLoad) (s, ts) →
  used_staging_bytes s = zsum_with held ts ∧
  used_staging_bytes s ≤ max_staging_bytes cfg ∧
  active_descriptors s = zsum_with held_desc ts ∧
  active_descriptors s ≤ max_active_descriptors cfg ∧
  ¬ (Panicked ∈ ts) ∧
  (Forall terminal ts → used_staging_bytes s = 0 ∧ active_descriptors s = 0).
Proof.
  intros Hnew Hm Hd Hns Hrun.
  assert (limiter_inv cfg (s, ts)) as [Hc Ht Hu Hul Hde Hdl].
  { refine (rtc_ind_r (limiter_inv cfg) _ _ _ _ Hrun).
    - unfold new in Hnew. destruct (validate cfg); [|done]. injection Hnew as <-.
      assert (Forall (λ t, thread_ok (max_staging_bytes cfg) t ∧ held t = 0 ∧ held_desc t = 0)
        ((ResLoad <$> ns) ++ replicate k RegLoad)) as Hall.
      { apply Forall_app. split; [|by apply Forall_replicate].
        apply Forall_fmap. eapply Forall_impl; [exact Hns|]. cbn. auto. }
      constructor; cbn [fst snd config used_staging_bytes active_descriptors]; auto.
      + eapply Forall_impl; [exact Hall|]. by intros ? [? _].
      + symmetry. apply zsum_with_zero. eapply Forall_impl; [exact Hall|]. by intros ? (_ & ? & _).
      + symmetry. apply zsum_with_zero. eapply Forall_impl; [exact Hall|]. by intros ? (_ & _ & ?).
    - intros y z _ Hst. by apply limiter_inv_step. }
  cbn [fst snd] in *. split_and!; auto.
  - intros Hin. apply (proj1 (Forall_forall _ _) Ht) in Hin. done.
  - intros Hterm. rewrite Hu, Hde.
    split; apply zsum_with_zero; (eapply Forall_impl; [exact Hterm|]); by intros [].
Qed.

Definition small_config : DaemonResourceConfig :=
  {| max_staging_bytes := 100; high_watermark_pct := f64_lit 85 100;
     low_watermark_pct := f64_lit 60 100; max_active_descriptors := 1 |}.

Definition limiter (used active : Z) (flag : bool) : ResourceLimiter :=
  {| config := small_config; used_staging_bytes := used;
     active_descriptors := active; backpressure_active := flag |}.

#[local] Instance debug_profile : BuildProfile := Dev.

(** Let thread [i] make the step [c]; its premises are evaluated. *)
Ltac limiter_move i c :=
  eapply rtc_l; [eapply (sys_step_at _ _ i); [reflexivity|eapply c]|];
  [first [reflexivity|discriminate]..|cbn].

(** Two clients read 0 and ask for 60 of 100 bytes: one is refused. *)
Lemma limiter_interleaving_witness :
  used_staging_bytes (limiter 60 0 false) =
    zsum_with held [ResUsage 60; Refused (MemoryLimitExceeded 60 60 100); RegLoad] ∧
  used_staging_bytes (limiter 60 0 false) ≤ 100.
Proof.
  destruct (limiter_interleaving (H := Dev) small_config (limiter 0 0 false) [60; 60] 1
    (limiter 60 0 false) [ResUsage 60; Refused (MemoryLimitExceeded 60 60 100); RegLoad])
    as (Hu & Hl & _).
  - reflexivity.
  - discriminate.
  - discriminate.
  - repeat constructor; discriminate.
  - limiter_move 0%nat res_load. limiter_move 1%nat res_load. limiter_move 0%nat res_cas_ok.
    limiter_move 1%nat res_cas_fail. limiter_move 1%nat res_refused.
    apply rtc_refl.
  - exact (conj Hu Hl).
Defined.

(** Without overflow checks a request that wraps the sum is granted and makes
    the counter smaller. *)
Lemma reserve_overflow_bypass :
  let s := limiter 50 0 false in
  (∃ s', reserve_memory (H := Release) s (2 ^ 64 - 40) = Ret (s', Ok tt) ∧
         used_staging_bytes s' = 10) ∧
  reserve_memory (H := Dev) s (2 ^ 64 - 40) = Panic.
Proof. split; [eexists; split|]; vm_compute; reflexivity. Qed.

(** Between the watermarks, with backpressure active, [check_backpressure]
    accepts although its documentation promises hysteresis. *)
Lemma check_backpressure_no_hysteresis :
  let s := limiter 70 0 true in
  is_backpressure_active (update_backpressure s) = true ∧ check_backpressure s = Ok tt.
Proof. split; vm_compute; reflexivity. Qed.

(** The flag is computed from a usage loaded earlier: a release that is
    overtaken by a reservation stores a stale flag, and usage stays above the
    high watermark with backpressure off. *)
Lemma backpressure_flag_race :
  rtc (sys_step (H := Dev)) (limiter 10 0 false, [RelLoad 10; ResLoad 90])
      (limiter 90 0 false, [Finished; Holding 90]).
Proof.
  limiter_move 0%nat rel_load. limiter_move 0%nat rel_cas_ok.
  limiter_move 0%nat rel_usage. limiter_move 0%nat rel_flag.
  limiter_move 1%nat res_load. limiter_move 1%nat res_cas_ok.
  limiter_move 1%nat res_usage. limiter_move 1%nat res_flag. limiter_move 1%nat res_store.
  limiter_move 0%nat rel_store.
  apply rtc_refl.
Qed.

End LimitsTheorems.
