(* ===== verification/Invalidation.v ===== *)
(** * The invalidation ring buffer

    [Inval] models [klnk-daemon/src/invalidation.rs]: a memory block with the
    head index, the tail index and 1024 entries of four words, which remote
    writers fill and a local poller drains.  The block is a list of 64-bit
    words behind byte offsets; an access that is out of bounds or misaligned
    (undefined behaviour in the source) is [Panic], so the theorems also show
    that there is none.  [process_pending] is given as one computation and, as
    [poll_access], one load or store at a time; [InvalidationRing] interleaves
    the latter with the writers. *)

From S2P Require Import Prelude Domain ControlPlane.

Module Inval.

Definition ENTRY_SIZE : Z := 32.
Definition NUM_ENTRIES : Z := 1024.
Definition INVAL_BUFFER_SIZE : Z := 16 + NUM_ENTRIES * ENTRY_SIZE.

Record InvalidationBuffer := {
  mem : list Z;
  size : Z;
  vaddr : Z;
}.

(** [alloc_zeroed] returned the block at [addr]. *)
Definition new (addr : Z) : InvalidationBuffer :=
  {| mem := replicate (Z.to_nat (INVAL_BUFFER_SIZE / 8)) 0;
     size := INVAL_BUFFER_SIZE; vaddr := addr |}.

Definition access_ok (self : InvalidationBuffer) (offset : Z) : bool :=
  (0 <=? offset) && (offset + 8 <=? size self) && (offset mod 8 =? 0).

Definition read_u64 (self : InvalidationBuffer) (offset : Z) : outcome Z :=
  if access_ok self offset then unwrap (mem self !! Z.to_nat (offset / 8)) else Panic.

Definition write_u64 (self : InvalidationBuffer) (offset v : Z) :
    outcome InvalidationBuffer :=
  if access_ok self offset
  then Ret {| mem := <[Z.to_nat (offset / 8) := v]> (mem self);
              size := size self; vaddr := vaddr self |}
  else Panic.

Definition head (self : InvalidationBuffer) : outcome Z := read_u64 self 0.
Definition set_head (self : InvalidationBuffer) (h : Z) := write_u64 self 0 h.
Definition tail (self : InvalidationBuffer) : outcome Z := read_u64 self 8.

(** The compare-and-swap a remote writer issues on the tail. *)
Definition advance_tail_atomic (self : InvalidationBuffer) (expected new_val : Z) :
    outcome (result Z Z * InvalidationBuffer) :=
  current ← read_u64 self 8;
  if current =? expected
  then self' ← write_u64 self 8 new_val; Ret (Ok current, self')
  else Ret (Err current, self).

Definition entry_offset (idx : Z) : Z := 16 + (idx mod NUM_ENTRIES) * ENTRY_SIZE.

Definition read_entry_raw (self : InvalidationBuffer) (idx : Z) :
    outcome (Z * Z * Z * Z) :=
  let offset := entry_offset idx in
  valid ← read_u64 self offset;
  va ← read_u64 self (offset + 8);
  version ← read_u64 self (offset + 16);
  page_size ← read_u64 self (offset + 24);
  Ret (valid, va, version, page_size).

Definition write_entry_raw (self : InvalidationBuffer)
    (idx valid va version page_size : Z) : outcome InvalidationBuffer :=
  let offset := entry_offset idx in
  b ← write_u64 self offset valid;
  b ← write_u64 b (offset + 8) va;
  b ← write_u64 b (offset + 16) version;
  write_u64 b (offset + 24) page_size.

Section Process.
Context `{BuildProfile}.
(** The callback and the state it captures. *)
Context {S : Type} (callback : S → Z → Z → Z → outcome (bool * S)).

Fixpoint process_loop (fuel : nat) (self : InvalidationBuffer) (st : S)
    (idx tl processed : Z) : outcome (InvalidationBuffer * S * Z * Z) :=
  match fuel with
  | O => OutOfFuel
  | Datatypes.S fuel' =>
      if idx <? tl then
        '(valid, va, version, page_size) ← read_entry_raw self idx;
        if valid =? 0 then Ret (self, st, idx, processed)
        else
          '(ok, st) ← callback st va version page_size;
          if ok : bool then
            self ← write_entry_raw self idx 0 0 0 0;
            processed ← arith 64 (processed + 1);
            idx ← arith 64 (idx + 1);
            process_loop fuel' self st idx tl processed
          else Ret (self, st, idx, processed)
      else Ret (self, st, idx, processed)
  end.

(** The loop runs at most once per entry between head and tail. *)
Definition process_pending (self : InvalidationBuffer) (st : S) :
    outcome (Z * InvalidationBuffer * S) :=
  hd ← head self;
  tl ← tail self;
  '(self, st, idx, processed) ←
     process_loop (Datatypes.S (Z.to_nat (tl - hd))) self st hd tl 0;
  self ← (if 0 <? processed then set_head self idx else Ret self);
  Ret (processed, self, st).

(** ** [process_pending] one memory access at a time

    Where the poller stands: each constructor is the next load or store of the
    block, with the locals that are live there. *)
Inductive poller :=
  | PollStart
  | PollTail (hd : Z)
  | PollValid (tl idx processed : Z)
  | PollVaddr (tl idx processed valid : Z)
  | PollVersion (tl idx processed valid va : Z)
  | PollSize (tl idx processed valid va version : Z)
  | PollClear (tl idx processed word : Z)
  | PollHead (idx processed : Z)
  | PollDone (processed : Z).

(** After the loop: the head is stored when an entry was processed. *)
Definition poll_finish (idx processed : Z) : poller :=
  if 0 <? processed then PollHead idx processed else PollDone processed.

(** The loop's condition. *)
Definition poll_loop (tl idx processed : Z) : poller :=
  if idx <? tl then PollValid tl idx processed else poll_finish idx processed.

(** One access, with the computation up to the next one.  The four words of an
    entry are loaded before the first is tested; the callback runs after the
    last load; an accepted entry is cleared by four stores. *)
Definition poll_access (p : poller) (self : InvalidationBuffer) (st : S) :
    outcome (poller * InvalidationBuffer * S) :=
  match p with
  | PollStart => hd ← head self; Ret (PollTail hd, self, st)
  | PollTail hd => tl ← tail self; Ret (poll_loop tl hd 0, self, st)
  | PollValid tl idx n =>
      valid ← read_u64 self (entry_offset idx); Ret (PollVaddr tl idx n valid, self, st)
  | PollVaddr tl idx n valid =>
      va ← read_u64 self (entry_offset idx + 8); Ret (PollVersion tl idx n valid va, self, st)
  | PollVersion tl idx n valid va =>
      version ← read_u64 self (entry_offset idx + 16);
      Ret (PollSize tl idx n valid va version, self, st)
  | PollSize tl idx n valid va version =>
      page_size ← read_u64 self (entry_offset idx + 24);
      if valid =? 0 then Ret (poll_finish idx n, self, st)
      else
        '(ok, st) ← callback st va version page_size;
        Ret (if ok : bool then PollClear tl idx n 0 else poll_finish idx n, self, st)
  | PollClear tl idx n k =>
      self ← write_u64 self (entry_offset idx + 8 * k) 0;
      if k <? 3 then Ret (PollClear tl idx n (k + 1), self, st)
      else
        n ← arith 64 (n + 1);
        idx ← arith 64 (idx + 1);
        Ret (poll_loop tl idx n, self, st)
  | PollHead idx n => self ← set_head self idx; Ret (PollDone n, self, st)
  | PollDone n => Ret (PollDone n, self, st)
  end.

End Process.

(** ** The poller *)

Section Poller.
Context `{BuildProfile}.

(** The closure [start_invalidation_poller] passes. *)
Definition poller_callback (cp : Control.ControlPlaneManager) (va new_version page_size : Z) :
    outcome (bool * Control.ControlPlaneManager) :=
  match Control.lookup_page_state cp va with
  | Some entry =>
      if negb (primary_owner entry =? Control.local_node_id cp) then
        '(_, cp') ← Control.update_page_state cp va Invalid (primary_owner entry);
        Ret (true, (Control.remove_reader cp' va (Control.local_node_id cp)).2)
      else Ret (false, cp)
  | None => Ret (false, cp)
  end.

(** One iteration of the polling loop, without the sleep. *)
Definition poll_once (cp : Control.ControlPlaneManager) (buf : InvalidationBuffer) :
    outcome (Z * InvalidationBuffer * Control.ControlPlaneManager) :=
  head_before ← head buf;
  tail_before ← tail buf;
  if head_before <? tail_before then process_pending poller_callback buf cp
  else Ret (0, buf, cp).

End Poller.
End Inval.

Module InvalFacts.
Import Inval.

Definition buf_ok (b : InvalidationBuffer) : Prop :=
  length (mem b) = Z.to_nat 4098 ∧ size b = INVAL_BUFFER_SIZE.

Definition word (b : InvalidationBuffer) (k : Z) : Z := default 0 (mem b !! Z.to_nat k).

(** The words of the entry an index denotes. *)
Definition slot (b : InvalidationBuffer) (i : Z) : Z * Z * Z * Z :=
  let k := 2 + 4 * (i mod 1024) in
  (word b k, word b (k + 1), word b (k + 2), word b (k + 3)).

(** The block with word [k] replaced. *)
Definition store (b : InvalidationBuffer) (k v : Z) : InvalidationBuffer :=
  {| mem := <[Z.to_nat k := v]> (mem b); size := size b; vaddr := vaddr b |}.

Lemma store_ok b k v : buf_ok b → buf_ok (store b k v).
Proof. intros [? ?]. split; [by cbn; rewrite length_insert|done]. Qed.

Lemma word_store b k v j :
  buf_ok b → 0 ≤ k < 4098 → 0 ≤ j → word (store b k v) j = if j =? k then v else word b j.
Proof.
  intros [Hl _] Hk Hj. unfold word, store. cbn [mem].
  destruct (Z.eqb_spec j k) as [->|Hne].
  - by rewrite list_lookup_insert_eq by lia.
  - by rewrite list_lookup_insert_ne by lia.
Qed.

Lemma access_word b k : buf_ok b → 0 ≤ k < 4098 → access_ok b (8 * k) = true.
Proof.
  intros [_ Hs] Hk. unfold access_ok. rewrite Hs, (Z.mul_comm 8 k), Z.mod_mul by lia.
  unfold INVAL_BUFFER_SIZE, NUM_ENTRIES, ENTRY_SIZE. lia.
Qed.

Lemma read_word b k : buf_ok b → 0 ≤ k < 4098 → read_u64 b (8 * k) = Ret (word b k).
Proof.
  intros Hb Hk. unfold read_u64. rewrite access_word by done.
  rewrite Z.mul_comm, Z.div_mul by lia. unfold word.
  destruct (lookup_lt_is_Some_2 (mem b) (Z.to_nat k)) as [v ->]; [|done].
  destruct Hb as [-> _]. lia.
Qed.

Lemma write_word b k v : buf_ok b → 0 ≤ k < 4098 → write_u64 b (8 * k) v = Ret (store b k v).
Proof.
  intros Hb Hk. unfold write_u64. rewrite access_word by done.
  by rewrite Z.mul_comm, Z.div_mul by lia.
Qed.

Lemma entry_offset_word i : entry_offset i = 8 * (2 + 4 * (i mod 1024)).
Proof. unfold entry_offset, NUM_ENTRIES, ENTRY_SIZE. lia. Qed.

Lemma slot_index i : 0 ≤ i mod 1024 < 1024.
Proof. by apply Z.mod_pos_bound. Qed.

Lemma head_word b : buf_ok b → head b = Ret (word b 0).
Proof. intros Hb. apply (read_word b 0 Hb). lia. Qed.

Lemma tail_word b : buf_ok b → tail b = Ret (word b 1).
Proof. intros Hb. apply (read_word b 1 Hb). lia. Qed.

Lemma set_head_store b h : buf_ok b → set_head b h = Ret (store b 0 h).
Proof. intros Hb. apply (write_word b 0 h Hb). lia. Qed.

Lemma slot_store_index b k v i : buf_ok b → 0 ≤ k < 2 → slot (store b k v) i = slot b i.
Proof.
  intros Hb Hk. pose proof (slot_index i). unfold slot.
  by rewrite !word_store, !(proj2 (Z.eqb_neq _ _)) by (done || lia).
Qed.

Lemma read_entry_slot b i : buf_ok b → read_entry_raw b i = Ret (slot b i).
Proof.
  intros Hb. pose proof (slot_index i). unfold read_entry_raw. rewrite entry_offset_word.
  set (k := 2 + 4 * (i mod 1024)).
  replace (8 * k + 8) with (8 * (k + 1)) by lia.
  replace (8 * k + 16) with (8 * (k + 2)) by lia.
  replace (8 * k + 24) with (8 * (k + 3)) by lia.
  rewrite !read_word by (done || lia). done.
Qed.

(** Writing an entry changes its four words and nothing else. *)
Lemma write_entry_slot b i x y z w :
  buf_ok b →
  ∃ b', write_entry_raw b i x y z w = Ret b' ∧ buf_ok b' ∧
        word b' 0 = word b 0 ∧ word b' 1 = word b 1 ∧
        ∀ j, slot b' j = if j mod 1024 =? i mod 1024 then (x, y, z, w) else slot b j.
Proof.
  intros Hb. pose proof (slot_index i). unfold write_entry_raw. rewrite entry_offset_word.
  set (k := 2 + 4 * (i mod 1024)).
  replace (8 * k + 8) with (8 * (k + 1)) by lia.
  replace (8 * k + 16) with (8 * (k + 2)) by lia.
  replace (8 * k + 24) with (8 * (k + 3)) by lia.
  pose proof (store_ok b k x Hb) as H1. pose proof (store_ok _ (k + 1) y H1) as H2.
  pose proof (store_ok _ (k + 2) z H2) as H3. pose proof (store_ok _ (k + 3) w H3) as H4.
  rewrite write_word by (done || lia). monad_simpl.
  rewrite write_word by (done || lia). monad_simpl.
  rewrite write_word by (done || lia). monad_simpl.
  rewrite write_word by (done || lia).
  eexists. split; [done|]. split; [done|].
  assert (Hw : ∀ j, 0 ≤ j →
    word (store (store (store (store b k x) (k + 1) y) (k + 2) z) (k + 3) w) j =
    if j =? k + 3 then w else if j =? k + 2 then z else if j =? k + 1 then y
    else if j =? k then x else word b j).
  { intros j Hj. by rewrite !word_store by (done || lia). }
  split_and!.
  - rewrite Hw, !(proj2 (Z.eqb_neq _ _)) by lia. done.
  - rewrite Hw, !(proj2 (Z.eqb_neq _ _)) by lia. done.
  - intros j. pose proof (slot_index j). unfold slot. rewrite !Hw by lia.
    destruct (Z.eqb_spec (j mod 1024) (i mod 1024)) as [E|E].
    + rewrite E. fold k. rewrite !Z.eqb_refl.
      by rewrite !(proj2 (Z.eqb_neq _ _)) by lia.
    + by rewrite !(proj2 (Z.eqb_neq _ _)) by lia.
Qed.

End InvalFacts.

Module InvalTheorems.
Import Inval InvalFacts.

(** A message: page address, version, page size. *)
Abbreviation msg := (Z * Z * Z)%type (only parsing).

Definition entry_of (m : msg) : Z * Z * Z * Z := (1, m.1.1, m.1.2, m.2).

(** The ring when [i] is the next index to consume: [log] holds the messages in
    the order their slots were reserved, [pending] the indices reserved and not
    yet written. *)
Record ring_inv (b : InvalidationBuffer) (log : list msg) (pending : list Z) (i : Z) : Prop := {
  ri_buf : buf_ok b;
  ri_tail : word b 1 = Z.of_nat (length log);
  ri_range : 0 ≤ i ≤ Z.of_nat (length log) ∧ Z.of_nat (length log) ≤ i + 1024;
  ri_pending : ∀ j, j ∈ pending → i ≤ j < Z.of_nat (length log) ∧ (slot b j).1.1.1 = 0;
  ri_written : ∀ j m, i ≤ j → ¬ (j ∈ pending) → log !! Z.to_nat j = Some m →
                      slot b j = entry_of m;
  ri_free : ∀ j, Z.of_nat (length log) ≤ j < i + 1024 → (slot b j).1.1.1 = 0;
}.

Lemma mod_distinct i j : 0 < j - i < 1024 → (j mod 1024 =? i mod 1024) = false.
Proof.
  intros Hij. apply Z.eqb_neq. intros E.
  assert ((j - i) mod 1024 = 0) by (rewrite Zminus_mod, E, Z.sub_diag; done).
  rewrite Z.mod_small in * by lia. lia.
Qed.

Lemma mod_next i : ((i + 1024) mod 1024 =? i mod 1024) = true.
Proof. apply Z.eqb_eq. rewrite <- (Z.mul_1_l 1024) at 1. apply Z.mod_add. lia. Qed.

(** Clearing the entry at the head makes room for one more at the end. *)
Lemma ring_consume b log pending i b' :
  ring_inv b log pending i → i < Z.of_nat (length log) → ¬ (i ∈ pending) →
  buf_ok b' → word b' 1 = word b 1 →
  (∀ j, slot b' j = if j mod 1024 =? i mod 1024 then (0, 0, 0, 0) else slot b j) →
  ring_inv b' log pending (i + 1).
Proof.
  intros [Hb Ht Hr Hp Hw Hf] Hi Hnp Hb' Hw1 Hs.
  assert (Hother : ∀ j, i < j < i + 1024 → slot b' j = slot b j).
  { intros j Hj. by rewrite Hs, mod_distinct by lia. }
  constructor; [done|by rewrite Hw1|lia| | |].
  - intros j Hj. destruct (Hp j Hj) as [Hji Hz].
    assert (j ≠ i) by (by intros ->). rewrite Hother by lia. split; [lia|done].
  - intros j m Hj Hnj Hm. pose proof (lookup_lt_Some _ _ _ Hm).
    rewrite Hother by lia. apply Hw; [lia|done|done].
  - intros j Hj. destruct (Z.eq_dec j (i + 1024)) as [->|Hne].
    + by rewrite Hs, mod_next.
    + rewrite Hother by lia. apply Hf. lia.
Qed.

Section Delivery.
Context `{BuildProfile}.
(** Whether the consumer accepts a message, given what it accepted before. *)
Context (accept : list msg → msg → bool).

Definition record_callback (l : list msg) (va version page_size : Z) :
    outcome (bool * list msg) :=
  Ret (if accept l (va, version, page_size) then (true, l ++ [(va, version, page_size)])
       else (false, l)).

Lemma record_callback_eq l a v s :
  record_callback l a v s =
  Ret (if accept l (a, v, s) then (true, l ++ [(a, v, s)]) else (false, l)).
Proof. done. Qed.

Lemma process_loop_spec fuel : ∀ b log pending i n,
  ring_inv b log pending i → (Z.to_nat (Z.of_nat (length log) - i) < fuel)%nat →
  0 ≤ n ≤ i → Z.of_nat (length log) < 2 ^ 64 →
  ∃ b' i', process_loop record_callback fuel b (take (Z.to_nat i) log) i
             (Z.of_nat (length log)) n
           = Ret (b', take (Z.to_nat i') log, i', n + (i' - i)) ∧
    i ≤ i' ∧ ring_inv b' log pending i' ∧ word b' 0 = word b 0 ∧
    (i' = Z.of_nat (length log) ∨ i' ∈ pending ∨
     ∃ m, log !! Z.to_nat i' = Some m ∧ accept (take (Z.to_nat i') log) m = false).
Proof.
  induction fuel as [|fuel IH]; intros b log pending i n Hinv Hf Hn Hlen; [lia|].
  pose proof Hinv as [Hb Ht Hr Hp Hw Hfr]. cbn [process_loop].
  destruct (Z.ltb_spec i (Z.of_nat (length log))) as [Hi|Hi].
  2:{ exists b, i. rewrite Z.sub_diag, Z.add_0_r. split_and!; auto; [lia|left; lia]. }
  rewrite read_entry_slot by done. monad_simpl.
  destruct (decide (i ∈ pending)) as [Hpi|Hpi].
  { destruct (Hp i Hpi) as [_ Hz]. destruct (slot b i) as [[[v a] ver] sz].
    cbn in Hz. subst v. rewrite Z.eqb_refl.
    exists b, i. rewrite Z.sub_diag, Z.add_0_r. split_and!; auto; lia. }
  destruct (lookup_lt_is_Some_2 log (Z.to_nat i)) as [m Hm]; [lia|].
  rewrite (Hw i m) by (done || lia). unfold entry_of. destruct m as [[a ver] sz]. cbn [fst snd].
  change (1 =? 0) with false. cbv iota. rewrite record_callback_eq. monad_simpl.
  destruct (accept (take (Z.to_nat i) log) (a, ver, sz)) eqn:Hacc.
  2:{ exists b, i. rewrite Z.sub_diag, Z.add_0_r. split_and!; [done|lia|done|done|]. right; right. by exists (a, ver, sz). }
  destruct (write_entry_slot b i 0 0 0 0 Hb) as (b1 & -> & Hb1 & H0 & H1 & Hs1). monad_simpl.
  rewrite arith_ret by lia. monad_simpl. rewrite arith_ret by lia. monad_simpl.
  assert (Htake : take (Z.to_nat i) log ++ [(a, ver, sz)] = take (Z.to_nat (i + 1)) log).
  { replace (Z.to_nat (i + 1)) with (S (Z.to_nat i)) by lia. by rewrite (take_S_r _ _ _ Hm). }
  rewrite Htake.
  destruct (IH b1 log pending (i + 1) (n + 1)) as (b2 & i2 & E & Hle & Hinv2 & Hw2 & Hstop);
    [by eapply ring_consume|lia|lia|lia|].
  exists b2, i2. rewrite E. split_and!; [do 2 f_equal; lia|lia|done|congruence|done].
Qed.

Lemma process_pending_spec b log pending :
  ring_inv b log pending (word b 0) → Z.of_nat (length log) < 2 ^ 64 →
  ∃ b' n, process_pending record_callback b (take (Z.to_nat (word b 0)) log)
          = Ret (n, b', take (Z.to_nat (word b' 0)) log) ∧
    ring_inv b' log pending (word b' 0) ∧ n = word b' 0 - word b 0 ∧
    (word b' 0 = Z.of_nat (length log) ∨ word b' 0 ∈ pending ∨
     ∃ m, log !! Z.to_nat (word b' 0) = Some m ∧
          accept (take (Z.to_nat (word b' 0)) log) m = false).
Proof.
  intros Hinv Hlen. pose proof Hinv as [Hb Ht Hr _ _ _]. unfold process_pending.
  rewrite head_word, tail_word by done. monad_simpl. rewrite Ht.
  destruct (process_loop_spec (S (Z.to_nat (Z.of_nat (length log) - word b 0)))
    b log pending (word b 0) 0) as (b1 & i1 & -> & Hle & Hinv1 & Hw & Hstop); [done|lia..|].
  monad_simpl. pose proof (ri_buf _ _ _ _ Hinv1) as Hb1.
  destruct (Z.ltb_spec 0 (0 + (i1 - word b 0))) as [Hpos|Hpos].
  - rewrite set_head_store by done. monad_simpl.
    exists (store b1 0 i1), (i1 - word b 0).
    assert (E0 : word (store b1 0 i1) 0 = i1) by (by rewrite word_store).
    rewrite E0. split_and!; [done| |done|done].
    destruct Hinv1 as [_ Ht1 Hr1 Hp1 Hw1 Hf1].
    constructor; [by apply store_ok|by rewrite word_store| done| | |];
      intros j; rewrite slot_store_index by (done || lia); auto.
  - assert (i1 = word b 0) as -> by lia. monad_simpl.
    exists b1, (0 + (word b 0 - word b 0)). rewrite Hw. split_and!; [done|done|lia|done].
Qed.

End Delivery.

Section PollerFacts.
Context `{BuildProfile}.

(** An accepted invalidation marks the page [Invalid], keeps its owner and
    version, and removes the local node from the readers. *)
Lemma poller_callback_invalidates cp va ver sz e :
  Control.page_states cp !! va = Some e → primary_owner e ≠ Control.local_node_id cp →
  ∃ cp' e', poller_callback cp va ver sz = Ret (true, cp') ∧
    Control.page_states cp' !! va = Some e' ∧ coherence_state e' = Invalid ∧
    primary_owner e' = primary_owner e ∧ version e' = version e ∧
    ¬ (Control.local_node_id cp ∈ replica_holders e').
Proof.
  intros He Hne. unfold poller_callback, Control.lookup_page_state. rewrite He.
  rewrite (proj2 (Z.eqb_neq _ _)) by done. cbn [negb].
  unfold Control.update_page_state. rewrite He. monad_simpl.
  rewrite bool_decide_eq_false_2 by done. monad_simpl.
  unfold Control.remove_reader, Control.alter_entry.
  cbn [Control.page_states Control.with_pages Control.with_regions]. rewrite lookup_insert_eq.
  do 2 eexists. split; [done|].
  cbn [snd Control.page_states Control.with_pages Control.with_regions].
  rewrite lookup_insert_eq. split_and!; [done|done|done|done|].
  cbn. intros [Hf _]%list_elem_of_filter. done.
Qed.

(** A message the callback refuses blocks the ring: as long as the oldest
    message names a page that is unknown or locally owned, polling changes
    nothing, and later messages are never reached. *)
Lemma poller_head_of_line_blocking cp b log pending a ver sz :
  ring_inv b log pending (word b 0) → ¬ (word b 0 ∈ pending) →
  log !! Z.to_nat (word b 0) = Some (a, ver, sz) →
  (∀ e, Control.page_states cp !! a = Some e → primary_owner e = Control.local_node_id cp) →
  poll_once cp b = Ret (0, b, cp).
Proof.
  intros [Hb Ht Hr _ Hw _] Hnp Hm Hcp.
  pose proof (lookup_lt_Some _ _ _ Hm) as Hlt. unfold poll_once, process_pending.
  rewrite head_word, tail_word by done. monad_simpl. rewrite Ht.
  rewrite (proj2 (Z.ltb_lt _ _)) by lia. cbn [process_loop].
  rewrite (proj2 (Z.ltb_lt _ _)) by lia. rewrite read_entry_slot by done. monad_simpl.
  rewrite (Hw _ _ (Z.le_refl _) Hnp Hm). unfold entry_of. cbn [fst snd].
  change (1 =? 0) with false. cbv iota.
  assert (poller_callback cp a ver sz = Ret (false, cp)) as ->; [|done].
  unfold poller_callback, Control.lookup_page_state.
  destruct (Control.page_states cp !! a) as [e|]; [|done].
  by rewrite (Hcp e eq_refl), Z.eqb_refl.
Qed.

End PollerFacts.
End InvalTheorems.
