(* ===== verification/InvalidationRing.v ===== *)
(** * Writers and poller of the invalidation ring

    [InvalRing] interleaves any number of writers with the local poller, one
    access to the ring's memory at a time: a writer reserves a slot by the
    compare-and-swap on the tail and then stores the four words of its entry
    one by one; the poller runs [Inval.poll_access].  Accesses take effect in
    program order.  [InvalRingTheorems] has the delivery theorem for writers
    that store the [valid] word last, and what happens to an entry written in
    the order of [write_entry_raw], which stores it first. *)

From S2P Require Import Prelude Domain ControlPlane Invalidation.

Module InvalRing.
Import Inval InvalTheorems.

(** Word [k] of the entry that carries a message. *)
Definition entry_word (m : msg) (k : Z) : Z :=
  if k =? 0 then 1 else if k =? 1 then m.1.1 else if k =? 2 then m.1.2 else m.2.

Definition store_word (b : InvalidationBuffer) (i k : Z) (m : msg) : outcome InvalidationBuffer :=
  write_u64 b (entry_offset i + 8 * k) (entry_word m k).

(** The order in which [write_entry_raw] stores the words of an entry. *)
Definition raw_order : list Z := [0; 1; 2; 3].

Fixpoint store_words (order : list Z) (b : InvalidationBuffer) (i : Z) (m : msg) :
    outcome InvalidationBuffer :=
  match order with
  | [] => Ret b
  | k :: rest => b ← store_word b i k m; store_words rest b i m
  end.

(** The ring's memory; the reserved slots in order, each with its message and
    the words its writer has still to store; the poller; what the callback
    accepted so far. *)
Record world := World {
  buffer : InvalidationBuffer;
  slots : list (msg * list Z);
  poll : poller;
  delivered : list msg;
}.

Definition start (addr : Z) : world := World (new addr) [] PollStart [].

(** Whether the consumer accepts a message, given what it accepted before. *)
Abbreviation consumer := (list msg → msg → bool) (only parsing).

(** One access.  A writer takes a slot when the head it saw, now or earlier,
    leaves room; [allowed] are the orders in which writers store an entry. *)
Inductive ring_step `{BuildProfile} (allowed : list Z → Prop) (accept : consumer) :
    world → world → Prop :=
  | step_reserve b l p d hd seen tl b' m order :
      allowed order → head b = Ret hd → seen ≤ hd → tl - seen < NUM_ENTRIES →
      tl + 1 < 2 ^ 64 → advance_tail_atomic b tl (tl + 1) = Ret (Ok tl, b') →
      ring_step allowed accept (World b l p d) (World b' (l ++ [(m, order)]) p d)
  | step_store b l p d i m k rest b' :
      l !! i = Some (m, k :: rest) → store_word b (Z.of_nat i) k m = Ret b' →
      ring_step allowed accept (World b l p d) (World b' (<[i := (m, rest)]> l) p d)
  | step_poll b l p d p' b' d' :
      poll_access (record_callback accept) p b d = Ret (p', b', d') →
      ring_step allowed accept (World b l p d) (World b' l p' d')
  | step_again b l n d :
      ring_step allowed accept (World b l (PollDone n) d) (World b l PollStart d).




End InvalRing.

Module InvalRingFacts.
Import Inval InvalFacts InvalTheorems InvalRing.










(** The raw write is the stores of [raw_order], one after the other. *)
Lemma raw_order_stores b i m :
  write_entry_raw b i 1 m.1.1 m.1.2 m.2 = store_words raw_order b i m.
Proof.
  unfold write_entry_raw, raw_order, store_words, store_word, entry_word. cbn [Z.eqb Pos.eqb].
  rewrite Z.mul_0_r, Z.add_0_r. cbn [Z.mul Pos.mul].
  destruct (write_u64 b _ _) as [b1| |]; [|done..]. monad_simpl.
  destruct (write_u64 b1 _ _) as [b2| |]; [|done..]. monad_simpl.
  destruct (write_u64 b2 _ _) as [b3| |]; [|done..]. monad_simpl.
  by destruct (write_u64 b3 _ _).
Qed.

(** ** The invariant *)








(** *** Writers *)






(** *** The poller *)







Section Poll.
Context `{BuildProfile} (accept : consumer).









End Poll.




End InvalRingFacts.

Module InvalRingTheorems.
Import Inval InvalFacts InvalTheorems InvalRing InvalRingFacts.

(** ** The accesses of a poll on its own *)

Section Alone.
Context `{BuildProfile} {S : Type} (callback : S → Z → Z → Z → outcome (bool * S)).

Definition alone (x y : poller * InvalidationBuffer * S) : Prop :=
  poll_access callback x.1.1 x.1.2 x.2 = Ret y.

Lemma entry_alone tl idx n b st va ver sz valid :
  read_entry_raw b idx = Ret (valid, va, ver, sz) →
  rtc alone (PollValid tl idx n, b, st) (PollSize tl idx n valid va ver, b, st) ∧
  read_u64 b (entry_offset idx + 24) = Ret sz.
Proof.
  unfold read_entry_raw. intros E.
  destruct (read_u64 b (entry_offset idx)) as [v0| |] eqn:E0; [|done..].
  destruct (read_u64 b (entry_offset idx + 8)) as [v1| |] eqn:E1; [|done..].
  destruct (read_u64 b (entry_offset idx + 16)) as [v2| |] eqn:E2; [|done..].
  destruct (read_u64 b (entry_offset idx + 24)) as [v3| |] eqn:E3; [|done..].
  injection E as -> -> -> ->. split; [|done].
  eapply rtc_l; [by unfold alone, poll_access; cbn; rewrite E0|].
  eapply rtc_l; [by unfold alone, poll_access; cbn; rewrite E1|].
  eapply rtc_once. by unfold alone, poll_access; cbn; rewrite E2.
Qed.

Lemma clear_alone tl idx n b st b' n' idx' :
  write_entry_raw b idx 0 0 0 0 = Ret b' → arith 64 (n + 1) = Ret n' →
  arith 64 (idx + 1) = Ret idx' →
  rtc alone (PollClear tl idx n 0, b, st) (poll_loop tl idx' n', b', st).
Proof.
  unfold write_entry_raw. intros E En Ei.
  destruct (write_u64 b (entry_offset idx) 0) as [b1| |] eqn:E0; [|done..].
  cbn [mbind outcome_bind] in E.
  destruct (write_u64 b1 (entry_offset idx + 8) 0) as [b2| |] eqn:E1; [|done..].
  cbn [mbind outcome_bind] in E.
  destruct (write_u64 b2 (entry_offset idx + 16) 0) as [b3| |] eqn:E2; [|done..].
  cbn [mbind outcome_bind] in E.
  apply (rtc_l _ _ (PollClear tl idx n 1, b1, st)).
  { unfold alone, poll_access. cbn [fst snd]. by rewrite Z.mul_0_r, Z.add_0_r, E0. }
  apply (rtc_l _ _ (PollClear tl idx n 2, b2, st)).
  { unfold alone, poll_access. cbn [fst snd]. change (8 * 1) with 8. by rewrite E1. }
  apply (rtc_l _ _ (PollClear tl idx n 3, b3, st)).
  { unfold alone, poll_access. cbn [fst snd]. change (8 * 2) with 16. by rewrite E2. }
  apply rtc_once. unfold alone, poll_access. cbn [fst snd]. change (8 * 3) with 24. rewrite E.
  monad_simpl. change (3 <? 3) with false. cbv iota. rewrite En. monad_simpl.
  by rewrite Ei.
Qed.

Lemma loop_alone tl fuel : ∀ b st idx n b' st' idx' n',
  process_loop callback fuel b st idx tl n = Ret (b', st', idx', n') →
  rtc alone (poll_loop tl idx n, b, st) (poll_finish idx' n', b', st').
Proof.
  induction fuel as [|fuel IH]; intros b st idx n b' st' idx' n' E; [done|].
  cbn [process_loop] in E. unfold poll_loop. destruct (idx <? tl); [|by injection E as <- <- <- <-].
  destruct (read_entry_raw b idx) as [[[[valid va] ver] sz]| |] eqn:Er; [|done..].
  cbn [mbind outcome_bind] in E.
  destruct (entry_alone tl idx n b st va ver sz valid Er) as [Hload E3].
  etrans; [exact Hload|]. clear Hload Er.
  destruct (valid =? 0) eqn:Ev.
  { injection E as <- <- <- <-. apply rtc_once. unfold alone, poll_access. cbn.
    rewrite E3. cbn. by rewrite Ev. }
  destruct (callback st va ver sz) as [[ok st1]| |] eqn:Ec; [|done..].
  cbn [mbind outcome_bind] in E.
  eapply rtc_l; [by unfold alone, poll_access; cbn; rewrite E3; cbn; rewrite Ev, Ec|].
  destruct ok; [|by injection E as <- <- <- <-].
  destruct (write_entry_raw b idx 0 0 0 0) as [b1| |] eqn:Ew; [|done..].
  cbn [mbind outcome_bind] in E.
  destruct (arith 64 (n + 1)) as [n1| |] eqn:En; [|done..]. cbn [mbind outcome_bind] in E.
  destruct (arith 64 (idx + 1)) as [i1| |] eqn:Ei; [|done..]. cbn [mbind outcome_bind] in E.
  etrans; [by eapply clear_alone|]. by apply IH.
Qed.

(** With nothing in between, the accesses of a poll are [process_pending]. *)
Lemma process_pending_accesses b st n b' st' :
  process_pending callback b st = Ret (n, b', st') →
  rtc alone (PollStart, b, st) (PollDone n, b', st').
Proof.
  unfold process_pending. intros E.
  destruct (head b) as [hd| |] eqn:Eh; [|done..]. cbn [mbind outcome_bind] in E.
  destruct (tail b) as [tl| |] eqn:Et; [|done..]. cbn [mbind outcome_bind] in E.
  destruct (process_loop _ _ _ _ _ _ _) as [[[[b1 st1] idx1] n1]| |] eqn:El; [|done..].
  cbn [mbind outcome_bind] in E.
  eapply rtc_l; [by unfold alone, poll_access; cbn; rewrite Eh|].
  eapply rtc_l; [by unfold alone, poll_access; cbn; rewrite Et|].
  etrans; [by eapply loop_alone|]. unfold poll_finish. destruct (0 <? n1); [|by injection E as <- <- <-].
  destruct (set_head b1 idx1) as [b2| |] eqn:Es; [|done..]. injection E as <- <- <-.
  apply rtc_once. unfold alone, poll_access. cbn. by rewrite Es.
Qed.

End Alone.

(** ** Delivery *)




(** A poll with nothing in between is a run of the ring. *)
Lemma poll_alone_steps `{BuildProfile} allowed accept b l d n b' d' :
  process_pending (record_callback accept) b d = Ret (n, b', d') →
  rtc (ring_step allowed accept) (World b l PollStart d) (World b' l (PollDone n) d').
Proof.
  intros E%process_pending_accesses.
  refine (rtc_congruence (λ x, World x.1.2 l x.1.1 x.2) _ _ _ _ E).
  intros [[p1 b1] d1] [[p2 b2] d2] Hst. by apply step_poll.
Qed.

(** C19. The ring as [write_entry_raw] fills it is not safe while the poller
    runs: [valid] is the first word it stores, so a poll that comes between the
    reservation's first and second store delivers the address, version and size
    the slot held before (zero in a fresh ring) in place of the message, and
    clears the entry; the message itself is never delivered, although its writer
    goes on and stores all four words. *)
Theorem raw_write_torn `{BuildProfile} addr (m : msg) :
  ∃ w, rtc (ring_step (eq raw_order) (λ _ _, true)) (start addr) w ∧
    slots w = [(m, [])] ∧ poll w = PollDone 1 ∧ delivered w = [(0, 0, 0)] ∧
    process_pending (record_callback (λ _ _, true)) (buffer w) (delivered w)
      = Ret (0, buffer w, [(0, 0, 0)]).
Proof.
  set (b0 := store (new addr) 1 1). set (b1 := store b0 2 1).
  set (b2 := store (store (store (store b1 2 0) 3 0) 4 0) 5 0).
  set (b3 := store b2 0 1).
  set (b4 := store (store (store b3 3 m.1.1) 4 m.1.2) 5 m.2).
  exists (World b4 [(m, [])] (PollDone 1) [(0, 0, 0)]). split; [|by split_and!].
  apply (rtc_l _ _ (World b0 [(m, raw_order)] PollStart []));
    [by eapply (step_reserve _ _ _ [] _ _ 0 0 0)|].
  apply (rtc_l _ _ (World b1 [(m, [1; 2; 3])] PollStart []));
    [by apply (step_store _ _ _ [(m, raw_order)] _ _ 0 m 0 [1; 2; 3])|].
  etrans; [apply (poll_alone_steps _ _ b1 _ [] 1 b3 [(0, 0, 0)]); reflexivity|].
  apply (rtc_l _ _ (World (store b3 3 m.1.1) [(m, [2; 3])] (PollDone 1) [(0, 0, 0)]));
    [by apply (step_store _ _ _ [(m, [1; 2; 3])] _ _ 0 m 1 [2; 3])|].
  apply (rtc_l _ _ (World (store (store b3 3 m.1.1) 4 m.1.2) [(m, [3])] (PollDone 1) [(0, 0, 0)]));
    [by apply (step_store _ _ _ [(m, [2; 3])] _ _ 0 m 2 [3])|].
  apply rtc_once. by apply (step_store _ _ _ [(m, [3])] _ _ 0 m 3 []).
Qed.

End InvalRingTheorems.
