(* ===== verification/Quantization.v ===== *)
(** * Reduced-precision formats

    [Quant] models [store/src/quantization.rs].  A quantizer reads the bits of
    an [f32], so an [f32] argument is its 32-bit pattern; a dequantizer computes
    in [f32], so its result is the binary32 value ([SpecFloat] with 24 bits of
    precision).  The base-2 logarithm of the E8M0 conversion is an argument. *)

From S2P Require Import Prelude F64.

Module Quant.

Abbreviation f32 := spec_float (only parsing).

Definition f32_add (x y : f32) : f32 := SFadd 24 128 x y.
Definition f32_mul (x y : f32) : f32 := SFmul 24 128 x y.
Definition f32_div (x y : f32) : f32 := SFdiv 24 128 x y.

(** [2f32.powi(n)]: the power of two, or infinity. *)
Definition f32_powi2 (n : Z) : f32 := binary_normalize 24 128 1 n false.

(** The value of a bit pattern, and the pattern of a value. *)
Definition from_bits (bits : Z) : f32 :=
  let s := Z.testbit bits 31 in
  let e := Z.land (Z.shiftr bits 23) 0xFF in
  let m := Z.land bits 0x7FFFFF in
  if e =? 255 then (if m =? 0 then S754_infinity s else S754_nan)
  else if e =? 0 then
    match m with Zpos p => S754_finite s p (-149) | _ => S754_zero s end
  else match m + 2 ^ 23 with Zpos p => S754_finite s p (e - 150) | _ => S754_nan end.

Definition to_bits (x : f32) : Z :=
  let sgn (s : bool) := if s then 2 ^ 31 else 0 in
  match x with
  | S754_zero s => sgn s
  | S754_infinity s => sgn s + 0x7F800000
  | S754_nan => 0x7FC00000
  | S754_finite s m e =>
      if Z.pos m <? 2 ^ 23 then sgn s + Z.pos m
      else sgn s + (e + 150) * 2 ^ 23 + (Z.pos m - 2 ^ 23)
  end.

Definition is_nan_bits (bits : Z) : bool :=
  (Z.land (Z.shiftr bits 23) 0xFF =? 255) && negb (Z.land bits 0x7FFFFF =? 0).
Definition abs_bits (bits : Z) : Z := Z.land bits 0x7FFFFFFF.
Definition sign_bit (bits : Z) : Z := Z.land (Z.shiftr bits 31) 1.

(** The rounding both FP8 quantizers write out: [keep] mantissa bits are kept,
    to nearest, ties to even; a carry out of the mantissa bumps the exponent. *)
Definition round_mantissa (keep exp f32_mant : Z) : Z * Z :=
  let mant := Z.shiftr f32_mant (23 - keep) in
  let round_bit := Z.land (Z.shiftr f32_mant (23 - keep - 1)) 1 in
  let sticky := negb (Z.land f32_mant (Z.shiftl 1 (23 - keep - 1) - 1) =? 0) in
  if (round_bit =? 1) && (sticky || (Z.land mant 1 =? 1)) then
    if mant + 1 =? Z.shiftl 1 keep then (exp + 1, 0) else (exp, mant + 1)
  else (exp, mant).

Definition quantize_fp8_e4m3 (bits : Z) : Z :=
  if is_nan_bits bits then 0x7F
  else if abs_bits bits =? 0 then 0x00
  else
    let sign := sign_bit bits in
    if abs_bits bits =? 0x7F800000 then Z.lor (Z.shiftl sign 7) 0x78
    else
      let f32_exp := Z.land (Z.shiftr bits 23) 0xFF - 127 in
      let f32_mant := Z.land bits 0x7FFFFF in
      let '(fp8_exp, mant) := round_mantissa 3 (f32_exp + 7) f32_mant in
      if 15 <=? fp8_exp then Z.lor (Z.shiftl sign 7) 0x78
      else if fp8_exp <=? 0 then
        if fp8_exp <? -7 then Z.shiftl sign 7
        else Z.lor (Z.shiftl sign 7) (Z.land (Z.shiftr (Z.lor 8 mant) (1 - fp8_exp)) 7)
      else Z.lor (Z.lor (Z.shiftl sign 7) (Z.shiftl fp8_exp 3)) mant.

Definition dequantize_fp8_e4m3 (q : Z) : f32 :=
  let sign := Z.land (Z.shiftr q 7) 1 in
  let exp := Z.land (Z.shiftr q 3) 0xF in
  let mant := Z.land q 7 in
  let value :=
    if exp =? 0 then f32_mul (f32_of_Z mant) (f32_powi2 (-6))
    else f32_mul (f32_add (f32_of_Z 1) (f32_div (f32_of_Z mant) (f32_of_Z 8)))
                 (f32_powi2 (exp - 7)) in
  if sign =? 1 then SFopp value else value.

Definition quantize_fp8_e5m2 (bits : Z) : Z :=
  if is_nan_bits bits then 0x7F
  else if abs_bits bits =? 0 then 0x00
  else
    let sign := sign_bit bits in
    if abs_bits bits =? 0x7F800000 then Z.lor (Z.shiftl sign 7) 0x7C
    else
      let f32_exp := Z.land (Z.shiftr bits 23) 0xFF - 127 in
      let f32_mant := Z.land bits 0x7FFFFF in
      let '(fp8_exp, mant) := round_mantissa 2 (f32_exp + 15) f32_mant in
      if 31 <=? fp8_exp then Z.lor (Z.shiftl sign 7) 0x7C
      else if fp8_exp <=? 0 then
        if fp8_exp <? -1 then Z.shiftl sign 7
        else Z.lor (Z.shiftl sign 7) (Z.land (Z.shiftr (Z.lor 4 mant) (1 - fp8_exp)) 3)
      else Z.lor (Z.lor (Z.shiftl sign 7) (Z.shiftl fp8_exp 2)) mant.

Definition dequantize_fp8_e5m2 (q : Z) : f32 :=
  let sign := Z.land (Z.shiftr q 7) 1 in
  let exp := Z.land (Z.shiftr q 2) 0x1F in
  let mant := Z.land q 3 in
  let value :=
    if exp =? 0 then f32_mul (f32_of_Z mant) (f32_powi2 (-14))
    else f32_mul (f32_add (f32_of_Z 1) (f32_div (f32_of_Z mant) (f32_of_Z 4)))
                 (f32_powi2 (exp - 15)) in
  if sign =? 1 then SFopp value else value.

Definition quantize_fp4_e2m1 (bits : Z) : Z :=
  if is_nan_bits bits then 0x7
  else if abs_bits bits =? 0 then 0x0
  else
    let sign := sign_bit bits in
    let abs_value := from_bits (abs_bits bits) in
    let below (num den : Z) := SFltb abs_value (f32_div (f32_of_Z num) (f32_of_Z den)) in
    let code (exp mant : Z) := Z.lor (Z.lor (Z.shiftl sign 3) (Z.shiftl exp 1)) mant in
    if abs_bits bits =? 0x7F800000 then Z.lor (Z.shiftl sign 3) 0x6
    else if below 1 4 then code 0 0
    else if below 3 4 then code 0 1
    else if below 5 4 then code 1 0
    else if below 7 4 then code 1 1
    else if below 5 2 then code 2 0
    else if below 7 2 then code 2 1
    else Z.lor (Z.shiftl sign 3) 0x6.

Definition dequantize_fp4_e2m1 (q : Z) : f32 :=
  let sign := Z.land (Z.shiftr q 3) 1 in
  let exp := Z.land (Z.shiftr q 1) 3 in
  let mant := Z.land q 1 in
  let value :=
    if exp =? 0 then f32_mul (f32_of_Z mant) (f32_div (f32_of_Z 1) (f32_of_Z 2))
    else if exp =? 3 then S754_infinity false
    else f32_mul (f32_add (f32_of_Z 1) (f32_div (f32_of_Z mant) (f32_of_Z 2)))
                 (f32_powi2 (exp - 1)) in
  if sign =? 1 then SFopp value else value.

Definition pack_fp4_pair (a b : Z) : Z :=
  Z.lor (wrap 8 (Z.shiftl a 4)) (Z.land b 0xF).

Definition unpack_fp4_pair (packed : Z) : Z * Z :=
  (Z.shiftr packed 4, Z.land packed 0xF).

Definition e8m0_to_f32 (exponent : Z) : f32 := f32_powi2 exponent.

(** [log2_round x] is [x.log2().round() as i32]. *)
Definition f32_to_e8m0 (log2_round : f32 → Z) (scale : f32) : Z :=
  match scale with
  | S754_nan => 0
  | S754_infinity false => 255
  | S754_infinity true => 0
  | _ =>
      if SFleb scale (f32_of_Z 0) then 0
      else
        let exp := log2_round scale in
        if exp <? 0 then 0 else if 255 <? exp then 255 else exp
  end.

End Quant.

Module QuantFacts.
Import Quant.

(** The pattern with sign [s], exponent field [E] and mantissa field [mant]. *)
Definition f32_bits (s E mant : Z) : Z := s * 2 ^ 31 + E * 2 ^ 23 + mant.

Section Fields.
Context (s E mant : Z).
Context (Hs : 0 ≤ s < 2) (HE : 0 ≤ E < 256) (Hm : 0 ≤ mant < 2 ^ 23).

Lemma mant_field : Z.land (f32_bits s E mant) 0x7FFFFF = mant.
Proof.
  change 0x7FFFFF with (2 ^ 23 - 1). rewrite land_mask by lia. unfold f32_bits.
  symmetry. apply Z.mod_unique with (s * 2 ^ 8 + E); lia.
Qed.

Lemma exp_field : Z.land (Z.shiftr (f32_bits s E mant) 23) 0xFF = E.
Proof.
  change 0xFF with (2 ^ 8 - 1). rewrite land_mask, Z.shiftr_div_pow2 by lia. unfold f32_bits.
  replace ((s * 2 ^ 31 + E * 2 ^ 23 + mant) / 2 ^ 23) with (s * 2 ^ 8 + E)
    by (apply Z.div_unique with mant; lia).
  symmetry. apply Z.mod_unique with s; lia.
Qed.

Lemma sign_field : sign_bit (f32_bits s E mant) = s.
Proof.
  unfold sign_bit. change 1 with (2 ^ 1 - 1) at 1. rewrite land_mask, Z.shiftr_div_pow2 by lia.
  unfold f32_bits.
  replace ((s * 2 ^ 31 + E * 2 ^ 23 + mant) / 2 ^ 31) with s
    by (apply Z.div_unique with (E * 2 ^ 23 + mant); lia).
  apply Z.mod_small. lia.
Qed.

Lemma abs_field : abs_bits (f32_bits s E mant) = E * 2 ^ 23 + mant.
Proof.
  unfold abs_bits. change 0x7FFFFFFF with (2 ^ 31 - 1). rewrite land_mask by lia.
  unfold f32_bits. symmetry. apply Z.mod_unique with s; lia.
Qed.

End Fields.

(** The mantissa rounding is to the nearest: the kept mantissa, with its
    implicit bit and at the bumped exponent, is within half a unit. *)
Lemma round_mantissa_nearest keep e mant :
  keep = 2 ∨ keep = 3 → 0 ≤ mant < 2 ^ 23 →
  ∃ d m, round_mantissa keep e mant = (e + d, m) ∧ (d = 0 ∨ d = 1 ∧ m = 0) ∧
         0 ≤ m < 2 ^ keep ∧
         Z.abs ((2 ^ keep + m) * 2 ^ (23 - keep) * 2 ^ d - (2 ^ 23 + mant)) ≤ 2 ^ (22 - keep) ∧
         (d = 1 → 2 ^ 23 - 2 ^ (22 - keep) ≤ mant).
Proof.
  intros Hk Hm. unfold round_mantissa.
  assert (∃ n, 0 < n ∧ 2 ^ (23 - keep - 1) = n ∧ 2 ^ (23 - keep) = 2 * n ∧
               2 ^ (22 - keep) = n ∧ 2 ^ 23 = 2 ^ keep * (2 * n) ∧ 0 < 2 ^ keep)
    as (n & Hn0 & E1 & E2 & E3 & E4 & E5).
  { destruct Hk as [-> | ->]; [exists (2 ^ 20)|exists (2 ^ 19)]; done. }
  rewrite !Z.shiftr_div_pow2, !Z.shiftl_mul_pow2, !Z.mul_1_l by (destruct Hk; lia).
  rewrite E1. change 1 with (2 ^ 1 - 1) at 2 7. rewrite !(land_mask _ 1) by lia.
  replace (Z.land mant (n - 1)) with (mant mod n)
    by (rewrite <- E1; symmetry; apply land_mask; destruct Hk; lia).
  rewrite E2, E3. change (2 ^ 1) with 2. set (p := 2 ^ keep) in *.
  pose proof (Z.div_mod mant (2 * n) ltac:(lia)) as D.
  pose proof (Z.mod_pos_bound mant (2 * n) ltac:(lia)) as B.
  set (h := mant / (2 * n)) in *. set (r := mant mod (2 * n)) in *.
  assert (Hh : 0 ≤ h < p).
  { split; [apply Z.div_pos; lia|]. apply Z.div_lt_upper_bound; nia. }
  destruct (Z.le_gt_cases n r) as [Hr|Hr].
  - assert ((mant / n) mod 2 = 1) as ->.
    { replace (mant / n) with (2 * h + 1) by (apply Z.div_unique with (r - n); lia).
      symmetry. apply Z.mod_unique with h; lia. }
    assert (mant mod n = r - n) as ->
      by (symmetry; apply Z.mod_unique with (2 * h + 1); lia).
    rewrite Z.eqb_refl. cbn [andb].
    destruct (Z.eqb_spec (r - n) 0) as [Hz|Hz]; cbn [negb orb];
      [destruct (Z.eqb_spec (h mod 2) 1)|].
    1, 3: destruct (Z.eqb_spec (h + 1) p) as [Hc|Hc];
      [exists 1, 0|exists 0, (h + 1)]; rewrite ?Z.add_0_r;
      change (2 ^ 1) with 2; change (2 ^ 0) with 1; split_and!; auto; nia.
    exists 0, h. rewrite Z.add_0_r. change (2 ^ 0) with 1. split_and!; auto; nia.
  - assert ((mant / n) mod 2 = 0) as ->.
    { replace (mant / n) with (2 * h) by (apply Z.div_unique with r; lia).
      symmetry. apply Z.mod_unique with h; lia. }
    cbn [Z.eqb andb]. exists 0, h. rewrite Z.add_0_r. change (2 ^ 0) with 1.
    split_and!; auto; nia.
Qed.

(** ** What the normal codes decode to, code by code *)

Definition codes (exps mants : list Z) : list (Z * Z * Z) :=
  s ← [0; 1]; e ← exps; m ← mants; [(s, e, m)].

Lemma elem_of_codes exps mants s e m :
  0 ≤ s < 2 → e ∈ exps → m ∈ mants → In (s, e, m) (codes exps mants).
Proof.
  intros Hs He Hm. apply list_elem_of_In. unfold codes.
  apply list_elem_of_bind. exists s.
  split; [|rewrite !elem_of_cons; lia].
  apply list_elem_of_bind. exists e. split; [|done].
  apply list_elem_of_bind. exists m. split; [by left|done].
Qed.

Definition e4m3_code (c : Z * Z * Z) : Z :=
  Z.lor (Z.lor (Z.shiftl c.1.1 7) (Z.shiftl c.1.2 3)) c.2.
Definition e4m3_value (c : Z * Z * Z) : spec_float :=
  S754_finite (c.1.1 =? 1) (Z.to_pos ((8 + c.2) * 2 ^ 20)) (c.1.2 - 30).

Definition e5m2_code (c : Z * Z * Z) : Z :=
  Z.lor (Z.lor (Z.shiftl c.1.1 7) (Z.shiftl c.1.2 2)) c.2.
Definition e5m2_value (c : Z * Z * Z) : spec_float :=
  S754_finite (c.1.1 =? 1) (Z.to_pos ((4 + c.2) * 2 ^ 21)) (c.1.2 - 38).

Lemma e4m3_table :
  map (λ c, dequantize_fp8_e4m3 (e4m3_code c)) (codes (seqZ 1 14) (seqZ 0 8))
  = map e4m3_value (codes (seqZ 1 14) (seqZ 0 8)).
Proof. vm_compute. reflexivity. Qed.

Lemma e5m2_table :
  map (λ c, dequantize_fp8_e5m2 (e5m2_code c)) (codes (seqZ 1 30) (seqZ 0 4))
  = map e5m2_value (codes (seqZ 1 30) (seqZ 0 4)).
Proof. vm_compute. reflexivity. Qed.

Lemma dequantize_e4m3_normal s e m :
  0 ≤ s < 2 → 1 ≤ e ≤ 14 → 0 ≤ m < 8 →
  dequantize_fp8_e4m3 (e4m3_code (s, e, m)) = e4m3_value (s, e, m).
Proof.
  intros Hs He Hm.
  apply (ext_in_map e4m3_table (s, e, m)), elem_of_codes; [done|apply elem_of_seqZ; lia..].
Qed.

Lemma dequantize_e5m2_normal s e m :
  0 ≤ s < 2 → 1 ≤ e ≤ 30 → 0 ≤ m < 4 →
  dequantize_fp8_e5m2 (e5m2_code (s, e, m)) = e5m2_value (s, e, m).
Proof.
  intros Hs He Hm.
  apply (ext_in_map e5m2_table (s, e, m)), elem_of_codes; [done|apply elem_of_seqZ; lia..].
Qed.

End QuantFacts.

Module QuantTheorems.
Import Quant QuantFacts.

(** The value [x] is within half a unit of the last kept place of the [f32]
    with fields [s], [E], [mant], on the same side of zero. *)
Definition rounds_to (keep s E mant : Z) (x : spec_float) : Prop :=
  ∃ M d, x = S754_finite (s =? 1) M (E - 150 + d) ∧ 0 ≤ d ≤ 1 ∧
         Z.abs (Z.pos M * 2 ^ d - (2 ^ 23 + mant)) ≤ 2 ^ (22 - keep).

(** C36. FP8 storage rounds to nearest: every [f32] whose magnitude lies in the
    normal range of the format (and rounds to a finite code) is stored as a code
    that dequantizes to a value with the same sign and within half a unit in the
    last place, for E4M3 and for E5M2. *)
Theorem fp8_rounds_to_nearest s E mant :
  0 ≤ s < 2 → 0 ≤ mant < 2 ^ 23 →
  (121 ≤ E ≤ 134 → (E = 134 → mant < 2 ^ 23 - 2 ^ 19) →
   rounds_to 3 s E mant (dequantize_fp8_e4m3 (quantize_fp8_e4m3 (f32_bits s E mant)))) ∧
  (113 ≤ E ≤ 142 → (E = 142 → mant < 2 ^ 23 - 2 ^ 20) →
   rounds_to 2 s E mant (dequantize_fp8_e5m2 (quantize_fp8_e5m2 (f32_bits s E mant)))).
Proof.
  intros Hs Hm. split; intros HE Htop.
  - unfold quantize_fp8_e4m3, is_nan_bits.
    rewrite exp_field, mant_field, abs_field, sign_field by (done || lia).
    rewrite (proj2 (Z.eqb_neq E 255)), !(proj2 (Z.eqb_neq (E * 2 ^ 23 + mant) _)) by lia.
    cbn [andb].
    destruct (round_mantissa_nearest 3 (E - 127 + 7) mant) as (d & m & -> & Hd & Hmb & Herr & Hc);
      [auto|done|]. change (2 ^ 3) with 8 in *. change (2 ^ (22 - 3)) with (2 ^ 19) in *.
    assert (d ≤ 1 ∧ 1 ≤ E - 127 + 7 + d ≤ 14) as [Hd1 He].
    { destruct Hd as [->|[-> _]]; [lia|]. specialize (Hc eq_refl). lia. }
    rewrite (proj2 (Z.leb_gt 15 _)), (proj2 (Z.leb_gt _ 0)) by lia.
    pose proof (dequantize_e4m3_normal s (E - 127 + 7 + d) m Hs He Hmb) as Hq.
    unfold e4m3_code in Hq. cbn [fst snd] in Hq. rewrite Hq.
    exists (Z.to_pos ((8 + m) * 2 ^ 20)), d. split_and!; [|lia|lia|].
    + unfold e4m3_value. cbn [fst snd]. f_equal. lia.
    + rewrite Z2Pos.id by lia. apply Herr.
  - unfold quantize_fp8_e5m2, is_nan_bits.
    rewrite exp_field, mant_field, abs_field, sign_field by (done || lia).
    rewrite (proj2 (Z.eqb_neq E 255)), !(proj2 (Z.eqb_neq (E * 2 ^ 23 + mant) _)) by lia.
    cbn [andb].
    destruct (round_mantissa_nearest 2 (E - 127 + 15) mant) as (d & m & -> & Hd & Hmb & Herr & Hc);
      [auto|done|]. change (2 ^ 2) with 4 in *. change (2 ^ (22 - 2)) with (2 ^ 20) in *.
    assert (d ≤ 1 ∧ 1 ≤ E - 127 + 15 + d ≤ 30) as [Hd1 He].
    { destruct Hd as [->|[-> _]]; [lia|]. specialize (Hc eq_refl). lia. }
    rewrite (proj2 (Z.leb_gt 31 _)), (proj2 (Z.leb_gt _ 0)) by lia.
    pose proof (dequantize_e5m2_normal s (E - 127 + 15 + d) m Hs He Hmb) as Hq.
    unfold e5m2_code in Hq. cbn [fst snd] in Hq. rewrite Hq.
    exists (Z.to_pos ((4 + m) * 2 ^ 21)), d. split_and!; [|lia|lia|].
    + unfold e5m2_value. cbn [fst snd]. f_equal. lia.
    + rewrite Z2Pos.id by lia. apply Herr.
Qed.

(** 1.1 is stored as 1.125. *)
Lemma fp8_rounds_to_nearest_witness :
  rounds_to 3 0 127 0x0CCCCD
    (dequantize_fp8_e4m3 (quantize_fp8_e4m3 (f32_bits 0 127 0x0CCCCD))).
Proof.
  apply (fp8_rounds_to_nearest 0 127 0x0CCCCD); [lia|lia|lia|]. discriminate.
Defined.

(** Every FP4 code but the two NaN-like ones and minus zero survives the round
    trip, and so do packed pairs. *)
Lemma fp4_roundtrip q :
  q ∈ [0; 1; 2; 3; 4; 5; 6; 9; 10; 11; 12; 13; 14] →
  quantize_fp4_e2m1 (to_bits (dequantize_fp4_e2m1 q)) = q.
Proof.
  intros Hq. repeat (apply elem_of_cons in Hq as [->|Hq]; [vm_compute; reflexivity|]).
  by apply not_elem_of_nil in Hq.
Qed.

Lemma fp4_pair_roundtrip a b :
  0 ≤ a < 16 → 0 ≤ b < 16 → unpack_fp4_pair (pack_fp4_pair a b) = (a, b).
Proof.
  intros Ha Hb. unfold unpack_fp4_pair, pack_fp4_pair.
  rewrite Z.shiftl_mul_pow2 by lia. rewrite wrap_small by lia.
  change 0xF with (2 ^ 4 - 1). rewrite !land_mask, (Z.mod_small b) by lia.
  rewrite Z.lor_comm, (lor_shift_add b a 4) by lia. f_equal.
  - rewrite Z.shiftr_div_pow2 by lia. symmetry. apply Z.div_unique with b; lia.
  - symmetry. apply Z.mod_unique with a; lia.
Qed.

Lemma powers_table :
  map f32_powi2 (seqZ 0 256) =
  map (λ k, if k <=? 127 then S754_finite false 8388608 (k - 23) else S754_infinity false)
      (seqZ 0 256).
Proof. vm_compute. reflexivity. Qed.

(** Powers of two up to 127 survive the E8M0 round trip with an exact
    logarithm; larger exponents overflow to infinity and come back as 255. *)
Lemma e8m0_roundtrip log2_round :
  (∀ k, 0 ≤ k ≤ 127 → log2_round (f32_powi2 k) = k) →
  ∀ k, 0 ≤ k < 256 →
  f32_to_e8m0 log2_round (e8m0_to_f32 k) = if k <=? 127 then k else 255.
Proof.
  intros Hlog k Hk. unfold e8m0_to_f32.
  pose proof (ext_in_map powers_table k) as E.
  rewrite <- list_elem_of_In, elem_of_seqZ in E. specialize (E ltac:(lia)).
  destruct (Z.leb_spec k 127) as [Hs|Hs]; [|by rewrite E].
  unfold f32_to_e8m0. rewrite E at 1. rewrite Hlog by lia. rewrite E.
  cbn [SFleb SFcompare f32_of_Z binary_normalize].
  by rewrite (proj2 (Z.ltb_ge k 0)), (proj2 (Z.ltb_ge 255 k)) by lia.
Qed.

(** Subnormal codes decode to a value eight (E4M3) or four (E5M2) times too
    large: the smallest magnitudes 2^-9 and 2^-16 come back as 2^-6 and 2^-14. *)
Lemma fp8_subnormals_scaled :
  dequantize_fp8_e4m3 (quantize_fp8_e4m3 (to_bits (f32_powi2 (-9)))) = f32_powi2 (-6) ∧
  dequantize_fp8_e5m2 (quantize_fp8_e5m2 (to_bits (f32_powi2 (-16)))) = f32_powi2 (-14).
Proof. split; vm_compute; reflexivity. Qed.

(** The codes of infinity and NaN decode to finite numbers. *)
Lemma fp8_specials_decode_finite :
  dequantize_fp8_e4m3 (quantize_fp8_e4m3 0x7F800000) = f32_of_Z 256 ∧
  dequantize_fp8_e4m3 (quantize_fp8_e4m3 0x7FC00000) = f32_of_Z 480 ∧
  dequantize_fp8_e5m2 (quantize_fp8_e5m2 0x7F800000) = f32_of_Z 65536 ∧
  dequantize_fp4_e2m1 (quantize_fp4_e2m1 0x7FC00000) = S754_infinity false.
Proof. split_and!; vm_compute; reflexivity. Qed.

End QuantTheorems.
