(* ===== verification/DeviceQuant.v ===== *)
(** * Host and device views of the storage formats

    [Policy_h] and [Sidecar] model kernels/common/psp_kv_types.h: the packed
    policy word and the 64-byte sidecar descriptor that the Rust side writes and
    the kernels read.  [Device] models kernels/common/quantization_utils.cuh, the
    CUDA counterpart of [store/src/quantization.rs].  The theorems compare both
    sides: the policy words and the memory images are the same, the FP8
    quantizers agree on every bit pattern, the FP4 ones only on normal numbers
    away from two ties.  A [float] argument of a quantizer is its bit pattern;
    [powf] and [log2f] are arguments. *)

From S2P Require Import Prelude F64 Precision KvBlock Quantization.

(** A C value converted to [uint8_t] or [uint32_t]. *)
Definition u8 (z : Z) : Z := wrap 8 z.
Definition u32 (z : Z) : Z := wrap 32 z.

(** ** The policy word *)

Module Policy_h.

Definition psp_policy_pack (precision_level : Z) (use_residual : bool) (active_head_mask : Z) : Z :=
  Z.lor (Z.lor (Z.land precision_level 0x3)
               (u32 (Z.shiftl (if use_residual then 1 else 0) 2)))
        (u32 (Z.shiftl (Z.land active_head_mask 0xFFFFFF) 8)).

Definition psp_policy_get_precision (policy : Z) : Z := u8 (Z.land policy 0x3).

Definition psp_policy_get_residual (policy : Z) : bool :=
  negb (Z.land (Z.shiftr policy 2) 1 =? 0).

Definition psp_policy_get_head_mask (policy : Z) : Z :=
  Z.land (Z.shiftr policy 8) 0xFFFFFF.

End Policy_h.

(** ** The sidecar descriptor *)

Module Sidecar.
Import PspKv.

(** The members of the C struct: element size and number of elements.  The
    alignment of a member is its element size. *)
Definition c_members : list (Z * Z) :=
  [(8, 1); (8, 1); (8, 1); (1, 1); (1, 1); (1, 1); (1, 1); (1, 8); (1, 28)].

(** The next multiple of [a]. *)
Definition align_up (a z : Z) : Z := (z + a - 1) / a * a.

(** The C layout rule, which [repr(C)] follows too: every member at the next
    multiple of its alignment, the size rounded up to the struct's alignment. *)
Fixpoint offsets (from : Z) (ms : list (Z * Z)) : list Z * Z :=
  match ms with
  | [] => ([], from)
  | (sz, n) :: ms =>
      let o := align_up sz from in
      let '(os, e) := offsets (o + sz * n) ms in (o :: os, e)
  end.

Definition c_offsets : list Z := (offsets 0 c_members).1.
Definition c_sizeof : Z := align_up 64 (offsets 0 c_members).2.

(** The memory image of a descriptor written by the Rust side. *)
Definition image (d : PspKvSidecarDescriptor) : list Z :=
  to_le_bytes 8 (data_page_base_ptr d) ++ to_le_bytes 8 (residual_page_ptr d) ++
  to_le_bytes 8 (head_presence_mask d) ++
  [base_precision d; compression_level d; head_group_size d; reserved_flags d] ++
  per_head_scale_e8m0 d ++ reserved_padding d.

(** A kernel's read of [len] bytes at the offset of member [i]. *)
Definition c_member_bytes (i : nat) (mem : list Z) : option (list Z) :=
  o ← c_offsets !! i;
  '(sz, n) ← c_members !! i;
  let len := Z.to_nat (sz * n) in
  if (length mem <? Z.to_nat o + len)%nat then None
  else Some (take len (drop (Z.to_nat o) mem)).

(** The struct as a kernel sees it. *)
Definition c_read (mem : list Z) : option PspKvSidecarDescriptor :=
  let int i := from_le_bytes <$> c_member_bytes i mem in
  dp ← int 0%nat; rp ← int 1%nat; hm ← int 2%nat;
  bp ← int 3%nat; cl ← int 4%nat; hg ← int 5%nat; rf ← int 6%nat;
  sc ← c_member_bytes 7 mem; pad ← c_member_bytes 8 mem;
  Some {| data_page_base_ptr := dp; residual_page_ptr := rp; head_presence_mask := hm;
          base_precision := bp; compression_level := cl; head_group_size := hg;
          reserved_flags := rf; per_head_scale_e8m0 := sc; reserved_padding := pad |}.

(** The field types of the Rust struct. *)
Definition typed (d : PspKvSidecarDescriptor) : Prop :=
  0 ≤ data_page_base_ptr d < 2 ^ 64 ∧ 0 ≤ residual_page_ptr d < 2 ^ 64 ∧
  0 ≤ head_presence_mask d < 2 ^ 64 ∧
  length (per_head_scale_e8m0 d) = 8%nat ∧ length (reserved_padding d) = 28%nat.

End Sidecar.

(** ** The conversions of quantization_utils.cuh *)

Module Device.
Import Quant.

Definition isnan (value : Z) : bool := is_nan_bits value.
Definition fabsf (value : Z) : Z := abs_bits value.
Definition isinf (value : Z) : bool := abs_bits value =? 0x7F800000.

(** The rounding the three quantizers repeat, with [keep] mantissa bits:
    [mant], [round_bit] and [sticky] are [uint8_t]. *)
Definition round_step (keep exp f32_mant : Z) : Z * Z :=
  let mant := u8 (Z.shiftr f32_mant (23 - keep)) in
  let round_bit := u8 (Z.land (Z.shiftr f32_mant (23 - keep - 1)) 1) in
  let sticky :=
    if Z.land f32_mant (Z.shiftl 1 (23 - keep - 1) - 1) =? 0 then 0 else 1 in
  if negb (round_bit =? 0) && (negb (sticky =? 0) || negb (Z.land mant 1 =? 0)) then
    let mant := u8 (mant + 1) in
    if mant =? Z.shiftl 1 keep then (exp + 1, 0) else (exp, mant)
  else (exp, mant).

Definition quantize_fp8_e4m3 (value : Z) : Z :=
  if isnan value then 0x7F
  else if fabsf value =? 0 then 0x00
  else
    let sign := u8 (Z.land (Z.shiftr value 31) 0x1) in
    if isinf (fabsf value) then u8 (Z.lor (Z.shiftl sign 7) 0x78)
    else
      let f32_exp := Z.land (Z.shiftr value 23) 0xFF - 127 in
      let f32_mant := Z.land value 0x7FFFFF in
      let '(fp8_exp, mant) := round_step 3 (f32_exp + 7) f32_mant in
      if 15 <=? fp8_exp then u8 (Z.lor (Z.shiftl sign 7) 0x78)
      else if (fp8_exp <=? 0) && (fp8_exp <? -7) then u8 (Z.shiftl sign 7)
      else
        let '(fp8_exp, mant) :=
          if fp8_exp <=? 0
          then (0, u8 (Z.land (Z.shiftr (Z.lor 0x8 mant) (1 - fp8_exp)) 0x7))
          else (fp8_exp, mant) in
        u8 (Z.lor (Z.lor (Z.shiftl sign 7) (Z.shiftl (Z.land fp8_exp 0xF) 3)) mant).

Definition quantize_fp8_e5m2 (value : Z) : Z :=
  if isnan value then 0x7F
  else if fabsf value =? 0 then 0x00
  else
    let sign := u8 (Z.land (Z.shiftr value 31) 0x1) in
    if isinf (fabsf value) then u8 (Z.lor (Z.shiftl sign 7) 0x7C)
    else
      let f32_exp := Z.land (Z.shiftr value 23) 0xFF - 127 in
      let f32_mant := Z.land value 0x7FFFFF in
      let '(fp8_exp, mant) := round_step 2 (f32_exp + 15) f32_mant in
      if 31 <=? fp8_exp then u8 (Z.lor (Z.shiftl sign 7) 0x7C)
      else if (fp8_exp <=? 0) && (fp8_exp <? -1) then u8 (Z.shiftl sign 7)
      else
        let '(fp8_exp, mant) :=
          if fp8_exp <=? 0
          then (0, u8 (Z.land (Z.shiftr (Z.lor 0x4 mant) (1 - fp8_exp)) 0x3))
          else (fp8_exp, mant) in
        u8 (Z.lor (Z.lor (Z.shiftl sign 7) (Z.shiftl (Z.land fp8_exp 0x1F) 2)) mant).

Definition quantize_fp4_e2m1 (value : Z) : Z :=
  if isnan value then 0x7
  else if fabsf value =? 0 then 0x0
  else
    let sign := u8 (Z.land (Z.shiftr value 31) 0x1) in
    if isinf (fabsf value) then u8 (Z.lor (Z.shiftl sign 3) 0x6)
    else
      let f32_exp := Z.land (Z.shiftr value 23) 0xFF - 127 in
      let f32_mant := Z.land value 0x7FFFFF in
      let '(fp4_exp, mant) := round_step 1 (f32_exp + 1) f32_mant in
      if 3 <=? fp4_exp then u8 (Z.lor (Z.shiftl sign 3) 0x6)
      else if (fp4_exp <=? 0) && (fp4_exp <? -1) then u8 (Z.shiftl sign 3)
      else
        let '(fp4_exp, mant) :=
          if fp4_exp <=? 0
          then (0, u8 (Z.land (Z.shiftr (Z.lor 0x2 mant) (1 - fp4_exp)) 0x1))
          else (fp4_exp, mant) in
        u8 (Z.lor (Z.lor (Z.shiftl sign 3) (Z.shiftl (Z.land fp4_exp 0x3) 1)) mant).

Section Libm.
(** [powf] and [(int)roundf(log2f(x))] of the CUDA math library. *)
Context (powf : spec_float → spec_float → spec_float) (log2_round : spec_float → Z).

Definition dequantize_fp8_e4m3 (q : Z) : spec_float :=
  let sign := u8 (Z.land (Z.shiftr q 7) 0x1) in
  let exp := u8 (Z.land (Z.shiftr q 3) 0xF) in
  let mant := u8 (Z.land q 0x7) in
  let value :=
    if exp =? 0 then f32_mul (f32_of_Z mant) (powf (f32_of_Z 2) (f32_of_Z (-6)))
    else f32_mul (f32_add (f32_of_Z 1) (f32_div (f32_of_Z mant) (f32_of_Z 8)))
                 (powf (f32_of_Z 2) (f32_of_Z (exp - 7))) in
  if negb (sign =? 0) then SFopp value else value.

Definition dequantize_fp8_e5m2 (q : Z) : spec_float :=
  let sign := u8 (Z.land (Z.shiftr q 7) 0x1) in
  let exp := u8 (Z.land (Z.shiftr q 2) 0x1F) in
  let mant := u8 (Z.land q 0x3) in
  let value :=
    if exp =? 0 then f32_mul (f32_of_Z mant) (powf (f32_of_Z 2) (f32_of_Z (-14)))
    else f32_mul (f32_add (f32_of_Z 1) (f32_div (f32_of_Z mant) (f32_of_Z 4)))
                 (powf (f32_of_Z 2) (f32_of_Z (exp - 15))) in
  if negb (sign =? 0) then SFopp value else value.

Definition dequantize_fp4_e2m1 (q : Z) : spec_float :=
  let sign := u8 (Z.land (Z.shiftr q 3) 0x1) in
  let exp := u8 (Z.land (Z.shiftr q 1) 0x3) in
  let mant := u8 (Z.land q 0x1) in
  let value :=
    if exp =? 0 then f32_mul (f32_of_Z mant) (f32_lit 1 2)
    else if exp =? 3 then S754_infinity false
    else f32_mul (f32_add (f32_of_Z 1) (f32_div (f32_of_Z mant) (f32_of_Z 2)))
                 (powf (f32_of_Z 2) (f32_of_Z (exp - 1))) in
  if negb (sign =? 0) then SFopp value else value.

Definition pack_fp4_pair (a b : Z) : Z := u8 (Z.lor (Z.shiftl a 4) (Z.land b 0x0F)).

Definition unpack_fp4_pair (packed : Z) : Z * Z :=
  (u8 (Z.shiftr packed 4), u8 (Z.land packed 0x0F)).

Definition e8m0_to_f32 (exponent : Z) : spec_float := powf (f32_of_Z 2) (f32_of_Z exponent).

Definition f32_to_e8m0 (scale : spec_float) : Z :=
  match scale with
  | S754_nan => 0
  | S754_infinity false => 255
  | _ =>
      if SFleb scale (f32_of_Z 0) then 0
      else
        let e := log2_round scale in
        if e <? 0 then 0 else if 255 <? e then 255 else u8 e
  end.

End Libm.
End Device.

Module DeviceFacts.
Import Quant QuantFacts Device.

Lemma u8_small z : 0 ≤ z < 256 → u8 z = z.
Proof. apply (wrap_small 8). Qed.

Lemma lor_range a b k : 0 ≤ k → 0 ≤ a < 2 ^ k → 0 ≤ b < 2 ^ k → 0 ≤ Z.lor a b < 2 ^ k.
Proof.
  intros Hk Ha Hb. assert (0 ≤ Z.lor a b) by (apply Z.lor_nonneg; lia). split; [done|].
  destruct (Z.eq_dec (Z.lor a b) 0) as [->|Hn]; [lia|].
  apply Z.log2_lt_pow2; [lia|]. rewrite Z.log2_lor by lia.
  apply Z.max_lub_lt.
  - destruct (Z.eq_dec a 0) as [->|]; [|apply Z.log2_lt_pow2; lia].
    destruct (Z.eq_dec k 0) as [->|]; [|cbn; lia].
    assert (b = 0) as -> by lia. done.
  - destruct (Z.eq_dec b 0) as [->|]; [|apply Z.log2_lt_pow2; lia].
    destruct (Z.eq_dec k 0) as [->|]; [|cbn; lia].
    assert (a = 0) as -> by lia. done.
Qed.

Lemma land_range a k : 0 ≤ k → 0 ≤ Z.land a (2 ^ k - 1) < 2 ^ k.
Proof. intros Hk. rewrite land_mask by done. apply Z.mod_pos_bound. lia. Qed.

Lemma bit_range a : 0 ≤ Z.land a 1 < 2.
Proof. apply (land_range a 1). lia. Qed.

Lemma one_bit_nonzero a : negb (Z.land a 1 =? 0) = (Z.land a 1 =? 1).
Proof. pose proof (bit_range a). destruct (Z.eqb_spec (Z.land a 1) 0), (Z.eqb_spec (Z.land a 1) 1); cbn; lia. Qed.

Lemma mant_shift_range keep m :
  1 ≤ keep ≤ 3 → 0 ≤ m < 2 ^ 23 → 0 ≤ Z.shiftr m (23 - keep) < 2 ^ keep.
Proof.
  intros Hk Hm. rewrite Z.shiftr_div_pow2 by lia. split; [apply Z.div_pos; lia|].
  apply Z.div_lt_upper_bound; [lia|]. rewrite <- Z.pow_add_r by lia.
  replace (23 - keep + keep) with 23 by lia. lia.
Qed.

(** The device rounding is the host's: the [uint8_t] variables never truncate. *)
Lemma round_step_host keep e m :
  1 ≤ keep ≤ 3 → 0 ≤ m < 2 ^ 23 → round_step keep e m = round_mantissa keep e m.
Proof.
  intros Hk Hm. unfold round_step, round_mantissa.
  pose proof (mant_shift_range keep m Hk Hm) as Hr.
  assert (2 ^ keep ≤ 8) by (apply (Z.pow_le_mono_r 2 keep 3); lia).
  pose proof (bit_range (Z.shiftr m (23 - keep - 1))).
  rewrite (u8_small (Z.shiftr m (23 - keep))) by lia.
  rewrite !u8_small by lia. rewrite !one_bit_nonzero.
  replace (negb ((if Z.land m (Z.shiftl 1 (23 - keep - 1) - 1) =? 0 then 0 else 1) =? 0))
    with (negb (Z.land m (Z.shiftl 1 (23 - keep - 1) - 1) =? 0)) by (by case_match).
  done.
Qed.

Lemma sign_device v : u8 (Z.land (Z.shiftr v 31) 1) = sign_bit v.
Proof. unfold sign_bit. apply u8_small. pose proof (bit_range (Z.shiftr v 31)). lia. Qed.

(** A rounded mantissa keeps its bits. *)
Lemma round_mantissa_range keep e m :
  1 ≤ keep ≤ 3 → 0 ≤ m < 2 ^ 23 → 0 ≤ (round_mantissa keep e m).2 < 2 ^ keep.
Proof.
  intros Hk Hm.
  pose proof (mant_shift_range keep m Hk Hm) as Hr.
  unfold round_mantissa. case_if; [case_if|]; cbn; [lia| |lia].
  rewrite Z.shiftl_mul_pow2 in * by lia. lia.
Qed.

(** [sign], exponent and mantissa fields of a small float stay within a byte. *)
Lemma code_range sh s c :
  0 ≤ s < 2 → 0 ≤ sh ≤ 7 → 0 ≤ c < 256 → 0 ≤ Z.lor (Z.shiftl s sh) c < 256.
Proof.
  intros Hs Hsh Hc. apply (lor_range _ _ 8); [lia| |done].
  rewrite Z.shiftl_mul_pow2 by lia.
  assert (0 < 2 ^ sh) by lia. assert (2 ^ sh ≤ 128) by (apply (Z.pow_le_mono_r 2 sh 7); lia).
  change (2 ^ 8) with 256. nia.
Qed.

(** The tail both FP8 quantizers share once the mantissa is rounded: [width]
    exponent bits above [keep] mantissa bits. *)
Definition device_tail (keep width top low sign e m : Z) : Z :=
  if 2 ^ width - 1 <=? e then u8 (Z.lor (Z.shiftl sign 7) top)
  else if (e <=? 0) && (e <? low) then u8 (Z.shiftl sign 7)
  else
    let '(e, m) :=
      if e <=? 0
      then (0, u8 (Z.land (Z.shiftr (Z.lor (2 ^ keep) m) (1 - e)) (2 ^ keep - 1)))
      else (e, m) in
    u8 (Z.lor (Z.lor (Z.shiftl sign 7) (Z.shiftl (Z.land e (2 ^ width - 1)) keep)) m).

Definition host_tail (keep width top low sign e m : Z) : Z :=
  if 2 ^ width - 1 <=? e then Z.lor (Z.shiftl sign 7) top
  else if e <=? 0 then
    if e <? low then Z.shiftl sign 7
    else Z.lor (Z.shiftl sign 7)
           (Z.land (Z.shiftr (Z.lor (2 ^ keep) m) (1 - e)) (2 ^ keep - 1))
  else Z.lor (Z.lor (Z.shiftl sign 7) (Z.shiftl e keep)) m.

Lemma tails_agree keep width top low sign e m :
  0 < keep → 0 < width → keep + width = 7 → 0 ≤ top < 256 → 0 ≤ sign < 2 → low ≤ 0 →
  0 ≤ m < 2 ^ keep →
  device_tail keep width top low sign e m = host_tail keep width top low sign e m.
Proof.
  intros Hk Hw Hkw Ht Hs Hlow Hm. unfold device_tail, host_tail.
  assert (2 ^ keep ≤ 64) by (apply (Z.pow_le_mono_r 2 keep 6); lia).
  destruct (Z.leb_spec (2 ^ width - 1) e).
  { apply u8_small, code_range; lia. }
  destruct (Z.leb_spec e 0); cbn [andb].
  - destruct (Z.ltb_spec e low).
    + rewrite <- (Z.lor_0_r (Z.shiftl sign 7)). apply u8_small, code_range; lia.
    + pose proof (land_range (Z.shiftr (Z.lor (2 ^ keep) m) (1 - e)) keep ltac:(lia)).
      rewrite (u8_small (Z.land _ _)) by lia. cbn [Z.land].
      rewrite Z.shiftl_0_l, Z.lor_0_r. apply u8_small, code_range; lia.
  - rewrite (land_mask e) by lia. rewrite (Z.mod_small e) by lia.
    assert (0 ≤ Z.shiftl e keep < 256).
    { rewrite Z.shiftl_mul_pow2 by lia. split; [nia|].
      assert (2 ^ width * 2 ^ keep = 128) by (rewrite <- Z.pow_add_r by lia; by replace (width + keep) with 7 by lia).
      nia. }
    apply u8_small. apply (lor_range _ _ 8); [lia| |change (2^8) with 256; lia].
    apply code_range; lia.
Qed.

Lemma quantize_e4m3_agree v :
  0 ≤ v < 2 ^ 32 → Device.quantize_fp8_e4m3 v = Quant.quantize_fp8_e4m3 v.
Proof.
  intros Hv. unfold Device.quantize_fp8_e4m3, Quant.quantize_fp8_e4m3, isnan, fabsf, isinf.
  destruct (is_nan_bits v); [done|]. destruct (abs_bits v =? 0); [done|].
  rewrite sign_device. pose proof (bit_range (Z.shiftr v 31)) as Hs. fold (sign_bit v) in Hs.
  assert (abs_bits (abs_bits v) = abs_bits v) as ->.
  { unfold abs_bits. by rewrite <- Z.land_assoc. }
  destruct (abs_bits v =? 0x7F800000); [apply u8_small, code_range; lia|].
  pose proof (land_range v 23 ltac:(lia)) as Hm. change (2 ^ 23 - 1) with 0x7FFFFF in Hm.
  rewrite round_step_host by lia.
  pose proof (round_mantissa_range 3 (Z.land (Z.shiftr v 23) 255 - 127 + 7) _ ltac:(lia) Hm) as Hr.
  destruct (round_mantissa _ _ _) as [e m].
  apply (tails_agree 3 4 0x78 (-7)); cbn in Hr; lia.
Qed.

Lemma quantize_e5m2_agree v :
  0 ≤ v < 2 ^ 32 → Device.quantize_fp8_e5m2 v = Quant.quantize_fp8_e5m2 v.
Proof.
  intros Hv. unfold Device.quantize_fp8_e5m2, Quant.quantize_fp8_e5m2, isnan, fabsf, isinf.
  destruct (is_nan_bits v); [done|]. destruct (abs_bits v =? 0); [done|].
  rewrite sign_device. pose proof (bit_range (Z.shiftr v 31)) as Hs. fold (sign_bit v) in Hs.
  assert (abs_bits (abs_bits v) = abs_bits v) as ->.
  { unfold abs_bits. by rewrite <- Z.land_assoc. }
  destruct (abs_bits v =? 0x7F800000); [apply u8_small, code_range; lia|].
  pose proof (land_range v 23 ltac:(lia)) as Hm. change (2 ^ 23 - 1) with 0x7FFFFF in Hm.
  rewrite round_step_host by lia.
  pose proof (round_mantissa_range 2 (Z.land (Z.shiftr v 23) 255 - 127 + 15) _ ltac:(lia) Hm) as Hr.
  destruct (round_mantissa _ _ _) as [e m].
  apply (tails_agree 2 5 0x7C (-1)); cbn in Hr; lia.
Qed.

(** ** FP4 *)

Lemma from_bits_normal E m :
  1 ≤ E ≤ 254 → 0 ≤ m < 2 ^ 23 →
  from_bits (f32_bits 0 E m) = S754_finite false (Z.to_pos (2 ^ 23 + m)) (E - 150).
Proof.
  intros HE Hm. unfold from_bits. rewrite exp_field, mant_field by lia.
  rewrite (proj2 (Z.eqb_neq E 255)), (proj2 (Z.eqb_neq E 0)) by lia.
  assert (Z.testbit (f32_bits 0 E m) 31 = false) as ->.
  { apply Z.testbit_false; [lia|]. unfold f32_bits. by rewrite Z.div_small by lia. }
  rewrite (Z.add_comm m). by destruct (2 ^ 23 + m) eqn:Eq; [lia| |lia].
Qed.

Lemma below_positive m1 e1 m2 e2 :
  SFltb (S754_finite false m1 e1) (S754_finite false m2 e2) =
  (e1 <? e2) || ((e1 =? e2) && (Z.pos m1 <? Z.pos m2)).
Proof.
  unfold SFltb, SFcompare. destruct (Z.compare_spec e1 e2) as [->|H|H].
  - rewrite Z.ltb_irrefl, Z.eqb_refl. cbn [orb andb]. done.
  - by rewrite (proj2 (Z.ltb_lt e1 e2)).
  - by rewrite (proj2 (Z.ltb_ge e1 e2)), (proj2 (Z.eqb_neq e1 e2)) by lia.
Qed.

(** The thresholds of the host quantizer. *)
Lemma fp4_thresholds :
  f32_div (f32_of_Z 1) (f32_of_Z 4) = S754_finite false 8388608 (-25) ∧
  f32_div (f32_of_Z 3) (f32_of_Z 4) = S754_finite false 12582912 (-24) ∧
  f32_div (f32_of_Z 5) (f32_of_Z 4) = S754_finite false 10485760 (-23) ∧
  f32_div (f32_of_Z 7) (f32_of_Z 4) = S754_finite false 14680064 (-23) ∧
  f32_div (f32_of_Z 5) (f32_of_Z 2) = S754_finite false 10485760 (-22) ∧
  f32_div (f32_of_Z 7) (f32_of_Z 2) = S754_finite false 14680064 (-22).
Proof. split_and!; vm_compute; reflexivity. Qed.

(** Both quantizers on a normal number of magnitude at least one, as the
    thresholds on the mantissa field they amount to. *)
Definition fp4_host_code (s E m : Z) : Z :=
  let code exp mant := Z.lor (Z.lor (Z.shiftl s 3) (Z.shiftl exp 1)) mant in
  if 128 <? E then Z.lor (Z.shiftl s 3) 6
  else if m <? 2 ^ 21 then code (E - 126) 0
  else if m <? 3 * 2 ^ 21 then code (E - 126) 1
  else if E =? 127 then code 2 0 else Z.lor (Z.shiftl s 3) 6.

Lemma fp4_host s E m :
  0 ≤ s < 2 → 127 ≤ E ≤ 254 → 0 ≤ m < 2 ^ 23 →
  Quant.quantize_fp4_e2m1 (f32_bits s E m) = fp4_host_code s E m.
Proof.
  intros Hs HE Hm. unfold Quant.quantize_fp4_e2m1, is_nan_bits.
  rewrite exp_field, mant_field, abs_field, sign_field by lia.
  rewrite (proj2 (Z.eqb_neq E 255)), !(proj2 (Z.eqb_neq (E * 2 ^ 23 + m) _)) by lia.
  cbn [andb].
  change (E * 2 ^ 23 + m) with (f32_bits 0 E m). rewrite from_bits_normal by lia.
  destruct fp4_thresholds as (-> & -> & -> & -> & -> & ->).
  rewrite !below_positive, !Z2Pos.id by lia.
  rewrite (proj2 (Z.ltb_ge (E - 150) (-25))), (proj2 (Z.ltb_ge (E - 150) (-24))),
    (proj2 (Z.ltb_ge (E - 150) (-23))) by lia.
  rewrite (proj2 (Z.eqb_neq (E - 150) (-25))), (proj2 (Z.eqb_neq (E - 150) (-24))) by lia.
  cbn [orb andb]. unfold fp4_host_code.
  destruct (Z.ltb_spec 128 E) as [H|H].
  { rewrite (proj2 (Z.eqb_neq (E - 150) (-23))), (proj2 (Z.ltb_ge (E - 150) (-22))),
      (proj2 (Z.eqb_neq (E - 150) (-22))) by lia. done. }
  assert (E = 127 ∨ E = 128) as [-> | ->] by lia; cbn [Z.sub Z.eqb Z.ltb Z.add Z.opp Z.compare Z.pos_sub].
  all: change 10485760 with (2 ^ 23 + 2 ^ 21); change 14680064 with (2 ^ 23 + 3 * 2 ^ 21).
  all: destruct (Z.ltb_spec m (2 ^ 21)), (Z.ltb_spec m (3 * 2 ^ 21)).
  all: rewrite ?(proj2 (Z.ltb_lt (2 ^ 23 + m) (2 ^ 23 + 2 ^ 21))),
         ?(proj2 (Z.ltb_ge (2 ^ 23 + m) (2 ^ 23 + 2 ^ 21))),
         ?(proj2 (Z.ltb_lt (2 ^ 23 + m) (2 ^ 23 + 3 * 2 ^ 21))),
         ?(proj2 (Z.ltb_ge (2 ^ 23 + m) (2 ^ 23 + 3 * 2 ^ 21))) by lia.
  all: try done; lia.
Qed.

(** Rounding to one mantissa bit: ties go to the even mantissa. *)
Lemma round_one_bit e m :
  0 ≤ m < 2 ^ 23 →
  round_mantissa 1 e m =
    if m <=? 2 ^ 21 then (e, 0) else if m <? 3 * 2 ^ 21 then (e, 1) else (e + 1, 0).
Proof.
  intros Hm. unfold round_mantissa.
  change (23 - 1 - 1) with 21. change (23 - 1) with 22.
  rewrite !Z.shiftr_div_pow2, !Z.shiftl_mul_pow2, !Z.mul_1_l by lia.
  rewrite (land_mask m 21) by lia. change 1 with (2 ^ 1 - 1) at 2 5.
  rewrite !(land_mask _ 1) by lia.
  pose proof (Z.div_mod m (2 ^ 21) ltac:(lia)) as D.
  pose proof (Z.mod_pos_bound m (2 ^ 21) ltac:(lia)) as B.
  replace (m / 2 ^ 22) with (m / 2 ^ 21 / 2) by (rewrite Z.div_div by lia; done).
  set (q := m / 2 ^ 21) in *. set (r := m mod 2 ^ 21) in *.
  assert (q = 0 ∨ q = 1 ∨ q = 2 ∨ q = 3) as [-> |[-> |[-> | ->]]] by lia.
  all: cbn [Z.div Z.modulo Z.div_eucl Z.pow Z.pow_pos Pos.iter Z.mul Z.eqb andb orb].
  all: change (2 ^ 21) with 2097152 in *.
  all: destruct (Z.eqb_spec r 0), (Z.leb_spec m 2097152), (Z.ltb_spec m (3 * 2097152));
    cbn; try done; lia.
Qed.

Lemma fp4_device s E m :
  0 ≤ s < 2 → 127 ≤ E ≤ 254 → 0 ≤ m < 2 ^ 23 → ¬ (E ≤ 128 ∧ m = 2 ^ 21) →
  Device.quantize_fp4_e2m1 (f32_bits s E m) = fp4_host_code s E m.
Proof.
  intros Hs HE Hm Htie. unfold Device.quantize_fp4_e2m1, isnan, isinf, fabsf, is_nan_bits.
  assert (abs_bits (abs_bits (f32_bits s E m)) = E * 2 ^ 23 + m) as ->.
  { rewrite abs_field by lia. change (E * 2 ^ 23 + m) with (f32_bits 0 E m) at 1.
    apply abs_field; lia. }
  rewrite sign_device, exp_field, mant_field, abs_field, sign_field by lia.
  rewrite (proj2 (Z.eqb_neq E 255)), !(proj2 (Z.eqb_neq (E * 2 ^ 23 + m) _)) by lia.
  cbn [andb]. rewrite round_step_host, round_one_bit by lia.
  unfold fp4_host_code.
  assert (∀ c, 0 ≤ c < 256 → u8 (Z.lor (Z.shiftl s 3) c) = Z.lor (Z.shiftl s 3) c) as Hu.
  { intros c Hc. apply u8_small, code_range; lia. }
  destruct (Z.ltb_spec 128 E).
  { destruct (Z.leb_spec m (2 ^ 21)), (Z.ltb_spec m (3 * 2 ^ 21)); try lia;
      rewrite (proj2 (Z.leb_le 3 _)) by lia; apply Hu; lia. }
  assert (E = 127 ∨ E = 128) as [-> | ->] by lia; cbn [Z.sub Z.add Z.opp Z.pos_sub Pos.add].
  all: destruct (Z.leb_spec m (2 ^ 21)), (Z.ltb_spec m (2 ^ 21)), (Z.ltb_spec m (3 * 2 ^ 21));
    try lia.
  all: assert (s = 0 ∨ s = 1) as [-> | ->] by lia; done.
Qed.

End DeviceFacts.

Module DeviceTheorems.
Import Quant QuantFacts Device DeviceFacts.

(** C14. Host and device store the same numbers: on every 32-bit pattern the
    CUDA quantizers of both FP8 formats give the byte of the Rust ones, and so
    does the FP4 quantizer on every normal number of magnitude at least one
    except exactly the ties 1.25 and 2.5, where the codes differ (Rust rounds
    up, CUDA to even). *)
Theorem device_quantizers_agree :
  (∀ v, 0 ≤ v < 2 ^ 32 →
     Device.quantize_fp8_e4m3 v = Quant.quantize_fp8_e4m3 v ∧
     Device.quantize_fp8_e5m2 v = Quant.quantize_fp8_e5m2 v) ∧
  (∀ s E m, 0 ≤ s < 2 → 127 ≤ E ≤ 254 → 0 ≤ m < 2 ^ 23 →
     Device.quantize_fp4_e2m1 (f32_bits s E m) = Quant.quantize_fp4_e2m1 (f32_bits s E m)
     ↔ ¬ (E ≤ 128 ∧ m = 2 ^ 21)).
Proof.
  split.
  - intros v Hv. split; [by apply quantize_e4m3_agree|by apply quantize_e5m2_agree].
  - intros s E m Hs HE Hm. split.
    + intros Heq [HE' ->]. revert Heq.
      assert ((s = 0 ∨ s = 1) ∧ (E = 127 ∨ E = 128)) as [[-> | ->] [-> | ->]] by lia;
        by vm_compute.
    + intros Ht. by rewrite fp4_host, fp4_device.
Qed.

(** When [powf] is exact on powers of two, every code also decodes to the same
    float on both sides. *)
Lemma device_dequantizers_agree powf :
  (∀ k, -15 ≤ k ≤ 255 → powf (f32_of_Z 2) (f32_of_Z k) = f32_powi2 k) →
  ∀ q, 0 ≤ q < 256 →
    Device.dequantize_fp8_e4m3 powf q = Quant.dequantize_fp8_e4m3 q ∧
    Device.dequantize_fp8_e5m2 powf q = Quant.dequantize_fp8_e5m2 q ∧
    Device.dequantize_fp4_e2m1 powf q = Quant.dequantize_fp4_e2m1 q ∧
    Device.e8m0_to_f32 powf q = Quant.e8m0_to_f32 q.
Proof.
  intros Hpow q Hq. split_and!.
  - unfold Device.dequantize_fp8_e4m3, Quant.dequantize_fp8_e4m3.
    pose proof (land_range (Z.shiftr q 3) 4 ltac:(lia)) as He.
    pose proof (land_range q 3 ltac:(lia)) as Hmm. pose proof (bit_range (Z.shiftr q 7)).
    change (2 ^ 4 - 1) with 0xF in He. change (2 ^ 3 - 1) with 7 in Hmm.
    rewrite !u8_small, !Hpow, one_bit_nonzero by lia. done.
  - unfold Device.dequantize_fp8_e5m2, Quant.dequantize_fp8_e5m2.
    pose proof (land_range (Z.shiftr q 2) 5 ltac:(lia)) as He.
    pose proof (land_range q 2 ltac:(lia)) as Hmm. pose proof (bit_range (Z.shiftr q 7)).
    change (2 ^ 5 - 1) with 0x1F in He. change (2 ^ 2 - 1) with 3 in Hmm.
    rewrite !u8_small, !Hpow, one_bit_nonzero by lia. done.
  - unfold Device.dequantize_fp4_e2m1, Quant.dequantize_fp4_e2m1.
    pose proof (land_range (Z.shiftr q 1) 2 ltac:(lia)) as He.
    pose proof (bit_range q). pose proof (bit_range (Z.shiftr q 3)).
    change (2 ^ 2 - 1) with 3 in He.
    rewrite !u8_small, !Hpow, one_bit_nonzero by lia. done.
  - unfold Device.e8m0_to_f32, Quant.e8m0_to_f32. apply Hpow. lia.
Qed.

(** A [powf] that is exact on powers of two. *)
Definition exact_powf (x y : spec_float) : spec_float :=
  match y with
  | S754_finite s m e =>
      let n := if 0 <=? e then Z.pos m * 2 ^ e else Z.pos m / 2 ^ (- e) in
      f32_powi2 (if s : bool then - n else n)
  | _ => f32_powi2 0
  end.

Lemma exact_powf_table :
  map (λ k, exact_powf (f32_of_Z 2) (f32_of_Z k)) (seqZ (-15) 271) =
  map f32_powi2 (seqZ (-15) 271).
Proof. vm_compute. reflexivity. Qed.

Lemma device_dequantizers_agree_witness :
  Device.dequantize_fp8_e4m3 exact_powf 0x39 = Quant.dequantize_fp8_e4m3 0x39.
Proof.
  refine (proj1 (device_dequantizers_agree exact_powf _ 0x39 ltac:(lia))).
  intros k Hk. apply (ext_in_map exact_powf_table k).
  apply list_elem_of_In, elem_of_seqZ. lia.
Defined.

(** The FP4 quantizers differ on the ties and below one: CUDA truncates
    subnormals where Rust rounds to nearest (0.25, 0.8, 1.25 and 2.5). *)
Lemma fp4_quantizers_differ :
  map (λ v, (Device.quantize_fp4_e2m1 v, Quant.quantize_fp4_e2m1 v))
      [0x3E800000; 0x3F4CCCCD; 0x3FA00000; 0x40200000] =
  [(0, 1); (1, 2); (2, 3); (4, 5)].
Proof. vm_compute. reflexivity. Qed.

Lemma from_le_byte b : from_le_bytes [b] = b.
Proof. cbn. lia. Qed.

Lemma c_read_image l1 l2 l3 b1 b2 b3 b4 sc pad :
  length l1 = 8%nat → length l2 = 8%nat → length l3 = 8%nat →
  length sc = 8%nat → length pad = 28%nat →
  let mem := l1 ++ l2 ++ l3 ++ [b1; b2; b3; b4] ++ sc ++ pad in
  Z.of_nat (length mem) = Sidecar.c_sizeof ∧
  Sidecar.c_read mem = Some
    {| PspKv.data_page_base_ptr := from_le_bytes l1; PspKv.residual_page_ptr := from_le_bytes l2;
       PspKv.head_presence_mask := from_le_bytes l3; PspKv.base_precision := from_le_bytes [b1];
       PspKv.compression_level := from_le_bytes [b2]; PspKv.head_group_size := from_le_bytes [b3];
       PspKv.reserved_flags := from_le_bytes [b4]; PspKv.per_head_scale_e8m0 := sc;
       PspKv.reserved_padding := pad |}.
Proof.
  intros. do 8 (destruct l1 as [|? l1]; [done|]). destruct l1; [|done].
  do 8 (destruct l2 as [|? l2]; [done|]). destruct l2; [|done].
  do 8 (destruct l3 as [|? l3]; [done|]). destruct l3; [|done].
  do 8 (destruct sc as [|? sc]; [done|]). destruct sc; [|done].
  do 28 (destruct pad as [|? pad]; [done|]). destruct pad; [|done].
  split; [reflexivity|]. cbv -[from_le_bytes]. reflexivity.
Qed.

(** The kernels read what the Rust side writes.  A policy word packed by
    either side is the same word, and both sides take the same level, residual
    flag and head mask out of it; the memory image of a sidecar descriptor has
    the 64 bytes of the C struct, and every member read at its C offset is the
    field that was written. *)
Theorem kernel_metadata_shared :
  (∀ p r hm, 0 ≤ hm < 2 ^ 32 →
     Policy_h.psp_policy_pack (Policy.level_code p) r hm = Policy.raw (Policy.new p r hm)) ∧
  (∀ w, 0 ≤ w < 2 ^ 32 →
     Policy.from_u8 (Policy_h.psp_policy_get_precision w) = Policy.precision (Policy.from_raw w) ∧
     Policy_h.psp_policy_get_residual w = Policy.use_residual (Policy.from_raw w) ∧
     Policy_h.psp_policy_get_head_mask w = Policy.head_mask (Policy.from_raw w)) ∧
  (∀ d, Sidecar.typed d →
     Z.of_nat (length (Sidecar.image d)) = Sidecar.c_sizeof ∧
     Sidecar.c_read (Sidecar.image d) = Some d).
Proof.
  split_and!.
  - intros p r hm _. unfold Policy_h.psp_policy_pack, Policy.new. cbn [Policy.raw].
    by destruct p.
  - intros w _. unfold Policy_h.psp_policy_get_residual, Policy.use_residual.
    by rewrite one_bit_nonzero.
  - intros [dp rp hm bp cl hg rf sc pad] (H1 & H2 & H3 & H4 & H5). cbn in H4, H5.
    destruct (c_read_image (to_le_bytes 8 dp) (to_le_bytes 8 rp) (to_le_bytes 8 hm)
      bp cl hg rf sc pad) as [Hl Hr]; [done..|].
    rewrite !le_bytes_roundtrip, !from_le_byte in Hr by done. by split.
Qed.

(** The default descriptor read back by a kernel. *)
Lemma kernel_metadata_shared_witness :
  Sidecar.c_read (Sidecar.image PspKv.default_sidecar) = Some PspKv.default_sidecar.
Proof.
  destruct kernel_metadata_shared as (_ & _ & H). apply H.
  unfold Sidecar.typed. cbn. split_and!; (lia || done).
Defined.

End DeviceTheorems.
