(* ===== verification/Kernels.v ===== *)
(** * The dequantization kernels

    [Launch] is the part of the CUDA execution model the kernels use: a grid of
    threads that read constant buffers and store into one output buffer, in any
    order.  [Dequant] models kernels/{basic,enhanced,btkv}_format/dequant_kernel.cu
    with their launchers, and [Tma] the descriptor set-up of
    kernels/btkv_format/tma_descriptors.cu.  Signed overflow, a division by zero
    and an access outside a buffer are undefined behaviour, written [Panic]. *)

From S2P Require Import Prelude F64 Quantization DeviceQuant.

(** A C [int] expression. *)
Definition c_int (z : Z) : outcome Z :=
  if (- 2 ^ 31 <=? z) && (z <? 2 ^ 31) then Ret z else Panic.

(** [a / b] of two [int]s. *)
Definition c_div (a b : Z) : outcome Z := if b =? 0 then Panic else c_int (Z.quot a b).
Definition c_rem (a b : Z) : outcome Z := if b =? 0 then Panic else Ret (Z.rem a b).

(** [p[i]] of a buffer. *)
Definition c_read {A} (p : list A) (i : Z) : outcome A :=
  if i <? 0 then Panic else unwrap (p !! Z.to_nat i).

(** ** Launching a kernel *)

Module Launch.
Section Launch.
Context {A : Type}.

(** [out[i] = v]. *)
Definition store (out : list A) (w : Z * A) : outcome (list A) :=
  if (0 <=? w.1) && (w.1 <? Z.of_nat (length out))
  then Ret (<[Z.to_nat w.1 := w.2]> out) else Panic.

Fixpoint stores (ws : list (Z * A)) (out : list A) : outcome (list A) :=
  match ws with
  | [] => Ret out
  | w :: ws => out ← store out w; stores ws out
  end.

(** The threads of a one-dimensional grid. *)
Definition grid (blocks threads : Z) : list (Z * Z) :=
  b ← seqZ 0 blocks; t ← seqZ 0 threads; [(b, t)].

(** The inputs are constant, so the stores of a thread do not depend on the
    others; [sched] puts the stores of all threads in the order of execution. *)
Definition run {T} (sched : list (Z * A) → list (Z * A))
    (kernel : T → outcome (list (Z * A))) (ts : list T) (out : list A) : outcome (list A) :=
  ws ← mapM kernel ts; stores (sched (concat ws)) out.

(** [kernel<<<blocks, threads>>>]: an empty or too large grid is an error of the
    launch, and nothing runs. *)
Definition launch (sched : list (Z * A) → list (Z * A)) (blocks threads : Z)
    (kernel : Z * Z → outcome (list (Z * A))) (out : list A) : outcome (list A * bool) :=
  if (1 <=? blocks) && (blocks <? 2 ^ 31) then
    out ← run sched kernel (grid blocks threads) out; Ret (out, true)
  else Ret (out, false).

End Launch.

(** Every order of the same stores. *)
Definition schedule {A} (sched : list (Z * A) → list (Z * A)) : Prop := ∀ ws, sched ws ≡ₚ ws.
End Launch.

(** ** Dequantization *)

Module Dequant.
Import Launch.

Definition f32_sub (x y : spec_float) : spec_float := SFsub 24 128 x y.

(** [__float2half]: round to nearest even in binary16. *)
Definition float2half (x : spec_float) : spec_float :=
  match x with
  | S754_finite s m e => binary_normalize 11 16 (cond_Zopp s (Z.pos m)) e s
  | _ => x
  end.

(** [blockIdx.x * blockDim.x + threadIdx.x], unsigned, converted to [int]. *)
Definition thread_index (blockDim : Z) (t : Z * Z) : Z :=
  to_signed 32 (u32 (t.1 * blockDim + t.2)).

Section Kernels.
Context (powf : spec_float → spec_float → spec_float).
Context (quantized_data : list Z).

Definition dequant_basic_kernel (scales zero_points : list spec_float)
    (B_t D_head N_kv blockDim : Z) (t : Z * Z) : outcome (list (Z * spec_float)) :=
  per_head ← c_int (B_t * D_head);
  total_elements ← c_int (per_head * N_kv);
  let idx := thread_index blockDim t in
  if total_elements <=? idx then Ret []
  else
    head ← c_div idx per_head;
    q ← c_read quantized_data idx;
    scale ← c_read scales head;
    zero_point ← c_read zero_points head;
    let x := Quant.f32_mul scale (f32_sub (f32_of_Z q) zero_point) in
    Ret [(idx, float2half x)].

Definition dequant_enhanced_kernel (scales_e8m0 : list Z)
    (num_tokens head_dim num_heads : Z) (is_transposed : bool) (blockDim : Z) (t : Z * Z) :
  outcome (list (Z * spec_float)) :=
  plane ← c_int (num_tokens * head_dim);
  total_elements ← c_int (plane * num_heads);
  let idx := thread_index blockDim t in
  if total_elements <=? idx then Ret []
  else
    per_head ← (if is_transposed then c_int (head_dim * num_tokens)
                else c_int (num_tokens * head_dim));
    head ← c_div idx per_head;
    e ← c_read scales_e8m0 head;
    q ← c_read quantized_data idx;
    let scale := powf (f32_of_Z 2) (f32_of_Z e) in
    let x := Quant.f32_mul scale (f32_of_Z q) in
    Ret [(idx, float2half x)].

Definition dequant_btkv_kernel (scales_e8m0 : list Z)
    (tile_x tile_y group_size : Z) (is_transposed : bool) (blockDim : Z) (t : Z * Z) :
  outcome (list (Z * spec_float)) :=
  total_elements ← c_int (tile_x * tile_y);
  let idx := thread_index blockDim t in
  if total_elements <=? idx then Ret []
  else
    group ← c_div idx group_size;
    e ← c_read scales_e8m0 group;
    q ← c_read quantized_data idx;
    let scale := powf (f32_of_Z 2) (f32_of_Z e) in
    let x := Quant.f32_mul scale (f32_of_Z q) in
    output_idx ← (if is_transposed then
                    token ← c_rem idx tile_y;
                    dim ← c_div idx tile_y;
                    r ← c_int (dim * tile_x); c_int (r + token)
                  else Ret idx);
    Ret [(output_idx, float2half x)].

(** The launchers; the result says whether the launch was accepted (an error is
    only printed). *)
Context (sched : list (Z * spec_float) → list (Z * spec_float)).

(** [(total_elements + threads - 1) / threads]. *)
Definition blocks_for (total_elements : Z) : outcome Z :=
  s ← c_int (total_elements + 256); s ← c_int (s - 1); c_div s 256.

Definition launch_dequant_basic (scales zero_points : list spec_float)
    (B_t D_head N_kv : Z) (output : list spec_float) : outcome (list spec_float * bool) :=
  p ← c_int (B_t * D_head); total_elements ← c_int (p * N_kv);
  blocks ← blocks_for total_elements;
  launch sched blocks 256 (dequant_basic_kernel scales zero_points B_t D_head N_kv 256) output.

Definition launch_dequant_enhanced (scales_e8m0 : list Z)
    (num_tokens head_dim num_heads : Z) (is_transposed : bool) (output : list spec_float) :
  outcome (list spec_float * bool) :=
  p ← c_int (num_tokens * head_dim); total_elements ← c_int (p * num_heads);
  blocks ← blocks_for total_elements;
  launch sched blocks 256
    (dequant_enhanced_kernel scales_e8m0 num_tokens head_dim num_heads is_transposed 256) output.

Definition launch_dequant_btkv (scales_e8m0 : list Z)
    (tile_x tile_y group_size : Z) (is_transposed : bool) (output : list spec_float) :
  outcome (list spec_float * bool) :=
  total_elements ← c_int (tile_x * tile_y);
  blocks ← blocks_for total_elements;
  launch sched blocks 256
    (dequant_btkv_kernel scales_e8m0 tile_x tile_y group_size is_transposed 256) output.

End Kernels.
End Dequant.

(** ** Tensor map descriptors *)

Module Tma.

Inductive cudaError := cudaSuccess | cudaErrorInvalidValue | cudaErrorUnknown | cudaErrorNotSupported.

#[export] Instance cudaError_eq_dec : EqDecision cudaError.
Proof. solve_decision. Defined.

Inductive CUtensorMapDataType := UINT8 | FLOAT16 | FLOAT32.

(** The arguments of [cuTensorMapEncodeTiled] that depend on the call; rank,
    interleave, promotion and fill are constants. *)
Record EncodeRequest := {
  data_type : CUtensorMapDataType;
  gmem_base_ptr : Z;
  gmem_dims : list Z;
  gmem_strides : list Z;
  smem_dims : list Z;
  smem_strides : list Z;
  swizzle_mode : Z;
}.

Definition BTKV_K_TILE_TOKENS : Z := 16.
Definition BTKV_K_TILE_DIMS : Z := 64.
Definition BTKV_V_TILE_DIMS : Z := 64.
Definition BTKV_V_TILE_TOKENS : Z := 16.

Section Encode.
(** Whether the driver accepts a request ([CUDA_SUCCESS]). *)
Context (cuTensorMapEncodeTiled : EncodeRequest → bool).

(** The encoded map is the request it was built from. *)
Definition init_btkv_tile_tensor_map (ptr : Z) (is_key : bool)
    (tile_tokens tile_dims stride_bytes element_size swizzle : Z) :
  option EncodeRequest * cudaError :=
  let d0 := if is_key then tile_dims else tile_tokens in
  let d1 := if is_key then tile_tokens else tile_dims in
  let dt := if element_size =? 1 then Some UINT8
            else if element_size =? 2 then Some FLOAT16
            else if element_size =? 4 then Some FLOAT32 else None in
  match dt with
  | None => (None, cudaErrorInvalidValue)
  | Some dt =>
      let r := {| data_type := dt; gmem_base_ptr := ptr;
                  gmem_dims := [wrap 64 d0; wrap 64 d1; 1; 1; 1];
                  gmem_strides := [stride_bytes; 0; 0; 0];
                  smem_dims := [wrap 32 d0; wrap 32 d1; 1; 1; 1];
                  smem_strides := [1; 1; 1; 1; 1];
                  swizzle_mode := swizzle |} in
      if cuTensorMapEncodeTiled r then (Some r, cudaSuccess) else (None, cudaErrorUnknown)
  end.

(** The loop over the heads from [h]; [k_maps] and [v_maps] are the maps encoded
    so far, in head order.  Pointers and [size_t] wrap at 64 bits. *)
Fixpoint heads_loop (fuel : nat) (h k_base_ptr v_base_ptr head_dim block_tokens element_size
    swizzle : Z) (k_maps v_maps : list EncodeRequest) :
  list EncodeRequest * list EncodeRequest * cudaError :=
  match fuel with
  | O => (k_maps, v_maps, cudaSuccess)
  | S fuel =>
      let k_stride := wrap 64 (head_dim * element_size) in
      let v_stride := wrap 64 (block_tokens * element_size) in
      let head_offset := wrap 64 (h * block_tokens * head_dim * element_size) in
      match init_btkv_tile_tensor_map (wrap 64 (k_base_ptr + head_offset)) true
              BTKV_K_TILE_TOKENS BTKV_K_TILE_DIMS k_stride element_size swizzle with
      | (Some k, _) =>
          match init_btkv_tile_tensor_map (wrap 64 (v_base_ptr + head_offset)) false
                  BTKV_V_TILE_TOKENS BTKV_V_TILE_DIMS v_stride element_size swizzle with
          | (Some v, _) =>
              heads_loop fuel (h + 1) k_base_ptr v_base_ptr head_dim block_tokens element_size
                swizzle (k_maps ++ [k]) (v_maps ++ [v])
          | (None, err) => (k_maps ++ [k], v_maps, err)
          end
      | (None, err) => (k_maps, v_maps, err)
      end
  end.

Definition init_btkv_block_tensor_maps (k_base_ptr v_base_ptr num_heads head_dim block_tokens
    element_size swizzle : Z) : outcome (list EncodeRequest * list EncodeRequest * cudaError) :=
  r ← c_rem head_dim BTKV_K_TILE_DIMS;
  if negb (r =? 0) then Ret ([], [], cudaErrorInvalidValue) else
  r ← c_rem block_tokens BTKV_K_TILE_TOKENS;
  if negb (r =? 0) then Ret ([], [], cudaErrorInvalidValue) else
  a ← c_div head_dim BTKV_K_TILE_DIMS;
  b ← c_div block_tokens BTKV_K_TILE_TOKENS;
  tiles_per_head ← c_int (a * b);
  if negb (tiles_per_head =? 1) then Ret ([], [], cudaErrorNotSupported) else
  Ret (heads_loop (Z.to_nat num_heads) 0 k_base_ptr v_base_ptr head_dim block_tokens element_size
         swizzle [] []).

End Encode.
End Tma.

Module KernelFacts.
Import Launch Dequant.

Lemma c_int_ret z : - 2 ^ 31 ≤ z < 2 ^ 31 → c_int z = Ret z.
Proof. intros. unfold c_int. by rewrite (proj2 (Z.leb_le _ _)), (proj2 (Z.ltb_lt _ _)) by lia. Qed.

Lemma c_div_ret a b : 0 ≤ a < 2 ^ 31 → 0 < b → c_div a b = Ret (a / b).
Proof.
  intros Ha Hb. unfold c_div. rewrite (proj2 (Z.eqb_neq b 0)) by lia.
  rewrite Z.quot_div_nonneg by lia. apply c_int_ret.
  pose proof (Z.div_pos a b). pose proof (Z.div_le_upper_bound a b a). nia.
Qed.

Lemma c_rem_ret a b : 0 ≤ a → 0 < b → c_rem a b = Ret (a mod b).
Proof.
  intros Ha Hb. unfold c_rem. rewrite (proj2 (Z.eqb_neq b 0)) by lia.
  by rewrite Z.rem_mod_nonneg by lia.
Qed.

Lemma c_read_ret {A} (p : list A) i :
  0 ≤ i < Z.of_nat (length p) → ∃ x, p !! Z.to_nat i = Some x ∧ c_read p i = Ret x.
Proof.
  intros Hi. unfold c_read. rewrite (proj2 (Z.ltb_ge i 0)) by lia.
  destruct (lookup_lt_is_Some_2 p (Z.to_nat i)) as [x ->]; [lia|]. by eexists.
Qed.

(** Stores to distinct places inside the buffer all take effect, in any order. *)
Lemma stores_spec {A} (ws : list (Z * A)) out :
  NoDup ws.*1 → (∀ i, i ∈ ws.*1 → 0 ≤ i < Z.of_nat (length out)) →
  ∃ out', stores ws out = Ret out' ∧ length out' = length out ∧
    (∀ i v, (i, v) ∈ ws → out' !! Z.to_nat i = Some v) ∧
    (∀ n, Z.of_nat n ∉ ws.*1 → out' !! n = out !! n).
Proof.
  revert out. induction ws as [|[i v] ws IH]; intros out Hnd Hb; cbn [stores].
  { exists out. split_and!; [done|done| |done]. intros ? ? H. by apply not_elem_of_nil in H. }
  cbn in Hnd. apply NoDup_cons in Hnd as [Hni Hnd].
  pose proof (Hb i ltac:(cbn; left)) as Hi. unfold store. cbn [fst snd].
  rewrite (proj2 (Z.leb_le 0 i)), (proj2 (Z.ltb_lt i _)) by lia. monad_simpl.
  destruct (IH (<[Z.to_nat i := v]> out) Hnd) as (out' & E & Hl & Hin & Hout).
  { intros j Hj. rewrite length_insert. apply Hb. cbn. by right. }
  rewrite length_insert in Hl. exists out'. split_and!; [done|done| |].
  - intros j w [[= -> ->]|Hw]%elem_of_cons; [|by apply Hin].
    rewrite Hout; [apply list_lookup_insert_eq; lia|]. by rewrite Z2Nat.id by lia.
  - intros n [Hn Hn']%not_elem_of_cons. rewrite Hout by done.
    apply list_lookup_insert_ne. cbn in Hn. lia.
Qed.

Lemma stores_fault {A} (ws : list (Z * A)) out w :
  w ∈ ws → ¬ (0 ≤ w.1 < Z.of_nat (length out)) → stores ws out = Panic.
Proof.
  revert out. induction ws as [|w' ws IH]; intros out Hw Hb; [by apply not_elem_of_nil in Hw|].
  cbn [stores]. unfold store at 1.
  apply elem_of_cons in Hw as [<-|Hw].
  - destruct (Z.leb_spec 0 w.1), (Z.ltb_spec w.1 (Z.of_nat (length out))); cbn [andb]; [lia|done..].
  - case_if; [|done]. monad_simpl. apply IH; [done|]. by rewrite length_insert.
Qed.

Lemma stores_app {A} (ws vs : list (Z * A)) out :
  stores (ws ++ vs) out = o ← stores ws out; stores vs o.
Proof.
  revert out. induction ws as [|w ws IH]; intros out; [done|].
  cbn [stores app]. destruct (store out w); monad_simpl; [|done..]. apply IH.
Qed.

(** The indices of a grid are consecutive. *)
Lemma grid_indices (blocks : nat) n : 0 ≤ n →
  (λ t : Z * Z, t.1 * n + t.2) <$> grid (Z.of_nat blocks) n = seqZ 0 (Z.of_nat blocks * n).
Proof.
  intros Hn. unfold grid. induction blocks as [|b IH]; [done|].
  replace (Z.of_nat (S b)) with (Z.of_nat b + 1) by lia.
  rewrite seqZ_app, bind_app, fmap_app, IH by lia.
  rewrite Z.mul_add_distr_r, seqZ_app, Z.add_0_l by lia. f_equal.
  cbn [seqZ]. change (seqZ (Z.of_nat b) 1) with [Z.of_nat b]. cbn [mbind list_bind app].
  rewrite app_nil_r, Z.mul_1_l, Z.add_0_l.
  replace (seqZ (Z.of_nat b * n) n) with (Z.add (Z.of_nat b * n) <$> seqZ 0 n)
    by (rewrite fmap_add_seqZ; f_equal; lia).
  clear IH. induction (seqZ 0 n) as [|t l IHl]; [done|]. cbn. f_equal. apply IHl.
Qed.

Lemma elem_of_grid blocks n t : t ∈ grid blocks n → 0 ≤ t.1 < blocks ∧ 0 ≤ t.2 < n.
Proof.
  unfold grid. intros (b & Ht & Hb)%list_elem_of_bind.
  apply list_elem_of_bind in Ht as (x & ->%list_elem_of_singleton & Hx).
  apply elem_of_seqZ in Hb, Hx. cbn. lia.
Qed.

Lemma concat_below {A} (w : Z → A) total n :
  0 ≤ total ≤ n →
  concat ((λ i, if total <=? i then [] else [w i]) <$> seqZ 0 n) = w <$> seqZ 0 total.
Proof.
  intros H. replace n with (total + (n - total)) by lia.
  rewrite seqZ_app, fmap_app, concat_app by lia.
  assert (∀ l : list Z, Forall (λ i, total ≤ i) l →
    concat ((λ i, if total <=? i then [] else [w i]) <$> l) = []) as H1.
  { induction 1 as [|i l Hi _ IH]; [done|]. cbn. by rewrite (proj2 (Z.leb_le _ _)) by done. }
  rewrite (H1 (seqZ (0 + total) (n - total))), app_nil_r
    by (apply Forall_forall; intros i Hi%elem_of_seqZ; cbv beta; lia).
  assert (∀ l : list Z, Forall (λ i, i < total) l →
    concat ((λ i, if total <=? i then [] else [w i]) <$> l) = w <$> l) as H2.
  { induction 1 as [|i l Hi _ IH]; [done|]. cbn. rewrite (proj2 (Z.leb_gt _ _)) by done.
    cbn. by f_equal. }
  apply H2, Forall_forall. intros i Hi%elem_of_seqZ. cbv beta. lia.
Qed.

Lemma thread_index_small t :
  0 ≤ t.1 → 0 ≤ t.2 → t.1 * 256 + t.2 < 2 ^ 31 → thread_index 256 t = t.1 * 256 + t.2.
Proof.
  intros. unfold thread_index, u32. rewrite wrap_small by lia. apply to_signed_small; lia.
Qed.

Lemma blocks_for_ret total :
  0 < total ≤ 2 ^ 31 - 257 → blocks_for total = Ret ((total + 255) / 256).
Proof.
  intros H. unfold blocks_for. rewrite !c_int_ret by lia. monad_simpl.
  rewrite c_int_ret by lia. monad_simpl. rewrite c_div_ret by lia.
  by replace (total + 256 - 1) with (total + 255) by lia.
Qed.

(** A launch whose threads store one element each below [total] performs exactly
    the stores of the indices below [total], in the order of the schedule. *)
Lemma launch_spec {A} sched (kernel : Z * Z → outcome (list (Z * A))) total w out :
  0 < total ≤ 2 ^ 31 - 257 →
  (∀ t, 0 ≤ t.1 → 0 ≤ t.2 < 256 → t.1 * 256 + t.2 < 2 ^ 31 →
     kernel t = Ret (if total <=? t.1 * 256 + t.2 then [] else [w (t.1 * 256 + t.2)])) →
  launch sched ((total + 255) / 256) 256 kernel out =
    o ← stores (sched (w <$> seqZ 0 total)) out; Ret (o, true).
Proof.
  intros Ht Hk. unfold launch.
  pose proof (Z.div_mod (total + 255) 256 ltac:(lia)) as D.
  pose proof (Z.mod_pos_bound (total + 255) 256 ltac:(lia)) as B.
  set (blocks := (total + 255) / 256) in *.
  rewrite (proj2 (Z.leb_le 1 blocks)), (proj2 (Z.ltb_lt blocks (2 ^ 31))) by lia. cbn [andb].
  unfold run.
  rewrite (mapM_ret kernel
    (λ t, (λ i, if total <=? i then [] else [w i]) (t.1 * 256 + t.2))).
  2: { intros t [? ?]%elem_of_grid. apply Hk; lia. }
  monad_simpl.
  rewrite (list_fmap_compose (λ t : Z * Z, t.1 * 256 + t.2)
    (λ i, if total <=? i then [] else [w i])).
  replace blocks with (Z.of_nat (Z.to_nat blocks)) by lia.
  rewrite grid_indices by lia. rewrite concat_below by lia. done.
Qed.

(** The stores of an element-wise kernel reach every place once. *)
Lemma elementwise_stores {A} sched (v : Z → A) total (out : list A) :
  schedule sched → 0 ≤ total ≤ Z.of_nat (length out) →
  ∃ out', stores (sched ((λ i, (i, v i)) <$> seqZ 0 total)) out = Ret out' ∧
    length out' = length out ∧
    (∀ i, 0 ≤ i < total → out' !! Z.to_nat i = Some (v i)) ∧
    (∀ n, total ≤ Z.of_nat n → out' !! n = out !! n).
Proof.
  intros Hs Ht. set (ws := (λ i, (i, v i)) <$> seqZ 0 total).
  assert (ws.*1 = seqZ 0 total) as Hf.
  { unfold ws. rewrite <- list_fmap_compose. apply list_fmap_id. }
  assert ((sched ws).*1 ≡ₚ seqZ 0 total) as Hp by (rewrite (Hs ws); by rewrite Hf).
  destruct (stores_spec (sched ws) out) as (out' & E & Hl & Hin & Hout).
  - rewrite Hp. apply NoDup_seqZ.
  - intros i. rewrite Hp, elem_of_seqZ. lia.
  - exists out'. split_and!; [done|done| |].
    + intros i Hi. apply Hin. rewrite (Hs ws). unfold ws. apply list_elem_of_fmap.
      exists i. rewrite elem_of_seqZ. split; [done|lia].
    + intros n Hn. apply Hout. rewrite Hp, elem_of_seqZ. lia.
Qed.

(** Stores inside the buffer leave the places they do not name alone. *)
Lemma stores_inside {A} (ws : list (Z * A)) out :
  (∀ i, i ∈ ws.*1 → 0 ≤ i < Z.of_nat (length out)) →
  ∃ out', stores ws out = Ret out' ∧ length out' = length out ∧
    (∀ n, Z.of_nat n ∉ ws.*1 → out' !! n = out !! n).
Proof.
  revert out. induction ws as [|[i v] ws IH]; intros out Hb; cbn [stores]; [by exists out|].
  pose proof (Hb i ltac:(cbn; left)) as Hi. unfold store. cbn [fst snd].
  rewrite (proj2 (Z.leb_le 0 i)), (proj2 (Z.ltb_lt i _)) by lia. monad_simpl.
  destruct (IH (<[Z.to_nat i := v]> out)) as (out' & E & Hl & Hout).
  { intros j Hj. rewrite length_insert. apply Hb. cbn. by right. }
  rewrite length_insert in Hl. exists out'. split_and!; [done|done|].
  intros n [Hn Hn']%not_elem_of_cons. rewrite Hout by done.
  apply list_lookup_insert_ne. cbn in Hn. lia.
Qed.

End KernelFacts.

Module KernelTheorems.
Import Launch Dequant KernelFacts.

(** The launch was accepted and wrote [v i] at every place below [total], and
    nothing elsewhere. *)
Definition dequantizes (total : Z) (v : Z → spec_float) (out : list spec_float)
    (r : outcome (list spec_float * bool)) : Prop :=
  ∃ out', r = Ret (out', true) ∧ length out' = length out ∧
    (∀ i, 0 ≤ i < total → out' !! Z.to_nat i = Some (v i)) ∧
    (∀ n, total ≤ Z.of_nat n → out' !! n = out !! n).

Definition at_ (l : list spec_float) (i : Z) : spec_float := default S754_nan (l !! Z.to_nat i).
Definition byte_at (l : list Z) (i : Z) : spec_float := f32_of_Z (default 0 (l !! Z.to_nat i)).

Section Launches.
Context (sched : list (Z * spec_float) → list (Z * spec_float)) (Hsched : schedule sched).
Context (powf : spec_float → spec_float → spec_float) (data : list Z).

Lemma launch_elementwise kernel total v out :
  0 < total ≤ 2 ^ 31 - 257 → total ≤ Z.of_nat (length out) →
  (∀ t, 0 ≤ t.1 → 0 ≤ t.2 < 256 → t.1 * 256 + t.2 < 2 ^ 31 →
     kernel t = Ret (if total <=? t.1 * 256 + t.2 then []
                     else [(t.1 * 256 + t.2, v (t.1 * 256 + t.2))])) →
  dequantizes total v out (launch sched ((total + 255) / 256) 256 kernel out).
Proof.
  intros Ht Hl Hk. rewrite (launch_spec sched kernel total (λ i, (i, v i))) by done.
  destruct (elementwise_stores sched v total out Hsched) as (out' & -> & H); [lia|].
  exists out'. by split.
Qed.

(** The head an element belongs to. *)
Lemma head_range idx per n : 0 < per → 0 ≤ idx < per * n → 0 ≤ idx / per < n.
Proof.
  intros Hp Hi. split; [apply Z.div_pos; lia|]. apply Z.div_lt_upper_bound; lia.
Qed.

Lemma basic_launch scales zps B D N out :
  0 < B → 0 < D → 0 < N → B * D * N ≤ 2 ^ 31 - 257 →
  B * D * N ≤ Z.of_nat (length data) → N ≤ Z.of_nat (length scales) →
  N ≤ Z.of_nat (length zps) → B * D * N ≤ Z.of_nat (length out) →
  dequantizes (B * D * N)
    (λ i, float2half (Quant.f32_mul (at_ scales (i / (B * D)))
            (f32_sub (byte_at data i) (at_ zps (i / (B * D)))))) out
    (launch_dequant_basic data sched scales zps B D N out).
Proof.
  intros HB HD HN Ht Hd Hs Hz Ho. assert (0 < B * D) by nia.
  unfold launch_dequant_basic. rewrite !c_int_ret by nia. monad_simpl.
  rewrite c_int_ret by nia. monad_simpl. rewrite blocks_for_ret by nia. monad_simpl.
  apply launch_elementwise; [nia|done|]. intros t H1 H2 H3. unfold dequant_basic_kernel.
  rewrite !c_int_ret by nia. monad_simpl. rewrite c_int_ret by nia. monad_simpl.
  rewrite thread_index_small by lia. set (i := t.1 * 256 + t.2) in *.
  destruct (Z.leb_spec (B * D * N) i); [done|].
  pose proof (head_range i (B * D) N ltac:(lia) ltac:(lia)).
  rewrite c_div_ret by lia. monad_simpl. unfold byte_at, at_.
  destruct (c_read_ret data i ltac:(lia)) as (q & -> & ->).
  destruct (c_read_ret scales (i / (B * D)) ltac:(lia)) as (s & -> & ->).
  by destruct (c_read_ret zps (i / (B * D)) ltac:(lia)) as (z & -> & ->).
Qed.

Lemma enhanced_launch e8m0 B D N tr out :
  0 < B → 0 < D → 0 < N → B * D * N ≤ 2 ^ 31 - 257 →
  B * D * N ≤ Z.of_nat (length data) → N ≤ Z.of_nat (length e8m0) →
  B * D * N ≤ Z.of_nat (length out) →
  dequantizes (B * D * N)
    (λ i, float2half (Quant.f32_mul (powf (f32_of_Z 2) (byte_at e8m0 (i / (B * D))))
            (byte_at data i))) out
    (launch_dequant_enhanced powf data sched e8m0 B D N tr out).
Proof.
  intros HB HD HN Ht Hd Hs Ho. assert (0 < B * D) by nia.
  unfold launch_dequant_enhanced. rewrite !c_int_ret by nia. monad_simpl.
  rewrite c_int_ret by nia. monad_simpl. rewrite blocks_for_ret by nia. monad_simpl.
  apply launch_elementwise; [nia|done|]. intros t H1 H2 H3. unfold dequant_enhanced_kernel.
  rewrite (Z.mul_comm D B), !c_int_ret by nia. monad_simpl. rewrite c_int_ret by nia. monad_simpl.
  rewrite thread_index_small by lia. set (i := t.1 * 256 + t.2) in *.
  destruct (Z.leb_spec (B * D * N) i); [done|].
  pose proof (head_range i (B * D) N ltac:(lia) ltac:(lia)).
  assert ((if tr then Ret (B * D) else Ret (B * D)) = Ret (B * D)) as -> by by destruct tr.
  monad_simpl. rewrite c_div_ret by lia. monad_simpl. unfold byte_at.
  destruct (c_read_ret e8m0 (i / (B * D)) ltac:(lia)) as (s & -> & ->).
  by destruct (c_read_ret data i ltac:(lia)) as (q & -> & ->).
Qed.

End Launches.

(** C9. The Basic and Enhanced dequantization launches are correct under every
    order in which the GPU performs the stores: for sizes whose product leaves
    room for the rounding of the grid (at most 2^31 - 257 elements) and buffers
    of the documented sizes, no thread leaves a buffer or overflows, every
    element is written exactly its dequantized value with the scale of its head,
    and nothing behind the last element is touched. *)
Theorem dequant_launch_correct sched powf data scales zps e8m0 B D N tr out :
  schedule sched → 0 < B → 0 < D → 0 < N → B * D * N ≤ 2 ^ 31 - 257 →
  B * D * N ≤ Z.of_nat (length data) → B * D * N ≤ Z.of_nat (length out) →
  N ≤ Z.of_nat (length scales) → N ≤ Z.of_nat (length zps) → N ≤ Z.of_nat (length e8m0) →
  dequantizes (B * D * N)
    (λ i, float2half (Quant.f32_mul (at_ scales (i / (B * D)))
            (f32_sub (byte_at data i) (at_ zps (i / (B * D)))))) out
    (launch_dequant_basic data sched scales zps B D N out) ∧
  dequantizes (B * D * N)
    (λ i, float2half (Quant.f32_mul (powf (f32_of_Z 2) (byte_at e8m0 (i / (B * D))))
            (byte_at data i))) out
    (launch_dequant_enhanced powf data sched e8m0 B D N tr out).
Proof.
  intros. split; [by apply basic_launch|by apply enhanced_launch].
Qed.

(** Three elements, two heads, stores in reverse order. *)
Lemma dequant_launch_correct_witness :
  dequantizes (1 * 1 * 2)
    (λ i, float2half (Quant.f32_mul (at_ [f32_of_Z 2; f32_of_Z 3] (i / (1 * 1)))
            (f32_sub (byte_at [7; 9] i) (at_ [f32_of_Z 1; f32_of_Z 1] (i / (1 * 1))))))
    (replicate 3 S754_nan)
    (launch_dequant_basic [7; 9] reverse [f32_of_Z 2; f32_of_Z 3] [f32_of_Z 1; f32_of_Z 1]
       1 1 2 (replicate 3 S754_nan)).
Proof.
  apply (dequant_launch_correct reverse (λ _ y, y) [7; 9] [f32_of_Z 2; f32_of_Z 3]
    [f32_of_Z 1; f32_of_Z 1] [0; 0] 1 1 2 false (replicate 3 S754_nan)); try (cbn; lia).
  intros ws. apply reverse_Permutation.
Defined.

(** ** BT-KV tiles *)

(** The place the transposed kernel stores element [i] at. *)
Definition transposed_place (tile_x tile_y i : Z) : Z := i / tile_y * tile_x + i mod tile_y.

Definition btkv_value powf (data e8m0 : list Z) (group i : Z) : spec_float :=
  float2half (Quant.f32_mul (powf (f32_of_Z 2) (byte_at e8m0 (i / group))) (byte_at data i)).

Lemma btkv_launch sched powf data e8m0 x y g (tr : bool) out :
  0 < x → 0 < y → 0 < g → x * y ≤ 2 ^ 31 - 257 → x * x < 2 ^ 31 →
  x * y ≤ Z.of_nat (length data) → (x * y - 1) / g < Z.of_nat (length e8m0) →
  launch_dequant_btkv powf data sched e8m0 x y g tr out =
    o ← stores (sched ((λ i, (if tr then transposed_place x y i else i,
                              btkv_value powf data e8m0 g i)) <$> seqZ 0 (x * y))) out;
    Ret (o, true).
Proof.
  intros Hx Hy Hg Ht Hxx Hd He. assert (0 < x * y) by nia.
  unfold launch_dequant_btkv. rewrite c_int_ret by lia. monad_simpl.
  rewrite blocks_for_ret by lia. monad_simpl.
  apply launch_spec; [lia|]. intros t H1 H2 H3. unfold dequant_btkv_kernel.
  rewrite c_int_ret by lia. monad_simpl. rewrite thread_index_small by lia.
  set (i := t.1 * 256 + t.2) in *. destruct (Z.leb_spec (x * y) i); [done|].
  pose proof (Z.div_le_mono i (x * y - 1) g ltac:(lia) ltac:(lia)).
  pose proof (Z.div_pos i g ltac:(lia) ltac:(lia)).
  rewrite (c_div_ret i g), (c_div_ret i y) by lia. monad_simpl. unfold btkv_value, byte_at.
  destruct (c_read_ret e8m0 (i / g) ltac:(lia)) as (s & -> & ->). monad_simpl.
  destruct (c_read_ret data i ltac:(lia)) as (q & -> & ->). monad_simpl.
  destruct tr; [|done]. rewrite c_rem_ret by lia. monad_simpl.
  pose proof (head_range i y x Hy ltac:(lia)). pose proof (Z.mod_pos_bound i y Hy).
  rewrite c_int_ret by nia. monad_simpl.
  assert (i / y * x + i mod y < 2 ^ 31).
  { assert (i / y * x ≤ (x - 1) * x) by nia. nia. }
  by rewrite c_int_ret by nia.
Qed.

(** C38. The BT-KV kernel is right for row-major output and not for the transposed
    output its V tiles use.  With buffers of the documented sizes and any order of
    the stores: without transposition every element is written its dequantized
    value; with it, a square tile is written as if it were not transposed, a tile
    with more rows than columns (the 64 x 16 V tile) makes a thread store behind
    the buffer, and one with fewer rows (at least two) never writes its last
    element. *)
Theorem btkv_transposed_only_square sched powf data e8m0 x y g out :
  schedule sched → 0 < x → 0 < y → 0 < g → x * y ≤ 2 ^ 31 - 257 → x * x < 2 ^ 31 →
  x * y ≤ Z.of_nat (length data) → (x * y - 1) / g < Z.of_nat (length e8m0) →
  Z.of_nat (length out) = x * y →
  let v := btkv_value powf data e8m0 g in
  let launched tr := launch_dequant_btkv powf data sched e8m0 x y g tr out in
  dequantizes (x * y) v out (launched false) ∧
  (x = y → dequantizes (x * y) v out (launched true)) ∧
  (y < x → launched true = Panic) ∧
  (1 < x < y → ∃ out', launched true = Ret (out', true) ∧
     out' !! Z.to_nat (x * y - 1) = out !! Z.to_nat (x * y - 1)).
Proof.
  intros Hs Hx Hy Hg Ht Hxx Hd He Ho v launched.
  assert (0 < x * y) by nia. unfold launched. rewrite !btkv_launch by done. split_and!.
  - destruct (elementwise_stores sched v (x * y) out Hs) as (out' & E & H'); [lia|].
    exists out'. unfold v in E. by rewrite E.
  - intros <-. destruct (elementwise_stores sched v (x * x) out Hs) as (out' & E & H'); [lia|].
    exists out'. split; [|done]. unfold v in E.
    rewrite (list_fmap_ext _ (λ i, (i, btkv_value powf data e8m0 g i))), E; [done|].
    intros _ i _. f_equal. unfold transposed_place. pose proof (Z.div_mod i x). lia.
  - intros Hxy.
    rewrite (stores_fault _ out (transposed_place x y (x * y - 1), v (x * y - 1))); [done| |].
    + rewrite (Hs _). apply list_elem_of_fmap. exists (x * y - 1).
      rewrite elem_of_seqZ. split; [done|lia].
    + rewrite Ho. cbn [fst]. unfold transposed_place.
      rewrite <- (Z.div_unique (x * y - 1) y (x - 1) (y - 1)) by lia.
      rewrite <- (Z.mod_unique (x * y - 1) y (x - 1) (y - 1)) by lia. nia.
  - intros Hxy. set (ws := _ <$> _).
    assert (∀ i, i ∈ (sched ws).*1 → 0 ≤ i < x * y - 1) as Hw.
    { intros i. rewrite (Hs ws). unfold ws. rewrite <- list_fmap_compose, list_elem_of_fmap.
      intros (k & -> & Hk%elem_of_seqZ). cbn. unfold transposed_place.
      pose proof (head_range k y x Hy ltac:(lia)). pose proof (Z.mod_pos_bound k y Hy).
      assert (k / y * x ≤ (x - 1) * x) by nia. nia. }
    destruct (stores_inside (sched ws) out) as (out' & -> & _ & Hout).
    { intros i Hi%Hw. lia. }
    exists out'. split; [done|]. apply Hout. rewrite Z2Nat.id by lia. intros Hi%Hw. lia.
Qed.

(** The 64 x 16 tile of the V cache, in groups of 32. *)
Lemma btkv_transposed_only_square_witness :
  launch_dequant_btkv (λ _ y, y) (replicate 1024 1) id (replicate 32 0) 64 16 32 true
    (replicate 1024 S754_nan) = Panic.
Proof.
  apply (btkv_transposed_only_square id (λ _ y, y) (replicate 1024 1) (replicate 32 0) 64 16 32
    (replicate 1024 S754_nan)); [by intros ?|lia..| | | |lia];
    rewrite length_replicate; by vm_compute.
Defined.

(** ** Tensor maps *)

Section Tensor_maps.
Import Tma.
Context (enc : EncodeRequest → bool) (Henc : ∀ r, enc r = true).
Context (k_base v_base es sw : Z) (Hes : es = 1 ∨ es = 2 ∨ es = 4).

Definition map_type : CUtensorMapDataType :=
  if es =? 1 then UINT8 else if es =? 2 then FLOAT16 else FLOAT32.

(** The maps of head [h]: a 16 x 64 tile of keys and a 64 x 16 tile of values, at
    the [h]-th kilo-element of the block. *)
Definition k_map (h : Z) : EncodeRequest :=
  {| data_type := map_type; gmem_base_ptr := k_base + h * (1024 * es);
     gmem_dims := [64; 16; 1; 1; 1]; gmem_strides := [64 * es; 0; 0; 0];
     smem_dims := [64; 16; 1; 1; 1]; smem_strides := [1; 1; 1; 1; 1]; swizzle_mode := sw |}.
Definition v_map (h : Z) : EncodeRequest :=
  {| data_type := map_type; gmem_base_ptr := v_base + h * (1024 * es);
     gmem_dims := [16; 64; 1; 1; 1]; gmem_strides := [16 * es; 0; 0; 0];
     smem_dims := [16; 64; 1; 1; 1]; smem_strides := [1; 1; 1; 1; 1]; swizzle_mode := sw |}.

Lemma heads_loop_spec n h ks vs :
  0 ≤ h → 0 ≤ k_base → 0 ≤ v_base →
  k_base + (h + Z.of_nat n) * (1024 * es) ≤ 2 ^ 64 →
  v_base + (h + Z.of_nat n) * (1024 * es) ≤ 2 ^ 64 →
  heads_loop enc n h k_base v_base 64 16 es sw ks vs =
    (ks ++ (k_map <$> seqZ h (Z.of_nat n)), vs ++ (v_map <$> seqZ h (Z.of_nat n)), cudaSuccess).
Proof.
  revert h ks vs. induction n as [|n IH]; intros h ks vs Hh Hk0 Hv0 Hk Hv.
  { cbn. by rewrite !app_nil_r. }
  cbn [heads_loop]. unfold init_btkv_tile_tensor_map.
  assert ((if es =? 1 then Some UINT8 else if es =? 2 then Some FLOAT16
           else if es =? 4 then Some FLOAT32 else None) = Some map_type) as ->
    by (unfold map_type; destruct Hes as [-> |[-> | ->]]; done).
  rewrite !Henc.
  replace (h * 16 * 64 * es) with (h * (1024 * es)) by lia.
  rewrite !(wrap_small 64 (h * (1024 * es))) by nia.
  rewrite !(wrap_small 64 (_ + h * (1024 * es))) by nia.
  rewrite !(wrap_small 64 (_ * es)) by lia. rewrite IH by lia.
  rewrite (seqZ_cons h (Z.of_nat (S n))) by lia.
  replace (Z.pred (Z.of_nat (S n))) with (Z.of_nat n) by lia.
  replace (Z.succ h) with (h + 1) by lia.
  by rewrite <- !app_assoc.
Qed.

(** The descriptors of a block whose heads are one tile each: one map per head
    and tensor, laid out back to back, so that the maps of [n] heads describe the
    whole block and nothing behind it; every other positive shape is refused
    before anything is encoded. *)
Theorem block_maps_tile_the_block n :
  0 ≤ n → 0 ≤ k_base → 0 ≤ v_base →
  k_base + n * (1024 * es) ≤ 2 ^ 64 → v_base + n * (1024 * es) ≤ 2 ^ 64 →
  init_btkv_block_tensor_maps enc k_base v_base n 64 16 es sw =
    Ret (k_map <$> seqZ 0 n, v_map <$> seqZ 0 n, cudaSuccess) ∧
  (∀ head_dim block_tokens, 0 < head_dim < 2 ^ 20 → 0 < block_tokens < 2 ^ 10 →
     (head_dim, block_tokens) ≠ (64, 16) →
     ∃ err, init_btkv_block_tensor_maps enc k_base v_base n head_dim block_tokens es sw =
       Ret ([], [], err) ∧ err ≠ cudaSuccess).
Proof.
  intros Hn Hk0 Hv0 Hk Hv. split.
  - unfold init_btkv_block_tensor_maps. cbn -[heads_loop Z.to_nat seqZ]. rewrite heads_loop_spec by lia.
    by rewrite Z2Nat.id by lia.
  - intros d b Hd Hb Hne. unfold init_btkv_block_tensor_maps, BTKV_K_TILE_DIMS, BTKV_K_TILE_TOKENS.
    rewrite !c_rem_ret by lia. monad_simpl.
    destruct (Z.eqb_spec (d mod 64) 0) as [Ed|]; cbn [negb]; [|by eexists].
    destruct (Z.eqb_spec (b mod 16) 0) as [Eb|]; cbn [negb]; [|by eexists].
    rewrite !c_div_ret by lia. monad_simpl.
    pose proof (Z.div_mod d 64 ltac:(lia)). pose proof (Z.div_mod b 16 ltac:(lia)).
    rewrite c_int_ret by nia. monad_simpl.
    destruct (Z.eqb_spec (d / 64 * (b / 16)) 1) as [E1|]; cbn [negb]; [|by eexists].
    assert (d / 64 = 1 ∧ b / 16 = 1) as [? ?] by nia. exfalso. apply Hne. f_equal; lia.
Qed.

End Tensor_maps.

End KernelTheorems.
