(* ===== verification/PagedAttention.v ===== *)
(** * Paged attention

    [Attention] models kernels/{basic,enhanced,btkv}_format/paged_attention_*.cu
    and [Triton] the reference kernels of kernels/triton/psp_kv_*.py.  A thread
    (one token, one query head, one sequence) walks the blocks of its sequence,
    dequantizes keys and values and keeps an online softmax.  The arithmetic is
    an interface, [FloatOps], with binary32 as one instance, so that what the
    kernels read and write is settled for any arithmetic here and what they
    compute is settled over the reals in [AttentionReals]. *)

From S2P Require Import Prelude F64 Quantization DeviceQuant Kernels.

(** The [float] and [half] operations of a kernel. *)
Class FloatOps (F H : Type) := {
  fzero : F;
  fone : F;
  fneg_inf : F;
  fadd : F → F → F;
  fsub : F → F → F;
  fmul : F → F → F;
  fdiv : F → F → F;
  fmaxf : F → F → F;
  fexpf : F → F;
  (** [(float) n] and [powf(2.0f, (float) n)] of an integer. *)
  fofZ : Z → F;
  fpow2 : Z → F;
  half2float : H → F;
  float2half : F → H;
}.

(** Binary32 over a given exponential and power function. *)
Definition f32_fmaxf (x y : spec_float) : spec_float :=
  match x, y with
  | S754_nan, _ => y
  | _, S754_nan => x
  | _, _ => if SFltb x y then y else x
  end.

Definition F32Ops (expf : spec_float → spec_float)
    (powf : spec_float → spec_float → spec_float) : FloatOps spec_float spec_float := {|
  fzero := f32_of_Z 0;
  fone := f32_of_Z 1;
  fneg_inf := S754_infinity true;
  fadd := Quant.f32_add;
  fsub := Dequant.f32_sub;
  fmul := Quant.f32_mul;
  fdiv := Quant.f32_div;
  fmaxf := f32_fmaxf;
  fexpf := expf;
  fofZ := f32_of_Z;
  fpow2 n := powf (f32_of_Z 2) (f32_of_Z n);
  half2float x := x;
  float2half := Dequant.float2half;
|}.

(** A [for] loop over [l] whose body may fault. *)
Fixpoint fold_m {S A} (f : S → A → outcome S) (st : S) (l : list A) : outcome S :=
  match l with
  | [] => Ret st
  | x :: l => st ← f st x; fold_m f st l
  end.

Module Attention.

Definition BLOCK_SIZE : Z := 16.
Definition HEAD_DIM : Z := 128.

Section Kernel.
Context {F H : Type} `{FloatOps F H}.

Record Args := {
  q : list H;
  k_cache : list Z;
  v_cache : list Z;
  block_tables : list Z;
  context_lens : list Z;
  max_blocks_per_seq : Z;
  num_heads : Z;
  num_kv_heads : Z;
  head_dim : Z;
  scale : F;
}.

(** What distinguishes the three kernels: how the parameters of a block and head
    are loaded and a byte is dequantized, and where the value of dimension [d] of
    token [t] lies in a block. *)
Record Format := {
  k_load : Z → outcome (Z → F);
  v_load : Z → outcome (Z → F);
  v_place : Z → Z → Z;
}.

Definition affine (scales zero_points : list F) (i : Z) : outcome (Z → F) :=
  s ← c_read scales i; zp ← c_read zero_points i;
  Ret (λ b, fmul s (fsub (fofZ b) zp)).

Definition power_of_two (scales_e8m0 : list Z) (i : Z) : outcome (Z → F) :=
  e ← c_read scales_e8m0 i; Ret (λ b, fmul (fpow2 e) (fofZ b)).

Definition basic_format (k_scales k_zero_points v_scales v_zero_points : list F) : Format :=
  {| k_load := affine k_scales k_zero_points; v_load := affine v_scales v_zero_points;
     v_place t d := t * HEAD_DIM + d |}.

Definition enhanced_format (k_scales_e8m0 v_scales_e8m0 : list Z) : Format :=
  {| k_load := power_of_two k_scales_e8m0; v_load := power_of_two v_scales_e8m0;
     v_place t d := t + d * BLOCK_SIZE |}.

Definition btkv_format (k_scales_e8m0 v_scales_e8m0 : list Z) : Format :=
  {| k_load := power_of_two k_scales_e8m0; v_load := power_of_two v_scales_e8m0;
     v_place t d := t + d * BLOCK_SIZE |}.

(** [acc], [max_score], [sum_exp]. *)
Definition softmax_state : Type := list F * F * F.

(** The update of the online softmax by a token with score [score] and values
    [vals]. *)
Definition online (st : softmax_state) (tok : F * list F) : softmax_state :=
  let '(acc, max_score, sum_exp) := st in
  let new_max := fmaxf max_score tok.1 in
  let exp_old := fexpf (fsub max_score new_max) in
  let exp_new := fexpf (fsub tok.1 new_max) in
  (zip_with (λ a v, fadd a (fmul exp_new v)) acc tok.2,
   new_max, fadd (fmul sum_exp exp_old) exp_new).

Definition init_state : softmax_state :=
  (replicate (Z.to_nat HEAD_DIM) fzero, fneg_inf, fzero).

Context (fmt : Format) (args : Args).

(** The body of the token loop. *)
Definition token_step (query : list F) (k_val v_val : Z → F) (k_block v_block : Z)
    (st : softmax_state) (t : Z) : outcome softmax_state :=
  score ← fold_m (λ score '(d, qd),
            b ← c_read (k_cache args) (k_block + (t * HEAD_DIM + d));
            Ret (fadd score (fmul qd (k_val b)))) fzero (zip (seqZ 0 HEAD_DIM) query);
  vals ← mapM (λ d, b ← c_read (v_cache args) (v_block + v_place fmt t d); Ret (v_val b))
           (seqZ 0 HEAD_DIM);
  Ret (online st (fmul score (scale args), vals)).

(** The body of the block loop. *)
Definition block_step (query : list F) (seq_idx kv_head ctx : Z)
    (st : softmax_state) (block_idx : Z) : outcome softmax_state :=
  row ← c_int (seq_idx * max_blocks_per_seq args);
  entry ← c_int (row + block_idx);
  physical_block ← c_read (block_tables args) entry;
  start_token ← c_int (block_idx * BLOCK_SIZE);
  rest ← c_int (ctx - start_token);
  let tokens_in_block := Z.min BLOCK_SIZE rest in
  i ← c_int (physical_block * num_kv_heads args);
  i ← c_int (i + kv_head);
  k_val ← k_load fmt i;
  v_val ← v_load fmt i;
  let base := wrap 64 ((wrap 64 physical_block * num_kv_heads args + kv_head)
                       * BLOCK_SIZE * HEAD_DIM) in
  fold_m (token_step query k_val v_val base base) st (seqZ 0 tokens_in_block).

(** One thread: the stores of [out[token, head, ...]]. *)
Definition paged_attention_kernel (t : Z * Z * Z) : outcome (list (Z * H)) :=
  let '(token_idx, head_idx, seq_idx) := t in
  ctx ← c_read (context_lens args) seq_idx;
  if ctx <=? token_idx then Ret []
  else
    group ← c_div (num_heads args) (num_kv_heads args);
    kv_head ← c_div head_idx group;
    row ← c_int (token_idx * num_heads args);
    row ← c_int (row + head_idx);
    off ← c_int (row * head_dim args);
    query ← mapM (λ i, x ← c_read (q args) (off + i); Ret (half2float x)) (seqZ 0 HEAD_DIM);
    s ← c_int (ctx + BLOCK_SIZE);
    num_blocks ← c_div (s - 1) BLOCK_SIZE;
    '(acc, _, sum_exp) ← fold_m (block_step query seq_idx kv_head ctx) init_state
                           (seqZ 0 num_blocks);
    let inv_sum := fdiv fone sum_exp in
    Ret (zip_with (λ d a, (off + d, float2half (fmul a inv_sum))) (seqZ 0 HEAD_DIM) acc).

(** The grid of the launchers: one thread per token, head and sequence. *)
Definition grid3 (num_tokens num_seqs : Z) : list (Z * Z * Z) :=
  s ← seqZ 0 num_seqs; h ← seqZ 0 (num_heads args); t ← seqZ 0 num_tokens; [(t, h, s)].

Definition launch_paged_attention (sched : list (Z * H) → list (Z * H))
    (num_tokens num_seqs : Z) (out : list H) : outcome (list H) :=
  Launch.run sched paged_attention_kernel (grid3 num_tokens num_seqs) out.

End Kernel.

Arguments Args F H : clear implicits.
Arguments Format F : clear implicits.

(** The kernels and launchers of the three formats. *)
Section Formats.
Context {F H : Type} `{FloatOps F H}.

Definition paged_attention_basic_kernel (ks kz vs vz : list F) (args : Args F H) :=
  paged_attention_kernel (basic_format ks kz vs vz) args.
Definition paged_attention_enhanced_kernel (ke ve : list Z) (args : Args F H) :=
  paged_attention_kernel (enhanced_format ke ve) args.
Definition paged_attention_btkv_kernel (ke ve : list Z) (args : Args F H) :=
  paged_attention_kernel (btkv_format ke ve) args.

Definition launch_paged_attention_basic (ks kz vs vz : list F) (args : Args F H) :=
  launch_paged_attention (basic_format ks kz vs vz) args.
Definition launch_paged_attention_enhanced (ke ve : list Z) (args : Args F H) :=
  launch_paged_attention (enhanced_format ke ve) args.
Definition launch_paged_attention_btkv (ke ve : list Z) (args : Args F H) :=
  launch_paged_attention (btkv_format ke ve) args.

End Formats.
End Attention.

(** ** The Triton kernels *)

Module Triton.
Import Attention.

Section Kernel.
Context {F H : Type} `{FloatOps F H}.

(** [tl.sum] of a vector: the order of the additions is Triton's. *)
Context (tl_sum : list F → F).

(** Pointer offsets are 32-bit integers. *)
Definition i32 (z : Z) : Z := to_signed 32 z.

Definition basic_format (head_dim : Z) (K_scales K_zero_points V_scales V_zero_points : list F) :
  Format F :=
  {| k_load := affine K_scales K_zero_points; v_load := affine V_scales V_zero_points;
     v_place t d := t * head_dim + d |}.

Definition enhanced_format (K_scales_e8m0 V_scales_e8m0 : list Z) : Format F :=
  {| k_load := power_of_two K_scales_e8m0; v_load := power_of_two V_scales_e8m0;
     v_place t d := d * BLOCK_SIZE + t |}.

Definition btkv_format (K_scales_e8m0 V_scales_e8m0 : list Z) : Format F :=
  {| k_load := power_of_two K_scales_e8m0; v_load := power_of_two V_scales_e8m0;
     v_place t d := d * BLOCK_SIZE + t |}.

Context (fmt : Format F) (args : Args F H).

Definition token_step (qv : list F) (k_val v_val : Z → F) (base : Z)
    (st : softmax_state) (t : Z) : outcome softmax_state :=
  k_vals ← mapM (λ d, b ← c_read (k_cache args) (base + i32 (i32 (t * head_dim args) + d));
                      Ret (k_val b)) (seqZ 0 (head_dim args));
  let score := fmul (tl_sum (zip_with fmul qv k_vals)) (scale args) in
  v_vals ← mapM (λ d, b ← c_read (v_cache args) (base + i32 (v_place fmt t d));
                      Ret (v_val b)) (seqZ 0 (head_dim args));
  Ret (online st (score, v_vals)).

Definition block_step (qv : list F) (seq_idx kv_head ctx : Z)
    (st : softmax_state) (block_idx : Z) : outcome softmax_state :=
  physical_block ← c_read (block_tables args)
                     (i32 (i32 (seq_idx * max_blocks_per_seq args) + block_idx));
  let i := i32 (i32 (physical_block * num_kv_heads args) + kv_head) in
  k_val ← k_load fmt i;
  v_val ← v_load fmt i;
  let base := i32 (i32 (i * BLOCK_SIZE) * head_dim args) in
  let tokens_in_block := Z.min BLOCK_SIZE (i32 (ctx - i32 (block_idx * BLOCK_SIZE))) in
  fold_m (token_step qv k_val v_val base) st (seqZ 0 tokens_in_block).

Definition paged_attention_kernel (t : Z * Z * Z) : outcome (list (Z * H)) :=
  let '(token_idx, head_idx, seq_idx) := t in
  ctx ← c_read (context_lens args) seq_idx;
  if ctx <=? token_idx then Ret []
  else
    group ← c_div (num_heads args) (num_kv_heads args);
    kv_head ← c_div head_idx group;
    let q_offset := i32 (i32 (i32 (token_idx * num_heads args) + head_idx) * head_dim args) in
    qv ← mapM (λ i, x ← c_read (q args) (i32 (q_offset + i)); Ret (half2float x))
           (seqZ 0 (head_dim args));
    num_blocks ← c_div (i32 (i32 (ctx + BLOCK_SIZE) - 1)) BLOCK_SIZE;
    '(acc, _, sum_exp) ← fold_m (block_step qv seq_idx kv_head ctx)
                           (replicate (Z.to_nat (head_dim args)) fzero, fneg_inf, fzero)
                           (seqZ 0 num_blocks);
    Ret (zip_with (λ d a, (i32 (q_offset + d), float2half (fdiv a sum_exp)))
           (seqZ 0 (head_dim args)) acc).

End Kernel.

Section Formats.
Context {F H : Type} `{FloatOps F H} (tl_sum : list F → F).

Definition paged_attention_basic_kernel (ks kz vs vz : list F) (args : Args F H) :=
  paged_attention_kernel tl_sum (basic_format (head_dim args) ks kz vs vz) args.
Definition paged_attention_enhanced_kernel (ke ve : list Z) (args : Args F H) :=
  paged_attention_kernel tl_sum (enhanced_format ke ve) args.
Definition paged_attention_btkv_kernel (ke ve : list Z) (args : Args F H) :=
  paged_attention_kernel tl_sum (btkv_format ke ve) args.

(** The Python functions launch one program per token, head and sequence.
    [num_tokens] and [num_seqs] are the first dimensions of the query and of the
    block tables, [empty] what [torch.empty_like(q)] contains. *)
Definition paged_attention_basic (ks kz vs vz : list F) (args : Args F H)
    (sched : list (Z * H) → list (Z * H)) (num_tokens num_seqs : Z) (empty : list H) :=
  Launch.run sched (paged_attention_basic_kernel ks kz vs vz args)
    (grid3 args num_tokens num_seqs) empty.
Definition paged_attention_enhanced (ke ve : list Z) (args : Args F H)
    (sched : list (Z * H) → list (Z * H)) (num_tokens num_seqs : Z) (empty : list H) :=
  Launch.run sched (paged_attention_enhanced_kernel ke ve args)
    (grid3 args num_tokens num_seqs) empty.
(** [tile_dim] is passed to the program, which does not use it. *)
Definition paged_attention_btkv (ke ve : list Z) (args : Args F H) (tile_dim : Z)
    (sched : list (Z * H) → list (Z * H)) (num_tokens num_seqs : Z) (empty : list H) :=
  Launch.run sched (paged_attention_btkv_kernel ke ve args)
    (grid3 args num_tokens num_seqs) empty.

End Formats.
End Triton.

Module AttentionFacts.
Import Attention KernelFacts.

Lemma Ret_inj {A} (x y : A) : Ret x = Ret y → x = y.
Proof. congruence. Qed.

Lemma fold_m_ret {S A} (f : S → A → outcome S) (g : S → A → S) st l :
  (∀ st x, x ∈ l → f st x = Ret (g st x)) → fold_m f st l = Ret (foldl g st l).
Proof.
  revert st. induction l as [|x l IH]; intros st Hf; [done|].
  cbn [fold_m foldl]. rewrite Hf by left. monad_simpl.
  apply IH. intros. apply Hf. by right.
Qed.

Lemma foldl_concat {S A} (g : S → A → S) st (ls : list (list A)) :
  foldl (foldl g) st ls = foldl g st (concat ls).
Proof.
  revert st. induction ls as [|l ls IH]; intros st; [done|].
  cbn [foldl concat]. by rewrite foldl_app.
Qed.

Lemma foldl_fmap_arg {S A B} (g : S → B → S) (h : A → B) st l :
  foldl g st (h <$> l) = foldl (λ s x, g s (h x)) st l.
Proof. revert st. induction l as [|x l IH]; intros st; [done|]. apply IH. Qed.

(** The blocks of a sequence enumerate its tokens in order. *)
Lemma blocks_flatten ctx : 0 ≤ ctx →
  concat ((λ b, Z.add (b * BLOCK_SIZE) <$> seqZ 0 (Z.min BLOCK_SIZE (ctx - b * BLOCK_SIZE)))
            <$> seqZ 0 ((ctx + 15) / 16)) = seqZ 0 ctx.
Proof.
  intros Hc. unfold BLOCK_SIZE.
  assert (∀ n : nat, Z.of_nat n * 16 < ctx + 16 →
    concat ((λ b, Z.add (b * 16) <$> seqZ 0 (Z.min 16 (ctx - b * 16))) <$> seqZ 0 (Z.of_nat n))
    = seqZ 0 (Z.min (Z.of_nat n * 16) ctx)) as Hn.
  { induction n as [|n IH]; intros Hlt; [cbn; by rewrite Z.min_l by lia|].
    replace (Z.of_nat (S n)) with (Z.of_nat n + 1) by lia.
    rewrite seqZ_app, fmap_app, concat_app, IH by lia.
    change (seqZ (0 + Z.of_nat n) 1) with [Z.of_nat n]. cbn [fmap list_fmap concat].
    rewrite app_nil_r, fmap_add_seqZ, ?Z.add_0_l, ?Z.add_0_r.
    rewrite (Z.min_l (Z.of_nat n * 16) ctx) by lia.
    replace (Z.min ((Z.of_nat n + 1) * 16) ctx)
      with (Z.of_nat n * 16 + Z.min 16 (ctx - Z.of_nat n * 16)) by lia.
    by rewrite (seqZ_app 0 (Z.of_nat n * 16)), Z.add_0_l by lia. }
  pose proof (Z.div_mod (ctx + 15) 16 ltac:(lia)). pose proof (Z.mod_pos_bound (ctx + 15) 16 ltac:(lia)).
  pose proof (Hn (Z.to_nat ((ctx + 15) / 16))) as E. rewrite Z2Nat.id in E by lia.
  rewrite E by lia. f_equal. lia.
Qed.

Lemma c_read_default {A} (l : list A) i d :
  0 ≤ i < Z.of_nat (length l) → c_read l i = Ret (default d (l !! Z.to_nat i)).
Proof. intros Hi. by destruct (c_read_ret l i Hi) as (x & -> & ->). Qed.

Lemma mapM_ext_in {A B} (f g : A → outcome B) l :
  (∀ x, x ∈ l → f x = g x) → mapM f l = mapM g l.
Proof.
  induction l as [|x l IH]; intros Hf; [done|]. cbn [mapM].
  rewrite Hf by left. by rewrite IH by (intros; apply Hf; by right).
Qed.

(** A launch depends on what its threads store. *)
Lemma run_ext {A T} (sched : list (Z * A) → list (Z * A)) (f g : T → outcome (list (Z * A))) ts out :
  (∀ t, t ∈ ts → f t = g t) → Launch.run sched f ts out = Launch.run sched g ts out.
Proof. intros Hfg. unfold Launch.run. by rewrite (mapM_ext_in f g). Qed.

Lemma grid3_range {F H} (args : Args F H) num_tokens num_seqs t h s :
  (t, h, s) ∈ grid3 args num_tokens num_seqs →
  0 ≤ t < num_tokens ∧ 0 ≤ h < num_heads args ∧ 0 ≤ s < num_seqs.
Proof.
  unfold grid3. rewrite list_elem_of_bind. intros (s' & Hg & Hs%elem_of_seqZ).
  apply list_elem_of_bind in Hg as (h' & Hg & Hh%elem_of_seqZ).
  apply list_elem_of_bind in Hg as (t' & Hg & Ht%elem_of_seqZ).
  apply list_elem_of_singleton in Hg as [= -> -> ->]. lia.
Qed.

Lemma zip_with_ext_in {A B C} (f g : A → B → C) l k :
  (∀ x y, (x, y) ∈ zip l k → f x y = g x y) → zip_with f l k = zip_with g l k.
Proof.
  revert k. induction l as [|x l IH]; intros [|y k] Hf; cbn; [done..|].
  rewrite Hf by left. f_equal. apply IH. intros. apply Hf. by right.
Qed.

Lemma elem_of_zip_lookup {A B} (l : list A) (k : list B) x y :
  (∃ i, l !! i = Some x ∧ k !! i = Some y) → (x, y) ∈ zip l k.
Proof.
  intros (i & Hl & Hk). apply list_elem_of_lookup_2 with i. by rewrite lookup_zip_with, Hl, Hk.
Qed.

Lemma elem_of_concat_fmap {A B} (f : A → list B) l p :
  p ∈ concat (f <$> l) ↔ ∃ t, p ∈ f t ∧ t ∈ l.
Proof.
  induction l as [|x l IH]; cbn.
  - split; [by intros ?%not_elem_of_nil|]. by intros (? & _ & ?%not_elem_of_nil).
  - rewrite elem_of_app, IH. split.
    + intros [Hp|(t & Hp & Ht)]; [exists x; by split; [|left]|exists t; by split; [|right]].
    + intros (t & Hp & [-> |Ht]%elem_of_cons); [by left|right; by exists t].
Qed.

Lemma mapM_slice {A B} (g : A → B) (l : list A) off n :
  0 ≤ off → 0 ≤ n → off + n ≤ Z.of_nat (length l) →
  mapM (λ i, x ← c_read l (off + i); Ret (g x)) (seqZ 0 n) =
    Ret (g <$> take (Z.to_nat n) (drop (Z.to_nat off) l)).
Proof.
  intros Ho Hn Hl. destruct l as [|d l'].
  { cbn in Hl. assert (n = 0) as -> by lia. by rewrite drop_nil. }
  set (l := d :: l') in *.
  rewrite (mapM_ret _ (λ i, g (default d (l !! Z.to_nat (off + i))))).
  2: { intros i Hi%elem_of_seqZ. by rewrite (c_read_default l (off + i) d) by lia. }
  f_equal. apply list_eq. intros j. rewrite !list_lookup_fmap.
  destruct (decide (Z.of_nat j < n)).
  - rewrite lookup_seqZ_lt, lookup_take_lt, lookup_drop by lia. cbn.
    replace (Z.to_nat (off + (0 + Z.of_nat j))) with (Z.to_nat off + j)%nat by lia.
    destruct (lookup_lt_is_Some_2 l (Z.to_nat off + j)) as [x ->]; [lia|done].
  - rewrite lookup_seqZ_ge, lookup_take_ge by lia. done.
Qed.

(** ** What the kernel reads, as pure functions *)

Section Data.
Context {F H : Type} `{FloatOps F H}.
Context (fmt : Format F) (args : Args F H).

(** The caches have [num_blocks] blocks of [num_kv_heads] heads, the tensors
    [num_tokens] rows; every entry of the block table that a sequence uses names
    a block; head counts divide evenly, and the head dimension is the one the
    kernel was compiled for. *)
Record well_shaped (num_tokens num_seqs num_blocks : Z) : Prop := {
  ws_dim : head_dim args = HEAD_DIM;
  ws_kv : 0 < num_kv_heads args;
  ws_heads : 0 < num_heads args;
  ws_divide : num_heads args = num_kv_heads args * (num_heads args / num_kv_heads args);
  ws_q : Z.of_nat (length (q args)) = num_tokens * num_heads args * HEAD_DIM;
  ws_q_int : num_tokens * num_heads args * HEAD_DIM < 2 ^ 31;
  ws_heads_int : num_heads args < 2 ^ 31;
  ws_ctx : Z.of_nat (length (context_lens args)) = num_seqs;
  ws_ctx_int : ∀ s c, context_lens args !! s = Some c → 0 ≤ c < 2 ^ 31 - 16;
  ws_tables_int : num_seqs * max_blocks_per_seq args < 2 ^ 31;
  ws_max : 0 ≤ max_blocks_per_seq args;
  ws_fit : ∀ s c, context_lens args !! s = Some c → c ≤ max_blocks_per_seq args * BLOCK_SIZE;
  ws_tables : ∀ s c b, context_lens args !! Z.to_nat s = Some c → 0 ≤ s → 0 ≤ b →
    b * BLOCK_SIZE < c →
    ∃ e, block_tables args !! Z.to_nat (s * max_blocks_per_seq args + b) = Some e ∧
         0 ≤ e < num_blocks;
  ws_cache_int : num_blocks * num_kv_heads args < 2 ^ 31;
  ws_k : Z.of_nat (length (k_cache args)) =
         num_blocks * num_kv_heads args * (BLOCK_SIZE * HEAD_DIM);
  ws_v : Z.of_nat (length (v_cache args)) =
         num_blocks * num_kv_heads args * (BLOCK_SIZE * HEAD_DIM);
  ws_k_load : ∀ i, 0 ≤ i < num_blocks * num_kv_heads args → ∃ f, k_load fmt i = Ret f;
  ws_v_load : ∀ i, 0 ≤ i < num_blocks * num_kv_heads args → ∃ f, v_load fmt i = Ret f;
  ws_place : ∀ t d, 0 ≤ t < BLOCK_SIZE → 0 ≤ d < HEAD_DIM →
    0 ≤ v_place fmt t d < BLOCK_SIZE * HEAD_DIM;
}.

Definition dequant_of (r : outcome (Z → F)) : Z → F :=
  match r with Ret f => f | _ => λ _, fzero end.

Definition byte (l : list Z) (i : Z) : Z := default 0 (l !! Z.to_nat i).

(** Row of the caches for token [i] of sequence [seq]. *)
Definition cache_row (seq kv_head i : Z) : Z :=
  byte (block_tables args) (seq * max_blocks_per_seq args + i / BLOCK_SIZE)
    * num_kv_heads args + kv_head.

(** Dimension [d] of the dequantized key and value of token [i]. *)
Definition key_at (seq kv_head i d : Z) : F :=
  let r := cache_row seq kv_head i in
  dequant_of (k_load fmt r)
    (byte (k_cache args) (r * (BLOCK_SIZE * HEAD_DIM) + (i mod BLOCK_SIZE * HEAD_DIM + d))).
Definition value_at (seq kv_head i d : Z) : F :=
  let r := cache_row seq kv_head i in
  dequant_of (v_load fmt r)
    (byte (v_cache args) (r * (BLOCK_SIZE * HEAD_DIM) + v_place fmt (i mod BLOCK_SIZE) d)).

(** The scaled dot product of the query with a key. *)
Definition score_of (query : list F) (key : Z → F) : F :=
  fmul (foldl (λ s '(d, qd), fadd s (fmul qd (key d))) fzero (zip (seqZ 0 HEAD_DIM) query))
       (scale args).

Definition token_data (query : list F) (seq kv_head i : Z) : F * list F :=
  (score_of query (key_at seq kv_head i), value_at seq kv_head i <$> seqZ 0 HEAD_DIM).

Definition query_at (off : Z) : list F :=
  half2float <$> take (Z.to_nat HEAD_DIM) (drop (Z.to_nat off) (q args)).

(** What the thread computes: the online softmax over all tokens of the
    sequence. *)
Definition attention_fold (off seq kv_head ctx : Z) : softmax_state :=
  foldl online init_state (token_data (query_at off) seq kv_head <$> seqZ 0 ctx).

Context (num_tokens num_seqs num_blocks : Z).
Context (Hws : well_shaped num_tokens num_seqs num_blocks).

Lemma token_step_ret query seq kv_head b t st e c :
  context_lens args !! Z.to_nat seq = Some c → 0 ≤ seq →
  0 ≤ b → 0 ≤ t < BLOCK_SIZE → 0 ≤ kv_head < num_kv_heads args →
  block_tables args !! Z.to_nat (seq * max_blocks_per_seq args + b) = Some e →
  0 ≤ e < num_blocks →
  let r := e * num_kv_heads args + kv_head in
  token_step fmt args query (dequant_of (k_load fmt r)) (dequant_of (v_load fmt r))
    (r * BLOCK_SIZE * HEAD_DIM) (r * BLOCK_SIZE * HEAD_DIM) st t =
  Ret (online st (token_data query seq kv_head (b * BLOCK_SIZE + t))).
Proof.
  intros Hc Hs Hb Ht Hkv He Hr r. destruct Hws. unfold token_step.
  assert ((b * BLOCK_SIZE + t) / BLOCK_SIZE = b ∧ (b * BLOCK_SIZE + t) mod BLOCK_SIZE = t) as [Ed Em].
  { unfold BLOCK_SIZE in *. split; [symmetry; apply Z.div_unique with t|symmetry; apply Z.mod_unique with b]; lia. }
  assert (cache_row seq kv_head (b * BLOCK_SIZE + t) = r) as Er.
  { unfold cache_row, byte. by rewrite Ed, He. }
  assert (0 ≤ r < num_blocks * num_kv_heads args) as Hrr by (unfold r; nia).
  unfold token_data, score_of, key_at, value_at. rewrite Er, Em.
  rewrite Z.mul_assoc. unfold BLOCK_SIZE, HEAD_DIM in *.
  rewrite (fold_m_ret _ (λ s '(d, qd), fadd s (fmul qd (dequant_of (k_load fmt r)
    (byte (k_cache args) (r * 16 * 128 + (t * 128 + d))))))).
  2: { intros s [d qd] Hd. apply elem_of_zip_l, elem_of_seqZ in Hd.
       by rewrite (c_read_default _ _ 0) by nia. }
  monad_simpl.
  rewrite (mapM_ret _ (λ d, dequant_of (v_load fmt r)
    (byte (v_cache args) (r * 16 * 128 + v_place fmt t d)))).
  2: { intros d Hd%elem_of_seqZ. specialize (ws_place0 t d ltac:(lia) ltac:(lia)).
       by rewrite (c_read_default _ _ 0) by nia. }
  done.
Qed.

Lemma block_step_ret query seq kv_head b st c :
  context_lens args !! Z.to_nat seq = Some c → 0 ≤ seq < num_seqs →
  0 ≤ b → b * BLOCK_SIZE < c → 0 ≤ kv_head < num_kv_heads args →
  block_step fmt args query seq kv_head c st b =
  Ret (foldl (λ st t, online st (token_data query seq kv_head (b * BLOCK_SIZE + t))) st
         (seqZ 0 (Z.min BLOCK_SIZE (c - b * BLOCK_SIZE)))).
Proof.
  intros Hc Hs Hb Hbc Hkv. destruct (ws_tables _ _ _ Hws seq c b) as (e & He & Hr); [done|lia..|].
  pose proof (ws_ctx_int _ _ _ Hws _ _ Hc). pose proof (ws_fit _ _ _ Hws _ _ Hc).
  pose proof (ws_tables_int _ _ _ Hws). pose proof (ws_cache_int _ _ _ Hws).
  pose proof (ws_max _ _ _ Hws). pose proof (ws_kv _ _ _ Hws).
  assert (b < max_blocks_per_seq args) by (unfold BLOCK_SIZE in *; lia).
  assert (seq * max_blocks_per_seq args + b < 2 ^ 31) by nia.
  assert (e * num_kv_heads args + kv_head < num_blocks * num_kv_heads args) by nia.
  unfold block_step. rewrite (c_int_ret (seq * _)) by nia. monad_simpl.
  rewrite (c_int_ret (_ + b)) by nia. monad_simpl.
  assert (c_read (block_tables args) (seq * max_blocks_per_seq args + b) = Ret e) as ->.
  { unfold c_read. rewrite (proj2 (Z.ltb_ge _ 0)) by nia. by rewrite He. }
  monad_simpl.
  unfold BLOCK_SIZE in *. rewrite (c_int_ret (b * 16)) by lia. monad_simpl.
  rewrite (c_int_ret (c - _)) by lia. monad_simpl.
  rewrite (c_int_ret (e * _)) by nia. monad_simpl. rewrite (c_int_ret (_ + kv_head)) by nia. monad_simpl.
  set (r := e * num_kv_heads args + kv_head) in *.
  destruct (ws_k_load _ _ _ Hws r) as [kf Ek]; [lia|].
  destruct (ws_v_load _ _ _ Hws r) as [vf Ev]; [lia|]. rewrite Ek, Ev. monad_simpl.
  rewrite (wrap_small 64 e), (wrap_small 64 (_ * _ * _)) by (unfold HEAD_DIM; nia).
  apply fold_m_ret. intros st' t Ht%elem_of_seqZ.
  pose proof (token_step_ret query seq kv_head b t st' e c) as E.
  cbn zeta in E. fold r in E. rewrite Ek, Ev in E. apply E; try done; unfold BLOCK_SIZE; lia.
Qed.

Lemma online_length st tok n :
  length st.1.1 = n → length tok.2 = n → length (online st tok).1.1 = n.
Proof. destruct st as [[acc m] se]. cbn. rewrite length_zip_with. lia. Qed.

Lemma attention_fold_length off seq kv_head ctx :
  length (attention_fold off seq kv_head ctx).1.1 = Z.to_nat HEAD_DIM.
Proof.
  unfold attention_fold.
  assert (length (init_state (F:=F)).1.1 = Z.to_nat HEAD_DIM) as Hl by apply length_replicate.
  revert Hl. generalize (init_state (F:=F)).
  induction (seqZ 0 ctx) as [|i l IH]; intros st Hst; [done|]. apply IH.
  apply online_length; [done|]. cbn. by rewrite length_fmap, length_seqZ.
Qed.

(** Offset of a token and head in [q] and [out], and the KV head of a query head. *)
Definition row_off (token head : Z) : Z := (token * num_heads args + head) * HEAD_DIM.
Definition kv_of (head : Z) : Z := head / (num_heads args / num_kv_heads args).

(** The element [d] of what the thread of [token], [head], [seq] writes. *)
Definition attention_out (token head seq ctx : Z) : list H :=
  let '(acc, _, sum_exp) := attention_fold (row_off token head) seq (kv_of head) ctx in
  (λ a, float2half (fmul a (fdiv fone sum_exp))) <$> acc.

Lemma kv_of_range head : 0 ≤ head < num_heads args → 0 ≤ kv_of head < num_kv_heads args.
Proof.
  intros Hh. destruct Hws. unfold kv_of.
  assert (0 < num_heads args / num_kv_heads args) by nia.
  split; [apply Z.div_pos; lia|]. apply Z.div_lt_upper_bound; nia.
Qed.

(** Folding a step that handles one block over the blocks of a sequence. *)
Lemma fold_blocks (step : softmax_state → Z → outcome softmax_state) seq kv_head off c :
  0 ≤ c →
  (∀ st b, 0 ≤ b → b * BLOCK_SIZE < c → step st b =
     Ret (foldl (λ st t, online st (token_data (query_at off) seq kv_head (b * BLOCK_SIZE + t))) st
            (seqZ 0 (Z.min BLOCK_SIZE (c - b * BLOCK_SIZE))))) →
  fold_m step init_state (seqZ 0 ((c + 15) / 16)) = Ret (attention_fold off seq kv_head c).
Proof.
  intros Hc Hstep.
  rewrite (fold_m_ret _ (λ st b, foldl (λ st t, online st (token_data (query_at off)
      seq kv_head (b * BLOCK_SIZE + t))) st (seqZ 0 (Z.min BLOCK_SIZE (c - b * BLOCK_SIZE))))).
  2: { intros st b Hb%elem_of_seqZ. pose proof (Z.div_mod (c + 15) 16 ltac:(lia)).
       pose proof (Z.mod_pos_bound (c + 15) 16 ltac:(lia)). apply Hstep; unfold BLOCK_SIZE; lia. }
  f_equal. unfold attention_fold. rewrite foldl_fmap_arg, <- (blocks_flatten c) by lia.
  rewrite <- foldl_concat, foldl_fmap_arg.
  generalize (init_state (F:=F)). induction (seqZ 0 ((c + 15) / 16)) as [|b l IH]; intros st; [done|].
  cbn [foldl]. rewrite IH. f_equal. by rewrite foldl_fmap_arg.
Qed.

Lemma kernel_ret token head seq c :
  0 ≤ token < num_tokens → 0 ≤ head < num_heads args → 0 ≤ seq < num_seqs →
  context_lens args !! Z.to_nat seq = Some c →
  paged_attention_kernel fmt args (token, head, seq) =
    Ret (if c <=? token then []
         else zip (Z.add (row_off token head) <$> seqZ 0 HEAD_DIM) (attention_out token head seq c)).
Proof.
  intros Ht Hh Hs Hc. unfold paged_attention_kernel.
  pose proof (kv_of_range head Hh) as Hkv. pose proof (ws_ctx_int _ _ _ Hws _ _ Hc) as Hci.
  assert (c_read (context_lens args) seq = Ret c) as ->.
  { unfold c_read. by rewrite (proj2 (Z.ltb_ge _ 0)), Hc by lia. }
  monad_simpl. destruct (Z.leb_spec c token); [done|].
  pose proof (ws_dim _ _ _ Hws) as Edim. pose proof (ws_q _ _ _ Hws). pose proof (ws_q_int _ _ _ Hws).
  pose proof (ws_heads_int _ _ _ Hws). pose proof (ws_kv _ _ _ Hws). pose proof (ws_divide _ _ _ Hws).
  assert (0 < num_heads args / num_kv_heads args) by nia.
  rewrite (c_div_ret (num_heads args)) by lia. monad_simpl.
  rewrite (c_div_ret head) by lia. monad_simpl.
  assert (0 ≤ token * num_heads args + head < num_tokens * num_heads args) by nia.
  unfold HEAD_DIM in *.
  rewrite (c_int_ret (token * _)) by nia. monad_simpl. rewrite (c_int_ret (_ + head)) by nia. monad_simpl.
  rewrite Edim. rewrite (c_int_ret (_ * 128)) by nia. monad_simpl.
  rewrite mapM_slice by nia. monad_simpl.
  unfold BLOCK_SIZE. rewrite (c_int_ret (c + 16)) by lia. monad_simpl.
  rewrite (c_div_ret (_ - 1)) by lia. monad_simpl. replace (c + 16 - 1) with (c + 15) by lia.
  rewrite (fold_blocks _ seq (kv_of head) (row_off token head) c).
  2: lia.
  2: { intros st b Hb Hbc. by apply block_step_ret. }
  monad_simpl. unfold attention_out.
  destruct (attention_fold _ _ _ _) as [[acc m] se]. f_equal.
  rewrite zip_with_fmap_l, zip_with_fmap_r. done.
Qed.

(** ** The Triton kernels over arithmetic in which their sums and quotients are
    the CUDA ones *)

Section Triton.
Context (tl_sum : list F → F).
Context (Hsum : ∀ l, tl_sum l = foldl fadd fzero l).
Context (Hdiv : ∀ a b, fdiv a b = fmul a (fdiv fone b)).
Context (tfmt : Format F).
Context (Hk : ∀ i, k_load tfmt i = k_load fmt i) (Hv : ∀ i, v_load tfmt i = v_load fmt i).
Context (Hplace : ∀ t d, v_place tfmt t d = v_place fmt t d).
(** The offsets of the caches are 32-bit integers. *)
Context (Hcache : num_blocks * num_kv_heads args * (BLOCK_SIZE * HEAD_DIM) < 2 ^ 31).

Lemma i32_small z : 0 ≤ z < 2 ^ 31 → Triton.i32 z = z.
Proof. intros. apply to_signed_small; lia. Qed.

Lemma foldl_zip_mul (query : list F) (key : Z → F) (ds : list Z) acc :
  foldl (λ s '(d, qd), fadd s (fmul qd (key d))) acc (zip ds query) =
  foldl fadd acc (zip_with fmul query (key <$> ds)).
Proof.
  revert query acc. induction ds as [|d ds IH]; intros [|x query] acc; cbn; [done..|]. apply IH.
Qed.

Lemma triton_token_ret query seq kv_head b t st e :
  0 ≤ seq → 0 ≤ b → 0 ≤ t < BLOCK_SIZE → 0 ≤ kv_head < num_kv_heads args →
  block_tables args !! Z.to_nat (seq * max_blocks_per_seq args + b) = Some e →
  0 ≤ e < num_blocks →
  let r := e * num_kv_heads args + kv_head in
  Triton.token_step tl_sum tfmt args query (dequant_of (k_load fmt r)) (dequant_of (v_load fmt r))
    (r * (BLOCK_SIZE * HEAD_DIM)) st t =
  Ret (online st (token_data query seq kv_head (b * BLOCK_SIZE + t))).
Proof.
  intros Hs Hb Ht Hkv He Hr r. pose proof (ws_dim _ _ _ Hws) as Ed. pose proof (ws_k _ _ _ Hws) as Lk.
  pose proof (ws_v _ _ _ Hws) as Lv. unfold Triton.token_step.
  assert ((b * BLOCK_SIZE + t) / BLOCK_SIZE = b ∧ (b * BLOCK_SIZE + t) mod BLOCK_SIZE = t) as [Eq Em].
  { unfold BLOCK_SIZE in *. split; [symmetry; apply Z.div_unique with t|symmetry; apply Z.mod_unique with b]; lia. }
  assert (cache_row seq kv_head (b * BLOCK_SIZE + t) = r) as Er.
  { unfold cache_row, byte. by rewrite Eq, He. }
  assert (0 ≤ r < num_blocks * num_kv_heads args) as Hrr by (unfold r; nia).
  unfold token_data, score_of, key_at, value_at. rewrite Er, Em, Ed.
  unfold BLOCK_SIZE, HEAD_DIM in *.
  rewrite (mapM_ret _ (λ d, dequant_of (v_load fmt r)
    (byte (v_cache args) (r * (16 * 128) + v_place fmt t d)))).
  2: { intros d Hd%elem_of_seqZ. pose proof (ws_place _ _ _ Hws t d ltac:(done) ltac:(unfold HEAD_DIM; lia)).
       unfold BLOCK_SIZE, HEAD_DIM in *. rewrite Hplace, i32_small by lia.
       by rewrite (c_read_default _ _ 0) by nia. }
  rewrite (mapM_ret _ (λ d, dequant_of (k_load fmt r)
    (byte (k_cache args) (r * (16 * 128) + (t * 128 + d))))).
  2: { intros d Hd%elem_of_seqZ. rewrite (i32_small (t * 128)), i32_small by lia.
       by rewrite (c_read_default _ _ 0) by nia. }
  monad_simpl. rewrite Hsum. by rewrite <- foldl_zip_mul.
Qed.

Lemma triton_block_ret query seq kv_head b st c :
  context_lens args !! Z.to_nat seq = Some c → 0 ≤ seq < num_seqs →
  0 ≤ b → b * BLOCK_SIZE < c → 0 ≤ kv_head < num_kv_heads args →
  Triton.block_step tl_sum tfmt args query seq kv_head c st b =
  Ret (foldl (λ st t, online st (token_data query seq kv_head (b * BLOCK_SIZE + t))) st
         (seqZ 0 (Z.min BLOCK_SIZE (c - b * BLOCK_SIZE)))).
Proof.
  intros Hc Hs Hb Hbc Hkv. destruct (ws_tables _ _ _ Hws seq c b) as (e & He & Hr); [done|lia..|].
  pose proof (ws_ctx_int _ _ _ Hws _ _ Hc). pose proof (ws_fit _ _ _ Hws _ _ Hc).
  pose proof (ws_tables_int _ _ _ Hws). pose proof (ws_max _ _ _ Hws). pose proof (ws_kv _ _ _ Hws).
  pose proof (ws_dim _ _ _ Hws) as Ed. unfold Triton.block_step. rewrite Ed.
  assert (b < max_blocks_per_seq args) by (unfold BLOCK_SIZE in *; lia).
  assert (e * num_kv_heads args + kv_head < num_blocks * num_kv_heads args) by nia.
  assert (num_blocks * num_kv_heads args < 2 ^ 31) by (unfold BLOCK_SIZE, HEAD_DIM in *; lia).
  rewrite (i32_small (seq * _)), (i32_small (_ + b)) by nia.
  assert (c_read (block_tables args) (seq * max_blocks_per_seq args + b) = Ret e) as ->.
  { unfold c_read. rewrite (proj2 (Z.ltb_ge _ 0)) by nia. by rewrite He. }
  monad_simpl. rewrite (i32_small (e * _)), (i32_small (_ + kv_head)) by nia.
  set (r := e * num_kv_heads args + kv_head) in *. rewrite Hk, Hv.
  destruct (ws_k_load _ _ _ Hws r) as [kf Ek]; [lia|].
  destruct (ws_v_load _ _ _ Hws r) as [vf Ev]; [lia|]. rewrite Ek, Ev. monad_simpl.
  unfold BLOCK_SIZE, HEAD_DIM in *.
  rewrite (i32_small (r * 16)), (i32_small (r * 16 * 128)), (i32_small (b * 16)), (i32_small (c - _)) by lia.
  apply fold_m_ret. intros st' t Ht%elem_of_seqZ.
  pose proof (triton_token_ret query seq kv_head b t st' e) as E.
  cbn zeta in E. fold r in E. rewrite Ek, Ev in E. unfold BLOCK_SIZE, HEAD_DIM in E.
  rewrite Z.mul_assoc in E. apply E; try done; lia.
Qed.

Lemma triton_kernel_ret token head seq :
  0 ≤ token < num_tokens → 0 ≤ head < num_heads args → 0 ≤ seq < num_seqs →
  Triton.paged_attention_kernel tl_sum tfmt args (token, head, seq) =
  paged_attention_kernel fmt args (token, head, seq).
Proof.
  intros Ht Hh Hs.
  destruct (lookup_lt_is_Some_2 (context_lens args) (Z.to_nat seq)) as [c Hc];
    [pose proof (ws_ctx _ _ _ Hws); lia|].
  rewrite (kernel_ret _ _ _ c) by done. unfold Triton.paged_attention_kernel.
  pose proof (kv_of_range head Hh) as Hkv. pose proof (ws_ctx_int _ _ _ Hws _ _ Hc) as Hci.
  assert (c_read (context_lens args) seq = Ret c) as ->.
  { unfold c_read. by rewrite (proj2 (Z.ltb_ge _ 0)), Hc by lia. }
  monad_simpl. destruct (Z.leb_spec c token); [done|].
  pose proof (ws_dim _ _ _ Hws) as Edim. pose proof (ws_q _ _ _ Hws). pose proof (ws_q_int _ _ _ Hws).
  pose proof (ws_heads_int _ _ _ Hws). pose proof (ws_kv _ _ _ Hws). pose proof (ws_divide _ _ _ Hws).
  assert (0 < num_heads args / num_kv_heads args) by nia.
  rewrite (c_div_ret (num_heads args)) by lia. monad_simpl.
  rewrite (c_div_ret head) by lia. monad_simpl. rewrite Edim.
  assert (0 ≤ token * num_heads args + head < num_tokens * num_heads args) by nia.
  assert (row_off token head + HEAD_DIM ≤ num_tokens * num_heads args * HEAD_DIM)
    by (unfold row_off, HEAD_DIM in *; nia).
  assert (0 ≤ row_off token head) by (unfold row_off, HEAD_DIM in *; nia).
  rewrite (i32_small (token * _)), (i32_small (_ + head)), (i32_small (_ * HEAD_DIM))
    by (unfold HEAD_DIM in *; nia). fold (row_off token head).
  assert (mapM (λ i, x ← c_read (q args) (Triton.i32 (row_off token head + i)); Ret (half2float x))
    (seqZ 0 HEAD_DIM) = Ret (query_at (row_off token head))) as ->.
  { unfold query_at. rewrite <- mapM_slice by (unfold HEAD_DIM in *; lia).
    apply mapM_ext_in. intros i Hi%elem_of_seqZ. by rewrite i32_small by lia. }
  monad_simpl. unfold BLOCK_SIZE.
  rewrite (i32_small (c + 16)), (i32_small (_ - 1)), c_div_ret by lia. monad_simpl.
  replace (c + 16 - 1) with (c + 15) by lia.
  rewrite (fold_blocks _ seq (kv_of head) (row_off token head) c).
  2: lia.
  2: { intros st b Hb Hbc. by apply triton_block_ret. }
  monad_simpl. unfold attention_out.
  destruct (attention_fold _ _ _ _) as [[acc m] se]. f_equal.
  rewrite zip_with_fmap_l, zip_with_fmap_r. apply zip_with_ext_in. intros d x Hd.
  apply elem_of_zip_l, elem_of_seqZ in Hd. by rewrite i32_small, Hdiv by lia.
Qed.

End Triton.
End Data.
End AttentionFacts.

Module AttentionTheorems.
Import Attention KernelFacts AttentionFacts Launch.

Section Launch.
Context {F H : Type} `{FloatOps F H} (fmt : Format F) (args : Args F H).
Context (num_tokens num_blocks c : Z).
Context (Hws : well_shaped fmt args num_tokens 1 num_blocks).
Context (Hctx : context_lens args = [c]).

(** The stores of the threads of one sequence. *)
Definition thread_stores (t : Z * Z * Z) : list (Z * H) :=
  if c <=? t.1.1 then []
  else zip (Z.add (row_off args t.1.1 t.1.2) <$> seqZ 0 HEAD_DIM)
           (attention_out fmt args t.1.1 t.1.2 t.2 c).

Lemma elem_of_grid3 t :
  t ∈ grid3 args num_tokens 1 ↔
  0 ≤ t.1.1 < num_tokens ∧ 0 ≤ t.1.2 < num_heads args ∧ t.2 = 0.
Proof.
  destruct t as [[a b] s]. unfold grid3. rewrite list_elem_of_bind. cbn. split.
  - intros (s' & (h & (t & E & Ht%elem_of_seqZ)%list_elem_of_bind & Hh%elem_of_seqZ)%list_elem_of_bind
      & Hs%list_elem_of_singleton).
    apply list_elem_of_singleton in E as [= -> -> ->]. lia.
  - intros (? & ? & ->). exists 0. split; [|by left]. apply list_elem_of_bind.
    exists b. rewrite elem_of_seqZ. split; [|lia]. apply list_elem_of_bind.
    exists a. rewrite elem_of_seqZ. split; [by left|lia].
Qed.

Lemma NoDup_grid3 : NoDup (grid3 args num_tokens 1).
Proof.
  unfold grid3. apply NoDup_bind; [intros s1 s2 y ?%elem_of_seqZ ?%elem_of_seqZ _ _; lia| |apply NoDup_seqZ].
  intros s _. apply NoDup_bind; [| |apply NoDup_seqZ].
  - intros h1 h2 y _ _ (t1 & ->%list_elem_of_singleton & _)%list_elem_of_bind
      (t2 & [= -> ->]%list_elem_of_singleton & _)%list_elem_of_bind. done.
  - intros h _. apply NoDup_bind; [| |apply NoDup_seqZ].
    + intros t1 t2 y _ _ ->%list_elem_of_singleton [= ->]%list_elem_of_singleton. done.
    + intros t _. apply NoDup_singleton.
Qed.

Lemma attention_out_length token head seq ctx :
  length (attention_out fmt args token head seq ctx) = Z.to_nat HEAD_DIM.
Proof.
  unfold attention_out. pose proof (attention_fold_length fmt args (row_off args token head) seq
    (kv_of args head) ctx) as Hl.
  destruct (attention_fold _ _ _ _ _ _) as [[acc m] se]. by rewrite length_fmap.
Qed.

Lemma thread_places t :
  (thread_stores t).*1 =
    if c <=? t.1.1 then [] else Z.add (row_off args t.1.1 t.1.2) <$> seqZ 0 HEAD_DIM.
Proof.
  unfold thread_stores. case_if; [done|]. apply fst_zip.
  by rewrite length_fmap, length_seqZ, attention_out_length.
Qed.

(** Different threads store at different places, inside the output tensor. *)
Lemma row_off_inj t1 h1 d1 t2 h2 d2 :
  0 ≤ h1 < num_heads args → 0 ≤ h2 < num_heads args →
  0 ≤ d1 < HEAD_DIM → 0 ≤ d2 < HEAD_DIM →
  row_off args t1 h1 + d1 = row_off args t2 h2 + d2 → t1 = t2 ∧ h1 = h2 ∧ d1 = d2.
Proof.
  unfold row_off, HEAD_DIM. intros. assert (d1 = d2) as -> by nia.
  assert (t1 * num_heads args + h1 = t2 * num_heads args + h2) by nia.
  assert (t1 = t2) as -> by nia. lia.
Qed.

Lemma all_places_NoDup : NoDup (concat (thread_stores <$> grid3 args num_tokens 1)).*1.
Proof.
  assert (∀ l, (concat (thread_stores <$> l)).*1 = l ≫= (λ t, (thread_stores t).*1)) as ->.
  { induction l as [|t l IH]; [done|]. cbn. rewrite fmap_app. by rewrite IH. }
  apply NoDup_bind; [| |apply NoDup_grid3].
  - intros x y i Hx%elem_of_grid3 Hy%elem_of_grid3. rewrite !thread_places.
    case_if; [by intros ?%not_elem_of_nil|]. case_if; [by intros _ ?%not_elem_of_nil|].
    intros (d1 & -> & Hd1%elem_of_seqZ)%list_elem_of_fmap (d2 & E & Hd2%elem_of_seqZ)%list_elem_of_fmap.
    destruct x as [[t1 h1] s1], y as [[t2 h2] s2]. cbn in *.
    apply row_off_inj in E as (-> & -> & _); [|lia..]. by destruct Hx as (_ & _ & ->), Hy as (_ & _ & ->).
  - intros t _. rewrite thread_places. case_if; [constructor|].
    apply NoDup_fmap_2; [intros ? ?; lia|]. apply NoDup_seqZ.
Qed.

Lemma launch_stores sched out :
  launch_paged_attention fmt args sched num_tokens 1 out =
    stores (sched (concat (thread_stores <$> grid3 args num_tokens 1))) out.
Proof.
  unfold launch_paged_attention, run. rewrite (mapM_ret _ thread_stores); [done|].
  intros [[t h] s] Hg%elem_of_grid3. cbn in Hg. destruct Hg as (Ht & Hh & ->).
  unfold thread_stores. cbn [fst snd].
  apply (kernel_ret _ _ _ _ _ Hws); [done|done|lia|]. by rewrite Hctx.
Qed.

End Launch.

(** C5. A paged-attention launch for one sequence is memory-safe and
    deterministic, for any format and any floating-point arithmetic: with tensors
    of the documented shapes, every block-table entry in use naming a block, head
    counts that divide evenly, the compiled head dimension, and sizes within the
    kernel's [int] (fewer than 2^31 query elements, heads, block-table entries
    and cache rows, a context length below 2^31 - 16), no thread leaves a
    buffer, in every order of the stores the output row of
    each token and head below the context length becomes the normalised online
    softmax over the sequence's dequantized keys and values, and the rows above it
    keep their contents. *)
Theorem attention_launch_safe {F H} `{FloatOps F H} (fmt : Format F) (args : Args F H)
    num_tokens num_blocks c sched out :
  well_shaped fmt args num_tokens 1 num_blocks → context_lens args = [c] →
  schedule sched → Z.of_nat (length out) = num_tokens * num_heads args * HEAD_DIM →
  ∃ out', launch_paged_attention fmt args sched num_tokens 1 out = Ret out' ∧
    length out' = length out ∧
    ∀ token head d, 0 ≤ token < num_tokens → 0 ≤ head < num_heads args → 0 ≤ d < HEAD_DIM →
      out' !! Z.to_nat (row_off args token head + d) =
        if c <=? token then out !! Z.to_nat (row_off args token head + d)
        else attention_out fmt args token head 0 c !! Z.to_nat d.
Proof.
  intros Hws Hctx Hs Ho. rewrite (launch_stores fmt args num_tokens num_blocks c Hws Hctx).
  set (ws := concat (thread_stores fmt args c <$> grid3 args num_tokens 1)).
  assert (∀ p, p ∈ ws ↔ ∃ t, p ∈ thread_stores fmt args c t ∧ t ∈ grid3 args num_tokens 1) as Hin.
  { intros p. apply elem_of_concat_fmap. }
  assert (∀ i, i ∈ ws.*1 → ∃ t h d, i = row_off args t h + d ∧ c > t ∧ 0 ≤ t < num_tokens ∧
    0 ≤ h < num_heads args ∧ 0 ≤ d < HEAD_DIM) as Hplace.
  { intros i ([i' x] & -> & ([[t h] s] & Hx & Hg%elem_of_grid3)%Hin)%list_elem_of_fmap.
    assert (i' ∈ (thread_stores fmt args c (t, h, s)).*1) as Hi
      by (apply list_elem_of_fmap; by exists (i', x)).
    rewrite thread_places in Hi. cbn in *. destruct (Z.leb_spec c t); [by apply not_elem_of_nil in Hi|].
    apply list_elem_of_fmap in Hi as (d & -> & Hd%elem_of_seqZ). exists t, h, d. lia. }
  destruct (stores_spec (sched ws) out) as (out' & E & Hl & Hset & Hkeep).
  - rewrite (Hs ws). by apply (all_places_NoDup fmt args num_tokens c).
  - intros i. rewrite (Hs ws). intros (t & h & d & -> & _ & Ht & Hh & Hd)%Hplace.
    unfold row_off, HEAD_DIM in *. nia.
  - exists out'. split_and!; [done|done|]. intros t h d Ht Hh Hd.
    destruct (Z.leb_spec c t).
    + apply Hkeep. rewrite (Hs ws), Z2Nat.id by (unfold row_off, HEAD_DIM in *; nia).
      intros (t' & h' & d' & E' & Hc & ? & ? & ?)%Hplace. apply row_off_inj in E' as (-> & _); lia.
    + destruct (lookup_lt_is_Some_2 (attention_out fmt args t h 0 c) (Z.to_nat d)) as [x Hx].
      { rewrite attention_out_length. unfold HEAD_DIM in *. lia. }
      rewrite Hx. apply Hset. rewrite (Hs ws), Hin. exists (t, h, 0). split.
      2: by apply elem_of_grid3.
      unfold thread_stores. cbn [fst snd]. rewrite (proj2 (Z.leb_gt c t)) by lia.
      apply elem_of_zip_lookup. exists (Z.to_nat d). split; [|done].
      rewrite list_lookup_fmap, lookup_seqZ_lt by (unfold HEAD_DIM in *; lia).
      cbn. f_equal. lia.
Qed.

(** One token, one head, one block. *)
Definition tiny_args {F H} (x : H) (sc : F) : Args F H := {|
  q := replicate 128 x; k_cache := replicate 2048 1; v_cache := replicate 2048 1;
  block_tables := [0]; context_lens := [1]; max_blocks_per_seq := 1;
  num_heads := 1; num_kv_heads := 1; head_dim := 128; scale := sc |}.

Lemma tiny_well_shaped {F H} `{FloatOps F H} (x : H) (sc : F) :
  well_shaped (enhanced_format [0] [0]) (tiny_args x sc) 1 1 1.
Proof.
  assert (∀ s c, [1] !! s = Some c → c = 1) as Hc.
  { intros [|s] c; cbn; [by intros [= ->]|done]. }
  split; cbn [q k_cache v_cache block_tables context_lens max_blocks_per_seq num_heads
    num_kv_heads head_dim tiny_args]; try done.
  - intros s c ->%Hc. lia.
  - intros s c ->%Hc. done.
  - intros s c b Hl Hs Hb Hbc. pose proof (Hc _ _ Hl) as ->.
    apply lookup_lt_Some in Hl. cbn in Hl. unfold BLOCK_SIZE in Hbc.
    assert (b = 0 ∧ s = 0) as [-> ->] by lia. by exists 0.
  - intros i Hi. cbn in Hi. assert (i = 0) as -> by lia. by eexists.
  - intros i Hi. cbn in Hi. assert (i = 0) as -> by lia. by eexists.
  - intros t d Ht Hd. cbn. unfold BLOCK_SIZE, HEAD_DIM in *. lia.
Qed.

(** One token attends to itself; binary32 with the identity as exponential. *)
Lemma attention_launch_safe_witness :
  let ops := F32Ops (λ x, x) (λ _ y, y) in
  ∃ out', launch_paged_attention (H0 := ops) (enhanced_format (H0 := ops) [0] [0])
            (tiny_args (f32_of_Z 1) (f32_of_Z 1)) reverse 1 1 (replicate 128 S754_nan) = Ret out' ∧
    length out' = 128%nat.
Proof.
  intros ops.
  destruct (attention_launch_safe (H0 := ops) (enhanced_format (H0 := ops) [0] [0])
    (tiny_args (f32_of_Z 1) (f32_of_Z 1)) 1 1 1 reverse (replicate 128 S754_nan))
    as (out' & E & Hl & _).
  - apply tiny_well_shaped.
  - reflexivity.
  - intros ws. apply reverse_Permutation.
  - reflexivity.
  - exists out'. split; [exact E|exact Hl].
Defined.

(** The output place depends on token and head only, so the threads of two
    sequences longer than [token] store at the same places. *)
Lemma sequences_share_output {F H} `{FloatOps F H} (fmt : Format F) (args : Args F H)
    num_tokens num_seqs num_blocks token head s1 s2 c1 c2 ws1 ws2 :
  well_shaped fmt args num_tokens num_seqs num_blocks →
  0 ≤ token < num_tokens → 0 ≤ head < num_heads args →
  0 ≤ s1 < num_seqs → 0 ≤ s2 < num_seqs →
  context_lens args !! Z.to_nat s1 = Some c1 → context_lens args !! Z.to_nat s2 = Some c2 →
  token < c1 → token < c2 →
  paged_attention_kernel fmt args (token, head, s1) = Ret ws1 →
  paged_attention_kernel fmt args (token, head, s2) = Ret ws2 →
  ws1.*1 = ws2.*1 ∧ ws1 ≠ [].
Proof.
  intros Hws Ht Hh Hs1 Hs2 Hc1 Hc2 H1 H2.
  rewrite (kernel_ret _ _ _ _ _ Hws _ _ _ c1), (kernel_ret _ _ _ _ _ Hws _ _ _ c2) by done.
  rewrite (proj2 (Z.leb_gt c1 token)), (proj2 (Z.leb_gt c2 token)) by lia.
  intros <-%Ret_inj <-%Ret_inj.
  rewrite !fst_zip by (by rewrite length_fmap, length_seqZ, attention_out_length).
  split; [done|]. intros E%(f_equal length).
  rewrite length_zip_with, length_fmap, length_seqZ, attention_out_length in E. by cbn in E.
Qed.

End AttentionTheorems.
