(* ===== verification/AttentionReals.v ===== *)
(** * What the attention kernels compute, over the reals

    [RealOps] interprets the arithmetic of [PagedAttention] exactly: reals with
    the minus infinity that the running maximum starts from.  [softmax_attention]
    is the mathematical definition the kernels are meant to compute; the theorems
    give the exact value of their online softmax, which does not rescale the
    accumulator when the maximum grows, and show that the CUDA and the Triton
    kernels compute the same. *)

From Stdlib Require Import Reals Lra.
From S2P Require Import Prelude F64 Quantization DeviceQuant Kernels PagedAttention.

(** The reals and minus infinity.  Operations on minus infinity that the kernels
    never perform are minus infinity. *)
Inductive ext := NegInf | Fin (r : R).

Definition ext2 (f : R → R → R) (x y : ext) : ext :=
  match x, y with Fin x, Fin y => Fin (f x y) | _, _ => NegInf end.

Definition ext_max (x y : ext) : ext :=
  match x, y with
  | NegInf, _ => y
  | _, NegInf => x
  | Fin x, Fin y => Fin (Rmax x y)
  end.

Definition ext_exp (x : ext) : ext :=
  match x with NegInf => Fin 0 | Fin x => Fin (exp x) end.

#[export] Instance RealOps : FloatOps ext ext := {|
  fzero := Fin 0;
  fone := Fin 1;
  fneg_inf := NegInf;
  fadd := ext2 Rplus;
  fsub := ext2 Rminus;
  fmul := ext2 Rmult;
  fdiv := ext2 Rdiv;
  fmaxf := ext_max;
  fexpf := ext_exp;
  fofZ n := Fin (IZR n);
  fpow2 n := Fin (powerRZ 2 n);
  half2float x := x;
  float2half x := x;
|}.

Module AttentionSpec.

(** A token: its score and its value vector. *)
Abbreviation token := (R * (Z → R))%type (only parsing).

Fixpoint sum (l : list R) : R :=
  match l with [] => 0%R | x :: l => (x + sum l)%R end.

(** The largest of [m] and the scores. *)
Fixpoint top (m : R) (l : list token) : R :=
  match l with [] => m | (s, _) :: l => top (Rmax m s) l end.

(** Textbook attention: values weighted by the softmax of the scores. *)
Definition softmax_weight (l : list token) (s : R) : R :=
  (exp s / sum (map (λ t : token, exp (fst t)) l))%R.
Definition softmax_attention (l : list token) (d : Z) : R :=
  sum (map (λ t : token, softmax_weight l (fst t) * snd t d)%R l).

(** The running maximum at every token, beginning with [m]. *)
Fixpoint running (m : R) (l : list token) : list R :=
  match l with [] => [] | (s, _) :: l => Rmax m s :: running (Rmax m s) l end.

(** Attention in which the weight of a token is multiplied by [exp (M - m)], the
    distance of the final maximum from the maximum when it was read. *)
Definition inflated_attention (m0 : R) (l : list token) (d : Z) : R :=
  sum (zip_with (λ (t : token) m, exp (top m0 l - m) * (softmax_weight l (fst t) * snd t d))%R
         l (running m0 l)).

End AttentionSpec.

Module RealFacts.
Import Attention AttentionSpec.

Section Online.
Context (dims : list Z).

Definition vec (v : Z → R) : list ext := (λ d, Fin (v d)) <$> dims.

Lemma zip_with_vec (f : ext → ext → ext) (g : R → R → R) u v :
  (∀ x y, f (Fin x) (Fin y) = Fin (g x y)) →
  zip_with f (vec u) (vec v) = vec (λ d, g (u d) (v d)).
Proof.
  intros Hf. unfold vec. induction dims as [|d ds IH]; [done|]. cbn. by rewrite Hf, IH.
Qed.

Lemma online_first s v :
  online (vec (λ _, 0%R), NegInf, Fin 0) (Fin s, vec v) = (vec v, Fin s, Fin 1).
Proof.
  cbn. rewrite (zip_with_vec _ (λ a x, (a + exp (s - s) * x)%R)) by done.
  f_equal; [f_equal|].
  - unfold vec. apply list_fmap_ext. intros _ d _. f_equal. rewrite Rminus_diag_eq, exp_0 by done. lra.
  - f_equal. rewrite Rminus_diag_eq, exp_0 by done. lra.
Qed.

Lemma online_next a m se s v :
  online (vec a, Fin m, Fin se) (Fin s, vec v) =
    (vec (λ d, (a d + exp (s - Rmax m s) * v d)%R), Fin (Rmax m s),
     Fin (se * exp (m - Rmax m s) + exp (s - Rmax m s))).
Proof. cbn. by rewrite (zip_with_vec _ (λ a x, (a + exp (s - Rmax m s) * x)%R)) by done. Qed.

(** A whole run from a state with a finite maximum. *)
Lemma online_run l a m se :
  foldl online (vec a, Fin m, Fin se) (map (λ t : R * (Z → R), (Fin t.1, vec t.2)) l) =
    (vec (λ d, (a d + sum (zip_with (λ (t : R * (Z → R)) r, exp (t.1 - r) * t.2 d)%R l (running m l)))%R),
     Fin (top m l),
     Fin (se * exp (m - top m l) + sum (map (λ t : R * (Z → R), exp (t.1 - top m l)%R) l))).
Proof.
  revert a m se. induction l as [|[s v] l IH]; intros a m se.
  - cbn. rewrite Rminus_diag_eq, exp_0 by done. f_equal; [f_equal|f_equal; lra].
    unfold vec. apply list_fmap_ext. intros _ d _. f_equal. lra.
  - cbn [map foldl fst snd]. rewrite online_next, IH. cbn [top running zip_with map sum fst snd].
    f_equal; [f_equal|].
    + unfold vec. apply list_fmap_ext. intros _ d _. f_equal. lra.
    + f_equal. set (M := top (Rmax m s) l).
      replace (m - M)%R with ((m - Rmax m s) + (Rmax m s - M))%R by lra.
      replace (s - M)%R with ((s - Rmax m s) + (Rmax m s - M))%R by lra.
      rewrite !exp_plus. lra.
Qed.

End Online.

Lemma top_ge m l : (m <= top m l)%R.
Proof.
  revert m. induction l as [|[s v] l IH]; intros m; cbn; [lra|].
  pose proof (IH (Rmax m s)). pose proof (Rmax_l m s). lra.
Qed.

Lemma sum_scale c {A} (f : A → R) (l : list A) :
  sum (map (λ x, c * f x)%R l) = (c * sum (map f l))%R.
Proof. induction l as [|x l IH]; cbn; [lra|]. rewrite IH. lra. Qed.

Lemma sum_exp_pos (l : list (R * (Z → R))) (c : R) :
  l ≠ [] → (0 < sum (map (λ t : R * (Z → R), exp (fst t - c)) l))%R.
Proof.
  induction l as [|t l IH]; [done|]. intros _. cbn. pose proof (exp_pos (t.1 - c)).
  destruct l; [cbn; lra|]. specialize (IH ltac:(done)). lra.
Qed.

Lemma sum_shift (l : list (R * (Z → R))) (M : R) :
  sum (map (λ t : R * (Z → R), exp (fst t - M)) l) =
    (exp (- M) * sum (map (λ t : R * (Z → R), exp (fst t)) l))%R.
Proof.
  rewrite <- sum_scale. f_equal. apply map_ext. intros t.
  replace (t.1 - M)%R with (- M + t.1)%R by lra. apply exp_plus.
Qed.

Lemma sum_zip_ext {A B} (f g : A → B → R) l k c :
  (∀ x y, g x y = c * f x y)%R → sum (zip_with g l k) = (c * sum (zip_with f l k))%R.
Proof.
  intros Hfg. revert k. induction l as [|x l IH]; intros [|y k]; cbn; [lra..|].
  rewrite IH, Hfg. lra.
Qed.

Lemma sum_pos_ne (l : list (R * (Z → R))) :
  l ≠ [] → (0 < sum (map (λ t : R * (Z → R), exp (fst t)) l))%R.
Proof.
  intros Hl. pose proof (sum_exp_pos l 0 Hl) as H. rewrite sum_shift in H.
  rewrite Ropp_0, exp_0 in H. lra.
Qed.

(** The normalised accumulator is the inflated attention. *)
Lemma inflated_value s0 l d :
  let M := top s0 l in
  (sum (zip_with (λ (t : R * (Z → R)) r, exp (t.1 - r) * t.2 d) l (running s0 l))
     * (1 / sum (map (λ t : R * (Z → R), exp (t.1 - M)) l)))%R =
  (if l is [] then 0 else inflated_attention s0 l d)%R.
Proof.
  intros M. destruct l as [|t0 l']; [cbn; lra|]. set (l := t0 :: l') in *.
  unfold inflated_attention. fold M. rewrite sum_shift.
  pose proof (sum_pos_ne l ltac:(done)) as Hpos. unfold softmax_weight.
  set (S := sum (map (λ t : R * (Z → R), exp (fst t)) l)) in *.
  rewrite (sum_zip_ext (λ (t : R * (Z → R)) r, exp (t.1 - r) * t.2 d)%R
    (λ t m, exp (M - m) * (exp t.1 / S * t.2 d))%R l (running s0 l) (1 / (exp (- M) * S))%R); [apply Rmult_comm|].
  intros t r. replace (t.1 - r)%R with (t.1 + - r)%R by lra. replace (M - r)%R with (M + - r)%R by lra.
  rewrite !exp_plus, (exp_Ropp M). pose proof (exp_pos M). field. split; lra.
Qed.

(** With the first score the largest, nothing is inflated. *)
Lemma running_flat m l :
  (∀ t : R * (Z → R), t ∈ l → t.1 <= m)%R → running m l = map (λ _, m) l ∧ top m l = m.
Proof.
  induction l as [|[s v] l IH]; intros Hl; [done|]. cbn [running top map].
  rewrite (Rmax_left m s) by (apply (Hl (s, v)); by left).
  destruct IH as [-> ->]; [|done]. intros t Ht. apply Hl. by right.
Qed.

Lemma inflated_flat m l d :
  (∀ t : R * (Z → R), t ∈ l → t.1 <= m)%R → inflated_attention m l d = softmax_attention l d.
Proof.
  intros Hl. destruct (running_flat m l Hl) as [Er Et].
  unfold inflated_attention, softmax_attention. rewrite Er, Et. generalize (softmax_weight l).
  intros w. clear. induction l as [|t l IH]; [done|]. cbn. rewrite IH.
  rewrite Rminus_diag_eq, exp_0 by done. lra.
Qed.

Lemma top_reaches m l t : t ∈ l → (t.1 <= top m l)%R.
Proof.
  revert m. induction l as [|[s v] l IH]; intros m Ht; [by apply not_elem_of_nil in Ht|].
  cbn. apply elem_of_cons in Ht as [-> |Ht]; [|by apply IH].
  cbn. pose proof (top_ge (Rmax m s) l). pose proof (Rmax_r m s). lra.
Qed.

(** Every weight is inflated by at least one. *)
Lemma inflated_sum_ge (w : R → R) M m l :
  (∀ s, 0 < w s)%R → (top m l <= M)%R →
  (sum (map (λ t : R * (Z → R), w (fst t)) l) <=
   sum (zip_with (λ (t : R * (Z → R)) r, exp (M - r) * w (fst t)) l (running m l)))%R.
Proof.
  intros Hw. revert m. induction l as [|[s v] l IH]; intros m Hm; cbn; [lra|].
  cbn in Hm. specialize (IH (Rmax m s) Hm). pose proof (top_ge (Rmax m s) l).
  pose proof (exp_ineq1_le (M - Rmax m s)). specialize (Hw s). nra.
Qed.

Lemma softmax_weights_sum l :
  l ≠ [] → sum (map (λ t : R * (Z → R), softmax_weight l (fst t)) l) = 1%R.
Proof.
  intros Hl. pose proof (sum_pos_ne l Hl). unfold softmax_weight, Rdiv.
  set (S := sum (map (λ t : R * (Z → R), exp (fst t)) l)) in *.
  rewrite (map_ext (λ t : R * (Z → R), exp t.1 * / S)%R (λ t, / S * exp t.1)%R)
    by (intros; lra).
  rewrite sum_scale. fold S. field. lra.
Qed.

(** Constant values: textbook attention returns the constant, the kernel more
    once a later token scores higher than the first. *)
Lemma inflated_constant s0 v0 l d t :
  t ∈ l → (s0 < t.1)%R → (∀ t : R * (Z → R), t ∈ (s0, v0) :: l → t.2 d = 1%R) →
  softmax_attention ((s0, v0) :: l) d = 1%R ∧
  (1 < inflated_attention s0 ((s0, v0) :: l) d)%R.
Proof.
  intros Ht Hlt Hone. set (L := (s0, v0) :: l) in *.
  assert (∀ s, 0 < softmax_weight L s)%R as Hw.
  { intros s. unfold softmax_weight. pose proof (sum_pos_ne L ltac:(done)).
    apply Rdiv_lt_0_compat; [apply exp_pos|done]. }
  pose proof (softmax_weights_sum L ltac:(done)) as Hs.
  assert (∀ K, (∀ t, t ∈ K → t.2 d = 1%R) →
    map (λ t : R * (Z → R), softmax_weight L t.1 * t.2 d)%R K =
    map (λ t : R * (Z → R), softmax_weight L t.1) K) as Hmap.
  { induction K as [|x K IH]; intros HK; [done|]. cbn. rewrite HK by left.
    rewrite IH by (intros; apply HK; by right). f_equal. lra. }
  split; [unfold softmax_attention; by rewrite Hmap|].
  assert (∀ M K R0, (∀ t, t ∈ K → t.2 d = 1%R) →
    zip_with (λ (t : R * (Z → R)) m, exp (M - m) * (softmax_weight L t.1 * t.2 d))%R K R0 =
    zip_with (λ (t : R * (Z → R)) m, exp (M - m) * softmax_weight L t.1)%R K R0) as Hzip.
  { intros M. induction K as [|x K IH]; intros [|r R0] HK; cbn; [done..|]. rewrite HK by left.
    rewrite IH by (intros; apply HK; by right). f_equal. lra. }
  unfold inflated_attention. rewrite Hzip by done. unfold L in Hs |- *.
  cbn [top running zip_with sum map fst] in Hs |- *. rewrite (Rmax_left s0 s0) in * by lra.
  fold L in Hs |- *. pose proof (top_reaches s0 l t Ht) as Htop.
  pose proof (inflated_sum_ge (softmax_weight L) (top s0 l) s0 l Hw (Rle_refl _)) as Hge.
  pose proof (exp_ineq1 (top s0 l - s0) ltac:(lra)). specialize (Hw s0). nra.
Qed.

Lemma fmap_map {A B} (f : A → B) l : f <$> l = map f l.
Proof. induction l as [|x l IH]; [done|]. cbn. by rewrite IH. Qed.

Lemma score_real qs (K : Z → R) ds a :
  foldl (λ s '(d, qd), ext2 Rplus s (ext2 Rmult qd (Fin (K d)))) (Fin a) (zip ds (Fin <$> qs)) =
  Fin (a + sum (zip_with (λ d x, x * K d)%R ds qs)).
Proof.
  revert qs a. induction ds as [|d ds IH]; intros [|x qs] a; cbn; [f_equal; lra..|].
  rewrite IH. f_equal. lra.
Qed.

End RealFacts.

Module RealTheorems.
Import Attention AttentionFacts AttentionTheorems AttentionSpec RealFacts.

Section Value.
Context (fmt : Format ext) (args : Args ext ext) (token head seq c : Z).
Context (qs : list R) (K V : Z → Z → R) (sc : R).
Context (Hsc : scale args = Fin sc).
Context (Hq : query_at args (row_off args token head) = Fin <$> qs).
Context (HK : ∀ i d, 0 ≤ i < c → 0 ≤ d < HEAD_DIM →
  key_at fmt args seq (kv_of args head) i d = Fin (K i d)).
Context (HV : ∀ i d, 0 ≤ i < c → 0 ≤ d < HEAD_DIM →
  value_at fmt args seq (kv_of args head) i d = Fin (V i d)).

(** The score of token [i], and the tokens of the sequence. *)
Definition real_score (i : Z) : R :=
  (sum (zip_with (λ d x, x * K i d)%R (seqZ 0 HEAD_DIM) qs) * sc)%R.
Definition real_tokens : list (R * (Z → R)) := map (λ i, (real_score i, V i)) (seqZ 0 c).

Lemma token_data_real i : 0 ≤ i < c →
  token_data fmt args (Fin <$> qs) seq (kv_of args head) i =
    (Fin (real_score i), vec (seqZ 0 HEAD_DIM) (V i)).
Proof.
  intros Hi. unfold token_data, score_of. rewrite Hsc. f_equal.
  - unfold real_score. cbn [fmul fadd fzero RealOps].
    assert (foldl (λ s '(d, qd), ext2 Rplus s (ext2 Rmult qd (key_at fmt args seq (kv_of args head) i d)))
      (Fin 0) (zip (seqZ 0 HEAD_DIM) (Fin <$> qs)) =
      foldl (λ s '(d, qd), ext2 Rplus s (ext2 Rmult qd (Fin (K i d))))
      (Fin 0) (zip (seqZ 0 HEAD_DIM) (Fin <$> qs))) as ->.
    { assert (∀ l a, (∀ p, p ∈ l → 0 ≤ p.1 < HEAD_DIM) →
        foldl (λ s '(d, qd), ext2 Rplus s (ext2 Rmult qd (key_at fmt args seq (kv_of args head) i d))) a l =
        foldl (λ s '(d, qd), ext2 Rplus s (ext2 Rmult qd (Fin (K i d)))) a l) as Hl.
      { induction l as [|[d x] l IH]; intros a Hp; [done|]. cbn [foldl].
        rewrite HK by (done || apply (Hp (d, x)); by left). apply IH. intros. apply Hp. by right. }
      apply Hl. intros [d x] Hd%elem_of_zip_l%elem_of_seqZ. cbn. lia. }
    rewrite score_real. cbn. f_equal. lra.
  - apply list_fmap_ext. intros j d Hd%list_elem_of_lookup_2%elem_of_seqZ. apply HV; lia.
Qed.

Lemma attention_out_real : 0 < c →
  attention_out fmt args token head seq c =
    (λ d, Fin (inflated_attention (real_score 0) real_tokens d)) <$> seqZ 0 HEAD_DIM.
Proof.
  intros Hc. unfold attention_out, attention_fold. rewrite Hq.
  assert (token_data fmt args (Fin <$> qs) seq (kv_of args head) <$> seqZ 0 c =
    map (λ t : R * (Z → R), (Fin t.1, vec (seqZ 0 HEAD_DIM) t.2)) real_tokens) as ->.
  { unfold real_tokens. rewrite map_map, fmap_map. apply map_ext_in.
    intros i Hi%list_elem_of_In%elem_of_seqZ. apply token_data_real. lia. }
  unfold real_tokens. rewrite (seqZ_cons 0 c) by lia. cbn [map fst snd].
  set (s0 := real_score 0). set (l := map _ (seqZ _ _)). cbn [foldl].
  change init_state with (vec (seqZ 0 HEAD_DIM) (λ _, 0%R), NegInf, Fin 0).
  rewrite online_first, online_run. unfold vec. rewrite <- list_fmap_compose.
  apply list_fmap_ext. intros _ d _. cbn -[inflated_attention zip_with running top map sum]. f_equal.
  pose proof (inflated_value s0 ((s0, V 0) :: l) d) as E. cbn [top running zip_with map sum] in E.
  rewrite (Rmax_left s0 s0) in E by lra. rewrite <- E. f_equal.
  - rewrite Rminus_diag_eq, exp_0 by done. cbn [fst snd]. lra.
  - f_equal. cbn [fst]. lra.
Qed.

End Value.
(** C33. The value of the attention kernels, in exact arithmetic.  When keys,
    values and query are finite, the thread of a token and head writes the
    attention over the whole sequence in which the softmax weight of every token
    is multiplied by [exp (M - m)]: [m] is the largest score up to the token, [M]
    the largest of all.  So the result is textbook attention when the first token
    has the largest score; otherwise it is not: values that are all one come out
    larger than one, since the accumulator is never rescaled when the maximum
    grows. *)
Theorem attention_weights_inflated (fmt : Format ext) (args : Args ext ext)
    (token head seq c : Z) (qs : list R) (K V : Z → Z → R) (sc : R) :
  0 < c → scale args = Fin sc →
  query_at args (row_off args token head) = Fin <$> qs →
  (∀ i d, 0 ≤ i < c → 0 ≤ d < HEAD_DIM →
     key_at fmt args seq (kv_of args head) i d = Fin (K i d)) →
  (∀ i d, 0 ≤ i < c → 0 ≤ d < HEAD_DIM →
     value_at fmt args seq (kv_of args head) i d = Fin (V i d)) →
  let s := real_score qs K sc in
  let toks := real_tokens c qs K V sc in
  attention_out fmt args token head seq c =
    (λ d, Fin (inflated_attention (s 0) toks d)) <$> seqZ 0 HEAD_DIM ∧
  ((∀ i, 0 ≤ i < c → (s i <= s 0%Z)%R) →
     ∀ d, inflated_attention (s 0) toks d = softmax_attention toks d) ∧
  ((∃ i, 0 ≤ i < c ∧ (s 0%Z < s i)%R) →
     ∀ d, (∀ i, V i d = 1%R) →
       softmax_attention toks d = 1%R ∧ (1 < inflated_attention (s 0%Z) toks d)%R).
Proof.
  intros Hc Hsc Hq HK HV s toks. split_and!.
  - by apply attention_out_real.
  - intros Hmax d. apply inflated_flat. intros t Ht. unfold toks, real_tokens in Ht.
    rewrite <- fmap_map in Ht. apply list_elem_of_fmap in Ht as (i & -> & Hi%elem_of_seqZ).
    apply Hmax. lia.
  - intros (i & Hi & Hlt) d Hone. unfold toks, real_tokens. rewrite (seqZ_cons 0 c) by lia.
    cbn [map]. assert (0 < i) by (destruct (Z.eq_dec i 0) as [-> |]; [unfold s in Hlt; lra|lia]).
    apply inflated_constant with (s i, V i); [|done|].
    + rewrite <- fmap_map. apply list_elem_of_fmap. exists i. rewrite elem_of_seqZ. split; [done|lia].
    + intros t [-> |Ht]%elem_of_cons; [apply Hone|]. rewrite <- fmap_map in Ht.
      apply list_elem_of_fmap in Ht as (j & -> & _). apply Hone.
Qed.

Lemma tiny_row : cache_row (tiny_args (Fin 1) (Fin 1)) 0 (kv_of (tiny_args (Fin 1) (Fin 1)) 0) 0 = 0.
Proof. reflexivity. Qed.

Lemma tiny_dequant : dequant_of (power_of_two [0] 0) 1 = Fin 1.
Proof. change (Fin (1 * 1) = Fin 1). f_equal. lra. Qed.

(** The tiny sequence: query, key and value are all ones, scaled by one. *)
Lemma attention_weights_inflated_witness :
  attention_out (enhanced_format [0] [0]) (tiny_args (Fin 1) (Fin 1)) 0 0 0 1 =
    (λ d, Fin (inflated_attention (real_score (replicate 128 1%R) (λ _ _, 1%R) 1 0)
                 (real_tokens 1 (replicate 128 1%R) (λ _ _, 1%R) (λ _ _, 1%R) 1) d))
      <$> seqZ 0 HEAD_DIM.
Proof.
  apply (attention_weights_inflated (enhanced_format [0] [0]) (tiny_args (Fin 1) (Fin 1)) 0 0 0 1
    (replicate 128 1%R) (λ _ _, 1%R) (λ _ _, 1%R) 1).
  - lia.
  - reflexivity.
  - reflexivity.
  - intros i d Hi Hd. assert (i = 0) as -> by lia. unfold key_at. rewrite tiny_row.
    unfold byte, BLOCK_SIZE, HEAD_DIM in *. cbn [k_cache tiny_args].
    change (0 mod 16) with 0. rewrite lookup_replicate_2 by lia. apply tiny_dequant.
  - intros i d Hi Hd. assert (i = 0) as -> by lia. unfold value_at. rewrite tiny_row.
    unfold byte, HEAD_DIM in *. cbn [v_cache v_place enhanced_format tiny_args].
    unfold BLOCK_SIZE. change (0 mod 16) with 0.
    rewrite lookup_replicate_2 by lia. apply tiny_dequant.
Defined.

(** One program of a Triton kernel is one thread of the CUDA kernel. *)
Lemma triton_program (tl_sum : list ext → ext) (args : Args ext ext)
    (ks kz vs vz : list ext) (ke ve : list Z) num_tokens num_seqs num_blocks t :
  (∀ l, tl_sum l = foldl (ext2 Rplus) (Fin 0) l) →
  num_blocks * num_kv_heads args * (BLOCK_SIZE * HEAD_DIM) < 2 ^ 31 →
  t ∈ grid3 args num_tokens num_seqs →
  (well_shaped (basic_format ks kz vs vz) args num_tokens num_seqs num_blocks →
   Triton.paged_attention_basic_kernel tl_sum ks kz vs vz args t =
   paged_attention_basic_kernel ks kz vs vz args t) ∧
  (well_shaped (enhanced_format ke ve) args num_tokens num_seqs num_blocks →
   Triton.paged_attention_enhanced_kernel tl_sum ke ve args t =
   paged_attention_enhanced_kernel ke ve args t) ∧
  (well_shaped (btkv_format ke ve) args num_tokens num_seqs num_blocks →
   Triton.paged_attention_btkv_kernel tl_sum ke ve args t =
   paged_attention_btkv_kernel ke ve args t).
Proof.
  intros Hsum Hc Hg. destruct t as [[token head] seq]. apply grid3_range in Hg as (Ht & Hh & Hs).
  assert (∀ a b : ext, fdiv a b = fmul a (fdiv fone b)) as Hdiv.
  { intros [|a] [|b]; cbn; [done..|]. f_equal. unfold Rdiv. lra. }
  unfold Triton.paged_attention_basic_kernel, Triton.paged_attention_enhanced_kernel,
    Triton.paged_attention_btkv_kernel, paged_attention_basic_kernel,
    paged_attention_enhanced_kernel, paged_attention_btkv_kernel.
  split_and!; intros Hws.
  - apply (triton_kernel_ret _ _ _ _ _ Hws); try done. intros x d. cbn.
    by rewrite (ws_dim _ _ _ _ _ Hws).
  - apply (triton_kernel_ret _ _ _ _ _ Hws); try done. intros x d. cbn. lia.
  - apply (triton_kernel_ret _ _ _ _ _ Hws); try done. intros x d. cbn. lia.
Qed.

(** C27. The Triton functions are the CUDA launchers.  In exact arithmetic, for
    every format, every well-shaped launch whose caches are addressable with
    32-bit offsets and every order of the stores, the tensor a Triton function
    returns is what the CUDA launcher leaves in an output buffer with the same
    initial contents. *)
Theorem triton_matches_cuda (tl_sum : list ext → ext) (args : Args ext ext)
    (ks kz vs vz : list ext) (ke ve : list Z) tile_dim sched num_tokens num_seqs num_blocks out :
  (∀ l, tl_sum l = foldl (ext2 Rplus) (Fin 0) l) →
  num_blocks * num_kv_heads args * (BLOCK_SIZE * HEAD_DIM) < 2 ^ 31 →
  (well_shaped (basic_format ks kz vs vz) args num_tokens num_seqs num_blocks →
   Triton.paged_attention_basic tl_sum ks kz vs vz args sched num_tokens num_seqs out =
   launch_paged_attention_basic ks kz vs vz args sched num_tokens num_seqs out) ∧
  (well_shaped (enhanced_format ke ve) args num_tokens num_seqs num_blocks →
   Triton.paged_attention_enhanced tl_sum ke ve args sched num_tokens num_seqs out =
   launch_paged_attention_enhanced ke ve args sched num_tokens num_seqs out) ∧
  (well_shaped (btkv_format ke ve) args num_tokens num_seqs num_blocks →
   Triton.paged_attention_btkv tl_sum ke ve args tile_dim sched num_tokens num_seqs out =
   launch_paged_attention_btkv ke ve args sched num_tokens num_seqs out).
Proof.
  intros Hsum Hc.
  pose proof (λ t, triton_program tl_sum args ks kz vs vz ke ve num_tokens num_seqs num_blocks t Hsum Hc) as Hp.
  split_and!; intros Hws.
  - refine (run_ext sched _ _ (grid3 args num_tokens num_seqs) out (λ t Ht, proj1 (Hp t Ht) Hws)).
  - refine (run_ext sched _ _ (grid3 args num_tokens num_seqs) out (λ t Ht, proj1 (proj2 (Hp t Ht)) Hws)).
  - refine (run_ext sched _ _ (grid3 args num_tokens num_seqs) out (λ t Ht, proj2 (proj2 (Hp t Ht)) Hws)).
Qed.

Lemma triton_matches_cuda_witness :
  Triton.paged_attention_enhanced (foldl (ext2 Rplus) (Fin 0)) [0] [0]
    (tiny_args (Fin 1) (Fin 1)) reverse 1 1 (replicate 128 NegInf) =
  launch_paged_attention_enhanced [0] [0] (tiny_args (Fin 1) (Fin 1)) reverse 1 1 (replicate 128 NegInf).
Proof.
  refine (proj1 (proj2 (triton_matches_cuda (foldl (ext2 Rplus) (Fin 0)) (tiny_args (Fin 1) (Fin 1))
    [] [] [] [] [0] [0] 64 reverse 1 1 1 (replicate 128 NegInf) _ _)) _); try done.
  apply tiny_well_shaped.
Defined.

End RealTheorems.
