(* ===== verification/Transport.v ===== *)
(** * Control-plane framing

    [Transport] models [klnk-net/src/control_transport.rs]: the frame header
    (version, big-endian length, flags), the single-message and the batch
    codec, and the stream functions.  [bincode] is the class [Bincode]; the
    theorems use its documented round trip [BincodeLaws]. *)

From stdpp Require Import strings.
From S2P Require Import Prelude.

Module Transport.

Definition MAX_FRAME_SIZE : Z := 16 * 1024 * 1024.
Definition PROTOCOL_VERSION : Z := 1.
Definition HEADER_SIZE : Z := 6.
Definition FLAG_COMPRESSED : Z := 0x01.
Definition FLAG_BATCH : Z := 0x02.

Inductive ControlMessagePayload :=
  | RegionRegister (pid vaddr size flags : Z)
  | RegionDeregister (pid vaddr : Z)
  | LockAcquire (region_id offset len : Z)
  | LockRelease (region_id offset len : Z)
  | Heartbeat (node_id timestamp : Z)
  | ResponseAck (success : bool) (message : string).

Record ControlFrame := Frame {
  version : Z;
  flags : Z;
  length_ : Z;
  payload : ControlMessagePayload;
}.

Record ControlMessageBatch := Batch { messages : list ControlMessagePayload }.

(** [bincode::serialize] and [bincode::deserialize] at the two types. *)
Class Bincode := {
  bincode_error : Type;
  serialize : ControlMessagePayload → result bincode_error (list Z);
  deserialize : list Z → result bincode_error ControlMessagePayload;
  serialize_batch : ControlMessageBatch → result bincode_error (list Z);
  deserialize_batch : list Z → result bincode_error ControlMessageBatch;
}.

Class BincodeLaws `{!Bincode} := {
  bincode_roundtrip m bs : serialize m = Ok bs → deserialize bs = Ok m;
  bincode_batch_roundtrip b bs : serialize_batch b = Ok bs → deserialize_batch bs = Ok b;
}.

(** How [write_all] ends: everything is written, or an error comes after some of
    the bytes. *)
Abbreviation write_result := (option (nat * string)) (only parsing).

Section Codec.
Context `{!Bincode}.

Inductive TransportError :=
  | IoError (msg : string)
  | SerializationError (e : bincode_error)
  | InvalidFrame
  | FrameTooLarge (size : Z)
  | UnsupportedVersion (v : Z)
  | UringError (msg : string)
  | CompressionError (msg : string).

Record ControlCodec := { compression_level : Z }.

Definition default_codec : ControlCodec := {| compression_level := 0 |}.
Definition with_compression (level : Z) : ControlCodec :=
  {| compression_level := Z.min level 9 |}.

(** Both branches of the source return the bytes unchanged. *)
Definition serialize_payload (self : ControlCodec) (item : ControlMessagePayload) :
    result TransportError (list Z) :=
  serialized ← map_err SerializationError (serialize item);
  if (0 <? compression_level self) && (1024 <? Z.of_nat (length serialized))
  then Ok serialized else Ok serialized.

Definition deserialize_payload (data : list Z) (flags : Z) :
    result TransportError ControlMessagePayload :=
  if negb (Z.land flags FLAG_COMPRESSED =? 0)
  then Err (CompressionError "Compressed frames not yet supported")
  else map_err SerializationError (deserialize data).

(** The part both decoders share: [None] waits for more bytes; the returned
    list is what stays in [src]. *)
Definition take_frame (src : list Z) :
    result TransportError (option (Z * Z * list Z)) * list Z :=
  match src with
  | version :: l1 :: l2 :: l3 :: l4 :: flags :: body =>
      if negb (version =? PROTOCOL_VERSION) then (Err (UnsupportedVersion version), src)
      else
        let frame_len := from_be_bytes [l1; l2; l3; l4] in
        if MAX_FRAME_SIZE <? frame_len then (Err (FrameTooLarge frame_len), src)
        else if Z.of_nat (length src) <? HEADER_SIZE + frame_len then (Ok None, src)
        else (Ok (Some (flags, frame_len, take (Z.to_nat frame_len) body)),
              drop (Z.to_nat frame_len) body)
  | _ => (Ok None, src)
  end.

Definition decode (src : list Z) :
    result TransportError (option ControlFrame) * list Z :=
  match take_frame src with
  | (Err e, src) => (Err e, src)
  | (Ok None, src) => (Ok None, src)
  | (Ok (Some (flags, frame_len, payload_buf)), src) =>
      (msg ← deserialize_payload payload_buf flags;
       Ok (Some (Frame PROTOCOL_VERSION flags (wrap 32 frame_len) msg)), src)
  end.

Definition put_frame (flags : Z) (serialized dst : list Z) : list Z :=
  dst ++ [PROTOCOL_VERSION] ++ to_be_bytes 4 (wrap 32 (Z.of_nat (length serialized)))
      ++ [flags] ++ serialized.

Definition encode (self : ControlCodec) (item : ControlMessagePayload) (dst : list Z) :
    result TransportError () * list Z :=
  match serialize_payload self item with
  | Ok serialized => (Ok tt, put_frame 0 serialized dst)
  | Err e => (Err e, dst)
  end.

Definition decode_batch (src : list Z) :
    result TransportError (option (list ControlMessagePayload)) * list Z :=
  match take_frame src with
  | (Err e, src) => (Err e, src)
  | (Ok None, src) => (Ok None, src)
  | (Ok (Some (flags, _, payload_buf)), src) =>
      if Z.land flags FLAG_BATCH =? 0 then (Err InvalidFrame, src)
      else (batch ← map_err SerializationError (deserialize_batch payload_buf);
            Ok (Some (messages batch)), src)
  end.

Definition encode_batch (items : list ControlMessagePayload) (dst : list Z) :
    result TransportError () * list Z :=
  match serialize_batch (Batch items) with
  | Ok serialized => (Ok tt, put_frame FLAG_BATCH serialized dst)
  | Err e => (Err (SerializationError e), dst)
  end.

(** ** Streams

    A stream is the bytes in flight.  [write_all] and [read_exact] retry until
    everything is transferred, or fail; one [write] or [read] of the io_uring
    stream transfers at most the number of bytes the kernel reports. *)

Definition frame_bytes (serialized : list Z) : list Z := put_frame 0 serialized [].

Definition send_control_message_tokio (write : write_result) (stream : list Z)
    (msg : ControlMessagePayload) : result TransportError () * list Z :=
  match serialize msg with
  | Ok serialized =>
      match write with
      | None => (Ok tt, stream ++ frame_bytes serialized)
      | Some (n, e) => (Err (IoError e), stream ++ take n (frame_bytes serialized))
      end
  | Err e => (Err (SerializationError e), stream)
  end.

Definition read_exact (n : nat) (stream : list Z) : option (list Z * list Z) :=
  if (n <=? length stream)%nat then Some (take n stream, drop n stream) else None.

Definition check_header (header : list Z) : result TransportError (Z * Z) :=
  match header with
  | [version; l1; l2; l3; l4; flags] =>
      if negb (version =? PROTOCOL_VERSION) then Err (UnsupportedVersion version)
      else
        let len := from_be_bytes [l1; l2; l3; l4] in
        if MAX_FRAME_SIZE <? len then Err (FrameTooLarge len) else Ok (len, flags)
  | _ => Err InvalidFrame
  end.

Definition recv_control_message_tokio (stream : list Z) :
    result TransportError ControlMessagePayload * list Z :=
  match read_exact 6 stream with
  | None => (Err (IoError "early eof"), [])
  | Some (header, stream) =>
      match check_header header with
      | Err e => (Err e, stream)
      | Ok (len, flags) =>
          match read_exact (Z.to_nat len) stream with
          | None => (Err (IoError "early eof"), [])
          | Some (payload, stream) => (deserialize_payload payload flags, stream)
          end
      end
  end.

(** The kernel writes [n] bytes of the buffer; the source ignores [n]. *)
Definition send_control_message_uring (kernel : result string nat) (stream : list Z)
    (msg : ControlMessagePayload) : result TransportError () * list Z :=
  match serialize msg with
  | Err e => (Err (SerializationError e), stream)
  | Ok serialized =>
      match kernel with
      | Err e => (Err (UringError e), stream)
      | Ok n => (Ok tt, stream ++ take n (frame_bytes serialized))
      end
  end.

(** [avail1] and [avail2] bound what the two reads return. *)
Definition recv_control_message_uring (avail1 avail2 : nat) (stream : list Z) :
    result TransportError ControlMessagePayload * list Z :=
  let header := take (Nat.min 6 avail1) stream in
  let stream := drop (Nat.min 6 avail1) stream in
  if negb (length header =? 6)%nat then (Err InvalidFrame, stream)
  else
    match check_header header with
    | Err e => (Err e, stream)
    | Ok (len, flags) =>
        let n := Nat.min (Z.to_nat len) avail2 in
        let payload := take n stream in
        let stream := drop n stream in
        if negb (length payload =? Z.to_nat len)%nat then (Err InvalidFrame, stream)
        else (deserialize_payload payload flags, stream)
    end.

End Codec.
End Transport.

Module TransportTheorems.
Import Transport.

Section Framing.
Context `{!Bincode}.

(** The decoder as a framed reader drives it: each chunk that arrives is
    appended to the buffer, and frames are decoded until more bytes are needed
    or an error occurs.  A frame takes at least six bytes, so the length of the
    buffer bounds the number of iterations. *)
Fixpoint drain (fuel : nat) (buf : list Z) (acc : list ControlFrame) :
    outcome (result TransportError (list ControlFrame) * list Z) :=
  match fuel with
  | O => OutOfFuel
  | S fuel' =>
      match decode buf with
      | (Ok (Some f), buf') => drain fuel' buf' (acc ++ [f])
      | (Ok None, buf') => Ret (Ok acc, buf')
      | (Err e, buf') => Ret (Err e, buf')
      end
  end.

Fixpoint feed (buf : list Z) (chunks : list (list Z)) (acc : list ControlFrame) :
    outcome (result TransportError (list ControlFrame) * list Z) :=
  match chunks with
  | [] => Ret (Ok acc, buf)
  | chunk :: chunks' =>
      '(r, buf) ← drain (S (length (buf ++ chunk))) (buf ++ chunk) acc;
      match r with
      | Ok acc => feed buf chunks' acc
      | Err e => Ret (Err e, buf)
      end
  end.

(** The bytes a writer produces for a list of messages. *)
Fixpoint encode_all (codec : ControlCodec) (ms : list ControlMessagePayload) (dst : list Z) :
    result TransportError () * list Z :=
  match ms with
  | [] => (Ok tt, dst)
  | m :: ms' =>
      match encode codec m dst with
      | (Ok _, dst) => encode_all codec ms' dst
      | (Err e, dst) => (Err e, dst)
      end
  end.

Definition frame_of (m : ControlMessagePayload) (bs : list Z) : ControlFrame :=
  Frame PROTOCOL_VERSION 0 (Z.of_nat (length bs)) m.

Lemma put_frame_app flags bs dst : put_frame flags bs dst = dst ++ put_frame flags bs [].
Proof. done. Qed.

Lemma frame_length bs : length (frame_bytes bs) = (6 + length bs)%nat.
Proof.
  unfold frame_bytes, put_frame. rewrite !length_app, to_be_bytes_length. cbn. lia.
Qed.

(** The four length bytes of a header, as a list of four. *)
Lemma be4_shape z : ∃ a b c d, to_be_bytes 4 z = [a; b; c; d].
Proof.
  pose proof (to_be_bytes_length 4 z) as Hl.
  destruct (to_be_bytes 4 z) as [|a [|b [|c [|d [|]]]]]; try done. eauto.
Qed.

Lemma take_frame_complete fl bs rest :
  Z.of_nat (length bs) ≤ MAX_FRAME_SIZE →
  take_frame (put_frame fl bs [] ++ rest) =
    (Ok (Some (fl, Z.of_nat (length bs), bs)), rest).
Proof.
  intros Hmax. unfold put_frame. unfold MAX_FRAME_SIZE in Hmax.
  rewrite wrap_small by lia.
  destruct (be4_shape (Z.of_nat (length bs))) as (a & b & c & d & E).
  pose proof (be_bytes_roundtrip 4 (Z.of_nat (length bs)) ltac:(cbn; lia)) as Hr.
  rewrite E in Hr |- *. cbn [app take_frame]. rewrite Hr. unfold MAX_FRAME_SIZE.
  rewrite Z.eqb_refl. cbn [negb].
  rewrite (proj2 (Z.ltb_ge _ _)) by lia.
  rewrite (proj2 (Z.ltb_ge _ _)) by (cbn [length]; rewrite length_app; unfold HEADER_SIZE; lia).
  by rewrite Nat2Z.id, take_app_length, drop_app_length.
Qed.

(** A strict prefix of a frame is not decoded and stays in the buffer. *)
Lemma take_frame_prefix fl bs p :
  Z.of_nat (length bs) ≤ MAX_FRAME_SIZE →
  p `prefix_of` put_frame fl bs [] → (length p < 6 + length bs)%nat →
  take_frame p = (Ok None, p).
Proof.
  intros Hmax [rest Hp] Hlen. unfold put_frame in Hp. unfold MAX_FRAME_SIZE in Hmax.
  rewrite wrap_small in Hp by lia.
  destruct (be4_shape (Z.of_nat (length bs))) as (a & b & c & d & E).
  pose proof (be_bytes_roundtrip 4 (Z.of_nat (length bs)) ltac:(cbn; lia)) as Hr.
  rewrite E in Hr, Hp. cbn [app] in Hp.
  destruct p as [|x1 [|x2 [|x3 [|x4 [|x5 [|x6 body]]]]]]; try done.
  cbn [app] in Hp. injection Hp as <- <- <- <- <- <- Hbody.
  cbn [take_frame]. rewrite Hr, Z.eqb_refl. cbn [negb]. unfold MAX_FRAME_SIZE.
  rewrite (proj2 (Z.ltb_ge _ _)) by lia.
  rewrite (proj2 (Z.ltb_lt _ _)); [done|]. cbn [length] in Hlen |- *. unfold HEADER_SIZE. lia.
Qed.

Context `{!BincodeLaws}.

(** Messages with their serialized bytes, small enough to frame. *)
Definition framed (p : ControlMessagePayload * list Z) : Prop :=
  serialize p.1 = Ok p.2 ∧ Z.of_nat (length p.2) ≤ MAX_FRAME_SIZE.

Definition wire (ps : list (ControlMessagePayload * list Z)) : list Z :=
  concat ((λ p, frame_bytes p.2) <$> ps).

Definition frames (ps : list (ControlMessagePayload * list Z)) : list ControlFrame :=
  (λ p, frame_of p.1 p.2) <$> ps.

Lemma decode_frame p rest :
  framed p → decode (frame_bytes p.2 ++ rest) = (Ok (Some (frame_of p.1 p.2)), rest).
Proof.
  intros [Hs Hl]. unfold decode, frame_bytes. rewrite take_frame_complete by done.
  unfold deserialize_payload. change (Z.land 0 FLAG_COMPRESSED =? 0) with true. cbv iota.
  rewrite (bincode_roundtrip _ _ Hs), wrap_small; [done|].
  unfold MAX_FRAME_SIZE in Hl. lia.
Qed.

Lemma decode_incomplete p buf :
  framed p → buf `prefix_of` frame_bytes p.2 → (length buf < length (frame_bytes p.2))%nat →
  decode buf = (Ok None, buf).
Proof.
  intros [Hs Hl] Hp Hlt. rewrite frame_length in Hlt. unfold decode.
  by rewrite (take_frame_prefix 0 p.2 buf Hl Hp).
Qed.

Lemma prefix_app_cases {A} (l p q : list A) :
  l `prefix_of` p ++ q → (length l < length p)%nat ∧ l `prefix_of` p ∨
  ∃ l', l = p ++ l' ∧ l' `prefix_of` q.
Proof.
  intros [k Hk]. destruct (Nat.lt_ge_cases (length l) (length p)) as [Hlt|Hge].
  - left. split; [done|]. exists (drop (length l) p).
    apply (f_equal (take (length p))) in Hk.
    rewrite take_app_length, take_app_ge in Hk by lia. rewrite Hk.
    f_equal. rewrite drop_app_length. done.
  - right. exists (drop (length p) l).
    assert (p = take (length p) l) as Hp.
    { apply (f_equal (take (length p))) in Hk. by rewrite take_app_length, take_app_le in Hk by lia. }
    split; [by rewrite Hp at 1; rewrite take_drop|]. exists k.
    apply (f_equal (drop (length p))) in Hk. by rewrite drop_app_length, drop_app_le in Hk by lia.
Qed.

Lemma drain_spec ps : ∀ fuel p acc,
  Forall framed ps → p `prefix_of` wire ps → (length p < fuel)%nat →
  ∃ k p', drain fuel p acc = Ret (Ok (acc ++ frames (take k ps)), p') ∧
          p = wire (take k ps) ++ p' ∧
          (∀ x, ps !! k = Some x → (length p' < length (frame_bytes x.2))%nat).
Proof.
  induction ps as [|x ps IH]; intros [|fuel] p acc Hps Hp Hf; try lia.
  - apply prefix_nil_inv in Hp as ->. exists 0%nat, []. cbn. by rewrite app_nil_r.
  - apply Forall_cons in Hps as [Hx Hps].
    change (wire (x :: ps)) with (frame_bytes x.2 ++ wire ps) in Hp.
    apply prefix_app_cases in Hp as [[Hlt Hpre]|(l' & -> & Hpre)]; cbn [drain].
    + rewrite (decode_incomplete x p Hx Hpre Hlt).
      exists 0%nat, p. cbn. rewrite app_nil_r. split_and!; [done|done|by intros ? [= <-]].
    + rewrite (decode_frame x l' Hx).
      rewrite length_app, frame_length in Hf.
      destruct (IH fuel l' (acc ++ [frame_of x.1 x.2]) Hps Hpre ltac:(lia))
        as (k & p' & -> & -> & Hinc).
      exists (S k), p'. split_and!; [|by rewrite app_assoc|done].
      by rewrite <- app_assoc.
Qed.

Lemma wire_app ps qs : wire (ps ++ qs) = wire ps ++ wire qs.
Proof. unfold wire. by rewrite fmap_app, concat_app. Qed.

Lemma feed_spec chunks : ∀ ps buf acc,
  Forall framed ps → buf ++ concat chunks = wire ps →
  (∀ x, ps !! 0%nat = Some x → (length buf < length (frame_bytes x.2))%nat) →
  feed buf chunks acc = Ret (Ok (acc ++ frames ps), []).
Proof.
  induction chunks as [|c chunks IH]; intros ps buf acc Hps Hw Hinc; cbn [feed concat] in *.
  - rewrite app_nil_r in Hw. subst buf. destruct ps as [|x ps]; [by rewrite app_nil_r|].
    specialize (Hinc x eq_refl). change (wire (x :: ps)) with (frame_bytes x.2 ++ wire ps) in Hinc.
    rewrite length_app in Hinc. lia.
  - rewrite app_assoc in Hw.
    destruct (drain_spec ps (S (length (buf ++ c))) (buf ++ c) acc Hps) as (k & p' & -> & E & Hi);
      [by exists (concat chunks)|lia|]. monad_simpl.
    rewrite <- (take_drop k ps), wire_app, E, <- app_assoc in Hw. apply app_inv_head in Hw.
    rewrite (IH (drop k ps) p'); [|by apply Forall_drop|done|].
    + unfold frames. by rewrite <- app_assoc, <- fmap_app, take_drop.
    + intros x. rewrite lookup_drop, Nat.add_0_r. apply Hi.
Qed.

Lemma encode_all_wire codec ms : ∀ dst bytes,
  encode_all codec ms dst = (Ok tt, bytes) →
  ∃ ps, ps.*1 = ms ∧ Forall (λ p, serialize p.1 = Ok p.2) ps ∧ bytes = dst ++ wire ps.
Proof.
  induction ms as [|m ms IH]; intros dst bytes; cbn [encode_all].
  - intros [= <-]. exists []. by rewrite app_nil_r.
  - unfold encode, serialize_payload.
    destruct (serialize m) as [bs|e] eqn:E; cbn [map_err mbind result_bind]; [|done].
    replace (if (0 <? compression_level codec) && (1024 <? Z.of_nat (length bs))
             then Ok bs else Ok bs) with (Ok bs : result TransportError (list Z)) by (by case_match).
    intros (ps & Hms & Hps & ->)%IH. exists ((m, bs) :: ps).
    split_and!; [cbn; by f_equal|by constructor|].
    rewrite put_frame_app, <- app_assoc. done.
Qed.

(** C34. Framing survives fragmentation: whatever messages are encoded one after
    the other (each within the frame limit) and however the resulting bytes are
    cut into chunks on the way, the decoder fed with the chunks returns exactly
    those messages, in order, without an error, and its buffer is empty at the
    end. *)
Theorem framing_survives_fragmentation codec ms bytes chunks :
  encode_all codec ms [] = (Ok tt, bytes) →
  Forall (λ m, ∀ bs, serialize m = Ok bs → Z.of_nat (length bs) ≤ MAX_FRAME_SIZE) ms →
  concat chunks = bytes →
  ∃ fs, feed [] chunks [] = Ret (Ok fs, []) ∧ payload <$> fs = ms ∧
        Forall (λ f, version f = PROTOCOL_VERSION ∧ flags f = 0) fs.
Proof.
  intros (ps & <- & Hps & ->)%encode_all_wire Hmax Hc. exists (frames ps).
  rewrite Forall_fmap in Hmax. split_and!.
  - apply (feed_spec chunks ps [] []); [|done|].
    + apply Forall_forall. intros p Hp. rewrite Forall_forall in Hps, Hmax.
      split; [by apply Hps|]. exact (Hmax p Hp _ (Hps p Hp)).
    + intros x _. rewrite frame_length. cbn. lia.
  - unfold frames. by rewrite <- list_fmap_compose.
  - unfold frames. apply Forall_fmap, Forall_true. done.
Qed.

(** A message over the limit is encoded without an error, and then every
    attempt to decode it fails and leaves it in the buffer. *)
Lemma oversized_frame_blocks codec m bs rest :
  serialize m = Ok bs → MAX_FRAME_SIZE < Z.of_nat (length bs) < 2 ^ 32 →
  (encode codec m []).1 = Ok tt ∧
  decode ((encode codec m []).2 ++ rest)
    = (Err (FrameTooLarge (Z.of_nat (length bs))), (encode codec m []).2 ++ rest).
Proof.
  intros Hs Hl. unfold encode, serialize_payload. rewrite Hs. cbn [map_err mbind result_bind].
  replace (if (0 <? compression_level codec) && (1024 <? Z.of_nat (length bs))
           then Ok bs else Ok bs) with (Ok bs : result TransportError (list Z)) by (by case_match).
  split; [done|]. cbn [snd]. unfold decode, put_frame. rewrite wrap_small by lia.
  destruct (be4_shape (Z.of_nat (length bs))) as (a & b & c & d & E).
  pose proof (be_bytes_roundtrip 4 (Z.of_nat (length bs)) ltac:(cbn; lia)) as Hr.
  rewrite E in Hr |- *. cbn [app take_frame]. rewrite Hr. unfold MAX_FRAME_SIZE in *.
  rewrite Z.eqb_refl. cbn [negb]. by rewrite (proj2 (Z.ltb_lt _ _)) by lia.
Qed.

(** What is sent on a stream is received, when all of it is transferred. *)
Lemma stream_roundtrip m bs rest :
  framed (m, bs) →
  recv_control_message_tokio (frame_bytes bs ++ rest) = (Ok m, rest).
Proof.
  intros [Hs Hl]. cbn [fst snd] in *. unfold frame_bytes, put_frame.
  unfold MAX_FRAME_SIZE in Hl. rewrite wrap_small by lia.
  destruct (be4_shape (Z.of_nat (length bs))) as (a & b & c & d & E).
  pose proof (be_bytes_roundtrip 4 (Z.of_nat (length bs)) ltac:(cbn; lia)) as Hr.
  rewrite E in Hr |- *. cbn [app recv_control_message_tokio read_exact length Nat.leb take drop].
  unfold check_header. rewrite Hr, Z.eqb_refl. cbn [negb]. unfold MAX_FRAME_SIZE.
  rewrite (proj2 (Z.ltb_ge _ _)) by lia. rewrite take_0, drop_0. rewrite Nat2Z.id. unfold read_exact.
  rewrite (proj2 (Nat.leb_le _ _)) by (rewrite length_app; lia).
  rewrite take_app_length, drop_app_length. unfold deserialize_payload.
  change (Z.land 0 FLAG_COMPRESSED =? 0) with true. cbv iota.
  by rewrite (bincode_roundtrip _ _ Hs).
Qed.

End Framing.

(** A codec for heartbeats, to instantiate the class. *)
#[local] Instance heartbeat_codec : Bincode := {|
  bincode_error := unit;
  serialize m := match m with Heartbeat n t => Ok [n; t] | _ => Err tt end;
  deserialize bs := match bs with [n; t] => Ok (Heartbeat n t) | _ => Err tt end;
  serialize_batch _ := Err tt;
  deserialize_batch _ := Err tt;
|}.

#[local] Instance heartbeat_laws : BincodeLaws.
Proof. split; [|done]. intros [] bs; try done. by intros [= <-]. Qed.

(** Two heartbeats cut inside the first header and inside the second payload. *)
Lemma framing_survives_fragmentation_witness :
  ∃ fs, feed [] [[1; 0; 0]; [0; 2; 0; 7; 9; 1; 0; 0; 0; 2; 0; 8]; []; [9]] []
          = Ret (Ok fs, []) ∧
        payload <$> fs = [Heartbeat 7 9; Heartbeat 8 9] ∧
        Forall (λ f, version f = PROTOCOL_VERSION ∧ flags f = 0) fs.
Proof.
  apply (framing_survives_fragmentation default_codec [Heartbeat 7 9; Heartbeat 8 9]
    [1; 0; 0; 0; 2; 0; 7; 9; 1; 0; 0; 0; 2; 0; 8; 9]).
  - reflexivity.
  - repeat constructor; intros bs [= <-]; discriminate.
  - reflexivity.
Defined.

(** A short write of the io_uring stream is reported as success, and the
    receiver then reads the next frame's bytes as payload. *)
Lemma short_write_desynchronizes :
  let '(r1, s1) := send_control_message_uring (Ok 7%nat) [] (Heartbeat 7 9) in
  let '(r2, s2) := send_control_message_uring (Ok 8%nat) s1 (Heartbeat 8 9) in
  r1 = Ok tt ∧ r2 = Ok tt ∧
  recv_control_message_uring 6 100 s2 = (Ok (Heartbeat 7 1), [0; 0; 0; 2; 0; 8; 9]).
Proof. done. Qed.

End TransportTheorems.
