(* ===== verification/Ebpf.v ===== *)
(** * Access telemetry

    [Stride] models the stride detector of [klnk-ebpf/src/lib.rs], with the
    clock as an argument (nanoseconds), and [EbpfMaps] the region and lock maps
    of [klnk-ebpf/src/main.rs].  The trace manager, its event channel and the
    binary are in [EbpfTrace]. *)

From S2P Require Import Prelude Domain.

Module Stride.

Record AccessEvent := Event {
  timestamp_ns : Z;
  pid : Z;
  vaddr : Z;
  is_write : bool;
}.

Record PrefetchRecommendation := {
  rec_pid : Z;
  base_vaddr : Z;
  stride_bytes : Z;
  count : Z;
}.

Record StrideState := {
  last_vaddr : Z;
  last_stride : Z;
  confidence : Z;
  last_access_time : Z;
}.

Definition new_state (vaddr now : Z) : StrideState :=
  {| last_vaddr := vaddr; last_stride := 0; confidence := 0; last_access_time := now |}.

Record StrideDetector := {
  state : gmap Z StrideState;
  decay_interval : Z;
  min_confidence : Z;
  max_prefetch_count : Z;
}.

Definition with_params (decay min_conf max_count : Z) : StrideDetector :=
  {| state := ∅; decay_interval := decay; min_confidence := min_conf;
     max_prefetch_count := max_count |}.

(** 100 milliseconds. *)
Definition default_detector : StrideDetector := with_params 100000000 2 16.

Definition with_state (self : StrideDetector) (m : gmap Z StrideState) : StrideDetector :=
  {| state := m; decay_interval := decay_interval self;
     min_confidence := min_confidence self;
     max_prefetch_count := max_prefetch_count self |}.

Section Detector.
Context `{BuildProfile}.

(** The part of [process_event] that works on the entry of the process. *)
Definition process_entry (self : StrideDetector) (now : Z) (ev : AccessEvent)
    (st : StrideState) : outcome (StrideState * option PrefetchRecommendation) :=
  let conf :=
    if decay_interval self <? Z.max 0 (now - last_access_time st)
    then Z.max (saturating_sub (confidence st) 1) 0 else confidence st in
  stride ← iarith 64 (to_signed 64 (vaddr ev) - to_signed 64 (last_vaddr st));
  if stride =? 0 then
    Ret ({| last_vaddr := last_vaddr st; last_stride := last_stride st;
            confidence := conf; last_access_time := now |}, None)
  else
    conf ← (if stride =? last_stride st then arith 64 (conf + 1) else Ret 1);
    let st' := {| last_vaddr := vaddr ev; last_stride := stride; confidence := conf;
                  last_access_time := now |} in
    if min_confidence self <=? conf then
      twice ← arith 64 (conf * 2);
      base ← iarith 64 (to_signed 64 (vaddr ev) + stride);
      Ret (st', Some {| rec_pid := pid ev; base_vaddr := wrap 64 base;
                        stride_bytes := stride;
                        count := Z.min twice (max_prefetch_count self) |})
    else Ret (st', None).

Definition process_event (self : StrideDetector) (now : Z) (ev : AccessEvent) :
    outcome (StrideDetector * option PrefetchRecommendation) :=
  let st := default (new_state (vaddr ev) now) (state self !! pid ev) in
  '(st', r) ← process_entry self now ev st;
  Ret (with_state self (<[pid ev := st']> (state self)), r).

End Detector.

Definition clear_pid (self : StrideDetector) (p : Z) : StrideDetector :=
  with_state self (delete p (state self)).

Definition clear_all (self : StrideDetector) : StrideDetector := with_state self ∅.

End Stride.

Module EbpfMaps.

Inductive EbpfManagerError :=
  | RegionAlreadyExists (id : GlobalRegionId)
  | RegionNotFound (id : GlobalRegionId)
  | AddressNotMapped (vaddr : Z) (region : GlobalRegionId)
  | LockConflict (resource_id client_pid : Z)
  | LockNotHeld (resource_id client_pid : Z).

Record RegionState := {
  region_id : GlobalRegionId;
  region_base : Z;
  region_len : Z;
  owner_node : NodeId;
}.

Record PageState := { page_addr : Z; page_coherence : Z }.

Record LockState := { resource : Z; holder_pid : option Z }.

Record EbpfManager := {
  regions : gmap GlobalRegionId RegionState;
  page_states : gmap Z PageState;
  locks : gmap Z LockState;
}.

Definition new : EbpfManager := {| regions := ∅; page_states := ∅; locks := ∅ |}.

Definition with_regions (self : EbpfManager) r : EbpfManager :=
  {| regions := r; page_states := page_states self; locks := locks self |}.
Definition with_locks (self : EbpfManager) l : EbpfManager :=
  {| regions := regions self; page_states := page_states self; locks := l |}.

Definition register_region (self : EbpfManager) (region : RegionState) :
    EbpfManager * result EbpfManagerError () :=
  match regions self !! region_id region with
  | Some _ => (self, Err (RegionAlreadyExists (region_id region)))
  | None => (with_regions self (<[region_id region := region]> (regions self)), Ok tt)
  end.

Definition unregister_region (self : EbpfManager) (id : GlobalRegionId) :
    EbpfManager * result EbpfManagerError () :=
  match regions self !! id with
  | None => (self, Err (RegionNotFound id))
  | Some _ => (with_regions self (delete id (regions self)), Ok tt)
  end.

Definition get_region (self : EbpfManager) (id : GlobalRegionId) : option RegionState :=
  regions self !! id.

Definition get_page_state (self : EbpfManager) (a : Z) : option PageState :=
  page_states self !! a.

Definition acquire_lock (self : EbpfManager) (rid client : Z) :
    EbpfManager * result EbpfManagerError () :=
  let st := default {| resource := rid; holder_pid := None |} (locks self !! rid) in
  match holder_pid st with
  | Some current =>
      if current =? client
      then (with_locks self
              (<[rid := {| resource := resource st; holder_pid := Some client |}]> (locks self)),
            Ok tt)
      else (with_locks self (<[rid := st]> (locks self)), Err (LockConflict rid client))
  | None =>
      (with_locks self
         (<[rid := {| resource := resource st; holder_pid := Some client |}]> (locks self)),
       Ok tt)
  end.

Definition release_lock (self : EbpfManager) (rid client : Z) :
    EbpfManager * result EbpfManagerError () :=
  match locks self !! rid with
  | Some st =>
      if decide (holder_pid st = Some client)
      then (with_locks self
              (<[rid := {| resource := resource st; holder_pid := None |}]> (locks self)),
            Ok tt)
      else (self, Err (LockNotHeld rid client))
  | None => (self, Err (LockNotHeld rid client))
  end.

End EbpfMaps.

Module EbpfTheorems.
Import Stride.

Section Detection.
Context `{BuildProfile}.

(** The detector over a sequence of timed events, with the process of each
    event beside its answer. *)
Fixpoint run (d : StrideDetector) (evs : list (AccessEvent * Z)) :
    outcome (StrideDetector * list (Z * option PrefetchRecommendation)) :=
  match evs with
  | [] => Ret (d, [])
  | (ev, now) :: evs' =>
      '(d, r) ← process_event d now ev;
      '(d, rs) ← run d evs';
      Ret (d, (pid ev, r) :: rs)
  end.

(** Process [p] walks the addresses [v, v + s, v + 2 s, ...]: [k] steps are
    done and the last access was at [t]; no pause exceeds the decay interval.
    Other processes do anything. *)
Fixpoint walks (decay p v s k t : Z) (evs : list (AccessEvent * Z)) : Prop :=
  match evs with
  | [] => True
  | (ev, now) :: evs' =>
      if pid ev =? p
      then vaddr ev = v + (k + 1) * s ∧ now - t ≤ decay ∧ walks decay p v s (k + 1) now evs'
      else walks decay p v s k t evs'
  end.

(** The answers that walk deserves. *)
Fixpoint advice (min_conf max_count p v s k : Z) (evs : list (AccessEvent * Z)) :
    list (option PrefetchRecommendation) :=
  match evs with
  | [] => []
  | (ev, now) :: evs' =>
      if pid ev =? p
      then (if min_conf <=? k + 1
            then Some {| rec_pid := p; base_vaddr := wrap 64 (v + (k + 2) * s);
                         stride_bytes := s;
                         count := Z.min (2 * (k + 1)) max_count |}
            else None) :: advice min_conf max_count p v s (k + 1) evs'
      else advice min_conf max_count p v s k evs'
  end.

(** Addresses below 2^62 keep the signed arithmetic in range; [n] bounds the
    confidence. *)
Definition state_ok (n : Z) (st : StrideState) : Prop :=
  0 ≤ last_vaddr st < 2 ^ 62 ∧ 0 ≤ confidence st ≤ n.

Definition event_ok (e : AccessEvent * Z) : Prop := 0 ≤ vaddr e.1 < 2 ^ 62.

Lemma process_entry_ok d now ev st n :
  0 ≤ vaddr ev < 2 ^ 62 → state_ok n st → 0 ≤ n < 2 ^ 62 →
  ∃ st' r, process_entry d now ev st = Ret (st', r) ∧ state_ok (n + 1) st'.
Proof.
  intros Hv [Hl Hc] Hn. unfold process_entry, saturating_sub.
  rewrite !to_signed_small by lia. rewrite iarith_ret by lia. monad_simpl.
  set (conf := if decay_interval d <? _ then _ else _).
  assert (0 ≤ conf ≤ n) by (unfold conf; case_if; lia).
  destruct (Z.eqb_spec (vaddr ev - last_vaddr st) 0); 
    [do 2 eexists; split; [done|split; cbn; lia]|].
  assert (∃ c, (if vaddr ev - last_vaddr st =? last_stride st then arith 64 (conf + 1) else Ret 1)
               = Ret c ∧ 0 ≤ c ≤ n + 1) as (c & -> & Hc').
  { case_if; [rewrite arith_ret by lia|]; eexists; (split; [done|lia]). }
  monad_simpl. destruct (_ <=? c).
  - rewrite arith_ret, iarith_ret by lia. monad_simpl. do 2 eexists. split; [done|].
    split; cbn; lia.
  - do 2 eexists. split; [done|]. split; cbn; lia.
Qed.

(** One step of the walk: confidence grows by one and the advice follows. *)
Lemma process_entry_walk d now ev v s k t :
  s ≠ 0 → 0 ≤ k < 2 ^ 62 → vaddr ev = v + (k + 1) * s → now - t ≤ decay_interval d →
  0 ≤ decay_interval d → 0 ≤ v + k * s < 2 ^ 62 → 0 ≤ vaddr ev < 2 ^ 62 →
  process_entry d now ev
    {| last_vaddr := v + k * s; last_stride := (if k =? 0 then 0 else s);
       confidence := k; last_access_time := t |}
  = Ret ({| last_vaddr := v + (k + 1) * s; last_stride := s; confidence := k + 1;
            last_access_time := now |},
         if min_confidence d <=? k + 1
         then Some {| rec_pid := pid ev; base_vaddr := wrap 64 (v + (k + 2) * s);
                      stride_bytes := s;
                      count := Z.min (2 * (k + 1)) (max_prefetch_count d) |}
         else None).
Proof.
  intros Hs Hk Hv Ht Hd Hb Hb'. unfold process_entry. cbn [last_vaddr last_stride confidence
    last_access_time]. rewrite !to_signed_small by lia.
  rewrite (proj2 (Z.ltb_ge _ _)) by lia.
  replace (vaddr ev - (v + k * s)) with s by lia.
  rewrite iarith_ret by lia. monad_simpl. rewrite (proj2 (Z.eqb_neq s 0)) by done.
  assert ((if s =? (if k =? 0 then 0 else s) then arith 64 (k + 1) else Ret 1) = Ret (k + 1)) as ->.
  { destruct (Z.eqb_spec k 0) as [->|Hk0].
    - by rewrite (proj2 (Z.eqb_neq s 0)).
    - rewrite Z.eqb_refl. apply arith_ret. lia. }
  monad_simpl. rewrite <- Hv. case_if; [|done].
  rewrite arith_ret, iarith_ret by lia. monad_simpl.
  replace (v + (k + 2) * s) with (vaddr ev + s) by lia.
  by replace (2 * (k + 1)) with ((k + 1) * 2) by lia.
Qed.

Definition walk_state (v s k t : Z) : StrideState :=
  {| last_vaddr := v + k * s; last_stride := (if k =? 0 then 0 else s);
     confidence := k; last_access_time := t |}.

Lemma process_entry_first d t ev s :
  0 ≤ vaddr ev < 2 ^ 62 → 0 ≤ decay_interval d →
  process_entry d t ev (new_state (vaddr ev) t) = Ret (walk_state (vaddr ev) s 0 t, None).
Proof.
  intros Hv Hd. unfold process_entry, walk_state, new_state.
  cbn [last_vaddr last_stride confidence last_access_time].
  rewrite !to_signed_small by lia. rewrite iarith_ret by lia. monad_simpl.
  rewrite (proj2 (Z.eqb_eq _ _)), (proj2 (Z.ltb_ge _ _)) by lia.
  do 3 f_equal. lia.
Qed.

Lemma run_walk evs : ∀ d p v s k t n,
  s ≠ 0 → 0 ≤ k ≤ n → n + Z.of_nat (length evs) < 2 ^ 62 → 0 ≤ decay_interval d →
  Forall event_ok evs → map_Forall (λ _ st, state_ok n st) (state d) →
  state d !! p = Some (walk_state v s k t) → walks (decay_interval d) p v s k t evs →
  ∃ d' rs, run d evs = Ret (d', rs) ∧
    (filter (λ a, a.1 = p) rs).*2 = advice (min_confidence d) (max_prefetch_count d) p v s k evs.
Proof.
  induction evs as [|[ev now] evs IH]; intros d p v s k t n Hs Hk Hn Hd Hev Hst Hp Hw;
    cbn [run walks advice length] in *; [by eauto|].
  apply Forall_cons in Hev as [He Hev]. unfold event_ok in He. cbn [fst] in He.
  unfold process_event. destruct (Z.eqb_spec (pid ev) p) as [<-|Hne].
  - destruct Hw as (Hv & Ht & Hw). rewrite Hp. cbn [from_option id].
    destruct (Hst _ _ Hp) as [Hl _]. cbn [walk_state last_vaddr] in Hl.
    unfold walk_state. rewrite process_entry_walk by (done || lia). monad_simpl.
    destruct (IH (with_state d (<[pid ev := walk_state v s (k + 1) now]> (state d)))
      (pid ev) v s (k + 1) now (n + 1)) as (d' & rs & E & Hrs); try done; try lia.
    + cbn [state with_state]. apply map_Forall_insert_2.
      * split; cbn; lia.
      * eapply map_Forall_impl; [exact Hst|]. intros ? ? [? ?]. split; lia.
    + cbn. by rewrite lookup_insert_eq.
    + unfold walk_state in E. rewrite (proj2 (Z.eqb_neq (k + 1) 0)) in E by lia.
      rewrite E. monad_simpl. do 2 eexists. split; [done|].
      rewrite filter_cons_True by done. cbn. f_equal. apply Hrs.
  - set (st := default _ _).
    assert (state_ok n st) as Hok.
    { unfold st. destruct (state d !! pid ev) as [st0|] eqn:E; cbn; [by eapply Hst|].
      split; cbn; lia. }
    destruct (process_entry_ok d now ev st n) as (st' & r & -> & Hst'); [done|done|lia|].
    monad_simpl.
    destruct (IH (with_state d (<[pid ev := st']> (state d))) p v s k t (n + 1))
      as (d' & rs & E & Hrs); try done; try lia.
    + cbn [state with_state]. apply map_Forall_insert_2; [done|].
      eapply map_Forall_impl; [exact Hst|]. intros ? ? [? ?]. split; lia.
    + cbn. by rewrite lookup_insert_ne.
    + rewrite E. monad_simpl. do 2 eexists. split; [done|].
      rewrite filter_cons_False by (by cbn). apply Hrs.
Qed.

(** C39. A linear walk is recognised whatever other processes do: when a process
    that is not tracked yet touches [v, v + s, v + 2 s, ...] with a stride other
    than 0, addresses below [2^62] and no pause longer than the decay interval,
    in a run of fewer than [2^62] events, its [k]-th step gets a recommendation exactly when
    [k] has reached the minimum confidence, for the next address of the walk,
    with the stride of the walk and [min (2 k) max] pages; events of other
    processes in between change nothing, and no arithmetic overflows. *)
Theorem linear_walk_recognised d p v s t n (e0 : AccessEvent) evs :
  s ≠ 0 → 0 ≤ n → n + 1 + Z.of_nat (length evs) < 2 ^ 62 → 0 ≤ decay_interval d →
  map_Forall (λ _ st, state_ok n st) (state d) → state d !! p = None →
  pid e0 = p → vaddr e0 = v → Forall event_ok ((e0, t) :: evs) →
  walks (decay_interval d) p v s 0 t evs →
  ∃ d' rs, run d ((e0, t) :: evs) = Ret (d', (p, None) :: rs) ∧
    (filter (λ a, a.1 = p) rs).*2 =
      advice (min_confidence d) (max_prefetch_count d) p v s 0 evs.
Proof.
  intros Hs Hn Hlen Hd Hst Hp <- <- Hev Hw. apply Forall_cons in Hev as [He Hev].
  unfold event_ok in He. cbn [fst] in He. cbn [run]. unfold process_event. rewrite Hp.
  cbn [from_option]. rewrite (process_entry_first d t e0 s) by done. monad_simpl.
  destruct (run_walk evs (with_state d (<[pid e0 := walk_state (vaddr e0) s 0 t]> (state d)))
    (pid e0) (vaddr e0) s 0 t (n + 1)) as (d' & rs & -> & Hrs); try done; try lia.
  - cbn [state with_state]. apply map_Forall_insert_2; [split; cbn; lia|].
    eapply map_Forall_impl; [exact Hst|]. intros ? ? [? ?]. split; lia.
  - cbn. by rewrite lookup_insert_eq.
  - monad_simpl. by exists d', rs.
Qed.

End Detection.

(** Process 7 walks down by 4096 while process 9 jumps around. *)
Lemma linear_walk_recognised_witness :
  let ev p a := Event 0 p a false in
  ∃ d' rs,
    run (H := Dev) default_detector
      [(ev 7 81920, 0); (ev 9 4096, 1); (ev 7 77824, 10); (ev 9 0, 11); (ev 7 73728, 20)]
      = Ret (d', (7, None) :: rs) ∧
    (filter (λ a, a.1 = 7) rs).*2 =
      [None; Some {| rec_pid := 7; base_vaddr := 69632; stride_bytes := -4096; count := 4 |}].
Proof.
  apply (linear_walk_recognised (H := Dev) default_detector 7 81920 (-4096) 0 0
    (Event 0 7 81920 false)
    [(Event 0 9 4096 false, 1); (Event 0 7 77824 false, 10); (Event 0 9 0 false, 11);
     (Event 0 7 73728 false, 20)]);
    [discriminate|discriminate|reflexivity|discriminate|apply map_Forall_empty
    |reflexivity|reflexivity|reflexivity|repeat constructor; discriminate
    |repeat split; discriminate].
Defined.

(** After a pause the confidence drops by one, not by half as the comment says. *)
Lemma decay_is_by_one :
  let st := {| last_vaddr := 4096; last_stride := 4096; confidence := 8;
               last_access_time := 0 |} in
  process_entry (H := Dev) default_detector 200000000 (Event 0 1 4096 false) st
  = Ret ({| last_vaddr := 4096; last_stride := 4096; confidence := 7;
            last_access_time := 200000000 |}, None).
Proof. vm_compute. reflexivity. Qed.

(** The lock map: an owned lock is refused to everyone else until its owner
    releases it. *)
Lemma ebpf_lock_exclusive m rid p q :
  let '(m1, r) := EbpfMaps.acquire_lock m rid p in
  r = Ok tt → q ≠ p →
  (EbpfMaps.acquire_lock m1 rid q).2 = Err (EbpfMaps.LockConflict rid q) ∧
  (EbpfMaps.release_lock m1 rid q).2 = Err (EbpfMaps.LockNotHeld rid q) ∧
  (EbpfMaps.release_lock m1 rid p).2 = Ok tt.
Proof.
  unfold EbpfMaps.acquire_lock at 1.
  assert (Hheld : ∀ st : EbpfMaps.LockState, EbpfMaps.holder_pid st = Some p → q ≠ p →
    let m1 := EbpfMaps.with_locks m (<[rid := st]> (EbpfMaps.locks m)) in
    (EbpfMaps.acquire_lock m1 rid q).2 = Err (EbpfMaps.LockConflict rid q) ∧
    (EbpfMaps.release_lock m1 rid q).2 = Err (EbpfMaps.LockNotHeld rid q) ∧
    (EbpfMaps.release_lock m1 rid p).2 = Ok tt).
  { intros st Hst Hne. cbv zeta. unfold EbpfMaps.acquire_lock, EbpfMaps.release_lock.
    cbn [EbpfMaps.locks EbpfMaps.with_locks]. rewrite lookup_insert_eq. cbn [from_option id].
    rewrite Hst, (proj2 (Z.eqb_neq p q)), decide_False, decide_True by congruence. done. }
  destruct (EbpfMaps.holder_pid _) as [c|].
  - destruct (Z.eqb_spec c p) as [->|]; [|done]. intros _ Hne. by apply Hheld.
  - intros _ Hne. by apply Hheld.
Qed.

End EbpfTheorems.
