(* ===== verification/EbpfTrace.v ===== *)
(** * The telemetry pipeline

    [Trace] models [EbpfTraceManager] of [klnk-ebpf/src/lib.rs] and the
    start-up and consumer task of [klnk-ebpf/src/main.rs]: the manager with the
    sending half of a channel, the detector behind its mutex, and the task that
    reads the channel.  The channel is [tokio]'s and is an argument, the class
    [Mpsc]; [MpscLaws] is what its documentation says and the theorems use.
    Attaching probes only looks for a directory, which is an argument. *)

From S2P Require Import Prelude Domain Config Ebpf.

Module Trace.
Import Stride.

Inductive EbpfError :=
  | ProbeLoadFailed (e : string)
  | TracepointAttachFailed (e : string)
  | RingBufferError (unsent : AccessEvent)
  | NotActive.

Record EbpfTraceManager := { config : Config.VirthubConfig; is_active : bool }.

Inductive poll (A : Type) := Pending | Ready (a : A).
Arguments Pending {A}.
Arguments Ready {A} a.

(** [tokio::sync::mpsc] with a bound: the state of one channel with its halves.
    [mpsc_send] and [mpsc_recv] are one poll of [Sender::send] and of
    [Receiver::recv]; a send that finds the channel closed gives the event
    back. *)
Class Mpsc := {
  mpsc : Type;
  mpsc_channel : Z → outcome mpsc;
  mpsc_send : mpsc → AccessEvent → mpsc * poll (result AccessEvent ());
  mpsc_recv : mpsc → mpsc * poll (option AccessEvent);
  mpsc_drop_sender : mpsc → mpsc;
  mpsc_drop_receiver : mpsc → mpsc;
}.

(** A channel has at least one slot, or its constructor panics; the receiver of
    a channel without messages waits while there is a sender and gets [None]
    when the last one is gone. *)
Class MpscLaws `{!Mpsc} := {
  mpsc_channel_panics : mpsc_channel 0 = Panic;
  mpsc_channel_new n : 0 < n → ∃ c, mpsc_channel n = Ret c;
  mpsc_fresh_waits n c : mpsc_channel n = Ret c → (mpsc_recv c).2 = Pending;
  mpsc_fresh_ends n c : mpsc_channel n = Ret c → (mpsc_recv (mpsc_drop_sender c)).2 = Ready None;
}.

Section Channel.
Context `{!Mpsc}.

(** What the manager shares with the consumer: the channel, the number of
    managers, each of which holds a sender, and the detector; a panic inside
    its mutex poisons it. *)
Record Telemetry := {
  channel : mpsc;
  managers : Z;
  detector : option StrideDetector;
}.

Definition set_channel (t : Telemetry) (c : mpsc) : Telemetry :=
  {| channel := c; managers := managers t; detector := detector t |}.
Definition set_detector (t : Telemetry) (d : option StrideDetector) : Telemetry :=
  {| channel := channel t; managers := managers t; detector := d |}.

(** The consumer ends and drops the receiver. *)
Definition close (t : Telemetry) : Telemetry := set_channel t (mpsc_drop_receiver (channel t)).

(** Dropping one manager. *)
Definition drop_manager (t : Telemetry) : Telemetry :=
  {| channel := mpsc_drop_sender (channel t); managers := managers t - 1; detector := detector t |}.

Definition new (cfg : Config.VirthubConfig) (channel_buffer_size : Z) :
    outcome (EbpfTraceManager * Telemetry) :=
  c ← mpsc_channel channel_buffer_size;
  Ret ({| config := cfg; is_active := true |},
       {| channel := c; managers := 1; detector := Some default_detector |}).

(** [debugfs]: the directory [/sys/kernel/debug/tracing] exists. *)
Definition attach_probes (self : EbpfTraceManager) (debugfs : bool) : result EbpfError () :=
  if negb (is_active self) then Err NotActive else if debugfs then Ok tt else Ok tt.

(** [Pending]: the send waits for a slot. *)
Definition submit_event (t : Telemetry) (ev : AccessEvent) : Telemetry * poll (result EbpfError ()) :=
  let '(c, sent) := mpsc_send (channel t) ev in
  (set_channel t c,
   match sent with
   | Pending => Pending
   | Ready r => Ready (map_err RingBufferError r)
   end).

Definition recv (t : Telemetry) : Telemetry * poll (option AccessEvent) :=
  let '(c, r) := mpsc_recv (channel t) in (set_channel t c, r).

Section Consumer.
Context `{BuildProfile}.

Definition analyze_event (t : Telemetry) (now : Z) (ev : AccessEvent) :
    Telemetry * outcome (option PrefetchRecommendation) :=
  match detector t with
  | None => (t, Panic)
  | Some d =>
      match process_event d now ev with
      | Ret (d, r) => (set_detector t (Some d), Ret r)
      | Panic => (set_detector t None, Panic)
      | OutOfFuel => (t, OutOfFuel)
      end
  end.

Inductive task := Running | Finished | Panicked.

(** The binary: the shared state, the consumer task and what it has printed. *)
Record Sys := { telemetry : Telemetry; consumer : task; printed : list PrefetchRecommendation }.

(** One round of the consumer's loop. *)
Definition poll_consumer (now : Z) (s : Sys) : Sys :=
  match consumer s with
  | Running =>
      match recv (telemetry s) with
      | (t, Pending) => {| telemetry := t; consumer := Running; printed := printed s |}
      | (t, Ready None) => {| telemetry := close t; consumer := Finished; printed := printed s |}
      | (t, Ready (Some ev)) =>
          match analyze_event t now ev with
          | (t, Ret r) =>
              {| telemetry := t; consumer := Running; printed := printed s ++ option_list r |}
          | (t, _) => {| telemetry := close t; consumer := Panicked; printed := printed s |}
          end
      end
  | _ => s
  end.

Inductive action := Submit (ev : AccessEvent) | Poll (now : Z) | DropManager.

Definition act (s : Sys) (a : action) : Sys :=
  match a with
  | Submit ev =>
      if managers (telemetry s) =? 0 then s
      else {| telemetry := (submit_event (telemetry s) ev).1; consumer := consumer s; printed := printed s |}
  | Poll now => poll_consumer now s
  | DropManager => {| telemetry := drop_manager (telemetry s); consumer := consumer s; printed := printed s |}
  end.

(** [main] up to the wait for Ctrl-C: [loaded] is the configuration, if it
    loads.  The manager is a local of the block that spawns the consumer. *)
Definition sample_region : EbpfMaps.RegionState :=
  {| EbpfMaps.region_id := {| owner_pid := 100; shmid := 1 |}; EbpfMaps.region_base := 0x7fff00000000;
     EbpfMaps.region_len := 2 * 1024 * 1024; EbpfMaps.owner_node := 1 |}.

Definition main (loaded : option Config.VirthubConfig) (debugfs : bool) :
    outcome (result EbpfMaps.EbpfManagerError (EbpfMaps.EbpfManager * option Sys)) :=
  let cfg := from_option id Config.default loaded in
  let '(manager, r) := EbpfMaps.register_region EbpfMaps.new sample_region in
  match r with
  | Err e => Ret (Err e)
  | Ok _ =>
      if Config.enabled (Config.ebpf cfg) then
        '(trace_manager, t) ← new cfg 1024;
        let logged := attach_probes trace_manager debugfs in
        let s := {| telemetry := t; consumer := Running; printed := [] |} in
        Ret (Ok (manager, Some (act s DropManager)))
      else Ret (Ok (manager, None))
  end.

End Consumer.
End Channel.
End Trace.

Module TraceTheorems.
Import Stride Trace.

Section Theorems.
Context `{BuildProfile} `{!Mpsc} `{!MpscLaws}.

Lemma recv_snd t : (recv t).2 = (mpsc_recv (channel t)).2.
Proof. unfold recv. by destruct (mpsc_recv (channel t)). Qed.

(** A round of the consumer after the last manager is gone. *)
Lemma poll_ends t now :
  (mpsc_recv (channel t)).2 = Ready None →
  ∃ t', poll_consumer now {| telemetry := t; consumer := Running; printed := [] |}
        = {| telemetry := t'; consumer := Finished; printed := [] |} ∧ managers t' = managers t.
Proof.
  intros E. unfold poll_consumer, recv. cbn [consumer telemetry].
  destruct (mpsc_recv (channel t)) as [c r]. cbn in E. subst r. by eexists.
Qed.

(** The binary registers its region, and its telemetry ends at once: the manager
    is dropped with the block that built it, so that no event can be submitted
    and the first round of the consumer ends its loop. *)
Theorem main_telemetry_ends loaded debugfs :
  Config.enabled (Config.ebpf (from_option id Config.default loaded)) = true →
  ∃ m s, main loaded debugfs = Ret (Ok (m, Some s)) ∧
    EbpfMaps.get_region m (EbpfMaps.region_id sample_region) = Some sample_region ∧
    ∀ acts, DropManager ∉ acts →
      printed (foldl act s acts) = [] ∧
      consumer (foldl act s acts) = if existsb (λ a, match a with Poll _ => true | _ => false end) acts
                                    then Finished else Running.
Proof.
  intros He. unfold main. rewrite He. destruct (mpsc_channel_new 1024) as [c Hc]; [lia|].
  unfold new. cbn [mbind outcome_bind]. rewrite Hc. cbn [mbind outcome_bind].
  eexists _, _. split; [reflexivity|]. split; [reflexivity|].
  assert (Hend : ∀ acts t', managers t' = 0 → DropManager ∉ acts →
    foldl act {| telemetry := t'; consumer := Finished; printed := [] |} acts
    = {| telemetry := t'; consumer := Finished; printed := [] |}).
  { intros acts t' Ht. induction acts as [|a acts IH]; [done|]. intros [Ha0 Ha]%not_elem_of_cons.
    cbn [foldl]. destruct a; [|by apply IH|done]. cbn [act telemetry]. rewrite Ht. by apply IH. }
  intros acts. cbn [act telemetry consumer printed]. set (t := drop_manager _).
  assert (Ht : (mpsc_recv (channel t)).2 = Ready None) by exact (mpsc_fresh_ends _ _ Hc).
  induction acts as [|a acts IH]; [done|]. intros [Ha0 Ha]%not_elem_of_cons.
  destruct a as [ev|now|]; [by apply IH| |done]. cbn [foldl act existsb orb].
  destruct (poll_ends t now Ht) as (t' & -> & Hm). by rewrite Hend.
Qed.

End Theorems.

(** ** A channel

    Messages and waiting sends in the order they came. *)
Record fifo := Fifo {
  capacity : Z;
  queue : list AccessEvent;
  waiting : list AccessEvent;
  senders : Z;
  open : bool;
}.

#[export] Instance fifo_mpsc : Mpsc := {|
  mpsc := fifo;
  mpsc_channel n := if n =? 0 then Panic else Ret (Fifo n [] [] 1 true);
  mpsc_send c ev :=
    if negb (open c) then (c, Ready (Err ev))
    else if Z.of_nat (length (queue c)) <? capacity c
    then (Fifo (capacity c) (queue c ++ [ev]) (waiting c) (senders c) true, Ready (Ok tt))
    else (Fifo (capacity c) (queue c) (waiting c ++ [ev]) (senders c) true, Pending);
  mpsc_recv c :=
    match queue c, waiting c with
    | ev :: q, w :: ws => (Fifo (capacity c) (q ++ [w]) ws (senders c) (open c), Ready (Some ev))
    | ev :: q, [] => (Fifo (capacity c) q [] (senders c) (open c), Ready (Some ev))
    | [], _ => (c, if senders c =? 0 then Ready None else Pending)
    end;
  mpsc_drop_sender c := Fifo (capacity c) (queue c) (waiting c) (senders c - 1) (open c);
  mpsc_drop_receiver c := Fifo (capacity c) [] [] (senders c) false;
|}.

#[export] Instance fifo_laws : MpscLaws.
Proof.
  split; cbn; [done| | |].
  - intros n Hn. rewrite (proj2 (Z.eqb_neq _ _)) by lia. by eexists.
  - intros n c. destruct (n =? 0); [done|]. by intros [= <-].
  - intros n c. destruct (n =? 0); [done|]. by intros [= <-].
Qed.

Lemma main_telemetry_ends_witness :
  ∃ m s, main (H0 := Dev) None true = Ret (Ok (m, Some s)) ∧ consumer (poll_consumer (H0 := Dev) 0 s) = Finished.
Proof.
  destruct (main_telemetry_ends (H := Dev) None true eq_refl) as (m & s & E & _ & Hs).
  exists m, s. split; [exact E|]. apply (Hs [Poll 0]). apply not_elem_of_cons. split; [done|apply not_elem_of_nil].
Defined.

End TraceTheorems.
