(* ===== verification/Rma.v ===== *)
(** * Remote memory access

    [MrRegistry], [RqRefill], [Provider] and [Engine] model
    [librmashim/src/{mr_registry,rq_refill,rdma_provider,lib}.rs]: the registry
    of memory regions with its two indices, the receive-queue depth counter,
    the software provider and the transport engine on top of it.  Detecting the
    hardware is in [Startup]; yielding to the runtime is not modelled. *)

From stdpp Require Import strings.
From S2P Require Import Prelude.

Module MrRegistry.

Inductive MemoryRegionError :=
  | AlreadyExists (rkey : Z)
  | NotFound (rkey : Z)
  | InvalidDescriptor (msg : string).

Record MemoryRegion := Region {
  rkey : Z;
  lkey : Z;
  vaddr : Z;
  size : Z;
  flags : Z;
  node_id : Z;
}.

Definition contains_range `{BuildProfile} (self : MemoryRegion) (target length : Z) :
    outcome bool :=
  and_then (vaddr self <=? target)
    (a ← arith 64 (target + length);
     b ← arith 64 (vaddr self + size self);
     Ret (a <=? b)).

Record MemoryRegionRegistry := Registry {
  regions : gmap Z MemoryRegion;
  vaddr_index : gmap (Z * Z) Z;
}.

Definition new : MemoryRegionRegistry := Registry ∅ ∅.

Definition register (self : MemoryRegionRegistry) (region : MemoryRegion) :
    MemoryRegionRegistry * result MemoryRegionError () :=
  if (vaddr region =? 0) || (size region =? 0)
  then (self, Err (InvalidDescriptor "Base address and size must be non-zero"))
  else if decide (is_Some (regions self !! rkey region))
  then (self, Err (AlreadyExists (rkey region)))
  else (Registry (<[rkey region := region]> (regions self))
          (<[(vaddr region, size region) := rkey region]> (vaddr_index self)), Ok tt).

Definition register_region (self : MemoryRegionRegistry) (va sz rk lk fl node : Z) :
    MemoryRegionRegistry * result MemoryRegionError MemoryRegion :=
  let mr := Region rk lk va sz fl node in
  let '(self, r) := register self mr in (self, _ ← r; Ok mr).

Definition get (self : MemoryRegionRegistry) (k : Z) : option MemoryRegion :=
  regions self !! k.

Definition get_by_vaddr_size (self : MemoryRegionRegistry) (va sz : Z) :
    option MemoryRegion :=
  match vaddr_index self !! (va, sz) with
  | Some k => regions self !! k
  | None => None
  end.

Definition deregister (self : MemoryRegionRegistry) (k : Z) :
    MemoryRegionRegistry * result MemoryRegionError MemoryRegion :=
  match regions self !! k with
  | Some region =>
      (Registry (delete k (regions self))
         (delete (vaddr region, size region) (vaddr_index self)), Ok region)
  | None => (self, Err (NotFound k))
  end.

Definition clear (self : MemoryRegionRegistry) : MemoryRegionRegistry := Registry ∅ ∅.
Definition len (self : MemoryRegionRegistry) : Z := Z.of_nat (base.size (regions self)).
Definition is_empty (self : MemoryRegionRegistry) : bool := bool_decide (regions self = ∅).

End MrRegistry.

Module RqRefill.

Record RqConfig := { capacity : Z; low_watermark : Z; batch_size : Z }.

Definition default_config : RqConfig :=
  {| capacity := 512; low_watermark := 128; batch_size := 64 |}.

Inductive RqRefillError := InvalidConfig (capacity watermark : Z).

Record RqRefillManager := { config : RqConfig; outstanding_depth : Z }.

Definition new (config : RqConfig) : result RqRefillError RqRefillManager :=
  if (capacity config <=? low_watermark config) || (capacity config =? 0)
  then Err (InvalidConfig (capacity config) (low_watermark config))
  else Ok {| config := config; outstanding_depth := 0 |}.

Definition needs_refill (self : RqRefillManager) : bool :=
  outstanding_depth self <? low_watermark (config self).

Definition refill_deficit (self : RqRefillManager) : Z :=
  let current := outstanding_depth self in
  if current <? capacity (config self)
  then Z.min (capacity (config self) - current) (batch_size (config self)) else 0.

(** [n] is the number of buffers. *)
Definition post_refill_batch (self : RqRefillManager) (n : Z) :
    RqRefillManager * result RqRefillError Z :=
  if n =? 0 then (self, Ok 0)
  else
    let batch_len := Z.min n (batch_size (config self)) in
    ({| config := config self;
        outstanding_depth := wrap 64 (outstanding_depth self + batch_len) |}, Ok batch_len).

Definition on_work_completion (self : RqRefillManager) (count : Z) : RqRefillManager :=
  {| config := config self;
     outstanding_depth := saturating_sub (outstanding_depth self) count |}.

Definition current_depth (self : RqRefillManager) : Z := outstanding_depth self.

End RqRefill.

Module Provider.

Inductive QpState := Reset | Init | ReadyToReceive | ReadyToSend | ErrorState.

Record QueuePair := { qp_num : Z; qp_state : QpState }.

Inductive RdmaProviderError :=
  | InitFailed (msg : string)
  | MrError (e : MrRegistry.MemoryRegionError)
  | QpCreationFailed (msg : string)
  | CqError (msg : string)
  | PostFailed (msg : string)
  | PeerNotConnected (peer : SocketAddr)
  | Unimplemented (msg : string).

Record RdmaProvider := {
  qps : gmap SocketAddr QueuePair;
  mr_registry : MrRegistry.MemoryRegionRegistry;
  next_qp_num : Z;
  completed_wrs : Z;
}.

Definition new : RdmaProvider :=
  {| qps := ∅; mr_registry := MrRegistry.new; next_qp_num := 1; completed_wrs := 0 |}.

Definition with_registry (self : RdmaProvider) (r : MrRegistry.MemoryRegionRegistry) (n : Z) :
    RdmaProvider :=
  {| qps := qps self; mr_registry := r; next_qp_num := n;
     completed_wrs := completed_wrs self |}.

(** Keys and queue-pair numbers come from one 32-bit counter. *)
Definition register_region (self : RdmaProvider) (va sz fl : Z) :
    RdmaProvider * result RdmaProviderError MrRegistry.MemoryRegion :=
  match MrRegistry.get_by_vaddr_size (mr_registry self) va sz with
  | Some existing => (self, Ok existing)
  | None =>
      let rk := next_qp_num self in
      let region := MrRegistry.Region rk rk va sz fl 0 in
      let '(reg, r) := MrRegistry.register (mr_registry self) region in
      (with_registry self reg (wrap 32 (rk + 1)), map_err MrError (_ ← r; Ok region))
  end.

Definition deregister_region (self : RdmaProvider) (k : Z) :
    RdmaProvider * result RdmaProviderError () :=
  let '(reg, r) := MrRegistry.deregister (mr_registry self) k in
  (with_registry self reg (next_qp_num self), map_err MrError (_ ← r; Ok tt)).

Definition create_qp (self : RdmaProvider) (peer : SocketAddr) :
    RdmaProvider * result RdmaProviderError QueuePair :=
  match qps self !! peer with
  | Some qp => (self, Ok qp)
  | None =>
      let qp := {| qp_num := next_qp_num self; qp_state := Init |} in
      ({| qps := <[peer := qp]> (qps self); mr_registry := mr_registry self;
          next_qp_num := wrap 32 (next_qp_num self + 1);
          completed_wrs := completed_wrs self |}, Ok qp)
  end.

Definition get_or_create_qp (self : RdmaProvider) (peer : SocketAddr) :
    RdmaProvider * result RdmaProviderError QueuePair :=
  match qps self !! peer with
  | Some qp => (self, Ok qp)
  | None => create_qp self peer
  end.

(** What the four work requests share: the queue pair is looked up, no data is
    moved and the request is counted as completed. *)
Definition post {A} (self : RdmaProvider) (peer : SocketAddr) (answer : A) :
    RdmaProvider * result RdmaProviderError A :=
  let '(self, r) := get_or_create_qp self peer in
  match r with
  | Err e => (self, Err e)
  | Ok _ =>
      ({| qps := qps self; mr_registry := mr_registry self;
          next_qp_num := next_qp_num self;
          completed_wrs := wrap 32 (completed_wrs self + 1) |}, Ok answer)
  end.

Definition post_read (self : RdmaProvider) (peer : SocketAddr) (remote_vaddr rkey local_vaddr len : Z) :=
  post self peer tt.
Definition post_write (self : RdmaProvider) (peer : SocketAddr) (remote_vaddr rkey local_vaddr len : Z) :=
  post self peer tt.
Definition post_atomic_cas (self : RdmaProvider) (peer : SocketAddr) (remote_vaddr rkey compare swap : Z) :=
  post self peer compare.
Definition post_atomic_faa (self : RdmaProvider) (peer : SocketAddr) (remote_vaddr rkey add : Z) :=
  post self peer add.

Definition poll_cq (self : RdmaProvider) (max_entries : Z) :
    RdmaProvider * result RdmaProviderError Z :=
  let count := completed_wrs self in
  if 0 <? count
  then ({| qps := qps self; mr_registry := mr_registry self;
           next_qp_num := next_qp_num self; completed_wrs := 0 |}, Ok count)
  else (self, Ok 0).

Definition refill_rq {A} (self : RdmaProvider) (buffers : list A) :
    result RdmaProviderError Z := Ok (Z.of_nat (length buffers)).

Definition enable_optimizations (self : RdmaProvider) : result RdmaProviderError () := Ok tt.

End Provider.

Module Engine.

(** [QueuePairError] and [CompletionError] carry the text of a provider error,
    represented by that error. *)
Inductive RmaError :=
  | DeviceNotFound (name : string)
  | ContextCreationFailed
  | MemoryRegistrationFailed (vaddr size : Z)
  | QueuePairError (e : Provider.RdmaProviderError)
  | CompletionError (e : Provider.RdmaProviderError)
  | IoError (msg : string)
  | Unimplemented (msg : string).

Record RegisteredRegion := Reg {
  lkey : Z;
  rkey : Z;
  vaddr : Z;
  length_ : Z;
  gpu_id : option Z;
}.

Record Completion := {
  opcode : Z;
  status : Z;
  wr_id : Z;
  immediate_data : option Z;
}.

Definition completion : Completion :=
  {| opcode := 0; status := 0; wr_id := 0; immediate_data := None |}.

(** The configuration and the listening address are stored and not used. *)
Record RmaTransportEngine := Engine {
  active_device : option string;
  hardware_accelerated : bool;
  next_rkey : Z;
  registered_regions : gmap Z RegisteredRegion;
  completed_ops : Z;
  rdma_provider : option Provider.RdmaProvider;
}.

(** [device_name] comes from the configuration; [detected] is what the scan of
    [/sys/class/infiniband] finds. *)
Definition auto_detect (device_name detected : option string) : RmaTransportEngine :=
  let active_device := match device_name with Some d => Some d | None => detected end in
  let is_hw := bool_decide (is_Some active_device) in
  Engine active_device is_hw 1001 ∅ 0 (Some Provider.new).

Definition is_hardware_accelerated (self : RmaTransportEngine) : bool :=
  hardware_accelerated self.

Definition with_regions (self : RmaTransportEngine) (m : gmap Z RegisteredRegion) :
    RmaTransportEngine :=
  Engine (active_device self) (hardware_accelerated self) (next_rkey self) m
    (completed_ops self) (rdma_provider self).

Definition with_provider (self : RmaTransportEngine) (p : Provider.RdmaProvider) :
    RmaTransportEngine :=
  Engine (active_device self) (hardware_accelerated self) (next_rkey self)
    (registered_regions self) (completed_ops self) (Some p).

Definition with_completed (self : RmaTransportEngine) (n : Z) : RmaTransportEngine :=
  Engine (active_device self) (hardware_accelerated self) (next_rkey self)
    (registered_regions self) n (rdma_provider self).

Definition with_next_rkey (self : RmaTransportEngine) (k : Z) : RmaTransportEngine :=
  Engine (active_device self) (hardware_accelerated self) k
    (registered_regions self) (completed_ops self) (rdma_provider self).

Section Engine.
Context `{!IterOrder RegisteredRegion}.

Definition same_region (va len : Z) (gpu : option Z) (r : RegisteredRegion) : bool :=
  (vaddr r =? va) && (length_ r =? len) && bool_decide (gpu_id r = gpu).

Definition register_memory_region (self : RmaTransportEngine) (va len : Z)
    (gpu : option Z) : RmaTransportEngine * result RmaError RegisteredRegion :=
  if (va =? 0) || (len =? 0) then (self, Err (MemoryRegistrationFailed va len))
  else
    match List.find (same_region va len gpu) (iter_order (registered_regions self)).*2 with
    | Some region => (self, Ok region)
    | None =>
        match rdma_provider self with
        | Some provider =>
            let flags := match gpu with Some _ => 3 | None => 3 end in
            let '(p, r) := Provider.register_region provider va len flags in
            let self := with_provider self p in
            match r with
            | Err _ => (self, Err (MemoryRegistrationFailed va len))
            | Ok mr =>
                let reg := Reg (MrRegistry.lkey mr) (MrRegistry.rkey mr)
                               (MrRegistry.vaddr mr) (MrRegistry.size mr) gpu in
                (with_regions self (<[rkey reg := reg]> (registered_regions self)), Ok reg)
            end
        | None =>
            let key := next_rkey self in
            let self := with_next_rkey self (wrap 32 (key + 1)) in
            let region := Reg key key va len gpu in
            (with_regions self (<[key := region]> (registered_regions self)), Ok region)
        end
    end.

Definition deregister_memory_region (self : RmaTransportEngine) (k : Z) :
    RmaTransportEngine * result RmaError () :=
  match rdma_provider self with
  | Some provider =>
      let '(p, r) := Provider.deregister_region provider k in
      let self := with_provider self p in
      match r with
      | Err _ => (self, Err (MemoryRegistrationFailed 0 0))
      | Ok _ => (with_regions self (delete k (registered_regions self)), Ok tt)
      end
  | None => (with_regions self (delete k (registered_regions self)), Ok tt)
  end.

Definition rdma_read (self : RmaTransportEngine)
    (peer : SocketAddr) (remote_vaddr rkey local_vaddr len : Z) : RmaTransportEngine * result RmaError () :=
  let '(self, r) :=
    match rdma_provider self with
    | Some provider =>
        let '(p, r) := Provider.post_read provider peer remote_vaddr rkey local_vaddr len in
        (with_provider self p, map_err QueuePairError r)
    | None => (self, Ok tt)
    end in
  match r with
  | Err e => (self, Err e)
  | Ok _ => (with_completed self (wrap 64 (completed_ops self + 1)), Ok tt)
  end.

Definition rdma_write (self : RmaTransportEngine)
    (peer : SocketAddr) (remote_vaddr rkey local_vaddr len : Z) : RmaTransportEngine * result RmaError () :=
  let '(self, r) :=
    match rdma_provider self with
    | Some provider =>
        let '(p, r) := Provider.post_write provider peer remote_vaddr rkey local_vaddr len in
        (with_provider self p, map_err QueuePairError r)
    | None => (self, Ok tt)
    end in
  match r with
  | Err e => (self, Err e)
  | Ok _ => (with_completed self (wrap 64 (completed_ops self + 1)), Ok tt)
  end.

Definition rdma_write_immediate (self : RmaTransportEngine)
    (peer : SocketAddr) (remote_vaddr rkey local_vaddr len immediate_data : Z) :=
  rdma_write self peer remote_vaddr rkey local_vaddr len.

Definition rdma_atomic_cas (self : RmaTransportEngine)
    (peer : SocketAddr) (remote_vaddr rkey compare swap : Z) : RmaTransportEngine * result RmaError Z :=
  match rdma_provider self with
  | Some provider =>
      let '(p, r) := Provider.post_atomic_cas provider peer remote_vaddr rkey compare swap in
      (with_provider self p, map_err CompletionError r)
  | None => (with_completed self (wrap 64 (completed_ops self + 1)), Ok compare)
  end.

Definition poll_completions (self : RmaTransportEngine) :
    RmaTransportEngine * result RmaError (list Completion) :=
  match rdma_provider self with
  | Some provider =>
      let '(p, r) := Provider.poll_cq provider 16 in
      (with_provider self p,
       count ← map_err CompletionError r;
       if 0 <? count then Ok (replicate (Z.to_nat count) completion) else Ok [])
  | None =>
      let count := completed_ops self in
      if 0 <? count then (with_completed self 0, Ok [completion]) else (self, Ok [])
  end.

Definition register_staging_pool (self : RmaTransportEngine) (va len : Z) :=
  register_memory_region self va len None.

End Engine.
End Engine.

Module RmaTheorems.
Import Engine.

(** The engine's records [er] and the provider agree: every region of the
    registry is stored under its key, indexed by its range and known to the
    engine, and conversely. *)
Record keys_ok (er : gmap Z RegisteredRegion) (p : Provider.RdmaProvider) : Prop := {
  ko_region k r :
    MrRegistry.regions (Provider.mr_registry p) !! k = Some r →
    MrRegistry.rkey r = k ∧ MrRegistry.lkey r = k ∧ 1 ≤ k < Provider.next_qp_num p ∧
    MrRegistry.vaddr_index (Provider.mr_registry p)
      !! (MrRegistry.vaddr r, MrRegistry.size r) = Some k ∧
    is_Some (er !! k);
  ko_index va sz k :
    MrRegistry.vaddr_index (Provider.mr_registry p) !! (va, sz) = Some k →
    ∃ r, MrRegistry.regions (Provider.mr_registry p) !! k = Some r ∧
         MrRegistry.vaddr r = va ∧ MrRegistry.size r = sz;
  ko_engine k g :
    er !! k = Some g →
    rkey g = k ∧
    ∃ r, MrRegistry.regions (Provider.mr_registry p) !! k = Some r ∧
         vaddr g = MrRegistry.vaddr r ∧ length_ g = MrRegistry.size r;
  ko_next : 1 ≤ Provider.next_qp_num p;
}.

Lemma keys_ok_initial : keys_ok ∅ Provider.new.
Proof. constructor; cbn; done. Qed.

(** Changes of the provider that leave the registry alone. *)
Lemma keys_ok_provider er p p' :
  keys_ok er p → Provider.mr_registry p' = Provider.mr_registry p →
  Provider.next_qp_num p ≤ Provider.next_qp_num p' → keys_ok er p'.
Proof.
  intros [H1 H2 H3 H4] Hm Hn. constructor; rewrite ?Hm; auto; [|lia].
  intros k r Hr. destruct (H1 k r Hr) as (? & ? & ? & ? & ?). split_and!; auto; lia.
Qed.

(** A range the registry has already: the engine's record is replaced. *)
Lemma keys_ok_existing er p k r g :
  keys_ok er p → MrRegistry.regions (Provider.mr_registry p) !! k = Some r →
  rkey g = k → vaddr g = MrRegistry.vaddr r → length_ g = MrRegistry.size r →
  keys_ok (<[k := g]> er) p.
Proof.
  intros [H1 H2 H3 H4] Hr Hk Hv Hl. constructor; auto.
  - intros k' r' Hr'. destruct (H1 k' r' Hr') as (? & ? & ? & ? & Hs).
    split_and!; auto; try lia. apply lookup_insert_is_Some'. auto.
  - intros k' g'. destruct (decide (k' = k)) as [->|Hne].
    + rewrite lookup_insert_eq. intros [= <-]. eauto 10.
    + rewrite lookup_insert_ne by done. apply H3.
Qed.

(** A range the registry does not have is entered under the next key. *)
Lemma keys_ok_fresh er p r g :
  let k := Provider.next_qp_num p in
  let m := Provider.mr_registry p in
  keys_ok er p →
  MrRegistry.vaddr_index m !! (MrRegistry.vaddr r, MrRegistry.size r) = None →
  MrRegistry.rkey r = k → MrRegistry.lkey r = k →
  rkey g = k → vaddr g = MrRegistry.vaddr r → length_ g = MrRegistry.size r →
  keys_ok (<[k := g]> er)
    (Provider.with_registry p
       (MrRegistry.Registry (<[k := r]> (MrRegistry.regions m))
          (<[(MrRegistry.vaddr r, MrRegistry.size r) := k]> (MrRegistry.vaddr_index m)))
       (k + 1)).
Proof.
  intros k m [H1 H2 H3 H4] Hix Hrk Hlk Hgk Hv Hl. fold k m in H1, H2, H3, H4.
  constructor; cbn; [| | |lia].
  - intros k' r'. destruct (decide (k' = k)) as [->|Hne].
    + rewrite !lookup_insert_eq. intros [= <-]. rewrite lookup_insert_eq.
      split_and!; auto; lia.
    + rewrite !lookup_insert_ne by done. intros Hr.
      destruct (H1 k' r' Hr) as (? & ? & ? & Hi & Hs). split_and!; auto; try lia;
        [|by apply lookup_insert_is_Some'; right].
      rewrite lookup_insert_ne; [done|]. intros E. rewrite E in Hix. congruence.
  - intros va sz k'.
    destruct (decide ((MrRegistry.vaddr r, MrRegistry.size r) = (va, sz))) as [E|Hne].
    + rewrite <- E, lookup_insert_eq. intros [= <-]. rewrite lookup_insert_eq.
      injection E as <- <-. by eexists.
    + rewrite lookup_insert_ne by done. intros Hi. destruct (H2 _ _ _ Hi) as (r' & Hr & ? & ?).
      exists r'. rewrite lookup_insert_ne; [done|]. intros <-.
      destruct (H1 k r' Hr) as (_ & _ & ? & _). lia.
  - intros k' g'. destruct (decide (k' = k)) as [->|Hne].
    + rewrite !lookup_insert_eq. intros [= <-]. eauto.
    + rewrite !lookup_insert_ne by done. apply H3.
Qed.

Lemma provider_register_keys er p va len fl gpu :
  keys_ok er p → va ≠ 0 → len ≠ 0 → Provider.next_qp_num p + 1 < 2 ^ 32 →
  ∃ p' r, Provider.register_region p va len fl = (p', Ok r) ∧
    MrRegistry.vaddr r = va ∧ MrRegistry.size r = len ∧
    keys_ok (<[MrRegistry.rkey r := Reg (MrRegistry.lkey r) (MrRegistry.rkey r) va len gpu]> er) p' ∧
    Provider.next_qp_num p ≤ Provider.next_qp_num p' ≤ Provider.next_qp_num p + 1.
Proof.
  intros Hk Hva Hlen Hn. pose proof (ko_next er p Hk) as H4.
  unfold Provider.register_region, MrRegistry.get_by_vaddr_size.
  destruct (MrRegistry.vaddr_index (Provider.mr_registry p) !! (va, len)) as [k|] eqn:Hix.
  - destruct (ko_index er p Hk _ _ _ Hix) as (r & Hr & <- & <-). rewrite Hr.
    destruct (ko_region er p Hk k r Hr) as (Hrk & Hlk & _).
    exists p, r. split_and!; try done; [|lia]. rewrite Hrk. by apply (keys_ok_existing er p k r).
  - unfold MrRegistry.register. cbn.
    rewrite (proj2 (Z.eqb_neq va 0)), (proj2 (Z.eqb_neq len 0)) by done. cbn [orb].
    rewrite decide_False by (intros [r Hr]; destruct (ko_region er p Hk _ r Hr)
      as (_ & _ & ? & _); lia).
    cbn. do 2 eexists. split; [done|]. rewrite wrap_small by lia. cbn.
    split_and!; try done; try lia.
    apply (keys_ok_fresh er p
      (MrRegistry.Region (Provider.next_qp_num p) (Provider.next_qp_num p) va len fl 0)); done.
Qed.

Lemma provider_deregister_keys er p k :
  keys_ok er p →
  ∃ p' r, Provider.deregister_region p k = (p', r) ∧ keys_ok (delete k er) p' ∧
    Provider.next_qp_num p' = Provider.next_qp_num p ∧ (is_ok r = true ↔ is_Some (er !! k)).
Proof.
  intros Hk. destruct Hk as [H1 H2 H3 H4] eqn:EH. clear EH.
  unfold Provider.deregister_region, MrRegistry.deregister.
  destruct (MrRegistry.regions (Provider.mr_registry p) !! k) as [r|] eqn:Hr; cbn;
    (do 2 eexists; split; [done|]).
  - destruct (H1 k r Hr) as (_ & _ & _ & Hix & Hs). split_and!; [|done|by split].
    constructor; cbn; [| | |done].
    + intros k' r' [Hne Hr']%lookup_delete_Some.
      destruct (H1 k' r' Hr') as (? & ? & ? & Hi & Hs').
      split_and!; auto; try lia; [|by rewrite lookup_delete_ne].
      rewrite lookup_delete_ne; [done|]. intros E. rewrite E in Hix. congruence.
    + intros va sz k' [Hne Hi]%lookup_delete_Some. destruct (H2 _ _ _ Hi) as (r' & Hr' & Hv & Hz).
      exists r'. rewrite lookup_delete_ne; [done|]. intros <-. congruence.
    + intros k' g' [Hne Hg]%lookup_delete_Some. rewrite lookup_delete_ne by done. by apply H3.
  - assert (er !! k = None) as Hn.
    { destruct (er !! k) as [g|] eqn:E; [|done]. destruct (H3 k g E) as (_ & r & ? & _). congruence. }
    rewrite delete_id by done. rewrite Hn. split_and!; [|done|by split; [|intros [? ?]]].
    by apply (keys_ok_provider er p).
Qed.

(** Posting may take a queue-pair number from the key counter. *)
Lemma provider_post_keys {A} er p peer (x : A) :
  keys_ok er p → Provider.next_qp_num p + 1 < 2 ^ 32 →
  ∃ p', Provider.post p peer x = (p', Ok x) ∧ keys_ok er p' ∧
    Provider.next_qp_num p ≤ Provider.next_qp_num p' ≤ Provider.next_qp_num p + 1.
Proof.
  intros Hk Hn. pose proof (ko_next er p Hk) as H4.
  unfold Provider.post, Provider.get_or_create_qp, Provider.create_qp.
  destruct (Provider.qps p !! peer); (eexists; split; [done|]); cbn.
  - split; [by apply (keys_ok_provider er p)|lia].
  - rewrite wrap_small by lia. split; [|lia]. apply (keys_ok_provider er p); cbn; [done|done|lia].
Qed.

(** The engine has a provider that agrees with its records; [n] bounds the
    keys used so far. *)
Definition engine_ok (n : Z) (e : RmaTransportEngine) : Prop :=
  ∃ p, rdma_provider e = Some p ∧ keys_ok (registered_regions e) p ∧
       Provider.next_qp_num p ≤ n.

Section Keys.
Context `{!IterOrder RegisteredRegion} `{!IterOrderLaws RegisteredRegion}.

Inductive op :=
  | OpRegister (va len : Z) (gpu : option Z)
  | OpDeregister (k : Z)
  | OpRead (peer : SocketAddr) (remote_vaddr rkey local_vaddr len : Z)
  | OpWrite (peer : SocketAddr) (remote_vaddr rkey local_vaddr len : Z)
  | OpCas (peer : SocketAddr) (remote_vaddr rkey compare swap : Z)
  | OpPoll.

Definition step (e : RmaTransportEngine) (o : op) : RmaTransportEngine :=
  match o with
  | OpRegister va len gpu => (register_memory_region e va len gpu).1
  | OpDeregister k => (deregister_memory_region e k).1
  | OpRead peer rv rk lv len => (rdma_read e peer rv rk lv len).1
  | OpWrite peer rv rk lv len => (rdma_write e peer rv rk lv len).1
  | OpCas peer rv rk compare swap => (rdma_atomic_cas e peer rv rk compare swap).1
  | OpPoll => (poll_completions e).1
  end.

Lemma find_same_region e va len gpu g :
  List.find (same_region va len gpu) (iter_order (registered_regions e)).*2 = Some g →
  ∃ k, registered_regions e !! k = Some g ∧ vaddr g = va ∧ length_ g = len ∧ gpu_id g = gpu.
Proof.
  intros [Hin Hs]%List.find_some. apply list_elem_of_In, list_elem_of_fmap in Hin
    as ([k g'] & -> & Hin). apply elem_of_iter_order in Hin. exists k.
  unfold same_region in Hs. apply andb_prop in Hs as [[Hv Hl]%andb_prop Hg].
  apply bool_decide_eq_true in Hg. split_and!; [done|lia|lia|done].
Qed.

Lemma rma_register_spec n e va len gpu :
  engine_ok n e → va ≠ 0 → len ≠ 0 → n + 1 < 2 ^ 32 →
  ∃ e' g, register_memory_region e va len gpu = (e', Ok g) ∧ engine_ok (n + 1) e' ∧
    vaddr g = va ∧ length_ g = len ∧ gpu_id g = gpu ∧
    registered_regions e' !! rkey g = Some g.
Proof.
  intros (p & Hp & Hk & Hb) Hva Hlen Hn. unfold register_memory_region.
  rewrite (proj2 (Z.eqb_neq va 0)), (proj2 (Z.eqb_neq len 0)) by done. cbn [orb].
  destruct (List.find _ _) as [g|] eqn:Hf.
  - apply find_same_region in Hf as (k & Hg & <- & <- & <-).
    exists e, g. destruct (ko_engine _ _ Hk k g Hg) as [-> _]. split_and!; auto.
    exists p. split_and!; auto; lia.
  - clear Hf. rewrite Hp.
    destruct (provider_register_keys _ p va len (match gpu with Some _ => 3 | None => 3 end)
      gpu Hk) as (p' & r & -> & Hv & Hs & Hk' & Hb'); [done|done|lia|].
    do 2 eexists. split; [done|]. cbn. rewrite Hv, Hs.
    split_and!; [|done|done|done|by rewrite lookup_insert_eq].
    exists p'. split_and!; [done|done|lia].
Qed.

Lemma rma_deregister_spec n e k :
  engine_ok n e →
  ∃ e' r, deregister_memory_region e k = (e', r) ∧ engine_ok n e' ∧
    registered_regions e' = delete k (registered_regions e) ∧
    (r = Ok tt ↔ is_Some (registered_regions e !! k)).
Proof.
  intros (p & Hp & Hk & Hb). unfold deregister_memory_region. rewrite Hp.
  destruct (provider_deregister_keys _ p k Hk) as (p' & r & -> & Hk' & E & Hr).
  destruct r as [[]|x]; cbn in Hr |- *; (do 2 eexists; split; [done|]); cbn.
  - split_and!; [|done|by split; [intros _; apply Hr|]].
    exists p'. split_and!; [done|done|lia].
  - assert (registered_regions e !! k = None) as Hn.
    { destruct (registered_regions e !! k) eqn:E'; [|done]. destruct Hr as [_ Hr].
      discriminate Hr. by eexists. }
    rewrite delete_id in * by done. split_and!; [|done|].
    + exists p'. split_and!; [done|done|lia].
    + rewrite Hn. split; [done|by intros [? ?]].
Qed.

Lemma rma_step_ok n e o :
  engine_ok n e → n + 1 < 2 ^ 32 → engine_ok (n + 1) (step e o).
Proof.
  intros He Hn. pose proof He as (p & Hp & Hk & Hb).
  assert (He' : engine_ok (n + 1) e) by (exists p; split_and!; auto; lia).
  destruct o as [va len gpu|k|peer rv rk lv len|peer rv rk lv len|peer rv rk c w|]; cbn [step].
  1: destruct (decide (va = 0 ∨ len = 0)) as [Hz|Hz].
  - unfold register_memory_region. by replace ((va =? 0) || (len =? 0)) with true by lia.
  - by destruct (rma_register_spec n e va len gpu He) as (e' & g & -> & Hi & _);
      [tauto|tauto|done|].
  - by destruct (rma_deregister_spec (n + 1) e k He') as (e' & r & -> & Hi & _).
  - unfold rdma_read, Provider.post_read. rewrite Hp.
    destruct (provider_post_keys _ p peer tt Hk) as (p' & -> & Hk' & Hb'); [lia|].
    exists p'. split_and!; [done|done|lia].
  - unfold rdma_write, Provider.post_write. rewrite Hp.
    destruct (provider_post_keys _ p peer tt Hk) as (p' & -> & Hk' & Hb'); [lia|].
    exists p'. split_and!; [done|done|lia].
  - unfold rdma_atomic_cas, Provider.post_atomic_cas. rewrite Hp.
    destruct (provider_post_keys _ p peer c Hk) as (p' & -> & Hk' & Hb'); [lia|].
    exists p'. split_and!; [done|done|lia].
  - unfold poll_completions, Provider.poll_cq. rewrite Hp.
    destruct (0 <? _); (eexists; split_and!; [done| |cbn; lia]); cbn; [|done].
    by apply (keys_ok_provider _ p).
Qed.

Lemma rma_run_ok os : ∀ n e,
  engine_ok n e → n + Z.of_nat (length os) < 2 ^ 32 →
  engine_ok (n + Z.of_nat (length os)) (foldl step e os).
Proof.
  induction os as [|o os IH]; intros n e He Hn; cbn [foldl length] in *.
  - by replace (n + Z.of_nat 0) with n by lia.
  - replace (n + Z.of_nat (S (length os))) with (n + 1 + Z.of_nat (length os)) by lia.
    apply IH; [apply rma_step_ok; [done|lia]|lia].
Qed.

(** C30. Keys identify regions: after any sequence of fewer than 2^32 - 2
    registrations, deregistrations, reads, writes, atomics and polls on a new
    engine, every live registration is stored under its own remote key, the
    provider knows that key for the same address range, and two live
    registrations of one range have the same key.  Registering a non-empty
    range then succeeds and the result is live; deregistering a live key
    succeeds and removes exactly that key, and any other key is refused. *)
Theorem rma_keys_identify_regions device detected os :
  Z.of_nat (length os) + 2 < 2 ^ 32 →
  let e := foldl step (auto_detect device detected) os in
  let live := registered_regions e in
  (∃ p, rdma_provider e = Some p ∧ ∀ k g, live !! k = Some g → rkey g = k ∧
     ∃ r, MrRegistry.get (Provider.mr_registry p) k = Some r ∧
          vaddr g = MrRegistry.vaddr r ∧ length_ g = MrRegistry.size r) ∧
  (∀ k1 k2 g1 g2, live !! k1 = Some g1 → live !! k2 = Some g2 →
     vaddr g1 = vaddr g2 → length_ g1 = length_ g2 → k1 = k2) ∧
  (∀ va len gpu, va ≠ 0 → len ≠ 0 →
     ∃ e' g, register_memory_region e va len gpu = (e', Ok g) ∧
       vaddr g = va ∧ length_ g = len ∧ gpu_id g = gpu ∧
       registered_regions e' !! rkey g = Some g) ∧
  (∀ k, ∃ e' r, deregister_memory_region e k = (e', r) ∧
       (r = Ok tt ↔ is_Some (live !! k)) ∧ registered_regions e' = delete k live).
Proof.
  intros Hlen e live.
  assert (engine_ok (1 + Z.of_nat (length os)) e) as He.
  { apply rma_run_ok; [|lia]. exists Provider.new. split_and!; [done|apply keys_ok_initial|done]. }
  pose proof He as (p & Hp & Hk & _). split_and!.
  - exists p. split; [done|]. apply (ko_engine _ p Hk).
  - intros k1 k2 g1 g2 Hg1 Hg2 Hv Hl.
    destruct (ko_engine _ p Hk k1 g1 Hg1) as (_ & r1 & Hr1 & Hv1 & Hl1).
    destruct (ko_engine _ p Hk k2 g2 Hg2) as (_ & r2 & Hr2 & Hv2 & Hl2).
    destruct (ko_region _ p Hk k1 r1 Hr1) as (_ & _ & _ & Hi1 & _).
    destruct (ko_region _ p Hk k2 r2 Hr2) as (_ & _ & _ & Hi2 & _).
    rewrite <- Hv1, <- Hl1, Hv, Hl, Hv2, Hl2, Hi2 in Hi1. congruence.
  - intros va len gpu Hva Hlen'.
    destruct (rma_register_spec _ e va len gpu He Hva Hlen')
      as (e' & g & E & _ & ? & ? & ? & ?); [lia|]. eauto 10.
  - intros k. destruct (rma_deregister_spec _ e k He) as (e' & r & E & _ & Hd & Hr). eauto 10.
Qed.

End Keys.

#[local] Instance in_key_order : IterOrder RegisteredRegion := map_to_list.
#[local] Instance in_key_order_laws : IterOrderLaws RegisteredRegion.
Proof. intros m. reflexivity. Qed.

Lemma rma_keys_identify_regions_witness :
  let e := foldl step (auto_detect None None) [OpRegister 4096 4096 None; OpRead "10.0.0.2:7000" 0 0 0 64] in
  ∃ e' g, register_memory_region e 8192 4096 None = (e', Ok g) ∧
    vaddr g = 8192 ∧ length_ g = 4096 ∧ gpu_id g = None ∧
    registered_regions e' !! rkey g = Some g.
Proof.
  destruct (rma_keys_identify_regions None None [OpRegister 4096 4096 None; OpRead "10.0.0.2:7000" 0 0 0 64])
    as (_ & _ & Hreg & _); [reflexivity|].
  apply Hreg; discriminate.
Defined.

(** The same range registered for the host and for a GPU gets one key, the
    second record replaces the first, and releasing one releases both. *)
Lemma gpu_registration_shares_key :
  let '(e1, r1) := register_memory_region (auto_detect None None) 4096 4096 None in
  let '(e2, r2) := register_memory_region e1 4096 4096 (Some 0) in
  let '(e3, r3) := deregister_memory_region e2 1 in
  r1 = Ok (Reg 1 1 4096 4096 None) ∧ r2 = Ok (Reg 1 1 4096 4096 (Some 0)) ∧
  registered_regions e2 !! 1 = Some (Reg 1 1 4096 4096 (Some 0)) ∧
  r3 = Ok tt ∧ registered_regions e3 = ∅.
Proof. vm_compute. split_and!; reflexivity. Qed.

(** The registry itself accepts two keys for one range; removing one of them
    loses the range of the other. *)
Lemma registry_index_lost :
  let '(m1, _) := MrRegistry.register_region MrRegistry.new 4096 4096 1 1 0 0 in
  let '(m2, _) := MrRegistry.register_region m1 4096 4096 2 2 0 0 in
  let '(m3, _) := MrRegistry.deregister m2 1 in
  MrRegistry.get m3 2 = Some (MrRegistry.Region 2 2 4096 4096 0 0) ∧
  MrRegistry.get_by_vaddr_size m3 4096 4096 = None.
Proof. vm_compute. split; reflexivity. Qed.

(** Posting no more than the deficit keeps the queue within its capacity, and
    a refill that is posted blindly exceeds it. *)
Lemma refill_within_capacity m n :
  0 ≤ RqRefill.outstanding_depth m ≤ RqRefill.capacity (RqRefill.config m) →
  RqRefill.capacity (RqRefill.config m) < 2 ^ 64 → 0 ≤ n ≤ RqRefill.refill_deficit m →
  RqRefill.current_depth (RqRefill.post_refill_batch m n).1
    = RqRefill.outstanding_depth m + n ∧
  RqRefill.outstanding_depth m + n ≤ RqRefill.capacity (RqRefill.config m).
Proof.
  intros Hd Hc Hn. unfold RqRefill.refill_deficit, RqRefill.post_refill_batch,
    RqRefill.current_depth in *.
  destruct (Z.ltb_spec (RqRefill.outstanding_depth m) (RqRefill.capacity (RqRefill.config m)));
    destruct (Z.eqb_spec n 0); cbn; try lia.
  rewrite Z.min_l, wrap_small by lia. lia.
Qed.

End RmaTheorems.
