(* ===== verification/Uffd.v ===== *)
(** * Page faults through userfaultfd (src/src/klnk/klnk-uffd/src)

    [MoveOps] models move_ops.rs: the ioctl arguments and the wrappers that
    issue them.  [Handler] models handler.rs: region registration and the
    resolution of a fault from a prefetched slot, from the remote owner or
    from a fresh staging slot.  The kernel is an interface, [UffdKernel]: a
    state and the answers to the calls the sources make.

    [rdma_read] is the only point where a fault task yields, so the resolution
    is cut there: [handle_begin] runs up to it and [handle_finish] after it. *)

From stdpp Require Import strings.
From S2P Require Import Prelude Domain ControlPlane StagingPool Rma.

Module MoveOps.

Definition UFFDIO : Z := 0xAA.
Definition UFFDIO_MOVE_NUM : Z := 0x05.
Definition UFFDIO_COPY_NUM : Z := 0x03.
Definition UFFDIO_ZEROPAGE_NUM : Z := 0x04.
Definition UFFDIO_WRITEPROTECT_NUM : Z := 0x06.

Record uffdio_move := MoveArg {
  move_dst : Z;
  move_src : Z;
  move_len : Z;
  move_mode : Z;
  move_bytes : Z;
}.

Record uffdio_copy := CopyArg {
  copy_dst : Z;
  copy_src : Z;
  copy_len : Z;
  copy_mode : Z;
  copy : Z;
}.

Record uffdio_range := Range { start : Z; range_len : Z }.

Record uffdio_zeropage := ZeropageArg {
  zero_range : uffdio_range;
  zero_mode : Z;
  zeropage : Z;
}.

Record uffdio_writeprotect := WriteprotectArg {
  wp_range : uffdio_range;
  wp_mode : Z;
}.

Definition UFFDIO_MOVE_MODE_ALLOW_SRC_HOLE : Z := Z.shiftl 1 0.
Definition UFFDIO_WRITEPROTECT_MODE_WP : Z := Z.shiftl 1 0.
Definition UFFDIO_WRITEPROTECT_MODE_DONTWAKE : Z := Z.shiftl 1 1.

Inductive UffdOpError :=
  | MoveFailed (errno : Z)
  | CopyFailed (errno : Z)
  | ZeroPageFailed (errno : Z)
  | WriteProtectFailed (errno : Z)
  | PartialMove (expected actual : Z)
  | InvalidAlignment (dst src len : Z).

(** [_IOWR]; the [repr(C)] structs have 64-bit fields only, so their sizes are
    eight bytes per field. *)
Definition iowr (ty nr size : Z) : Z :=
  Z.lor (Z.lor (Z.lor (Z.shiftl 3 30) (Z.shiftl ty 8)) nr) (Z.shiftl size 16).

Definition ENOTTY : Z := 25.
Definition EINVAL : Z := 22.
Definition ENOSYS : Z := 38.

Inductive Event := Pagefault (addr : Z) | OtherEvent.

(** The kernel and the [userfaultfd] crate.  An ioctl gets its request number
    and its argument; it fails with an errno or returns the argument as the
    kernel left it. *)
Class UffdKernel := {
  kernel : Type;
  uffd_error : Type;
  sysconf_page_size : Z;
  ioctl_move : kernel → Z → uffdio_move → kernel * result Z uffdio_move;
  ioctl_copy : kernel → Z → uffdio_copy → kernel * result Z uffdio_copy;
  ioctl_zeropage : kernel → Z → uffdio_zeropage → kernel * result Z uffdio_zeropage;
  ioctl_writeprotect : kernel → Z → uffdio_writeprotect → kernel * result Z uffdio_writeprotect;
  uffd_register : kernel → Z → Z → kernel * result uffd_error ();
  uffd_unregister : kernel → Z → Z → kernel * result uffd_error ();
  uffd_poll : kernel → Z → kernel * result uffd_error Z;
  uffd_read_event : kernel → kernel * result uffd_error (option Event);
}.

Section Ops.
Context `{!UffdKernel}.

Definition get_page_size : Z :=
  if sysconf_page_size <=? 0 then 4096 else sysconf_page_size.

Definition uffd_copy_fallback (k : kernel) (dst src len : Z) :
    kernel * result UffdOpError Z :=
  let '(k, r) := ioctl_copy k (iowr UFFDIO UFFDIO_COPY_NUM 40) (CopyArg dst src len 0 0) in
  (k, match r with
      | Err errno => Err (CopyFailed errno)
      | Ok data =>
          if (copy data <? 0) || negb (copy data =? len)
          then Err (PartialMove len (copy data)) else Ok (copy data)
      end).

Definition uffd_move (k : kernel) (dst src len : Z) : kernel * result UffdOpError Z :=
  let page_size := get_page_size in
  if negb (dst mod page_size =? 0) || negb (src mod page_size =? 0)
     || negb (len mod page_size =? 0)
  then (k, Err (InvalidAlignment dst src len))
  else
    let '(k, r) := ioctl_move k (iowr UFFDIO UFFDIO_MOVE_NUM 40)
                     (MoveArg dst src len UFFDIO_MOVE_MODE_ALLOW_SRC_HOLE 0) in
    match r with
    | Err errno =>
        if (errno =? ENOSYS) || (errno =? EINVAL) || (errno =? ENOTTY)
        then uffd_copy_fallback k dst src len
        else (k, Err (MoveFailed errno))
    | Ok data =>
        if (move_bytes data <? 0) || negb (move_bytes data =? len)
        then (k, Err (PartialMove len (move_bytes data))) else (k, Ok (move_bytes data))
    end.

Definition uffd_zeropage (k : kernel) (dst len : Z) : kernel * result UffdOpError () :=
  let '(k, r) := ioctl_zeropage k (iowr UFFDIO UFFDIO_ZEROPAGE_NUM 32)
                   (ZeropageArg (Range dst len) 0 0) in
  (k, match r with Err errno => Err (ZeroPageFailed errno) | Ok _ => Ok tt end).

Definition uffd_set_write_protect (k : kernel) (dst len mode : Z) :
    kernel * result UffdOpError () :=
  let '(k, r) := ioctl_writeprotect k (iowr UFFDIO UFFDIO_WRITEPROTECT_NUM 24)
                   (WriteprotectArg (Range dst len) mode) in
  (k, match r with Err errno => Err (WriteProtectFailed errno) | Ok _ => Ok tt end).

End Ops.
End MoveOps.

Module Handler.
Import MoveOps.

(** The text of a [StagingPoolError], represented by what it names. *)
Inductive StagingMessage :=
  | PageNotFound (vaddr : Z)
  | RemoteNodeNotFound (node : NodeId)
  | PoolMessage (e : Staging.StagingPoolError).

Section Handler.
Context `{!UffdKernel}.

Inductive UffdHandlerError :=
  | CreateFailed (e : uffd_error)
  | RegisterFailed (e : uffd_error)
  | UnregisterFailed (e : uffd_error)
  | ReadFailed (e : uffd_error)
  | FaultResolutionFailed (e : UffdOpError)
  | ControlPlaneError (e : Control.ControlPlaneError)
  | StagingPoolError (msg : StagingMessage)
  | InvalidRegion (vaddr size : Z)
  | RdmaError (e : Engine.RmaError)
  | LockError (msg : string).

Record FaultStats := Stats {
  total_faults : Z;
  remote_faults : Z;
  local_faults : Z;
  zero_page_faults : Z;
  move_operations : Z;
  copy_operations : Z;
  failed_faults : Z;
}.

Definition default_stats : FaultStats := Stats 0 0 0 0 0 0 0.

Definition incr_total (s : FaultStats) : FaultStats :=
  Stats (wrap 64 (total_faults s + 1)) (remote_faults s) (local_faults s)
    (zero_page_faults s) (move_operations s) (copy_operations s) (failed_faults s).
Definition incr_remote (s : FaultStats) : FaultStats :=
  Stats (total_faults s) (wrap 64 (remote_faults s + 1)) (local_faults s)
    (zero_page_faults s) (move_operations s) (copy_operations s) (failed_faults s).
Definition incr_local (s : FaultStats) : FaultStats :=
  Stats (total_faults s) (remote_faults s) (wrap 64 (local_faults s + 1))
    (zero_page_faults s) (move_operations s) (copy_operations s) (failed_faults s).
Definition incr_zero (s : FaultStats) : FaultStats :=
  Stats (total_faults s) (remote_faults s) (local_faults s)
    (wrap 64 (zero_page_faults s + 1)) (move_operations s) (copy_operations s)
    (failed_faults s).
Definition incr_moves (s : FaultStats) : FaultStats :=
  Stats (total_faults s) (remote_faults s) (local_faults s) (zero_page_faults s)
    (wrap 64 (move_operations s + 1)) (copy_operations s) (failed_faults s).
Definition incr_failed (s : FaultStats) : FaultStats :=
  Stats (total_faults s) (remote_faults s) (local_faults s) (zero_page_faults s)
    (move_operations s) (copy_operations s) (wrap 64 (failed_faults s + 1)).

(** The handler and the shared objects behind its [Arc]s. *)
Record UffdHandler := MkHandler {
  uffd : kernel;
  control_plane : Control.ControlPlaneManager;
  staging_pool : Staging.StagingMemoryPool;
  rma_engine : Engine.RmaTransportEngine;
  regions : gmap GlobalRegionId (Z * Z);
  stats : FaultStats;
  prefetched_pages : option (gmap Z Staging.StagingSlotHandle);
}.

Definition set_uffd (h : UffdHandler) k : UffdHandler :=
  MkHandler k (control_plane h) (staging_pool h) (rma_engine h) (regions h) (stats h)
    (prefetched_pages h).
Definition set_cp (h : UffdHandler) cp : UffdHandler :=
  MkHandler (uffd h) cp (staging_pool h) (rma_engine h) (regions h) (stats h)
    (prefetched_pages h).
Definition set_pool (h : UffdHandler) p : UffdHandler :=
  MkHandler (uffd h) (control_plane h) p (rma_engine h) (regions h) (stats h)
    (prefetched_pages h).
Definition set_rma (h : UffdHandler) e : UffdHandler :=
  MkHandler (uffd h) (control_plane h) (staging_pool h) e (regions h) (stats h)
    (prefetched_pages h).
Definition set_regions (h : UffdHandler) r : UffdHandler :=
  MkHandler (uffd h) (control_plane h) (staging_pool h) (rma_engine h) r (stats h)
    (prefetched_pages h).
Definition count (f : FaultStats → FaultStats) (h : UffdHandler) : UffdHandler :=
  MkHandler (uffd h) (control_plane h) (staging_pool h) (rma_engine h) (regions h)
    (f (stats h)) (prefetched_pages h).
Definition set_prefetched_pages (h : UffdHandler) m : UffdHandler :=
  MkHandler (uffd h) (control_plane h) (staging_pool h) (rma_engine h) (regions h) (stats h)
    (Some m).

(** [create] is the answer of [UffdBuilder::create]. *)
Definition new (create : result uffd_error kernel) cp pool rma :
    result UffdHandlerError UffdHandler :=
  k ← map_err CreateFailed create;
  Ok (MkHandler k cp pool rma ∅ default_stats None).

Definition register_region (self : UffdHandler) (desc : MemoryRegionDescriptor) :
    UffdHandler * result UffdHandlerError () :=
  let vaddr := main_vaddr desc in
  let size := region_size desc in
  if negb (vaddr mod 4096 =? 0) || negb (size mod 4096 =? 0)
  then (self, Err (InvalidRegion vaddr size))
  else
    let '(k, r) := uffd_register (uffd self) vaddr size in
    let self := set_uffd self k in
    match r with
    | Err e => (self, Err (RegisterFailed e))
    | Ok _ => (set_regions self (<[region_id desc := (vaddr, size)]> (regions self)), Ok tt)
    end.

Definition unregister_region (self : UffdHandler) (id : GlobalRegionId) :
    UffdHandler * result UffdHandlerError () :=
  match regions self !! id with
  | Some (vaddr, size) =>
      let self := set_regions self (delete id (regions self)) in
      let '(k, r) := uffd_unregister (uffd self) vaddr size in
      (set_uffd self k, map_err UnregisterFailed r)
  | None => (self, Ok tt)
  end.

Section Faults.
Context `{BuildProfile}.

(** [control_plane.update_page_state]; the handler ignores its answer. *)
Definition update_page (self : UffdHandler) (vaddr : Z) (st : PageCoherenceState)
    (owner : NodeId) : outcome UffdHandler :=
  '(_, cp) ← Control.update_page_state (control_plane self) vaddr st owner;
  Ret (set_cp self cp).

Definition add_local_reader (self : UffdHandler) (vaddr : Z) : UffdHandler :=
  set_cp self (Control.add_reader (control_plane self) vaddr
                 (Control.local_node_id (control_plane self))).2.

(** A [uffd_move] whose failure gives the slot back to the pool. *)
Definition move_or_push (self : UffdHandler) (vaddr : Z)
    (slot : Staging.StagingSlotHandle) : UffdHandler * result UffdHandlerError () :=
  let self := count incr_moves self in
  let '(k, moved) := uffd_move (uffd self) vaddr (Staging.vaddr slot) (Staging.size slot) in
  let self := set_uffd self k in
  match moved with
  | Ok _ => (self, Ok tt)
  | Err e =>
      (set_pool self (Staging.push_slot (staging_pool self) (Staging.slot_idx slot)).2,
       Err (FaultResolutionFailed e))
  end.

(** Where a resolution is at the end of its first part: finished, or about to
    resume after the RDMA read into [slot]. *)
Inductive progress :=
  | Finished (r : result UffdHandlerError ())
  | Reading (slot : Staging.StagingSlotHandle).

(** [fetch_remote_page] up to the await of [rdma_read]. *)
Definition fetch_begin (self : UffdHandler) (vaddr : Z) (owner : NodeId) :
    outcome (UffdHandler * progress) :=
  match prefetched_pages self ≫= lookup vaddr with
  | Some slot =>
      let self := set_prefetched_pages self (delete vaddr (default ∅ (prefetched_pages self))) in
      let '(k, moved) := uffd_move (uffd self) vaddr (Staging.vaddr slot) (Staging.size slot) in
      let self := set_uffd self k in
      match moved with
      | Err e => Ret (self, Finished (Err (FaultResolutionFailed e)))
      | Ok _ => Ret (count incr_moves self, Finished (Ok tt))
      end
  | None =>
      match Control.get_remote_node (control_plane self) owner with
      | None => Ret (self, Finished (Err (StagingPoolError (RemoteNodeNotFound owner))))
      | Some remote_info =>
          '(r, pool) ← Staging.pop_slot (staging_pool self);
          let self := set_pool self pool in
          match r with
          | Err e => Ret (self, Finished (Err (StagingPoolError (PoolMessage e))))
          | Ok slot =>
              let '(rma, r) := Engine.rdma_read (rma_engine self) (socket_addr remote_info)
                                 vaddr (metadata_rkey remote_info) (Staging.vaddr slot)
                                 (Staging.size slot) in
              let self := set_rma self rma in
              match r with
              | Err e => Ret (self, Finished (Err (RdmaError e)))
              | Ok _ => Ret (self, Reading slot)
              end
          end
      end
  end.

(** The whole of [fetch_remote_page], when nothing else runs during the read. *)
Definition fetch_remote_page (self : UffdHandler) (vaddr : Z) (owner : NodeId) :
    outcome (UffdHandler * result UffdHandlerError ()) :=
  '(self, p) ← fetch_begin self vaddr owner;
  match p with
  | Finished r => Ret (self, r)
  | Reading slot => Ret (move_or_push self vaddr slot)
  end.

Definition resolve_local_missing (self : UffdHandler) (vaddr : Z) :
    outcome (UffdHandler * result UffdHandlerError ()) :=
  '(r, pool) ← Staging.pop_slot (staging_pool self);
  let self := set_pool self pool in
  match r with
  | Err e => Ret (self, Err (StagingPoolError (PoolMessage e)))
  | Ok slot =>
      let '(self, moved) := move_or_push self vaddr slot in
      match moved with
      | Err e => Ret (self, Err e)
      | Ok _ =>
          self ← update_page self vaddr SharedRead
                   (Control.local_node_id (control_plane self));
          Ret (add_local_reader self vaddr, Ok tt)
      end
  end.

Definition resolve_with_zeropage (self : UffdHandler) (vaddr : Z) :
    outcome (UffdHandler * result UffdHandlerError ()) :=
  let '(k, r) := uffd_zeropage (uffd self) vaddr 4096 in
  let self := set_uffd self k in
  match r with
  | Err e => Ret (self, Err (FaultResolutionFailed e))
  | Ok _ =>
      self ← update_page self vaddr SharedRead (Control.local_node_id (control_plane self));
      Ret (self, Ok tt)
  end.

(** What follows a remote fetch. *)
Definition fetched (self : UffdHandler) (vaddr : Z) (owner : NodeId)
    (r : result UffdHandlerError ()) : outcome (UffdHandler * result UffdHandlerError ()) :=
  match r with
  | Err e => Ret (self, Err e)
  | Ok _ =>
      self ← update_page self vaddr SharedRead owner;
      Ret (add_local_reader self vaddr, Ok tt)
  end.

(** [handle_page_fault_async_inner] up to the await of [rdma_read]. *)
Definition handle_begin (self : UffdHandler) (vaddr : Z) : outcome (UffdHandler * progress) :=
  match Control.lookup_page_state (control_plane self) vaddr with
  | None => Ret (self, Finished (Err (StagingPoolError (PageNotFound vaddr))))
  | Some page_state =>
      let owner := primary_owner page_state in
      match coherence_state page_state with
      | InFlight =>
          '(self, r) ← resolve_with_zeropage (count incr_zero self) vaddr;
          Ret (self, Finished r)
      | _ =>
          if negb (owner =? Control.local_node_id (control_plane self)) then
            self ← update_page (count incr_remote self) vaddr InFlight owner;
            '(self, p) ← fetch_begin self vaddr owner;
            match p with
            | Reading slot => Ret (self, Reading slot)
            | Finished r => '(self, r) ← fetched self vaddr owner r; Ret (self, Finished r)
            end
          else
            '(self, r) ← resolve_local_missing (count incr_local self) vaddr;
            Ret (self, Finished r)
      end
  end.

(** The rest, for a page of [owner]. *)
Definition handle_finish (self : UffdHandler) (vaddr : Z) (owner : NodeId)
    (slot : Staging.StagingSlotHandle) : outcome (UffdHandler * result UffdHandlerError ()) :=
  let '(self, r) := move_or_push self vaddr slot in fetched self vaddr owner r.

Definition handle_page_fault_async_inner (self : UffdHandler) (vaddr : Z) :
    outcome (UffdHandler * result UffdHandlerError ()) :=
  let owner := default 0 (primary_owner <$>
                 Control.lookup_page_state (control_plane self) vaddr) in
  '(self, p) ← handle_begin self vaddr;
  match p with
  | Finished r => Ret (self, r)
  | Reading slot => handle_finish self vaddr owner slot
  end.

Fixpoint process_fault_batch (self : UffdHandler) (faults : list Z) :
    outcome (UffdHandler * list (result UffdHandlerError ())) :=
  match faults with
  | [] => Ret (self, [])
  | vaddr :: faults =>
      '(self, r) ← handle_page_fault_async_inner (count incr_total self) vaddr;
      '(self, rs) ← process_fault_batch self faults;
      Ret (self, r :: rs)
  end.

End Faults.

(** [poll_and_handle]: the address of a fault to be handled by a new task is
    returned with the answer. *)
Definition poll_and_handle (self : UffdHandler) (timeout_ms : Z) :
    UffdHandler * result UffdHandlerError bool * option Z :=
  let '(k, n) := uffd_poll (uffd self) timeout_ms in
  let self := set_uffd self k in
  match n with
  | Err e => (self, Err (ReadFailed e), None)
  | Ok n =>
      if n =? 0 then (self, Ok false, None)
      else
        let '(k, ev) := uffd_read_event (uffd self) in
        let self := set_uffd self k in
        match ev with
        | Err e => (self, Err (ReadFailed e), None)
        | Ok None => (self, Ok false, None)
        | Ok (Some (Pagefault addr)) => (count incr_total self, Ok true, Some addr)
        | Ok (Some OtherEvent) => (self, Ok true, None)
        end
  end.

(** The body of the task [poll_and_handle] spawns, run on its own. *)
Definition fault_task `{BuildProfile} (self : UffdHandler) (vaddr : Z) :
    outcome UffdHandler :=
  '(self, r) ← handle_page_fault_async_inner self vaddr;
  match r with
  | Ok _ => Ret self
  | Err _ => Ret (count incr_failed self)
  end.

Definition get_stats (self : UffdHandler) : FaultStats := stats self.

End Handler.
End Handler.

Module UffdFacts.
Import MoveOps Handler.

Section Facts.
Context `{!UffdKernel}.

(** Slots recorded as prefetched, and the slot a resolution works on. *)
Definition page_slots (m : gmap Z Staging.StagingSlotHandle) : list Staging.StagingSlotHandle :=
  (map_to_list m).*2.

Definition prefetched_slots (h : UffdHandler) : list Staging.StagingSlotHandle :=
  page_slots (default ∅ (prefetched_pages h)).

Definition progress_slots (p : progress) : list Staging.StagingSlotHandle :=
  match p with Finished _ => [] | Reading slot => [slot] end.

Lemma page_slots_delete m v s :
  m !! v = Some s → page_slots m ≡ₚ s :: page_slots (delete v m).
Proof.
  intros Hm. unfold page_slots. rewrite <- (map_to_list_delete m v s Hm). done.
Qed.

Lemma page_slots_insert m v s :
  ∃ old, page_slots m ≡ₚ old ++ page_slots (delete v m) ∧
         page_slots (<[v := s]> m) ≡ₚ s :: page_slots (delete v m).
Proof.
  exists (option_list (m !! v)). split.
  - destruct (m !! v) as [s'|] eqn:E; cbn; [by apply page_slots_delete|].
    by rewrite delete_id.
  - rewrite (page_slots_delete (<[v := s]> m) v s) by (by rewrite lookup_insert_eq).
    by rewrite delete_insert_eq.
Qed.

(** The entry at one address, replaced. *)
Definition set_entry (h : UffdHandler) (v : Z) (e : DistributedPageEntry) : UffdHandler :=
  set_cp h (Control.with_pages (control_plane h)
              (<[v := e]> (Control.page_states (control_plane h)))).

Definition with_state (e : DistributedPageEntry) st owner : DistributedPageEntry :=
  PageEntry (page_vaddr e) (page_size e) st owner (replica_holders e) (version e) (metadata e).

Definition with_reader (e : DistributedPageEntry) (n : NodeId) : DistributedPageEntry :=
  if bool_decide (n ∈ replica_holders e) then e
  else Control.set_replicas (replica_holders e ++ [n]) e.

Definition page_of (h : UffdHandler) (v : Z) : option DistributedPageEntry :=
  Control.page_states (control_plane h) !! v.

Definition local_of (h : UffdHandler) : NodeId := Control.local_node_id (control_plane h).

Lemma page_of_set_entry h v e : page_of (set_entry h v e) v = Some e.
Proof. apply lookup_insert_eq. Qed.

Lemma set_entry_set_entry h v e1 e2 : set_entry (set_entry h v e1) v e2 = set_entry h v e2.
Proof.
  unfold set_entry, set_cp, Control.with_pages, Control.with_regions. cbn.
  by rewrite insert_insert_eq.
Qed.

Lemma update_page_set `{BuildProfile} h v st owner e :
  page_of h v = Some e → st ≠ ExclusiveWrite →
  update_page h v st owner = Ret (set_entry h v (with_state e st owner)).
Proof.
  intros He Hst. unfold update_page, Control.update_page_state, page_of in *. rewrite He.
  rewrite bool_decide_eq_false_2 by done. done.
Qed.

Lemma add_local_reader_set h v e :
  page_of h v = Some e → add_local_reader h v = set_entry h v (with_reader e (local_of h)).
Proof.
  intros He. unfold add_local_reader, Control.add_reader, Control.alter_entry, page_of in *.
  by rewrite He.
Qed.

(** [move_or_push] touches the kernel, the counters and, on failure, the pool. *)
Lemma move_or_push_frame h v s :
  let '(h', r) := move_or_push h v s in
  control_plane h' = control_plane h ∧ prefetched_pages h' = prefetched_pages h ∧
  staging_pool h' = (if is_ok r then staging_pool h
                     else (Staging.push_slot (staging_pool h) (Staging.slot_idx s)).2).
Proof.
  unfold move_or_push. destruct (uffd_move _ _ _ _) as [k [n|e]]; done.
Qed.

Section Slots.
Context `{BuildProfile}.
Import StagingTheorems.

Lemma move_or_push_slots h v s rest :
  pool_inv (staging_pool h, s :: rest) →
  let '(h', r) := move_or_push h v s in
  Staging.num_slots (staging_pool h') = Staging.num_slots (staging_pool h) ∧
  ∃ gone, pool_inv (staging_pool h', gone ++ rest) ∧
          length gone = if is_ok r then 1%nat else 0%nat.
Proof.
  intros Hi. pose proof (move_or_push_frame h v s) as Hf.
  destruct (move_or_push h v s) as [h' r]. destruct Hf as (_ & _ & ->).
  destruct r as [[]|e]; cbn [is_ok].
  - split; [done|]. by exists [s].
  - destruct (pool_push _ _ _ Hi) as [Hp ->]. split; [done|]. by exists [].
Qed.

(** The slots that are neither free nor in use after a first part. *)
Definition consumes (p : progress) (gone : list Staging.StagingSlotHandle) : Prop :=
  match p with
  | Finished (Ok _) => length gone = 1%nat
  | Finished (Err _) => (length gone ≤ 1)%nat
  | Reading _ => gone = []
  end.

Lemma fetch_begin_slots h v owner rest :
  pool_inv (staging_pool h, prefetched_slots h ++ rest) →
  ∃ h' p, fetch_begin h v owner = Ret (h', p) ∧ control_plane h' = control_plane h ∧
    Staging.num_slots (staging_pool h') = Staging.num_slots (staging_pool h) ∧
    ∃ gone, pool_inv (staging_pool h', progress_slots p ++ prefetched_slots h' ++ gone ++ rest) ∧
            consumes p gone.
Proof.
  intros Hi. unfold fetch_begin.
  destruct (prefetched_pages h ≫= lookup v) as [s|] eqn:Hs.
  - apply bind_Some in Hs as (m & Hm & Hv).
    destruct (uffd_move _ _ _ _) as [k [n|e]]; (do 2 eexists; split; [done|]);
      (split; [done|]; split; [done|]; exists [s]; split; [|cbn; lia]);
      unfold prefetched_slots in *; rewrite Hm in *; cbn in *;
      (eapply pool_inv_perm; [exact Hi|]); rewrite (page_slots_delete m v s Hv); cbn;
      by rewrite Permutation_middle.
  - destruct (Control.get_remote_node _ _) as [info|].
    2: { do 2 eexists. split; [done|]. split; [done|]. split; [done|]. exists []. split; [done|cbn; lia]. }
    destruct (pool_pop _ _ Hi) as (r & p' & -> & Hn & Hr). monad_simpl.
    destruct r as [s|e]; [|destruct Hr as [-> _]].
    + destruct (Engine.rdma_read _ _ _ _ _ _) as [rma [[]|e]];
        (do 2 eexists; split; [done|]; split; [done|]; split; [done|]).
      * exists []. split; [|done]. exact Hr.
      * exists [s]. split; [|cbn; lia]. cbn. eapply pool_inv_perm; [exact Hr|].
        by rewrite Permutation_middle.
    + do 2 eexists. split; [done|]. split; [done|]. split; [done|]. exists []. split; [done|cbn; lia].
Qed.

(** Updates of a page entry never panic here, and change only the control
    plane. *)
Lemma update_page_total h v st owner :
  st ≠ ExclusiveWrite → ∃ cp, update_page h v st owner = Ret (set_cp h cp).
Proof.
  intros Hst. unfold update_page, Control.update_page_state.
  rewrite bool_decide_eq_false_2 by done.
  destruct (Control.page_states _ !! v); monad_simpl; by eexists.
Qed.

Lemma fetched_total h v owner r : ∃ cp, fetched h v owner r = Ret (set_cp h cp, r).
Proof.
  destruct r as [[]|e]; cbn [fetched].
  - destruct (update_page_total h v SharedRead owner) as [cp ->]; [done|]. monad_simpl.
    by eexists.
  - exists (control_plane h). by destruct h.
Qed.

Lemma fetched_entry h v owner e r :
  page_of h v = Some e →
  fetched h v owner r =
    Ret (match r with
         | Ok _ => set_entry h v (with_reader (with_state e SharedRead owner) (local_of h))
         | Err _ => h
         end, r).
Proof.
  intros He. destruct r as [[]|x]; cbn [fetched]; [|done].
  rewrite (update_page_set h v SharedRead owner e) by done. monad_simpl.
  rewrite (add_local_reader_set _ v (with_state e SharedRead owner)) by apply page_of_set_entry.
  by rewrite set_entry_set_entry.
Qed.

(** What a fault makes of the entry of its page. *)
Definition resolved_entry (local : NodeId) (e : DistributedPageEntry) : DistributedPageEntry :=
  match coherence_state e with
  | InFlight => with_state e SharedRead local
  | _ => with_reader (with_state e SharedRead (primary_owner e)) local
  end.

Definition failed_entry (local : NodeId) (e : DistributedPageEntry) : DistributedPageEntry :=
  match coherence_state e with
  | InFlight => e
  | _ => if primary_owner e =? local then e else with_state e InFlight (primary_owner e)
  end.

Definition put_page (cp : Control.ControlPlaneManager) v e : Control.ControlPlaneManager :=
  Control.with_pages cp (<[v := e]> (Control.page_states cp)).

Lemma put_page_id cp v e : Control.page_states cp !! v = Some e → put_page cp v e = cp.
Proof.
  intros He. unfold put_page, Control.with_pages, Control.with_regions.
  rewrite insert_id by done. by destruct cp.
Qed.

Lemma put_page_twice cp v e1 e2 : put_page (put_page cp v e1) v e2 = put_page cp v e2.
Proof.
  unfold put_page, Control.with_pages, Control.with_regions. cbn. by rewrite insert_insert_eq.
Qed.

Lemma resolve_local_spec h v e rest :
  page_of h v = Some e → primary_owner e = local_of h →
  pool_inv (staging_pool h, prefetched_slots h ++ rest) →
  ∃ h' r, resolve_local_missing h v = Ret (h', r) ∧
    control_plane h' =
      (if is_ok r then put_page (control_plane h) v
                         (with_reader (with_state e SharedRead (primary_owner e)) (local_of h))
       else control_plane h) ∧
    Staging.num_slots (staging_pool h') = Staging.num_slots (staging_pool h) ∧
    ∃ gone, pool_inv (staging_pool h', prefetched_slots h' ++ gone ++ rest) ∧
            length gone = if is_ok r then 1%nat else 0%nat.
Proof.
  intros He Hown Hi. unfold resolve_local_missing.
  destruct (pool_pop _ _ Hi) as (r & p' & -> & Hn & Hr). monad_simpl.
  destruct r as [s|x].
  2: { destruct Hr as [-> _]. do 2 eexists. split_and!; [done|done|done|]. by exists []. }
  pose proof (move_or_push_slots (set_pool h p') v s _ Hr) as Hm.
  pose proof (move_or_push_frame (set_pool h p') v s) as Hf.
  destruct (move_or_push (set_pool h p') v s) as [h1 r]. destruct Hf as (Hcp & Hpf & _).
  destruct Hm as (Hn1 & gone & Hg & Hl). cbn [control_plane set_pool] in Hcp.
  assert (Hps : prefetched_slots h1 = prefetched_slots h) by (unfold prefetched_slots; by rewrite Hpf).
  assert (pool_inv (staging_pool h1, prefetched_slots h1 ++ gone ++ rest)) as Hg'.
  { eapply pool_inv_perm; [exact Hg|]. rewrite Hps, !app_assoc. by rewrite (Permutation_app_comm gone). }
  cbn [staging_pool set_pool] in Hn1.
  destruct r as [[]|x].
  - rewrite (update_page_set h1 v SharedRead _ e) by (unfold page_of; by rewrite ?Hcp). monad_simpl.
    rewrite (add_local_reader_set _ v (with_state e SharedRead (Control.local_node_id (control_plane h1))))
      by apply page_of_set_entry. rewrite set_entry_set_entry.
    do 2 eexists. split; [done|]. cbn. rewrite Hcp, Hown. split_and!; [done|congruence|].
    exists gone. by split.
  - do 2 eexists. split; [done|]. split_and!; [done|congruence|]. by exists gone.
Qed.

Lemma resolve_zero_spec h v e :
  page_of h v = Some e →
  ∃ h' r, resolve_with_zeropage h v = Ret (h', r) ∧
    control_plane h' = (if is_ok r then put_page (control_plane h) v (with_state e SharedRead (local_of h))
                        else control_plane h) ∧
    staging_pool h' = staging_pool h ∧ prefetched_pages h' = prefetched_pages h.
Proof.
  intros He. unfold resolve_with_zeropage. destruct (uffd_zeropage _ _ _) as [k [[]|x]].
  - rewrite (update_page_set _ v SharedRead _ e) by done. monad_simpl. by do 2 eexists.
  - by do 2 eexists.
Qed.

(** The entry after the first part of a resolution. *)
Definition begun_entry (local : NodeId) (e : DistributedPageEntry) (p : progress) :
    DistributedPageEntry :=
  match p with
  | Finished (Ok _) => resolved_entry local e
  | _ => failed_entry local e
  end.

(** A fault on a page of another node. *)
Lemma handle_begin_remote h v e rest :
  page_of h v = Some e → coherence_state e ≠ InFlight → primary_owner e ≠ local_of h →
  pool_inv (staging_pool h, prefetched_slots h ++ rest) →
  ∃ h' p, handle_begin h v = Ret (h', p) ∧
    control_plane h' = put_page (control_plane h) v (begun_entry (local_of h) e p) ∧
    Staging.num_slots (staging_pool h') = Staging.num_slots (staging_pool h) ∧
    ∃ gone, pool_inv (staging_pool h', progress_slots p ++ prefetched_slots h' ++ gone ++ rest) ∧
            consumes p gone.
Proof.
  intros He Hst Hown Hi. unfold handle_begin, Control.lookup_page_state.
  change (Control.page_states (control_plane h) !! v) with (page_of h v). rewrite He.
  assert (Hf : failed_entry (local_of h) e = with_state e InFlight (primary_owner e)).
  { unfold failed_entry. rewrite (proj2 (Z.eqb_neq _ _)) by done. by destruct (coherence_state e). }
  assert (Hr : resolved_entry (local_of h) e =
               with_reader (with_state e SharedRead (primary_owner e)) (local_of h)).
  { unfold resolved_entry. by destruct (coherence_state e). }
  set (h0 := set_entry (count incr_remote h) v (with_state e InFlight (primary_owner e))).
  destruct (fetch_begin_slots h0 v (primary_owner e) rest Hi) as (h1 & p & E & Hcp & Hn & gone & Hg & Hl).
  assert (Hp1 : page_of h1 v = Some (with_state e InFlight (primary_owner e))).
  { unfold page_of. rewrite Hcp. apply page_of_set_entry. }
  replace (match coherence_state e with
           | InFlight => _ | _ => _ end)
    with ('(self, p) ← fetch_begin h0 v (primary_owner e);
          match p with
          | Reading slot => Ret (self, Reading slot)
          | Finished r => '(self, r) ← fetched self v (primary_owner e) r; Ret (self, Finished r)
          end).
  2: { rewrite (proj2 (Z.eqb_neq (primary_owner e) _)) by done. cbn [negb].
       rewrite (update_page_set (count incr_remote h) v InFlight _ e) by done. by destruct (coherence_state e). }
  rewrite E. monad_simpl. destruct p as [r|s].
  - rewrite (fetched_entry h1 v _ _ r Hp1). monad_simpl. do 2 eexists. split; [done|].
    destruct r as [[]|x]; cbn [begun_entry control_plane set_entry set_cp].
    + split_and!; [|exact Hn|by exists gone].
      rewrite Hr. unfold local_of. rewrite Hcp. cbn. apply put_page_twice.
    + rewrite Hcp, Hf. split_and!; [done|exact Hn|]. exists gone. split; [exact Hg|done].
  - do 2 eexists. split; [done|]. cbn [begun_entry]. rewrite Hcp, Hf.
    split_and!; [done|exact Hn|]. exists gone. split; [exact Hg|done].
Qed.

Lemma handle_begin_spec h v e rest :
  page_of h v = Some e → pool_inv (staging_pool h, prefetched_slots h ++ rest) →
  ∃ h' p, handle_begin h v = Ret (h', p) ∧
    control_plane h' = put_page (control_plane h) v (begun_entry (local_of h) e p) ∧
    (progress_slots p ≠ [] → coherence_state e ≠ InFlight) ∧
    Staging.num_slots (staging_pool h') = Staging.num_slots (staging_pool h) ∧
    ∃ gone, pool_inv (staging_pool h', progress_slots p ++ prefetched_slots h' ++ gone ++ rest) ∧
            (if decide (coherence_state e = InFlight) then gone = [] else consumes p gone).
Proof.
  intros He Hi. destruct (decide (coherence_state e = InFlight)) as [Hst|Hst].
  - destruct (resolve_zero_spec (count incr_zero h) v e He) as (h' & r & E & Hcp & Hp & Hm).
    unfold handle_begin, Control.lookup_page_state.
    change (Control.page_states (control_plane h) !! v) with (page_of h v).
    rewrite He, Hst, E. monad_simpl. do 2 eexists. split; [done|]. split_and!.
    + rewrite Hcp. unfold begun_entry, resolved_entry, failed_entry. rewrite Hst.
      destruct r as [[]|x]; [done|]. symmetry. by apply put_page_id.
    + done.
    + by rewrite Hp.
    + exists []. split; [|done]. unfold prefetched_slots. by rewrite Hp, Hm.
  - destruct (decide (primary_owner e = local_of h)) as [Hown|Hown].
    + destruct (resolve_local_spec (count incr_local h) v e rest He Hown Hi)
        as (h' & r & E & Hcp & Hn & gone & Hg & Hl).
      unfold handle_begin, Control.lookup_page_state.
      change (Control.page_states (control_plane h) !! v) with (page_of h v).
      rewrite He, (proj2 (Z.eqb_eq (primary_owner e) _)) by done. cbn [negb].
      exists h', (Finished r). split; [|split_and!].
      * destruct (coherence_state e); (done || by rewrite E).
      * rewrite Hcp. unfold begun_entry, resolved_entry, failed_entry.
        rewrite (proj2 (Z.eqb_eq (primary_owner e) _)) by done.
        destruct r as [[]|x]; [by destruct (coherence_state e)|].
        destruct (coherence_state e); symmetry; by apply put_page_id.
      * done.
      * exact Hn.
      * exists gone. split; [exact Hg|].
        destruct r as [[]|x]; cbn in *; lia.
    + destruct (handle_begin_remote h v e rest He Hst Hown Hi)
        as (h' & p & E & Hcp & Hn & gone & Hg & Hl).
      exists h', p. split_and!; auto. by exists gone.
Qed.

End Slots.
End Facts.
End UffdFacts.

Module UffdTheorems.
Import MoveOps Handler UffdFacts StagingTheorems.

Section Theorems.
Context `{!UffdKernel} `{BuildProfile}.

(** [uffd_move] moves all of an aligned range or reports why not; the copy is
    tried exactly when the kernel does not know the move. *)
Lemma uffd_move_exact k dst src len k' n :
  uffd_move k dst src len = (k', Ok n) →
  n = len ∧ dst mod get_page_size = 0 ∧ src mod get_page_size = 0 ∧ len mod get_page_size = 0.
Proof.
  unfold uffd_move, uffd_copy_fallback.
  destruct (Z.eqb_spec (dst mod get_page_size) 0), (Z.eqb_spec (src mod get_page_size) 0),
    (Z.eqb_spec (len mod get_page_size) 0); cbn [negb orb]; try done.
  destruct (ioctl_move _ _ _) as [k1 [d|errno]].
  - destruct (Z.eqb_spec (move_bytes d) len); rewrite ?orb_true_r; [|done].
    destruct (_ <? _); [done|]. intros [= _ <-]. done.
  - destruct (_ || _); [|done]. destruct (ioctl_copy _ _ _) as [k2 [d|x]]; [|done].
    destruct (Z.eqb_spec (copy d) len); rewrite ?orb_true_r; [|done].
    destruct (_ <? _); [done|]. intros [= _ <-]. done.
Qed.

Lemma handle_finish_spec h v owner e slot rest :
  page_of h v = Some e → pool_inv (staging_pool h, slot :: prefetched_slots h ++ rest) →
  ∃ h' r, handle_finish h v owner slot = Ret (h', r) ∧
    control_plane h' = (if is_ok r then put_page (control_plane h) v
                          (with_reader (with_state e SharedRead owner) (local_of h))
                        else control_plane h) ∧
    ∃ gone, pool_inv (staging_pool h', prefetched_slots h' ++ gone ++ rest) ∧
            length gone = if is_ok r then 1%nat else 0%nat.
Proof.
  intros He Hi. unfold handle_finish.
  pose proof (move_or_push_slots h v slot _ Hi) as Hm.
  pose proof (move_or_push_frame h v slot) as Hf.
  destruct (move_or_push h v slot) as [h1 r]. destruct Hf as (Hcp & Hpf & _).
  destruct Hm as (_ & gone & Hg & Hl).
  rewrite (fetched_entry h1 v owner e r) by (unfold page_of; by rewrite Hcp).
  do 2 eexists. split; [done|]. split.
  - destruct r as [[]|x]; cbn [is_ok]; [|done]. unfold local_of. by rewrite <- Hcp.
  - exists gone. split; [|done].
    assert (Hps : prefetched_slots h1 = prefetched_slots h) by (unfold prefetched_slots; by rewrite Hpf).
    replace (prefetched_slots _) with (prefetched_slots h) by (by destruct r as [[]|x]).
    replace (staging_pool _) with (staging_pool h1) by (by destruct r as [[]|x]).
    eapply pool_inv_perm; [exact Hg|]. rewrite !app_assoc. by rewrite (Permutation_app_comm gone).
Qed.

Lemma fault_total h v e rest :
  page_of h v = Some e → pool_inv (staging_pool h, prefetched_slots h ++ rest) →
  ∃ h' r, handle_page_fault_async_inner h v = Ret (h', r) ∧
    control_plane h' = put_page (control_plane h) v
      (if is_ok r then resolved_entry (local_of h) e else failed_entry (local_of h) e) ∧
    ∃ gone, pool_inv (staging_pool h', prefetched_slots h' ++ gone ++ rest) ∧
      (if decide (coherence_state e = InFlight) then gone = [] else consumes (Finished r) gone).
Proof.
  intros He Hi. unfold handle_page_fault_async_inner, Control.lookup_page_state.
  change (Control.page_states (control_plane h) !! v) with (page_of h v). rewrite He.
  destruct (handle_begin_spec h v e rest He Hi) as (h1 & p & -> & Hcp & Hst & _ & gone & Hg & Hl).
  monad_simpl. destruct p as [r|s]; cbn [progress_slots app fmap option_fmap option_map default] in *.
  - exists h1, r. split; [done|]. split; [by destruct r as [[]|x]|]. by exists gone.
  - assert (page_of h1 v = Some (failed_entry (local_of h) e)) as Hp1.
    { unfold page_of. rewrite Hcp. apply lookup_insert_eq. }
    specialize (Hst ltac:(done)).
    destruct (decide (coherence_state e = InFlight)) as [|_]; [done|]. cbn in Hl. subst gone.
    destruct (handle_finish_spec h1 v (primary_owner e) _ s _ Hp1 Hg) as (h2 & r & E & Hcp2 & g2 & Hg2 & Hl2).
    exists h2, r. split; [done|]. split.
    + rewrite Hcp2, Hcp. destruct r as [[]|x]; cbn [is_ok begun_entry]; [|done].
      rewrite put_page_twice. f_equal. unfold local_of. rewrite Hcp. cbn.
      unfold resolved_entry, failed_entry.
      destruct (coherence_state e); [..|done]; by destruct (primary_owner e =? _).
    + exists g2. split; [done|]. destruct r as [[]|x]; cbn in *; lia.
Qed.

(** C6. Every fault on a known page is resolved or refused, and only its own
    page changes: with the slots of the pool accounted for, the handler always
    returns.  On success the page is readable and the local node is one of its
    readers, with the owner it had, except that a page found in flight becomes
    the local node's own; on failure a remote page is left in flight and any
    other page as it was.  A resolution that is not a zero page takes exactly
    one slot out of circulation. *)
Theorem fault_resolution h v e held :
  page_of h v = Some e → pool_inv (staging_pool h, prefetched_slots h ++ held) →
  ∃ h' r gone, handle_page_fault_async_inner h v = Ret (h', r) ∧
    (∀ a, a ≠ v → page_of h' a = page_of h a) ∧
    page_of h' v = Some (if is_ok r then resolved_entry (local_of h) e
                         else failed_entry (local_of h) e) ∧
    pool_inv (staging_pool h', prefetched_slots h' ++ gone ++ held) ∧
    (r = Ok tt → coherence_state e ≠ InFlight → length gone = 1%nat).
Proof.
  intros He Hi. destruct (fault_total h v e held He Hi) as (h' & r & E & Hcp & gone & Hg & Hl).
  exists h', r, gone. split_and!; [done| | |done|].
  - intros a Ha. unfold page_of. rewrite Hcp. cbn. by rewrite lookup_insert_ne.
  - unfold page_of. rewrite Hcp. apply lookup_insert_eq.
  - intros -> Hst. by destruct (decide (coherence_state e = InFlight)).
Qed.

(** A failed fetch loses the page: when a fault on a page of another node
    is refused (the owner is not known, the pool is empty, the move fails),
    the next fault on the page is answered with a zero page, without contacting
    the owner, and the local node records itself as the owner. *)
Theorem failed_fetch_zero_fills h v e held h1 x :
  page_of h v = Some e → coherence_state e ≠ InFlight → primary_owner e ≠ local_of h →
  pool_inv (staging_pool h, prefetched_slots h ++ held) →
  handle_page_fault_async_inner h v = Ret (h1, Err x) →
  (∃ k, uffd_zeropage (uffd h1) v 4096 = (k, Ok tt)) →
  ∃ h2, handle_page_fault_async_inner h1 v = Ret (h2, Ok tt) ∧
    rma_engine h2 = rma_engine h1 ∧
    page_of h2 v = Some (with_state e SharedRead (local_of h)).
Proof.
  intros He Hst Hown Hi E [k Hk].
  destruct (fault_total h v e held He Hi) as (h' & r & E' & Hcp & _).
  rewrite E' in E. injection E as -> ->. cbn [is_ok] in Hcp.
  assert (Hf : failed_entry (local_of h) e = with_state e InFlight (primary_owner e)).
  { unfold failed_entry. rewrite (proj2 (Z.eqb_neq _ _)) by done. by destruct (coherence_state e). }
  assert (Hp : page_of h1 v = Some (with_state e InFlight (primary_owner e))).
  { unfold page_of. rewrite Hcp, Hf. apply lookup_insert_eq. }
  unfold handle_page_fault_async_inner, handle_begin, Control.lookup_page_state.
  change (Control.page_states (control_plane h1) !! v) with (page_of h1 v). rewrite Hp.
  cbn [coherence_state with_state primary_owner]. unfold resolve_with_zeropage.
  cbn [uffd count]. rewrite Hk. cbn [uffd control_plane set_uffd count].
  rewrite (update_page_set _ v SharedRead _ (with_state e InFlight (primary_owner e))) by done.
  monad_simpl. eexists. split; [done|]. split; [done|].
  rewrite page_of_set_entry. unfold local_of. by rewrite Hcp.
Qed.

End Theorems.
(** ** A concrete node: a kernel that does what it is asked, two slots, and a
    page of an unknown peer. *)

Definition willing_kernel : UffdKernel := {|
  kernel := ();
  uffd_error := Z;
  sysconf_page_size := 4096;
  ioctl_move k _ a := (k, Ok (MoveArg (move_dst a) (move_src a) (move_len a) (move_mode a)
                                (move_len a)));
  ioctl_copy k _ a := (k, Ok (CopyArg (copy_dst a) (copy_src a) (copy_len a) (copy_mode a)
                                (copy_len a)));
  ioctl_zeropage k _ a := (k, Ok a);
  ioctl_writeprotect k _ a := (k, Ok a);
  uffd_register k _ _ := (k, Ok tt);
  uffd_unregister k _ _ := (k, Ok tt);
  uffd_poll k _ := (k, Ok 0);
  uffd_read_event k := (k, Ok None);
|}.

Definition two_slots : Staging.StagingMemoryPool :=
  Staging.Pool 65536 8192 4096 2 [0; 1] 0 false 0.

Lemma two_slots_inv : pool_inv (two_slots, []).
Proof. split; cbn; try lia; done. Qed.

#[local] Existing Instance willing_kernel.
#[local] Instance dev_profile : BuildProfile := Dev.

Definition peer_page (owner : NodeId) : DistributedPageEntry := new_entry 0x10000 4096 owner.

Definition node_with (e : DistributedPageEntry) : UffdHandler :=
  MkHandler (tt : kernel)
    (Control.ControlPlane 1 ∅ {[ 0x10000 := e ]} ∅ ∅) two_slots
    (Engine.auto_detect None None) ∅ default_stats None.

Lemma fault_resolution_witness :
  ∃ h' r gone, handle_page_fault_async_inner (node_with (peer_page 1)) 0x10000 = Ret (h', r) ∧
    (∀ a, a ≠ 0x10000 → page_of h' a = page_of (node_with (peer_page 1)) a) ∧
    page_of h' 0x10000 = Some (if is_ok r then resolved_entry 1 (peer_page 1)
                               else failed_entry 1 (peer_page 1)) ∧
    pool_inv (staging_pool h', prefetched_slots h' ++ gone ++ []) ∧
    (r = Ok tt → coherence_state (peer_page 1) ≠ InFlight → length gone = 1%nat).
Proof.
  apply (fault_resolution (node_with (peer_page 1)) 0x10000 (peer_page 1) []);
    [reflexivity|exact two_slots_inv].
Defined.

Lemma failed_fetch_zero_fills_witness :
  ∃ h1 h2, handle_page_fault_async_inner (node_with (peer_page 2)) 0x10000
             = Ret (h1, Err (StagingPoolError (RemoteNodeNotFound 2))) ∧
    handle_page_fault_async_inner h1 0x10000 = Ret (h2, Ok tt) ∧
    page_of h2 0x10000 = Some (with_state (peer_page 2) SharedRead 1).
Proof.
  eexists. destruct (failed_fetch_zero_fills (node_with (peer_page 2)) 0x10000 (peer_page 2) []
    _ (StagingPoolError (RemoteNodeNotFound 2)) eq_refl ltac:(done) ltac:(done)
    two_slots_inv eq_refl ltac:(by eexists)) as (h2 & E & _ & Hp).
  exists h2. split; [reflexivity|]. by split.
Defined.

End UffdTheorems.
