(* ===== verification/Prefetch.v ===== *)
(** * The prefetch engine (src/src/klnk/klnk-daemon/src/prefetch.rs)

    [Prefetch] models the tests a recommended page has to pass, the task that
    fetches one page into a staging slot, and the handling of a
    recommendation.  As in a fault, [rdma_read] is where the page task yields:
    [page_begin] runs up to it and [page_finish] after it.  The channel and the
    spawning of tasks are not modelled here; the interleavings are those of
    the step relation that joins prefetching with the fault handler. *)

From S2P Require Import Prelude Domain ControlPlane StagingPool Rma Ebpf.

Module Prefetch.

Record PrefetchConfig := {
  max_concurrent_requests : Z;
  max_prefetch_count : Z;
  enabled : bool;
}.

Definition default_config : PrefetchConfig :=
  {| max_concurrent_requests := 16; max_prefetch_count := 8; enabled := true |}.

Record PrefetchMetrics := Metrics {
  total_recommendations : Z;
  total_pages_prefetched : Z;
  total_bytes_prefetched : Z;
  total_prefetch_errors : Z;
  prefetch_hits : Z;
}.

Definition default_metrics : PrefetchMetrics := Metrics 0 0 0 0 0.

(** The objects the engine shares with the rest of the daemon; the semaphore
    is its number of free permits. *)
Record PrefetchEngine := MkEngine {
  config : PrefetchConfig;
  control_plane : Control.ControlPlaneManager;
  rma_engine : Engine.RmaTransportEngine;
  staging_pool : Staging.StagingMemoryPool;
  semaphore : Z;
  metrics : PrefetchMetrics;
  prefetched_pages : gmap Z Staging.StagingSlotHandle;
}.

Definition new (config : PrefetchConfig) cp rma pool : PrefetchEngine :=
  MkEngine config cp rma pool (max_concurrent_requests config) default_metrics ∅.

Definition set_pool (e : PrefetchEngine) p : PrefetchEngine :=
  MkEngine (config e) (control_plane e) (rma_engine e) p (semaphore e) (metrics e)
    (prefetched_pages e).
Definition set_rma (e : PrefetchEngine) r : PrefetchEngine :=
  MkEngine (config e) (control_plane e) r (staging_pool e) (semaphore e) (metrics e)
    (prefetched_pages e).
Definition set_metrics (e : PrefetchEngine) m : PrefetchEngine :=
  MkEngine (config e) (control_plane e) (rma_engine e) (staging_pool e) (semaphore e) m
    (prefetched_pages e).
Definition set_pages (e : PrefetchEngine) m : PrefetchEngine :=
  MkEngine (config e) (control_plane e) (rma_engine e) (staging_pool e) (semaphore e)
    (metrics e) m.

Definition count_recommendation (m : PrefetchMetrics) : PrefetchMetrics :=
  Metrics (wrap 64 (total_recommendations m + 1)) (total_pages_prefetched m)
    (total_bytes_prefetched m) (total_prefetch_errors m) (prefetch_hits m).
Definition count_page (len : Z) (m : PrefetchMetrics) : PrefetchMetrics :=
  Metrics (total_recommendations m) (wrap 64 (total_pages_prefetched m + 1))
    (wrap 64 (total_bytes_prefetched m + len)) (total_prefetch_errors m) (prefetch_hits m).
Definition count_error (m : PrefetchMetrics) : PrefetchMetrics :=
  Metrics (total_recommendations m) (total_pages_prefetched m) (total_bytes_prefetched m)
    (wrap 64 (total_prefetch_errors m + 1)) (prefetch_hits m).

Section Engine.
Context `{BuildProfile}.

(** The address of page [i] of a recommendation. *)
Definition page_addr (rec : Stride.PrefetchRecommendation) (i : Z) : outcome Z :=
  step ← iarith 64 (to_signed 64 i * Stride.stride_bytes rec);
  v ← iarith 64 (to_signed 64 (Stride.base_vaddr rec) + step);
  Ret (wrap 64 v).

(** What the loop finds out about a page: nothing to do, or the size, peer
    and key for its task. *)
Definition check_page (self : PrefetchEngine) (vaddr : Z) : option (Z * SocketAddr * Z) :=
  if bool_decide (is_Some (prefetched_pages self !! vaddr)) then None
  else
    match Control.lookup_page_state (control_plane self) vaddr with
    | None => None
    | Some entry =>
        if primary_owner entry =? Control.local_node_id (control_plane self) then None
        else if bool_decide (coherence_state entry = InFlight) then None
        else
          match Control.get_remote_node (control_plane self) (primary_owner entry) with
          | None => None
          | Some info => Some (page_size entry, socket_addr info, metadata_rkey info)
          end
    end.

Inductive progress := PageDone | PageReading (slot : Staging.StagingSlotHandle) (len : Z).

(** [prefetch_one_page] up to the await; a failed read ends there. *)
Definition page_begin (self : PrefetchEngine) (vaddr page_size : Z) (peer : SocketAddr)
    (rkey : Z) : outcome (PrefetchEngine * progress) :=
  '(r, pool) ← Staging.pop_slot (staging_pool self);
  let self := set_pool self pool in
  match r with
  | Err _ => Ret (self, PageDone)
  | Ok slot =>
      let len := Z.min (Staging.size slot) page_size in
      let '(rma, r) := Engine.rdma_read (rma_engine self) peer vaddr rkey
                         (Staging.vaddr slot) len in
      let self := set_rma self rma in
      match r with
      | Ok _ => Ret (self, PageReading slot len)
      | Err _ =>
          let pool := (Staging.push_slot (staging_pool self) (Staging.slot_idx slot)).2 in
          Ret (set_metrics (set_pool self pool) (count_error (metrics self)), PageDone)
      end
  end.

Definition page_finish (self : PrefetchEngine) (vaddr : Z) (slot : Staging.StagingSlotHandle)
    (len : Z) : PrefetchEngine :=
  set_metrics (set_pages self (<[vaddr := slot]> (prefetched_pages self)))
    (count_page len (metrics self)).

(** The page task when nothing else runs during its read. *)
Definition prefetch_one_page (self : PrefetchEngine) (vaddr page_size : Z)
    (peer : SocketAddr) (rkey : Z) : outcome PrefetchEngine :=
  '(self, p) ← page_begin self vaddr page_size peer rkey;
  match p with
  | PageDone => Ret self
  | PageReading slot len => Ret (page_finish self vaddr slot len)
  end.

(** The number of pages a recommendation may ask for. *)
Definition page_count (self : PrefetchEngine) (rec : Stride.PrefetchRecommendation) : Z :=
  Z.min (Stride.count rec) (max_prefetch_count (config self)).

(** [handle_recommendation] under the schedule that completes a page task
    before the loop goes on, which always finds a permit when there is one. *)
Fixpoint handle_pages (n : nat) (self : PrefetchEngine)
    (rec : Stride.PrefetchRecommendation) (i : Z) : outcome PrefetchEngine :=
  match n with
  | O => Ret self
  | S n =>
      vaddr ← page_addr rec i;
      self ← (match check_page self vaddr with
              | None => Ret self
              | Some (size, peer, rkey) => prefetch_one_page self vaddr size peer rkey
              end);
      handle_pages n self rec (i + 1)
  end.

Definition handle_recommendation (self : PrefetchEngine)
    (rec : Stride.PrefetchRecommendation) : outcome PrefetchEngine :=
  handle_pages (Z.to_nat (page_count self rec)) self rec 0.

(** What the receiving loop does with a recommendation. *)
Definition on_recommendation (self : PrefetchEngine) (rec : Stride.PrefetchRecommendation) :
    outcome PrefetchEngine :=
  if enabled (config self) then
    handle_recommendation (set_metrics self (count_recommendation (metrics self))) rec
  else Ret self.

End Engine.

Definition take_prefetched_slot (self : PrefetchEngine) (vaddr : Z) :
    PrefetchEngine * option Staging.StagingSlotHandle :=
  (set_pages self (delete vaddr (prefetched_pages self)), prefetched_pages self !! vaddr).

Definition record_prefetch_hit (self : PrefetchEngine) : PrefetchEngine :=
  set_metrics self (Metrics (total_recommendations (metrics self))
    (total_pages_prefetched (metrics self)) (total_bytes_prefetched (metrics self))
    (total_prefetch_errors (metrics self)) (wrap 64 (prefetch_hits (metrics self) + 1))).

End Prefetch.
