(* ===== verification/Paging.v ===== *)
(** * Faults and prefetching on one node

    The fault handler ([Uffd]) and the prefetch engine ([Prefetch]) of the
    daemon run as tasks over the same control plane, staging pool, transport
    engine and table of prefetched pages.  [Paging] interleaves any number of
    such tasks at the points where they yield: a fault task and a page task at
    their RDMA read, a recommendation at the semaphore.  Everything else that
    changes the control plane meanwhile is [StepControl].  The theorems account
    for the staging slots in every interleaving. *)

From S2P Require Import Prelude Domain ControlPlane StagingPool Rma Ebpf Uffd Prefetch.

Module Paging.
Import MoveOps Handler.

Section Paging.
Context `{!UffdKernel} `{BuildProfile}.

Inductive task :=
  | FaultTask (v : Z)
  | FaultReading (v : Z) (owner : NodeId) (slot : Staging.StagingSlotHandle)
  | RecTask (rec : Stride.PrefetchRecommendation) (i : Z)
  | RecWaiting (rec : Stride.PrefetchRecommendation) (i : Z) (v size : Z)
      (peer : SocketAddr) (rkey : Z)
  | PageTask (v size : Z) (peer : SocketAddr) (rkey : Z)
  | PageReading (v : Z) (slot : Staging.StagingSlotHandle) (len : Z).

Record world := World {
  node : UffdHandler;
  config : Prefetch.PrefetchConfig;
  permits : Z;
  metrics : Prefetch.PrefetchMetrics;
  tasks : list task;
}.

(** The prefetch engine's view of the shared objects, and its changes. *)
Definition engine_of (w : world) : Prefetch.PrefetchEngine :=
  Prefetch.MkEngine (config w) (control_plane (node w)) (rma_engine (node w))
    (staging_pool (node w)) (permits w) (metrics w) (default ∅ (prefetched_pages (node w))).

Definition put_engine (w : world) (e : Prefetch.PrefetchEngine) (permits : Z)
    (ts : list task) : world :=
  World (set_prefetched_pages
           (set_rma (set_pool (node w) (Prefetch.staging_pool e)) (Prefetch.rma_engine e))
           (Prefetch.prefetched_pages e))
    (config w) permits (Prefetch.metrics e) ts.

Definition with_node (w : world) (h : UffdHandler) (ts : list task) : world :=
  World h (config w) (permits w) (metrics w) ts.
Definition with_tasks (w : world) (permits : Z) (ts : list task) : world :=
  World (node w) (config w) permits (metrics w) ts.

(** The owner a fault task has read before its fetch. *)
Definition owner_of (h : UffdHandler) (v : Z) : NodeId :=
  default 0 (primary_owner <$> Control.lookup_page_state (control_plane h) v).

Definition in_flight (h : UffdHandler) (v : Z) : bool :=
  match Control.lookup_page_state (control_plane h) v with
  | Some e => bool_decide (coherence_state e = InFlight)
  | None => false
  end.

(** What a step completes: a fault filled from a staging slot, or not. *)
Inductive label := Filled | Quiet.

Definition fault_done (h : UffdHandler) (r : result UffdHandlerError ()) : UffdHandler :=
  if is_ok r then h else count incr_failed h.

(** A task goes on to its next await, or to its end. *)
Inductive advance : world → label → world → Prop :=
  | StepFaultDone w l1 l2 v h r :
      tasks w = l1 ++ FaultTask v :: l2 →
      handle_begin (node w) v = Ret (h, Finished r) →
      advance w (if is_ok r && negb (in_flight (node w) v) then Filled else Quiet)
        (with_node w (fault_done h r) (l1 ++ l2))
  | StepFaultRead w l1 l2 v h slot :
      tasks w = l1 ++ FaultTask v :: l2 →
      handle_begin (node w) v = Ret (h, Reading slot) →
      advance w Quiet (with_node w h (l1 ++ FaultReading v (owner_of (node w) v) slot :: l2))
  | StepFaultFinish w l1 l2 v owner slot h r :
      tasks w = l1 ++ FaultReading v owner slot :: l2 →
      handle_finish (node w) v owner slot = Ret (h, r) →
      advance w (if is_ok r then Filled else Quiet) (with_node w (fault_done h r) (l1 ++ l2))
  | StepRecSkip w l1 l2 rec i v :
      tasks w = l1 ++ RecTask rec i :: l2 →
      i < Prefetch.page_count (engine_of w) rec → Prefetch.page_addr rec i = Ret v →
      Prefetch.check_page (engine_of w) v = None →
      advance w Quiet (with_tasks w (permits w) (l1 ++ RecTask rec (i + 1) :: l2))
  | StepRecWait w l1 l2 rec i v size peer rkey :
      tasks w = l1 ++ RecTask rec i :: l2 →
      i < Prefetch.page_count (engine_of w) rec → Prefetch.page_addr rec i = Ret v →
      Prefetch.check_page (engine_of w) v = Some (size, peer, rkey) →
      advance w Quiet (with_tasks w (permits w) (l1 ++ RecWaiting rec i v size peer rkey :: l2))
  | StepRecSpawn w l1 l2 rec i v size peer rkey :
      tasks w = l1 ++ RecWaiting rec i v size peer rkey :: l2 → 0 < permits w →
      advance w Quiet (with_tasks w (permits w - 1)
        (l1 ++ RecTask rec (i + 1) :: PageTask v size peer rkey :: l2))
  | StepRecDone w l1 l2 rec i :
      tasks w = l1 ++ RecTask rec i :: l2 →
      Prefetch.page_count (engine_of w) rec ≤ i ∨ Prefetch.page_addr rec i = Panic →
      advance w Quiet (with_tasks w (permits w) (l1 ++ l2))
  | StepPageDone w l1 l2 v size peer rkey e :
      tasks w = l1 ++ PageTask v size peer rkey :: l2 →
      Prefetch.page_begin (engine_of w) v size peer rkey = Ret (e, Prefetch.PageDone) →
      advance w Quiet (put_engine w e (permits w + 1) (l1 ++ l2))
  | StepPageRead w l1 l2 v size peer rkey e slot len :
      tasks w = l1 ++ PageTask v size peer rkey :: l2 →
      Prefetch.page_begin (engine_of w) v size peer rkey = Ret (e, Prefetch.PageReading slot len) →
      advance w Quiet (put_engine w e (permits w) (l1 ++ PageReading v slot len :: l2))
  | StepPageFinish w l1 l2 v slot len :
      tasks w = l1 ++ PageReading v slot len :: l2 →
      advance w Quiet (put_engine w (Prefetch.page_finish (engine_of w) v slot len)
                      (permits w + 1) (l1 ++ l2)).

Inductive step : world → label → world → Prop :=
  | StepFault w v :
      step w Quiet (with_node w (count incr_total (node w)) (tasks w ++ [FaultTask v]))
  | StepRecommend w rec :
      Prefetch.enabled (config w) = true →
      step w Quiet (World (node w) (config w) (permits w)
        (Prefetch.count_recommendation (metrics w)) (tasks w ++ [RecTask rec 0]))
  | StepControl w cp :
      step w Quiet (with_node w (set_cp (node w) cp) (tasks w))
  | StepAdvance w l w' : advance w l w' → step w l w'.

(** Runs with their labels. *)
Inductive run : world → list label → world → Prop :=
  | RunNil w : run w [] w
  | RunSnoc w1 ls w2 l w3 : run w1 ls w2 → step w2 l w3 → run w1 (ls ++ [l]) w3.

(** A node that has just started. *)
Definition started (h : UffdHandler) (cfg : Prefetch.PrefetchConfig) : world :=
  World h cfg (Prefetch.max_concurrent_requests cfg) Prefetch.default_metrics [].

End Paging.
End Paging.

Module PagingFacts.
Import MoveOps Handler UffdFacts StagingTheorems Paging.

Section Facts.
Context `{!UffdKernel} `{BuildProfile}.

(** ** Slots of the tasks *)

Definition task_slots (t : task) : list Staging.StagingSlotHandle :=
  match t with
  | FaultReading _ _ slot | PageReading _ slot _ => [slot]
  | _ => []
  end.

Definition all_slots (ts : list task) : list Staging.StagingSlotHandle := ts ≫= task_slots.

Lemma all_slots_mid l1 t l2 : all_slots (l1 ++ t :: l2) ≡ₚ task_slots t ++ all_slots (l1 ++ l2).
Proof.
  unfold all_slots. rewrite !bind_app, bind_cons, !app_assoc.
  by rewrite (Permutation_app_comm (l1 ≫= task_slots) (task_slots t)).
Qed.

(** Permits in use. *)
Definition permit_of (t : task) : Z :=
  match t with PageTask _ _ _ _ | PageReading _ _ _ => 1 | _ => 0 end.

Lemma zsum_mid {A} (f : A → Z) l1 x l2 : zsum_with f (l1 ++ x :: l2) = f x + zsum_with f (l1 ++ l2).
Proof. induction l1 as [|y l1 IH]; cbn; [done|]. rewrite IH. lia. Qed.

Lemma zsum_snoc {A} (f : A → Z) l x : zsum_with f (l ++ [x]) = zsum_with f l + f x.
Proof. rewrite zsum_mid, app_nil_r. lia. Qed.

(** ** The parts of a task, with any slots held elsewhere *)

Lemma begin_slots h v rest :
  pool_inv (staging_pool h, prefetched_slots h ++ rest) →
  ∃ h' p, handle_begin h v = Ret (h', p) ∧
    Staging.num_slots (staging_pool h') = Staging.num_slots (staging_pool h) ∧
    ∃ gone, pool_inv (staging_pool h', progress_slots p ++ prefetched_slots h' ++ gone ++ rest) ∧
      (p = Finished (Ok tt) → in_flight h v = false → length gone = 1%nat).
Proof.
  intros Hi. unfold in_flight, Control.lookup_page_state.
  destruct (page_of h v) as [e|] eqn:He.
  - destruct (handle_begin_spec h v e rest He Hi) as (h' & p & E & _ & _ & Hn & gone & Hg & Hc).
    exists h', p. split_and!; [done..|]. exists gone. split; [done|]. intros ->.
    unfold page_of in He. rewrite He. intros Hf%bool_decide_eq_false.
    by destruct (decide (coherence_state e = InFlight)).
  - unfold handle_begin, Control.lookup_page_state. unfold page_of in He. rewrite He.
    do 2 eexists. split_and!; [done..|]. by exists [].
Qed.

Lemma finish_slots h v owner slot rest :
  pool_inv (staging_pool h, slot :: prefetched_slots h ++ rest) →
  ∃ h' r, handle_finish h v owner slot = Ret (h', r) ∧
    Staging.num_slots (staging_pool h') = Staging.num_slots (staging_pool h) ∧
    ∃ gone, pool_inv (staging_pool h', prefetched_slots h' ++ gone ++ rest) ∧
      (r = Ok tt → length gone = 1%nat).
Proof.
  intros Hi. unfold handle_finish. pose proof (move_or_push_slots h v slot _ Hi) as Hm.
  pose proof (move_or_push_frame h v slot) as Hf.
  destruct (move_or_push h v slot) as [h1 r]. destruct Hf as (_ & Hpf & _).
  destruct Hm as (Hn & gone & Hg & Hl).
  destruct (fetched_total h1 v owner r) as [cp ->].
  do 2 eexists. split_and!; [done|exact Hn|]. exists gone. split; [|by intros ->].
  unfold prefetched_slots in *. cbn. rewrite Hpf.
  eapply pool_inv_perm; [exact Hg|]. rewrite !app_assoc. by rewrite (Permutation_app_comm gone).
Qed.

Definition page_progress_slots (p : Prefetch.progress) : list Staging.StagingSlotHandle :=
  match p with Prefetch.PageDone => [] | Prefetch.PageReading slot _ => [slot] end.

Lemma page_begin_slots e v size peer rkey held :
  pool_inv (Prefetch.staging_pool e, held) →
  ∃ e' p, Prefetch.page_begin e v size peer rkey = Ret (e', p) ∧
    Prefetch.prefetched_pages e' = Prefetch.prefetched_pages e ∧
    Staging.num_slots (Prefetch.staging_pool e') = Staging.num_slots (Prefetch.staging_pool e) ∧
    pool_inv (Prefetch.staging_pool e', page_progress_slots p ++ held).
Proof.
  intros Hi. unfold Prefetch.page_begin.
  destruct (pool_pop _ _ Hi) as (r & pool & -> & Hn & Hr). monad_simpl.
  destruct r as [s|x].
  - destruct (Engine.rdma_read _ _ _ _ _ _) as [rma [[]|x]]; do 2 eexists; split_and!; try done.
    + cbn. by destruct (pool_push _ _ _ Hr) as [_ ->].
    + cbn. by destruct (pool_push _ _ _ Hr) as [Hp _].
  - destruct Hr as [-> _]. by do 2 eexists.
Qed.

(** ** The invariant *)

(** [n] slots in all; [k] faults were filled; every slot is free, in a task,
    recorded as prefetched, or gone. *)
Definition world_inv (n : Z) (k : nat) (w : world) : Prop :=
  Staging.num_slots (staging_pool (node w)) = n ∧
  permits w + zsum_with permit_of (tasks w) =
    Prefetch.max_concurrent_requests (config w) ∧ 0 ≤ permits w ∧
  ∃ gone, (k ≤ length gone)%nat ∧
    pool_inv (staging_pool (node w), prefetched_slots (node w) ++ all_slots (tasks w) ++ gone).

Definition filled (l : label) : nat := match l with Filled => 1 | Quiet => 0 end.

(** A task is replaced by tasks that hold the same slots and permits. *)
Lemma inv_tasks n k w p ts :
  world_inv n k w → all_slots ts ≡ₚ all_slots (tasks w) → 0 ≤ p →
  p + zsum_with permit_of ts = permits w + zsum_with permit_of (tasks w) →
  world_inv n k (with_tasks w p ts).
Proof.
  intros (Hn & Hp & _ & gone & Hk & Hi) Hs Hp0 Hz. split_and!; [done|cbn; lia|done|].
  exists gone. split; [done|]. eapply pool_inv_perm; [exact Hi|]. cbn. by rewrite Hs.
Qed.

(** Slots [new] leave circulation with [j] more faults filled. *)
Lemma inv_node n k j w h ts new gone :
  Staging.num_slots (staging_pool h) = n →
  permits w + zsum_with permit_of (tasks w) = Prefetch.max_concurrent_requests (config w) →
  0 ≤ permits w → zsum_with permit_of ts = zsum_with permit_of (tasks w) →
  (k ≤ length gone)%nat → (j ≤ length new)%nat →
  pool_inv (staging_pool h, prefetched_slots h ++ all_slots ts ++ new ++ gone) →
  world_inv n (k + j) (with_node w h ts).
Proof.
  intros Hn Hp Hp0 Hz Hk Hj Hi. split_and!; [done|cbn; lia|done|].
  exists (new ++ gone). split; [|done]. rewrite length_app. lia.
Qed.

Lemma fault_done_same h r :
  staging_pool (fault_done h r) = staging_pool h ∧
  prefetched_slots (fault_done h r) = prefetched_slots h.
Proof. unfold fault_done. by destruct (is_ok r). Qed.

Lemma inv_fault_done n k w l1 l2 v h r :
  world_inv n k w → tasks w = l1 ++ FaultTask v :: l2 →
  handle_begin (node w) v = Ret (h, Finished r) →
  world_inv n (k + filled (if is_ok r && negb (in_flight (node w) v) then Filled else Quiet))
    (with_node w (fault_done h r) (l1 ++ l2)).
Proof.
  intros (Hn & Hp & Hp0 & gone & Hk & Hi) Ht E.
  apply (pool_inv_perm _ _ (prefetched_slots (node w) ++ all_slots (l1 ++ l2) ++ gone)) in Hi;
    [|by rewrite Ht, all_slots_mid].
  destruct (begin_slots _ v _ Hi) as (h' & p & E' & Hn' & new & Hg & Hl).
  rewrite E in E'. injection E' as <- <-. destruct (fault_done_same h r) as [Hd1 Hd2].
  eapply (inv_node _ _ _ _ _ _ new gone); [| done | done | | done | |].
  - rewrite Hd1. lia.
  - by rewrite Ht, zsum_mid.
  - destruct r as [[]|x]; cbn; [|lia]. destruct (in_flight (node w) v); cbn; [lia|].
    by rewrite Hl.
  - rewrite Hd1, Hd2. eapply pool_inv_perm; [exact Hg|]. cbn.
    rewrite !(app_assoc _ _ gone). by rewrite (Permutation_app_comm new).
Qed.

Lemma inv_fault_read n k w l1 l2 v h slot :
  world_inv n k w → tasks w = l1 ++ FaultTask v :: l2 →
  handle_begin (node w) v = Ret (h, Reading slot) →
  world_inv n (k + 0) (with_node w h (l1 ++ FaultReading v (owner_of (node w) v) slot :: l2)).
Proof.
  intros (Hn & Hp & Hp0 & gone & Hk & Hi) Ht E.
  apply (pool_inv_perm _ _ (prefetched_slots (node w) ++ all_slots (l1 ++ l2) ++ gone)) in Hi;
    [|by rewrite Ht, all_slots_mid].
  destruct (begin_slots _ v _ Hi) as (h' & p & E' & Hn' & new & Hg & _).
  rewrite E in E'. injection E' as <- <-.
  eapply (inv_node _ _ _ _ _ _ new gone); [lia|done|done| |done|lia|].
  - by rewrite Ht, !zsum_mid.
  - eapply pool_inv_perm; [exact Hg|]. rewrite all_slots_mid. cbn.
    rewrite Permutation_middle. f_equiv. rewrite !(app_assoc _ _ gone). f_equiv.
    by rewrite (Permutation_app_comm new).
Qed.

Lemma inv_fault_finish n k w l1 l2 v owner slot h r :
  world_inv n k w → tasks w = l1 ++ FaultReading v owner slot :: l2 →
  handle_finish (node w) v owner slot = Ret (h, r) →
  world_inv n (k + filled (if is_ok r then Filled else Quiet))
    (with_node w (fault_done h r) (l1 ++ l2)).
Proof.
  intros (Hn & Hp & Hp0 & gone & Hk & Hi) Ht E.
  apply (pool_inv_perm _ _ (slot :: prefetched_slots (node w) ++ all_slots (l1 ++ l2) ++ gone))
    in Hi; [|rewrite Ht, all_slots_mid; cbn; by rewrite <- Permutation_middle].
  destruct (finish_slots _ v owner _ _ Hi) as (h' & r' & E' & Hn' & new & Hg & Hl).
  rewrite E in E'. injection E' as <- <-. destruct (fault_done_same h r) as [Hd1 Hd2].
  eapply (inv_node _ _ _ _ _ _ new gone); [| done | done | | done | |].
  - rewrite Hd1. lia.
  - by rewrite Ht, !zsum_mid.
  - destruct r as [[]|x]; cbn; [|lia]. by rewrite Hl.
  - rewrite Hd1, Hd2. eapply pool_inv_perm; [exact Hg|]. cbn.
    rewrite !(app_assoc _ _ gone). by rewrite (Permutation_app_comm new).
Qed.

(** The prefetch engine's step, with its slots and permits. *)
Lemma inv_engine n k w e p ts old gone :
  Staging.num_slots (Prefetch.staging_pool e) = n →
  p + zsum_with permit_of ts = Prefetch.max_concurrent_requests (config w) → 0 ≤ p →
  (k ≤ length gone)%nat →
  pool_inv (Prefetch.staging_pool e,
    page_slots (Prefetch.prefetched_pages e) ++ all_slots ts ++ old ++ gone) →
  world_inv n (k + 0) (put_engine w e p ts).
Proof.
  intros Hn Hp Hp0 Hk Hi. split_and!; [done|done|done|].
  exists (old ++ gone). split; [|done]. rewrite length_app. lia.
Qed.

Lemma inv_page_begin n k w l1 l2 v size peer rkey e p :
  world_inv n k w → tasks w = l1 ++ PageTask v size peer rkey :: l2 →
  Prefetch.page_begin (engine_of w) v size peer rkey = Ret (e, p) →
  match p with
  | Prefetch.PageDone => world_inv n (k + 0) (put_engine w e (permits w + 1) (l1 ++ l2))
  | Prefetch.PageReading slot len =>
      world_inv n (k + 0) (put_engine w e (permits w) (l1 ++ PageReading v slot len :: l2))
  end.
Proof.
  intros (Hn & Hp & Hp0 & gone & Hk & Hi) Ht E.
  apply (pool_inv_perm _ _ (prefetched_slots (node w) ++ all_slots (l1 ++ l2) ++ gone)) in Hi;
    [|by rewrite Ht, all_slots_mid].
  destruct (page_begin_slots (engine_of w) v size peer rkey _ Hi) as (e' & p' & E' & Hpf & Hn' & Hg).
  rewrite E in E'. injection E' as <- <-. rewrite Ht, zsum_mid in Hp. cbn in Hp.
  destruct p as [|slot len]; eapply (inv_engine _ _ _ _ _ _ [] gone); try done; cbn in *; try lia.
  - by rewrite Hpf.
  - rewrite zsum_mid. cbn. lia.
  - rewrite Hpf. eapply pool_inv_perm; [exact Hg|]. rewrite all_slots_mid. cbn.
    by rewrite <- Permutation_middle.
Qed.

(** A page prefetched again leaves its earlier slot behind. *)
Lemma inv_page_finish n k w l1 l2 v slot len :
  world_inv n k w → tasks w = l1 ++ PageReading v slot len :: l2 →
  world_inv n (k + 0) (put_engine w (Prefetch.page_finish (engine_of w) v slot len)
                         (permits w + 1) (l1 ++ l2)).
Proof.
  intros (Hn & Hp & Hp0 & gone & Hk & Hi) Ht.
  destruct (page_slots_insert (default ∅ (prefetched_pages (node w))) v slot) as (old & Ho & Hnew).
  rewrite Ht, zsum_mid in Hp. cbn in Hp.
  eapply (inv_engine _ _ _ _ _ _ old gone); [done|lia|lia|done|].
  eapply pool_inv_perm; [exact Hi|]. cbn. unfold prefetched_slots.
  rewrite Hnew, Ho, Ht, all_slots_mid. cbn. rewrite <- Permutation_middle. f_equiv.
  rewrite (app_assoc _ old gone), (Permutation_app_comm _ old), !app_assoc.
  by rewrite (Permutation_app_comm old).
Qed.

Lemma inv_advance n k w l w' : world_inv n k w → advance w l w' → world_inv n (k + filled l) w'.
Proof.
  intros Hi Hs. destruct Hs as [w l1 l2 v h r Ht E|w l1 l2 v h slot Ht E
    |w l1 l2 v owner slot h r Ht E|w l1 l2 rec i v Ht _ _ _|w l1 l2 rec i v size peer rkey Ht _ _ _
    |w l1 l2 rec i v size peer rkey Ht Hp|w l1 l2 rec i Ht _|w l1 l2 v size peer rkey e Ht E
    |w l1 l2 v size peer rkey e slot len Ht E|w l1 l2 v slot len Ht];
    cbn [filled]; rewrite ?Nat.add_0_r.
  4-7: pose proof Hi as (_ & _ & Hp0 & _);
    (apply inv_tasks; [done|by rewrite Ht, !all_slots_mid|lia|rewrite Ht, !zsum_mid; cbn; lia]).
  - by eapply inv_fault_done.
  - rewrite <- (Nat.add_0_r k). by eapply inv_fault_read.
  - by eapply inv_fault_finish.
  - rewrite <- (Nat.add_0_r k). by eapply (inv_page_begin _ _ _ _ _ _ _ _ _ _ Prefetch.PageDone).
  - rewrite <- (Nat.add_0_r k).
    by eapply (inv_page_begin _ _ _ _ _ _ _ _ _ _ (Prefetch.PageReading slot len)).
  - rewrite <- (Nat.add_0_r k). by eapply inv_page_finish.
Qed.

(** New tasks hold nothing, and nothing else looks at the rest of the node. *)
Definition new_task (t : task) : Prop :=
  match t with FaultTask _ | RecTask _ _ => True | _ => False end.

Lemma inv_frame n k w h m ts :
  world_inv n k w → staging_pool h = staging_pool (node w) →
  prefetched_pages h = prefetched_pages (node w) → Forall new_task ts →
  world_inv n k (World h (config w) (permits w) m (tasks w ++ ts)).
Proof.
  intros (Hn & Hp & Hp0 & gone & Hk & Hi) Hs Hf Hts.
  assert (all_slots ts = [] ∧ zsum_with permit_of ts = 0) as [Ha Hz].
  { clear -Hts. induction Hts as [|[] ts Ht _ [IH1 IH2]]; try done; by cbn; rewrite ?IH2. }
  assert (zsum_with permit_of (tasks w ++ ts) = zsum_with permit_of (tasks w)) as Hz'.
  { clear -Hz. induction (tasks w) as [|t l IH]; cbn; [done|]. by rewrite IH. }
  split_and!; cbn; [by rewrite Hs|by rewrite Hz'|done|]. exists gone. split; [done|].
  unfold prefetched_slots in *. rewrite Hs, Hf. unfold all_slots in *. by rewrite bind_app, Ha, app_nil_r.
Qed.

Lemma inv_step n k w l w' : world_inv n k w → step w l w' → world_inv n (k + filled l) w'.
Proof.
  intros Hi Hs. destruct Hs as [w v|w rec _|w cp|w l w' Ha]; [| | |by eapply inv_advance];
    cbn [filled]; rewrite Nat.add_0_r.
  - eapply inv_frame; [done..|]. by repeat constructor.
  - eapply inv_frame; [done..|]. by repeat constructor.
  - rewrite <- (app_nil_r (tasks w)). by eapply inv_frame.
Qed.

(** Faults filled in a run. *)
Definition fills (ls : list label) : nat := foldr (λ l n, filled l + n)%nat 0%nat ls.

Lemma fills_snoc ls l : fills (ls ++ [l]) = (fills ls + filled l)%nat.
Proof. induction ls as [|x ls IH]; cbn; [lia|]. unfold fills in IH. rewrite IH. lia. Qed.

Lemma inv_run n w ls w' : world_inv n 0 w → run w ls w' → world_inv n (fills ls) w'.
Proof.
  intros Hi Hr. induction Hr as [|w1 ls w2 l w3 _ IH Hs]; [done|].
  rewrite fills_snoc. eapply inv_step; [by apply IH|done].
Qed.

Lemma inv_started h cfg :
  pool_inv (staging_pool h, []) → prefetched_slots h = [] →
  0 ≤ Prefetch.max_concurrent_requests cfg →
  world_inv (Staging.num_slots (staging_pool h)) 0 (started h cfg).
Proof.
  intros Hi Hp Hc. split_and!; [done|cbn; lia|done|]. exists []. split; [done|].
  cbn. by rewrite Hp.
Qed.

End Facts.
End PagingFacts.

Module PagingTheorems.
Import MoveOps Handler UffdFacts UffdTheorems StagingTheorems Paging PagingFacts.

Section Theorems.
Context `{!UffdKernel} `{BuildProfile}.

(** C3. However fault tasks, prefetch recommendations and page tasks
    interleave, the slots in use are exclusive: the slots being read into and
    those that hold a prefetched page denote disjoint ranges, none of them is
    in the free queue, and no more than [max_concurrent_requests] page tasks
    run. *)
Theorem paging_slots_exclusive h cfg ls w :
  pool_inv (staging_pool h, []) → prefetched_slots h = [] →
  0 ≤ Prefetch.max_concurrent_requests cfg → run (started h cfg) ls w →
  let held := prefetched_slots (node w) ++ all_slots (tasks w) in
  (∀ i j si sj, held !! i = Some si → held !! j = Some sj → i ≠ j →
     Staging.vaddr si + Staging.size si ≤ Staging.vaddr sj ∨
     Staging.vaddr sj + Staging.size sj ≤ Staging.vaddr si) ∧
  (∀ s, s ∈ held → Staging.slot_idx s ∉ Staging.free_slots (staging_pool (node w))) ∧
  zsum_with permit_of (tasks w) ≤ Prefetch.max_concurrent_requests (config w).
Proof.
  intros Hi Hpf Hc Hr held.
  destruct (inv_run _ _ _ _ (inv_started h cfg Hi Hpf Hc) Hr) as (_ & Hp & Hp0 & gone & _ & Hinv).
  rewrite app_assoc in Hinv. fold held in Hinv. split_and!; [| |lia].
  - intros i j si sj Hsi Hsj Hij.
    assert (∀ i s, held !! i = Some s → (held ++ gone) !! i = Some s) as Hl.
    { intros. by apply lookup_app_l_Some. }
    pose proof (held_distinct _ i j si sj Hinv (Hl _ _ Hsi) (Hl _ _ Hsj) Hij).
    pose proof (Forall_lookup_1 _ _ _ _ (pi_handles _ Hinv) (Hl _ _ Hsi)) as [-> ->].
    pose proof (Forall_lookup_1 _ _ _ _ (pi_handles _ Hinv) (Hl _ _ Hsj)) as [-> ->].
    apply slot_ranges_disjoint; [|done]. apply (pi_size _ Hinv).
  - intros s Hs Hf. pose proof (pi_perm _ Hinv) as Hperm.
    assert (NoDup (Staging.free_slots (staging_pool (node w)) ++
      (Staging.slot_idx <$> held ++ gone))) as Hnd by (rewrite Hperm; apply NoDup_seqZ).
    apply NoDup_app in Hnd as (_ & Hd & _). apply (Hd _ Hf).
    apply list_elem_of_fmap. exists s. split; [done|]. apply elem_of_app. by left.
Qed.

(** C32. Staging slots are used up: in every run the faults filled, the slots in
    use and the free slots together never exceed the pool, so that a node fills
    at most [num_slots] faults in its life; once it has, no fault on a page
    that is not already in flight succeeds again. *)
Theorem fills_bounded h cfg ls w :
  pool_inv (staging_pool h, []) → prefetched_slots h = [] →
  0 ≤ Prefetch.max_concurrent_requests cfg → run (started h cfg) ls w →
  let n := Staging.num_slots (staging_pool h) in
  Z.of_nat (fills ls + length (prefetched_slots (node w) ++ all_slots (tasks w)) +
            length (Staging.free_slots (staging_pool (node w)))) ≤ n ∧
  (Z.of_nat (fills ls) = n → ∀ v, in_flight (node w) v = false →
     ∃ h' e, handle_begin (node w) v = Ret (h', Finished (Err e))).
Proof.
  intros Hi Hpf Hc Hr n.
  destruct (inv_run _ _ _ _ (inv_started h cfg Hi Hpf Hc) Hr) as (Hn & _ & _ & gone & Hk & Hinv).
  fold n in Hn. split.
  - pose proof (pi_length _ Hinv) as Hl. cbn in Hl. rewrite app_assoc, length_app in Hl. lia.
  - intros Hf v Hfl.
    destruct (begin_slots _ v _ Hinv) as (h' & p & E & Hn' & new & Hg & Hc').
    pose proof (pi_length _ Hg) as Hl. cbn in Hl. rewrite !length_app in Hl.
    destruct p as [[[]|e]|slot]; cbn in Hl; [rewrite (Hc' eq_refl Hfl) in Hl; lia|by eauto|lia].
Qed.

End Theorems.

(** A run on the concrete node: a fault on a page of its own takes slot 0. *)

#[local] Existing Instance willing_kernel.
#[local] Existing Instance dev_profile.

Definition own_node : UffdHandler := node_with (peer_page 1).
Definition after_fault : UffdHandler :=
  match handle_begin (count incr_total own_node) 0x10000 with
  | Ret (h, _) => h
  | _ => own_node
  end.
Definition cfg : Prefetch.PrefetchConfig := Prefetch.default_config.

Lemma one_fill :
  run (started own_node cfg) [Quiet; Filled] (with_node (started own_node cfg) after_fault []).
Proof.
  apply (RunSnoc _ [Quiet] (with_node (started own_node cfg) (count incr_total own_node)
                             [FaultTask 0x10000])).
  - apply (RunSnoc _ [] (started own_node cfg)); [constructor|]. exact (StepFault (started own_node cfg) 0x10000).
  - apply StepAdvance, (StepFaultDone (with_node (started own_node cfg) (count incr_total own_node)
      [FaultTask 0x10000]) [] [] 0x10000 after_fault (Ok tt)); vm_compute; reflexivity.
Qed.

Lemma paging_slots_exclusive_witness :
  let w := with_node (started own_node cfg) after_fault [] in
  zsum_with permit_of (tasks w) ≤ Prefetch.max_concurrent_requests (config w).
Proof.
  apply (paging_slots_exclusive own_node cfg [Quiet; Filled]
           (with_node (started own_node cfg) after_fault []));
    [exact two_slots_inv|reflexivity|vm_compute; discriminate|exact one_fill].
Defined.

Lemma fills_bounded_witness :
  Z.of_nat (fills [Quiet; Filled] + 0 + length (Staging.free_slots (staging_pool after_fault))) ≤ 2.
Proof.
  apply (fills_bounded own_node cfg [Quiet; Filled]
           (with_node (started own_node cfg) after_fault []));
    [exact two_slots_inv|reflexivity|vm_compute; discriminate|exact one_fill].
Defined.

End PagingTheorems.
