(* ===== verification/RdmaMetadata.v ===== *)
(** * Metadata exposed over RDMA

    [RdmaMetadata] models [klnk-daemon/src/rdma_metadata.rs]: the snapshot of
    the page table, the two regions the daemon registers for it and the push to
    the peers.  The control plane and the transport engine are shared with the
    rest of the daemon and are passed to every operation.  [bincode] is the
    parameter [serialize]; the address of a freshly allocated vector is the
    argument [ptr].  Since the software provider moves no data, the writes are
    recorded as a list. *)

From stdpp Require Import strings.
From S2P Require Import Prelude Domain ControlPlane Rma Invalidation.

Module RdmaMetadata.

Record SerializedPageEntry := {
  s_page_vaddr : Z;
  s_page_size : Z;
  s_coherence_state : Z;
  s_primary_owner : Z;
  s_replica_holders_count : Z;
  s_version : Z;
}.

Record MetadataSnapshot := Snapshot {
  snapshot_version : Z;
  entries : list SerializedPageEntry;
}.

Definition state_code (s : PageCoherenceState) : Z :=
  match s with Invalid => 0 | SharedRead => 1 | ExclusiveWrite => 2 | InFlight => 3 end.

(** [From<&DistributedPageEntry>]. *)
Definition from_entry (entry : DistributedPageEntry) : SerializedPageEntry := {|
  s_page_vaddr := page_vaddr entry;
  s_page_size := wrap 32 (page_size entry);
  s_coherence_state := state_code (coherence_state entry);
  s_primary_owner := primary_owner entry;
  s_replica_holders_count := wrap 32 (Z.of_nat (length (replica_holders entry)));
  s_version := version entry;
|}.

(** A [Vec<u8>]: where it is and what it holds. *)
Record Buffer := Buf { ptr : Z; bytes : list Z }.

Record RdmaMetadataPublisher := Publisher {
  metadata_region : option Engine.RegisteredRegion;
  invalidation_region : option Engine.RegisteredRegion;
  meta_version : Z;
  buffer : Buffer;
  invalidation_buffer : Inval.InvalidationBuffer;
}.

Section Publisher.
Context `{!IterOrder Engine.RegisteredRegion}.
Context {bincode_error : Type}
        (serialize : MetadataSnapshot → result bincode_error (list Z)).

Inductive RdmaMetadataError :=
  | RegistrationFailed (e : Engine.RmaError)
  | SerializationFailed (e : bincode_error)
  | PushFailed (node : NodeId) (msg : string).

(** An empty [Vec] has no allocation; [inval] is the address of the ring. *)
Definition new (inval : Z) : RdmaMetadataPublisher :=
  Publisher None None 0 (Buf 1 []) (Inval.new inval).

Definition build_snapshot (cp : Control.ControlPlaneManager) (self : RdmaMetadataPublisher) :
    MetadataSnapshot :=
  Snapshot (meta_version self) (from_entry <$> Control.get_all_page_states cp).

Definition set_buffer (self : RdmaMetadataPublisher) (b : Buffer) : RdmaMetadataPublisher :=
  Publisher (metadata_region self) (invalidation_region self) (meta_version self) b
    (invalidation_buffer self).

Definition register_metadata (cp : Control.ControlPlaneManager)
    (rma : Engine.RmaTransportEngine) (self : RdmaMetadataPublisher) (ptr : Z) :
    Engine.RmaTransportEngine * RdmaMetadataPublisher * result RdmaMetadataError () :=
  match serialize (build_snapshot cp self) with
  | Err e => (rma, self, Err (SerializationFailed e))
  | Ok serialized =>
      let self := set_buffer self (Buf ptr serialized) in
      let '(rma, r) := Engine.register_memory_region rma ptr
                         (Z.of_nat (length serialized)) None in
      match r with
      | Err e => (rma, self, Err (RegistrationFailed e))
      | Ok region =>
          (rma, Publisher (Some region) (invalidation_region self) (meta_version self)
                  (buffer self) (invalidation_buffer self), Ok tt)
      end
  end.

Definition register_invalidation_buffer (rma : Engine.RmaTransportEngine)
    (self : RdmaMetadataPublisher) :
    Engine.RmaTransportEngine * RdmaMetadataPublisher * result RdmaMetadataError () :=
  let '(rma, r) := Engine.register_memory_region rma
                     (Inval.vaddr (invalidation_buffer self))
                     (Inval.size (invalidation_buffer self)) None in
  match r with
  | Err e => (rma, self, Err (RegistrationFailed e))
  | Ok region =>
      (rma, Publisher (metadata_region self) (Some region) (meta_version self)
              (buffer self) (invalidation_buffer self), Ok tt)
  end.

Definition init_metadata_publisher (cp : Control.ControlPlaneManager)
    (rma : Engine.RmaTransportEngine) (ptr inval : Z) :
    Engine.RmaTransportEngine * result RdmaMetadataError RdmaMetadataPublisher :=
  let '(rma, self, r) := register_metadata cp rma (new inval) ptr in
  match r with
  | Err e => (rma, Err e)
  | Ok _ =>
      let '(rma, self, r) := register_invalidation_buffer rma self in
      (rma, _ ← r; Ok self)
  end.

Definition get_metadata_region (self : RdmaMetadataPublisher) := metadata_region self.
Definition get_invalidation_region (self : RdmaMetadataPublisher) := invalidation_region self.
Definition metadata_version (self : RdmaMetadataPublisher) : Z := meta_version self.
Definition get_invalidation_buffer (self : RdmaMetadataPublisher) := invalidation_buffer self.

Definition refresh_metadata (cp : Control.ControlPlaneManager) (self : RdmaMetadataPublisher)
    (ptr : Z) : RdmaMetadataPublisher * result RdmaMetadataError () :=
  match serialize (build_snapshot cp self) with
  | Err e => (self, Err (SerializationFailed e))
  | Ok serialized =>
      (Publisher (metadata_region self) (invalidation_region self)
         (wrap 64 (meta_version self + 1)) (Buf ptr serialized) (invalidation_buffer self), Ok tt)
  end.

(** What the push asks the transport to do. *)
Inductive Write :=
  | WriteData (peer : SocketAddr) (remote_vaddr rkey local_vaddr len : Z)
  | WriteImmediate (peer : SocketAddr) (remote_vaddr rkey immediate : Z).

(** One peer of the list.  The task yields during the data write: [cp] is the
    control plane before it, [cp'] the one it finds afterwards. *)
Definition push_peer (cp cp' : Control.ControlPlaneManager) (rma : Engine.RmaTransportEngine)
    (self : RdmaMetadataPublisher) (node : NodeId) (peer : SocketAddr) :
    Engine.RmaTransportEngine * list Write :=
  let local_vaddr := ptr (buffer self) in
  let len := Z.of_nat (length (bytes (buffer self))) in
  match Control.get_remote_node cp node with
  | None => (rma, [])
  | Some info =>
      if (metadata_vaddr info =? 0) || (metadata_len info =? 0) then (rma, [])
      else if metadata_len info <? len then (rma, [])
      else
        let '(rma, r) := Engine.rdma_write rma peer (metadata_vaddr info) (metadata_rkey info)
                           local_vaddr len in
        let data := WriteData peer (metadata_vaddr info) (metadata_rkey info) local_vaddr len in
        match r with
        | Err _ => (rma, [data])
        | Ok _ =>
            match Control.get_remote_node cp' node with
            | None => (rma, [data])
            | Some info' =>
                if invalidation_vaddr info' =? 0 then (rma, [data])
                else
                  let immediate := wrap 32 (metadata_version self) in
                  let '(rma, _) := Engine.rdma_write_immediate rma peer
                    (invalidation_vaddr info') (invalidation_rkey info') 0 0 immediate in
                  (rma, [data; WriteImmediate peer (invalidation_vaddr info')
                                 (invalidation_rkey info') immediate])
            end
        end
  end.

(** The loop: [env i] are the two control planes the [i]-th peer finds. *)
Fixpoint push_loop (env : nat → Control.ControlPlaneManager * Control.ControlPlaneManager)
    (rma : Engine.RmaTransportEngine) (self : RdmaMetadataPublisher)
    (peers : list (NodeId * SocketAddr)) : Engine.RmaTransportEngine * list Write :=
  match peers with
  | [] => (rma, [])
  | (node, peer) :: peers =>
      let '(rma, ws) := push_peer (env 0%nat).1 (env 0%nat).2 rma self node peer in
      let '(rma, ws') := push_loop (λ i, env (S i)) rma self peers in
      (rma, ws ++ ws')
  end.

Definition push_metadata_to_peers (cp : Control.ControlPlaneManager)
    (env : nat → Control.ControlPlaneManager * Control.ControlPlaneManager)
    (rma : Engine.RmaTransportEngine) (self : RdmaMetadataPublisher) (ptr : Z) :
    Engine.RmaTransportEngine * RdmaMetadataPublisher * list Write :=
  match metadata_region self with
  | None => (rma, self, [])
  | Some _ =>
      let '(self, r) := refresh_metadata cp self ptr in
      match r with
      | Err _ => (rma, self, [])
      | Ok _ =>
          let peers := (λ info, (node_id info, socket_addr info))
                         <$> Control.get_all_remote_nodes cp in
          let '(rma, ws) := push_loop env rma self peers in (rma, self, ws)
      end
  end.

End Publisher.
End RdmaMetadata.

Module RdmaMetadataTheorems.
Import RdmaMetadata.

(** A work request of the software transport is always accepted. *)
Lemma rdma_write_ok rma peer va rk lv len :
  ∃ rma', Engine.rdma_write rma peer va rk lv len = (rma', Ok tt).
Proof.
  unfold Engine.rdma_write, Provider.post_write, Provider.post, Provider.get_or_create_qp,
    Provider.create_qp.
  destruct (Engine.rdma_provider rma) as [p|]; [|by eexists].
  destruct (Provider.qps p !! peer) as [q|] eqn:E; [by eexists|]. by eexists.
Qed.

(** ** The writes a peer gets when its record is [info], then [info'] *)

Definition accepts (len : Z) (info : RemoteEndpointInfo) : bool :=
  negb (metadata_vaddr info =? 0) && negb (metadata_len info =? 0) && (len <=? metadata_len info).

Definition data_write (b : Buffer) (peer : SocketAddr) (info : RemoteEndpointInfo) : Write :=
  WriteData peer (metadata_vaddr info) (metadata_rkey info) (ptr b) (Z.of_nat (length (bytes b))).

Definition notification (v : Z) (peer : SocketAddr) (info : RemoteEndpointInfo) : list Write :=
  if invalidation_vaddr info =? 0 then []
  else [WriteImmediate peer (invalidation_vaddr info) (invalidation_rkey info) (wrap 32 v)].

Definition peer_writes (self : RdmaMetadataPublisher) (peer : SocketAddr)
    (info info' : option RemoteEndpointInfo) : list Write :=
  match info with
  | Some info =>
      if accepts (Z.of_nat (length (bytes (buffer self)))) info
      then data_write (buffer self) peer info ::
           from_option (notification (meta_version self) peer) [] info'
      else []
  | None => []
  end.

Lemma push_peer_spec cp cp' rma self node peer :
  (push_peer cp cp' rma self node peer).2
  = peer_writes self peer (Control.get_remote_node cp node) (Control.get_remote_node cp' node).
Proof.
  unfold push_peer, peer_writes, accepts, notification.
  destruct (Control.get_remote_node cp node) as [info|]; [|done].
  destruct (metadata_vaddr info =? 0), (metadata_len info =? 0); try done. cbn [orb negb andb].
  rewrite Z.ltb_antisym. destruct (_ <=? _); [|done]. cbn [negb].
  destruct (rdma_write_ok rma peer (metadata_vaddr info) (metadata_rkey info)
    (ptr (buffer self)) (Z.of_nat (length (bytes (buffer self))))) as [rma' ->].
  destruct (Control.get_remote_node cp' node) as [info'|]; [|done]. cbn [from_option].
  destruct (_ =? 0); [done|]. by destruct (Engine.rdma_write_immediate _ _ _ _ _ _ _).
Qed.

Lemma push_loop_spec self peers : ∀ env rma,
  (push_loop env rma self peers).2
  = concat (imap (λ i p, peer_writes self p.2 (Control.get_remote_node (env i).1 p.1)
                           (Control.get_remote_node (env i).2 p.1)) peers).
Proof.
  induction peers as [|[node peer] peers IH]; intros env rma; [done|]. cbn [push_loop].
  pose proof (push_peer_spec (env 0%nat).1 (env 0%nat).2 rma self node peer) as Hp.
  destruct (push_peer _ _ _ _ _ _) as [rma1 ws]. cbn in Hp. subst ws.
  specialize (IH (λ i, env (S i)) rma1).
  destruct (push_loop _ _ _ _) as [rma2 ws']. cbn in IH. subst ws'. done.
Qed.

Definition is_data (w : Write) : bool :=
  match w with WriteData _ _ _ _ _ => true | WriteImmediate _ _ _ _ => false end.

Section Push.
Context `{!IterOrder Engine.RegisteredRegion}.
Context {bincode_error : Type}
        (serialize : MetadataSnapshot → result bincode_error (list Z)).

(** The peers of a control plane, with the records it has for them. *)
Definition peers_of (cp : Control.ControlPlaneManager) : list (NodeId * SocketAddr) :=
  (λ info, (node_id info, socket_addr info)) <$> Control.get_all_remote_nodes cp.

Lemma push_spec cp env rma self p region bs :
  metadata_region self = Some region → serialize (build_snapshot cp self) = Ok bs →
  let self' := Publisher (metadata_region self) (invalidation_region self)
                 (wrap 64 (meta_version self + 1)) (Buf p bs) (invalidation_buffer self) in
  ∃ rma', push_metadata_to_peers serialize cp env rma self p
          = (rma', self', concat (imap (λ i q,
              peer_writes self' q.2 (Control.get_remote_node (env i).1 q.1)
                (Control.get_remote_node (env i).2 q.1)) (peers_of cp))).
Proof.
  intros Hr Hs self'. unfold push_metadata_to_peers, refresh_metadata. rewrite Hr, Hs. cbn -[push_loop].
  rewrite <- Hr. fold self'. pose proof (push_loop_spec self' (peers_of cp) env rma) as Hl.
  unfold peers_of in *. destruct (push_loop _ _ _ _) as [rma' ws]. cbn in Hl. subst ws. by eexists.
Qed.

(** C31. Pushed metadata stays inside the buffers the peers offer: whatever other
    tasks do to the control plane between the writes, every data write copies
    the whole of the new snapshot's buffer to the address and key that some
    control plane of the run has for that peer, and fits the length recorded
    with them; no peer of the list gets more than one data write. *)
Theorem push_writes_fit cp env rma self p region bs :
  metadata_region self = Some region → serialize (build_snapshot cp self) = Ok bs →
  ∃ rma' self' wss, push_metadata_to_peers serialize cp env rma self p
                    = (rma', self', concat wss) ∧
    length wss = length (peers_of cp) ∧
    ∀ i ws peer va rk lv len, wss !! i = Some ws → WriteData peer va rk lv len ∈ ws →
      ∃ node info, peers_of cp !! i = Some (node, peer) ∧
        Control.get_remote_node (env i).1 node = Some info ∧
        va = metadata_vaddr info ∧ va ≠ 0 ∧ rk = metadata_rkey info ∧
        lv = p ∧ len = Z.of_nat (length bs) ∧ len ≤ metadata_len info ∧
        length (List.filter is_data ws) = 1%nat.
Proof.
  intros Hr Hs. destruct (push_spec cp env rma self p region bs Hr Hs) as [rma' E].
  do 3 eexists. split; [exact E|]. split; [apply length_imap|].
  intros i ws peer va rk lv len. rewrite list_lookup_imap.
  destruct (peers_of cp !! i) as [[node q]|]; [|done].
  cbn [fmap option_fmap option_map fst snd]. intros [= <-].
  unfold peer_writes. cbn [buffer bytes meta_version]. destruct (Control.get_remote_node (env i).1 node) as [info|] eqn:Hi;
    [|by intros ?%not_elem_of_nil].
  destruct (accepts _ info) eqn:Ha; [|by intros ?%not_elem_of_nil].
  apply andb_true_iff in Ha as [[Hv _]%andb_true_iff Hl].
  apply negb_true_iff, Z.eqb_neq in Hv. apply Z.leb_le in Hl. unfold notification, data_write.
  intros [[= -> -> -> -> ->]|Hn]%elem_of_cons.
  - exists node, info. split_and!; try done. cbn.
    destruct (Control.get_remote_node (env i).2 node) as [info'|]; cbn; [|done]. by case_match.
  - exfalso. destruct (Control.get_remote_node (env i).2 node) as [info'|]; cbn in Hn;
      [|by apply not_elem_of_nil in Hn].
    case_match; [by apply not_elem_of_nil in Hn|]. by apply list_elem_of_singleton in Hn.
Qed.

(** Records are stored under their own node. *)
Definition nodes_ok (cp : Control.ControlPlaneManager) : Prop :=
  ∀ k info, Control.remote_nodes cp !! k = Some info → node_id info = k.

(** Undisturbed, the push reaches exactly the peers that accept it, and the
    notification carries the version after the one in the snapshot. *)
Lemma push_stable cp rma self p region bs :
  metadata_region self = Some region → serialize (build_snapshot cp self) = Ok bs → nodes_ok cp →
  let self' := Publisher (metadata_region self) (invalidation_region self)
                 (wrap 64 (meta_version self + 1)) (Buf p bs) (invalidation_buffer self) in
  ∃ rma', push_metadata_to_peers serialize cp (λ _, (cp, cp)) rma self p
          = (rma', self', Control.get_all_remote_nodes cp ≫= λ info,
               peer_writes self' (socket_addr info) (Some info) (Some info)) ∧
          snapshot_version (build_snapshot cp self) = meta_version self.
Proof.
  intros Hr Hs Hok self'.
  destruct (push_spec cp (λ _, (cp, cp)) rma self p region bs Hr Hs) as [rma' ->].
  exists rma'. split; [|done]. f_equal. fold self'. unfold peers_of.
  assert (Hall : Forall (λ info, Control.get_remote_node cp (node_id info) = Some info)
                   (Control.get_all_remote_nodes cp)).
  { apply Forall_forall. intros info ([k i] & -> & Hk%elem_of_map_to_list)%list_elem_of_fmap.
    cbn. unfold Control.get_remote_node. by rewrite (Hok k i Hk). }
  cbn [fst snd]. induction Hall as [|info l Hi _ IH]; [done|]. cbn -[Control.get_remote_node peer_writes]. rewrite Hi. f_equal. exact IH.
Qed.

(** A refresh replaces the buffer and leaves the registration as it was: peers
    keep the address of the vector that was dropped. *)
Lemma refresh_keeps_region cp self p self' :
  refresh_metadata serialize cp self p = (self', Ok tt) →
  metadata_region self' = metadata_region self ∧ ptr (buffer self') = p.
Proof. unfold refresh_metadata. destruct (serialize _); [|done]. by intros [= <-]. Qed.

End Push.

(** ** An example: one peer with room for the snapshot. *)

Definition peer_info : RemoteEndpointInfo :=
  Build_RemoteEndpointInfo 2 "10.0.0.2:7000" 0x5000 17 64 0 0x9000 18 32784 0 false.
Definition one_peer : Control.ControlPlaneManager :=
  Control.register_remote_node (Control.new 1) peer_info.
(** [bincode]'s layout of an empty snapshot: the version and the count. *)
Definition empty_layout (s : MetadataSnapshot) : result unit (list Z) :=
  match entries s with
  | [] => Ok (to_be_bytes 8 (snapshot_version s) ++ to_be_bytes 8 0)
  | _ => Err tt
  end.
Definition published : RdmaMetadataPublisher :=
  Publisher (Some (Engine.Reg 1 1 0x7000 16 None)) None 0 (Buf 0x7000 []) (Inval.new 0x8000).

Lemma push_writes_fit_witness :
  ∃ rma' self' wss,
    push_metadata_to_peers empty_layout one_peer (λ _, (one_peer, one_peer))
      (Engine.auto_detect None None) published 0x7100 = (rma', self', concat wss) ∧
    length wss = 1%nat.
Proof.
  edestruct (push_writes_fit empty_layout one_peer (λ _, (one_peer, one_peer))
    (Engine.auto_detect None None) published 0x7100 (Engine.Reg 1 1 0x7000 16 None))
    as (rma' & self' & wss & E & Hl & _); [reflexivity|reflexivity|].
  exists rma', self', wss. split; [exact E|exact Hl].
Defined.

End RdmaMetadataTheorems.
