(* ===== verification/UffdBatch.v ===== *)
(** * Batches of page faults

    [UffdBatch] models [klnk-daemon/src/uffd_batch.rs]: the loop that polls the
    fault handler up to [max_batch_size] times, its statistics and one
    iteration of the daemon's endless loop around it. *)

From S2P Require Import Prelude Uffd.

Module UffdBatch.
Import MoveOps Handler.

Record UffdBatchConfig := BatchConfig {
  max_batch_size : Z;
  poll_timeout_ms : Z;
  idle_sleep_ms : Z;
}.

Definition default_config : UffdBatchConfig := BatchConfig 64 0 1.

Record BatchStats := MkStats {
  total_batches : Z;
  total_faults_processed : Z;
  avg_batch_size : Z;
  last_batch_duration_ms : Z;
}.

Definition default_stats : BatchStats := MkStats 0 0 0 0.

Section Batch.
Context `{!UffdKernel} `{BuildProfile}.

Inductive UffdBatchError := HandlerError (e : UffdHandlerError).

Definition record_batch (self : BatchStats) (faults duration_ms : Z) : outcome BatchStats :=
  let old_avg := avg_batch_size self in
  new_avg ← (if old_avg =? 0 then Ret faults
             else m ← arith 64 (old_avg * 7); s ← arith 64 (m + faults); Ret (s / 8));
  Ret (MkStats (wrap 64 (total_batches self + 1))
         (wrap 64 (total_faults_processed self + faults)) new_avg duration_ms).

Record UffdBatchProcessor := Processor {
  handler : UffdHandler;
  config : UffdBatchConfig;
  stats : BatchStats;
}.

Definition new (handler : UffdHandler) (config : UffdBatchConfig) : UffdBatchProcessor :=
  Processor handler config default_stats.

(** The polling loop, with [n] iterations to go; the addresses are the
    faults for which a task was spawned. *)
Fixpoint poll_loop (n : nat) (h : UffdHandler) (timeout processed : Z) :
    UffdHandler * result UffdHandlerError Z * list Z :=
  match n with
  | O => (h, Ok processed, [])
  | S n =>
      let '(h, r, fault) := poll_and_handle h timeout in
      match r with
      | Err e => (h, Err e, option_list fault)
      | Ok false => (h, Ok processed, option_list fault)
      | Ok true =>
          let '(h, r, faults) := poll_loop n h timeout (processed + 1) in
          (h, r, option_list fault ++ faults)
      end
  end.

(** [elapsed] is the time the loop took. *)
Definition process_batch (self : UffdBatchProcessor) (elapsed : Z) :
    outcome (UffdBatchProcessor * result UffdBatchError Z * list Z) :=
  let '(h, r, faults) := poll_loop (Z.to_nat (max_batch_size (config self))) (handler self)
                           (poll_timeout_ms (config self)) 0 in
  match r with
  | Err e => Ret (Processor h (config self) (stats self), Err (HandlerError e), faults)
  | Ok processed =>
      s ← record_batch (stats self) processed elapsed;
      Ret (Processor h (config self) s, Ok processed, faults)
  end.

(** One turn of [run_loop]: the batch and the milliseconds it sleeps after. *)
Definition run_turn (self : UffdBatchProcessor) (elapsed : Z) :
    outcome (UffdBatchProcessor * Z * list Z) :=
  '(self, r, faults) ← process_batch self elapsed;
  match r with
  | Ok n => Ret (self, if n =? 0 then idle_sleep_ms (config self) else 0, faults)
  | Err _ => ms ← arith 64 (idle_sleep_ms (config self) * 10); Ret (self, ms, faults)
  end.

Definition get_stats (self : UffdBatchProcessor) : BatchStats := stats self.

End Batch.
End UffdBatch.

Module UffdBatchTheorems.
Import MoveOps Handler UffdBatch.

Section Theorems.
Context `{!UffdKernel} `{BuildProfile}.

(** A poll answers true for every fault it hands out. *)
Lemma poll_fault h t h' r a :
  poll_and_handle h t = (h', r, Some a) → r = Ok true.
Proof.
  unfold poll_and_handle. destruct (uffd_poll _ _) as [k [n|e]]; [|done].
  destruct (n =? 0); [done|]. destruct (uffd_read_event _) as [k' [[[b|]|]|e]]; try done.
  by intros [= _ <- _].
Qed.

Lemma poll_loop_spec n : ∀ h t p,
  let '(h', r, faults) := poll_loop n h t p in
  (length faults ≤ n)%nat ∧
  match r with
  | Ok q => p + Z.of_nat (length faults) ≤ q ≤ p + Z.of_nat n
  | Err _ => True
  end.
Proof.
  induction n as [|n IH]; intros h t p; cbn [poll_loop]; [cbn; lia|].
  destruct (poll_and_handle h t) as [[h1 r] f] eqn:E.
  assert (Hf : r = Ok true ∨ f = None).
  { destruct f as [a|]; [left; by eapply poll_fault|by right]. }
  destruct r as [[]|e].
  - specialize (IH h1 t (p + 1)). destruct (poll_loop n h1 t (p + 1)) as [[h2 r2] fs].
    destruct IH as [Hl Hr]. rewrite length_app.
    assert (length (option_list f) ≤ 1)%nat by (destruct f; cbn; lia).
    split; [lia|]. destruct r2; [|done]. lia.
  - destruct Hf as [Hf| ->]; [done|]. cbn. lia.
  - destruct Hf as [Hf| ->]; [done|]. cbn. split; [lia|done].
Qed.

(** The moving average of batches of at most [m] faults is at most [m]. *)
Lemma record_batch_spec s n d m :
  0 ≤ avg_batch_size s ≤ m → 0 ≤ n ≤ m → m * 8 < 2 ^ 64 →
  ∃ s', record_batch s n d = Ret s' ∧ 0 ≤ avg_batch_size s' ≤ m ∧
    total_batches s' = wrap 64 (total_batches s + 1) ∧
    total_faults_processed s' = wrap 64 (total_faults_processed s + n).
Proof.
  intros Ha Hn Hm. unfold record_batch. destruct (Z.eqb_spec (avg_batch_size s) 0).
  - monad_simpl. by eexists.
  - rewrite arith_ret by lia. monad_simpl. rewrite arith_ret by lia. monad_simpl.
    eexists. split; [done|]. cbn. split; [|done].
    split; [apply Z.div_pos; lia|]. apply Z.div_le_upper_bound; lia.
Qed.

(** C28. A batch terminates: [process_batch] polls at most [max_batch_size] times
    and never panics, spawns at most that many fault tasks, and on success
    reports between the number it spawned and the limit; the average it records
    stays within the limit.  When a poll fails, the tasks spawned before keep
    running and the batch is not counted. *)
Theorem process_batch_bounded self elapsed :
  let m := max_batch_size (config self) in
  0 ≤ m → m * 8 < 2 ^ 64 → 0 ≤ avg_batch_size (stats self) ≤ m →
  ∃ self' r faults, process_batch self elapsed = Ret (self', r, faults) ∧
    config self' = config self ∧ Z.of_nat (length faults) ≤ m ∧
    0 ≤ avg_batch_size (stats self') ≤ m ∧
    match r with
    | Ok n => Z.of_nat (length faults) ≤ n ≤ m ∧
        total_batches (stats self') = wrap 64 (total_batches (stats self) + 1) ∧
        total_faults_processed (stats self') = wrap 64 (total_faults_processed (stats self) + n)
    | Err _ => stats self' = stats self
    end.
Proof.
  intros m Hm0 Hm Ha. unfold process_batch. fold m.
  pose proof (poll_loop_spec (Z.to_nat m) (handler self) (poll_timeout_ms (config self)) 0) as Hp.
  destruct (poll_loop _ _ _ _) as [[h r] faults]. destruct Hp as [Hl Hr].
  destruct r as [n|e].
  - destruct (record_batch_spec (stats self) n elapsed m) as (s & -> & Hs & Ht & Hf); [lia..|].
    monad_simpl. do 3 eexists. split; [done|]. cbn. split_and!; done || lia.
  - do 3 eexists. split; [done|]. cbn. split_and!; done || lia.
Qed.

End Theorems.

(** A kernel with no event waiting. *)
#[local] Existing Instance UffdTheorems.willing_kernel.
#[local] Existing Instance UffdTheorems.dev_profile.

Lemma process_batch_bounded_witness :
  let self := new (UffdTheorems.node_with (UffdTheorems.peer_page 1)) default_config in
  ∃ self' r faults, process_batch self 0 = Ret (self', r, faults) ∧
    config self' = config self ∧ Z.of_nat (length faults) ≤ 64.
Proof.
  intros self.
  destruct (process_batch_bounded self 0) as (s & r & f & E & Hc & Hl & _);
    [cbn; lia|cbn; lia|cbn; lia|].
  exists s, r, f. split; [exact E|]. split; [exact Hc|exact Hl].
Defined.

End UffdBatchTheorems.
