(* ===== verification/Daemon.v ===== *)
(** * The daemon

    [DaemonLimits] and [Daemon] model [klnk-daemon/src/main.rs]: the inline
    resource limiter, the start-up of the shared objects, and the control
    socket, where each client's loop receives framed requests ([Transport]),
    executes them on the shared control plane ([ControlPlane]) and answers.
    The operating system and [bincode] answer through arguments.  The theorems
    are about one connection from its first byte to its end, about any number
    of connections that interleave, and about the objects the start-up hands to
    the fault path ([Paging]). *)

From stdpp Require Import strings pretty.
From S2P Require Import Prelude F64 Domain ControlPlane StagingPool Config Transport Rma.
From S2P Require Import Invalidation Uffd Prefetch Paging RdmaMetadata.

Module DaemonLimits.

Inductive LimitsError := MemoryLimitExceeded | DescriptorLimitExceeded | HighWatermarkBackpressure.

Record DaemonResourceConfig := {
  max_staging_bytes : Z;
  high_watermark_pct : f64;
  low_watermark_pct : f64;
  max_active_descriptors : Z;
}.

Definition default_config : DaemonResourceConfig := {|
  max_staging_bytes := 8 * 1024 * 1024 * 1024;
  high_watermark_pct := f64_lit 85 100;
  low_watermark_pct := f64_lit 60 100;
  max_active_descriptors := 1024;
|}.

Record ResourceLimiter := Limiter {
  used_staging_bytes : Z;
  active_descriptors : Z;
  config : DaemonResourceConfig;
}.

Definition new (config : DaemonResourceConfig) : ResourceLimiter := Limiter 0 0 config.

Definition check_backpressure (self : ResourceLimiter) : result LimitsError () :=
  let used := f64_of_Z (used_staging_bytes self) in
  let limit := f64_of_Z (max_staging_bytes (config self)) in
  if f64_geb (f64_div used limit) (high_watermark_pct (config self))
  then Err HighWatermarkBackpressure else Ok tt.

Definition reserve_memory (self : ResourceLimiter) (bytes : Z) :
    ResourceLimiter * result LimitsError () := (self, Ok tt).
Definition release_memory (self : ResourceLimiter) (bytes : Z) : ResourceLimiter := self.

End DaemonLimits.

Module Daemon.

(** [usize] arithmetic: the product cannot overflow for an [i32]. *)
Definition get_core_id_for_numa_node (numa_node : Z) : option Z :=
  if numa_node <? 0 then None else Some (numa_node * 2).

(** ** Texts of the answers *)

Definition hex_digit (d : Z) : Ascii.ascii :=
  Ascii.ascii_of_nat (Z.to_nat (if d <? 10 then 48 + d else 87 + d)).

(** The [x] format: sixteen digits are enough for a [u64]. *)
Fixpoint hex_go (n : nat) (z : Z) (acc : string) : string :=
  match n with
  | O => acc
  | S n =>
      let acc := String (hex_digit (z mod 16)) acc in
      if z <? 16 then acc else hex_go n (z / 16) acc
  end.

Definition hex (z : Z) : string := hex_go 16 z EmptyString.

Definition region_string (r : GlobalRegionId) : string :=
  ("Region(PID:" +:+ pretty (owner_pid r) +:+ ", SHMID:" +:+ pretty (shmid r) +:+ ")")%string.

Definition error_string (e : Control.ControlPlaneError) : string :=
  match e with
  | Control.RegionAlreadyExists r => "Region already registered: " +:+ region_string r
  | Control.RegionNotFound r => "Region not found: " +:+ region_string r
  | Control.AddressNotMapped r vaddr =>
      "Virtual address 0x" +:+ hex vaddr +:+ " not mapped in region " +:+ region_string r
  | Control.LockConflict rid pid =>
      "Lock acquisition conflict for resource 0x" +:+ hex rid +:+ " by client PID " +:+ pretty pid
  | Control.LockNotHeld rid pid =>
      "Lock release error: resource 0x" +:+ hex rid +:+ " not held by client PID " +:+ pretty pid
  end.

Definition ack (r : result Control.ControlPlaneError ()) : Transport.ControlMessagePayload :=
  match r with
  | Ok _ => Transport.ResponseAck true "OK"
  | Err e => Transport.ResponseAck false (error_string e)
  end.

(** ** Requests *)

(** [vaddr as i32]. *)
Definition region_key (pid vaddr : Z) : GlobalRegionId :=
  RegionId pid (to_signed 32 vaddr).

Definition region_desc (pid vaddr size flags : Z) : MemoryRegionDescriptor := {|
  region_id := region_key pid vaddr;
  main_vaddr := vaddr;
  region_size := size;
  staging_vaddr := 0;
  staging_num_pages := 0;
  staging_page_size := 4096;
  prot_flags := flags;
  mem_flags := 0;
  region_version := 0;
|}.

Section Requests.
Context `{BuildProfile}.

Definition process_control_payload (payload : Transport.ControlMessagePayload)
    (cp : Control.ControlPlaneManager) :
    outcome (Transport.ControlMessagePayload * Control.ControlPlaneManager) :=
  match payload with
  | Transport.RegionRegister pid vaddr size flags =>
      '(r, cp) ← Control.register_region cp (region_desc pid vaddr size flags);
      Ret (ack r, cp)
  | Transport.RegionDeregister pid vaddr =>
      '(r, cp) ← Control.deregister_region cp (region_key pid vaddr);
      Ret (ack r, cp)
  | Transport.LockAcquire region_id offset _ =>
      let '(r, cp) := Control.acquire_lock cp region_id (wrap 32 offset) in Ret (ack r, cp)
  | Transport.LockRelease region_id offset _ =>
      let '(r, cp) := Control.release_lock cp region_id (wrap 32 offset) in Ret (ack r, cp)
  | Transport.Heartbeat _ _ => Ret (Transport.ResponseAck true "Heartbeat", cp)
  | Transport.ResponseAck _ _ => Ret (Transport.ResponseAck false "Unsupported", cp)
  end.

Context `{!Transport.Bincode}.

(** [ErrorKind::UnexpectedEof]. *)
Definition is_eof (e : Transport.TransportError) : bool :=
  match e with
  | Transport.IoError msg => bool_decide (msg = "early eof"%string)
  | _ => false
  end.

(** How one turn of the loop ends. *)
Inductive turn :=
  | Next
  | Done (r : result Transport.TransportError ()).

(** One turn: [input] is what the client has sent and the loop has not read,
    [output] what it has written, [write] how the write of the answer ends. *)
Definition client_turn (write : Transport.write_result) (cp : Control.ControlPlaneManager) (input output : list Z) :
    outcome (Control.ControlPlaneManager * list Z * list Z * turn) :=
  let '(msg, input) := Transport.recv_control_message_tokio input in
  match msg with
  | Err e => Ret (cp, input, output, Done (if is_eof e then Ok tt else Err e))
  | Ok payload =>
      '(response, cp) ← process_control_payload payload cp;
      let '(sent, output) := Transport.send_control_message_tokio write output response in
      match sent with
      | Err e => Ret (cp, input, output, Done (Err e))
      | Ok _ => Ret (cp, input, output, Next)
      end
  end.

Definition next_write (writes : list Transport.write_result) : Transport.write_result :=
  match writes with [] => None | w :: _ => w end.

(** The loop for a client that sends [input] and closes; [writes] says how the
    writes of the answers end, one after the other, and those beyond its end
    succeed. *)
Fixpoint handle_client (fuel : nat) (writes : list Transport.write_result)
    (cp : Control.ControlPlaneManager) (input output : list Z) :
    outcome (Control.ControlPlaneManager * list Z * result Transport.TransportError ()) :=
  match fuel with
  | O => OutOfFuel
  | S fuel =>
      '(cp, input, output, t) ← client_turn (next_write writes) cp input output;
      match t with
      | Next => handle_client fuel (tl writes) cp input output
      | Done r => Ret (cp, output, r)
      end
  end.

(** ** All clients of the socket

    Every accepted connection is a task.  Here a turn of its loop is one step:
    a connection is accepted, bytes arrive, a task takes a turn.
    [ControlConcurrent] splits the turns into single accesses of the maps and
    says when that makes no difference. *)

(** [arrived] is everything the client has sent, for the statements. *)
Record connection := Conn {
  arrived : list Z;
  input : list Z;
  output : list Z;
  ended : option (result Transport.TransportError ());
}.

Record server := Server {
  control_plane : Control.ControlPlaneManager;
  connections : list connection;
}.

Inductive server_step : server → server → Prop :=
  | StepAccept s :
      server_step s (Server (control_plane s) (connections s ++ [Conn [] [] [] None]))
  | StepArrive s i c bs :
      connections s !! i = Some c → ended c = None →
      server_step s (Server (control_plane s)
        (<[i := Conn (arrived c ++ bs) (input c ++ bs) (output c) None]> (connections s)))
  | StepTurn s i c write cp inp out t :
      connections s !! i = Some c → ended c = None →
      (** The loop only wakes for a whole frame, or to fail. *)
      client_turn write (control_plane s) (input c) (output c) = Ret (cp, inp, out, t) →
      t ≠ Done (Ok tt) →
      server_step s (Server cp
        (<[i := Conn (arrived c) inp out (match t with Next => None | Done r => Some r end)]>
           (connections s)))
  | StepClose s i c :
      connections s !! i = Some c → ended c = None →
      (∃ write cp inp out, client_turn write (control_plane s) (input c) (output c)
                     = Ret (cp, inp, out, Done (Ok tt))) →
      server_step s (Server (control_plane s)
        (<[i := Conn (arrived c) [] (output c) (Some (Ok tt))]> (connections s))).

End Requests.

(** ** Start-up *)

Section Boot.
Context `{BuildProfile} `{!MoveOps.UffdKernel} `{!IterOrder Engine.RegisteredRegion}.
Context {bincode_error : Type}
        (serialize : RdmaMetadata.MetadataSnapshot → result bincode_error (list Z)).

(** What the operating system and the allocator answer. *)
Record environment := Env {
  detected : option string;
  snapshot_ptr : Z;
  inval_ptr : Z;
  mmap : Z → result Z Z;
  create : result MoveOps.uffd_error MoveOps.kernel;
}.

Inductive BootError :=
  | MetadataError (e : @RdmaMetadata.RdmaMetadataError bincode_error)
  | PoolError (e : Staging.StagingPoolError)
  | UffdError (e : Handler.UffdHandlerError).

Record daemon := {
  paging : Paging.world;
  publisher : RdmaMetadata.RdmaMetadataPublisher;
  limiter : DaemonLimits.ResourceLimiter;
}.

Definition daemon_node_id (cfg : Config.VirthubConfig) : Z :=
  from_option id 1 (Config.parse_u64 (Config.node_id (Config.general cfg))).

Definition prefetch_config (cfg : Config.VirthubConfig) : Prefetch.PrefetchConfig := {|
  Prefetch.max_concurrent_requests := 16;
  Prefetch.max_prefetch_count := Config.prefetch_window (Config.scheduler (Config.master cfg));
  Prefetch.enabled := true;
|}.

(** [main] up to the control socket; the tasks it spawns take no step here. *)
Definition boot (cfg : Config.VirthubConfig) (env : environment) :
    outcome (result BootError daemon) :=
  let rma := Engine.auto_detect
               (Some (Config.device_name (Config.rdma (Config.transport cfg)))) (detected env) in
  let cp := Control.new (daemon_node_id cfg) in
  let '(rma, r) := RdmaMetadata.init_metadata_publisher serialize cp rma
                     (snapshot_ptr env) (inval_ptr env) in
  match r with
  | Err e => Ret (Err (MetadataError e))
  | Ok publisher =>
      r ← Staging.new (mmap env) (Config.staging_num_pages (Config.klnk cfg))
            Staging.PAGE_SIZE_2M (Z.max (Config.numa_node (Config.tuning cfg)) 0);
      match r with
      | Err e => Ret (Err (PoolError e))
      | Ok pool =>
          let '(rma, _) := Engine.register_staging_pool rma (Staging.base_address pool)
                             (Staging.total_size pool) in
          match Handler.new (create env) cp pool rma with
          | Err e => Ret (Err (UffdError e))
          | Ok h =>
              let limits := {|
                DaemonLimits.max_staging_bytes := Config.memlock_limit (Config.tuning cfg);
                DaemonLimits.high_watermark_pct :=
                  DaemonLimits.high_watermark_pct DaemonLimits.default_config;
                DaemonLimits.low_watermark_pct :=
                  DaemonLimits.low_watermark_pct DaemonLimits.default_config;
                DaemonLimits.max_active_descriptors :=
                  DaemonLimits.max_active_descriptors DaemonLimits.default_config |} in
              Ret (Ok {| paging := Paging.started (Handler.set_prefetched_pages h ∅)
                                     (prefetch_config cfg);
                         publisher := publisher;
                         limiter := DaemonLimits.new limits |})
          end
      end
  end.

End Boot.
End Daemon.

Module DaemonFacts.
Import Transport TransportTheorems Daemon.

Section Facts.
Context `{BuildProfile}.

(** ** Requests one after the other *)

Fixpoint serve (ms : list ControlMessagePayload) (cp : Control.ControlPlaneManager) :
    outcome (list ControlMessagePayload * Control.ControlPlaneManager) :=
  match ms with
  | [] => Ret ([], cp)
  | m :: ms =>
      '(r, cp) ← process_control_payload m cp;
      '(rs, cp) ← serve ms cp;
      Ret (r :: rs, cp)
  end.

Lemma serve_length ms : ∀ cp rs cp', serve ms cp = Ret (rs, cp') → length rs = length ms.
Proof.
  induction ms as [|m ms IH]; intros cp rs cp'; cbn [serve]; [by intros [= <- _]|].
  destruct (process_control_payload m cp) as [[r cp1]| |]; monad_simpl; [|done..].
  destruct (serve ms cp1) as [[rs1 cp2]| |] eqn:E; monad_simpl; [|done..].
  intros [= <- _]. cbn. f_equal. by eapply IH.
Qed.

Lemma serve_app ms1 : ∀ ms2 cp,
  serve (ms1 ++ ms2) cp = '(rs1, cp) ← serve ms1 cp; '(rs2, cp) ← serve ms2 cp; Ret (rs1 ++ rs2, cp).
Proof.
  induction ms1 as [|m ms1 IH]; intros ms2 cp; cbn [serve app].
  - monad_simpl. by destruct (serve ms2 cp) as [[rs cp']| |].
  - destruct (process_control_payload m cp) as [[r cp1]| |]; monad_simpl; [|done..].
    rewrite IH. destruct (serve ms1 cp1) as [[rs1 cp2]| |]; monad_simpl; [|done..].
    by destruct (serve ms2 cp2) as [[rs2 cp3]| |].
Qed.

(** Requests whose region ends at least a page below the top of the address
    space, and a table of such regions. *)
Definition request_ok (m : ControlMessagePayload) : Prop :=
  match m with
  | RegionRegister _ vaddr size _ => 0 ≤ vaddr ∧ 0 ≤ size ∧ vaddr + size + 4096 ≤ 2 ^ 64
  | _ => True
  end.

Definition regions_ok (cp : Control.ControlPlaneManager) : Prop :=
  map_Forall (λ _ d, ControlFacts.region_ok d) (Control.regions cp).

Lemma ack_shape r : ∃ b t, ack r = ResponseAck b t.
Proof. destruct r; eauto. Qed.

Lemma lock_regions cp rid pid :
  Control.regions (Control.acquire_lock cp rid pid).2 = Control.regions cp ∧
  Control.regions (Control.release_lock cp rid pid).2 = Control.regions cp.
Proof.
  unfold Control.acquire_lock, Control.release_lock.
  split; repeat case_match; done.
Qed.

Lemma process_total m cp :
  regions_ok cp → request_ok m →
  ∃ r cp', process_control_payload m cp = Ret (r, cp') ∧ regions_ok cp' ∧
           ∃ b t, r = ResponseAck b t.
Proof.
  intros Hr Hm. pose proof ack_shape as Hack. destruct m as [pid v sz fl|pid v|rid off len|rid off len|n t|b t];
    cbn [process_control_payload].
  - assert (ControlFacts.region_ok (region_desc pid v sz fl)) as Hok by (cbn in Hm; unfold ControlFacts.region_ok, Control.unit_size; cbn -[Z.pow]; lia).
    unfold Control.register_region.
    destruct (Control.regions cp !! region_key pid v) as [d|] eqn:E.
    + unfold Control.register_region_with_metadata. cbn [region_id region_desc]. rewrite E.
      rewrite bool_decide_eq_true_2 by done. monad_simpl. eauto 10.
    + destruct (ControlFacts.register_spec cp _ [] Hok E) as (pages & -> & _). monad_simpl.
      do 2 eexists. split; [done|]. split; [|done]. by apply map_Forall_insert_2.
  - destruct (Control.regions cp !! region_key pid v) as [d|] eqn:E.
    + destruct (ControlFacts.deregister_spec cp _ d (Hr _ _ E) E) as (pages & -> & _). monad_simpl.
      do 2 eexists. split; [done|]. split; [|done]. by apply map_Forall_delete.
    + unfold Control.deregister_region. rewrite E. monad_simpl. eauto 10.
  - destruct (lock_regions cp rid (wrap 32 off)) as [El _].
    destruct (Control.acquire_lock _ _ _) as [r cp']. do 2 eexists. split; [done|].
    split; [|apply Hack]. unfold regions_ok. cbn in El. by rewrite El.
  - destruct (lock_regions cp rid (wrap 32 off)) as [_ El].
    destruct (Control.release_lock _ _ _) as [r cp']. do 2 eexists. split; [done|].
    split; [|apply Hack]. unfold regions_ok. cbn in El. by rewrite El.
  - eauto 10.
  - eauto 10.
Qed.

Lemma serve_total ms : ∀ cp,
  regions_ok cp → Forall request_ok ms →
  ∃ rs cp', serve ms cp = Ret (rs, cp') ∧ regions_ok cp' ∧ length rs = length ms ∧
            Forall (λ r, ∃ b t, r = ResponseAck b t) rs.
Proof.
  induction ms as [|m ms IH]; intros cp Hr Hms; [by exists [], cp|].
  apply Forall_cons in Hms as [Hm Hms].
  destruct (process_total m cp Hr Hm) as (r & cp1 & E & Hr1 & Hs). cbn [serve]. rewrite E. monad_simpl.
  destruct (IH cp1 Hr1 Hms) as (rs & cp2 & -> & Hr2 & Hl & Hf). monad_simpl.
  do 2 eexists. split_and!; [done|done|cbn; lia|by constructor].
Qed.

Context `{!Bincode} `{!BincodeLaws}.

(** [bincode] writes every answer: a flag and a text. *)
Hypothesis ack_serializes : ∀ b t, ∃ bs, serialize (ResponseAck b t) = Ok bs.

Lemma turn_answers p rest out cp r cp' :
  framed p → process_control_payload p.1 cp = Ret (r, cp') → (∃ b t, r = ResponseAck b t) →
  ∃ bs, serialize r = Ok bs ∧
    client_turn None cp (frame_bytes p.2 ++ rest) out = Ret (cp', rest, out ++ frame_bytes bs, Next).
Proof.
  intros Hp E (b & t & ->). destruct (ack_serializes b t) as [bs Hbs]. exists bs. split; [done|].
  unfold client_turn. destruct p as [m mb]. cbn [fst snd] in *. rewrite (stream_roundtrip m mb rest Hp).
  rewrite E. monad_simpl. unfold send_control_message_tokio. by rewrite Hbs.
Qed.

(** The loop on whole frames followed by [tail], while the writes succeed. *)
Lemma client_loop ps : ∀ fuel writes cp out tail,
  Forall (λ w, w = None) (take (length ps) writes) → Forall framed ps →
  Forall (λ p, request_ok p.1) ps → regions_ok cp →
  ∃ rs cp', serve ps.*1 cp = Ret (rs.*1, cp') ∧ regions_ok cp' ∧
    Forall (λ r, serialize r.1 = Ok r.2) rs ∧
    handle_client (length ps + fuel) writes cp (wire ps ++ tail) out
      = handle_client fuel (drop (length ps) writes) cp' tail (out ++ wire rs).
Proof.
  induction ps as [|p ps IH]; intros fuel ws cp out tail Hw Hp Hq Hr.
  - exists [], cp. cbn. rewrite app_nil_r. by rewrite drop_0.
  - apply Forall_cons in Hp as [Hp Hps]. apply Forall_cons in Hq as [Hq Hqs].
    destruct (process_total p.1 cp Hr Hq) as (r & cp1 & E & Hr1 & Hs).
    change (wire (p :: ps)) with (frame_bytes p.2 ++ wire ps). rewrite <- app_assoc.
    assert (next_write ws = None ∧ Forall (λ w, w = None) (take (length ps) (tl ws)) ∧
            drop (length ps) (tl ws) = drop (S (length ps)) ws) as (Hw1 & Hws & Hd).
    { destruct ws as [|w ws]; [cbn [tl]; by rewrite take_nil, drop_nil|]. by apply Forall_cons in Hw as [-> Hw]. }
    destruct (turn_answers p (wire ps ++ tail) out cp r cp1 Hp E Hs) as (bs & Hbs & Ht).
    destruct (IH fuel (tl ws) cp1 (out ++ frame_bytes bs) tail Hws Hps Hqs Hr1)
      as (rs & cp2 & Es & Hr2 & Hrs & Eh).
    exists ((r, bs) :: rs), cp2. split_and!; [|done|by constructor|].
    + cbn [fmap list_fmap serve]. rewrite E. monad_simpl. rewrite Es. done.
    + cbn [length Nat.add handle_client]. rewrite Hw1, Ht. monad_simpl. by rewrite Eh, Hd, <- app_assoc.
Qed.

(** The write of an answer fails. *)
Lemma client_write_fails ps1 p ps2 fuel writes n msg cp tail :
  Forall (λ w, w = None) (take (length ps1) writes) →
  writes !! length ps1 = Some (Some (n, msg)) →
  Forall framed (ps1 ++ p :: ps2) → Forall (λ p, request_ok p.1) (ps1 ++ p :: ps2) → regions_ok cp →
  ∃ rs r bs cp', serve (ps1 ++ [p]).*1 cp = Ret (rs.*1 ++ [r], cp') ∧
    Forall (λ r, serialize r.1 = Ok r.2) rs ∧ serialize r = Ok bs ∧
    handle_client (length ps1 + S fuel) writes cp (wire (ps1 ++ p :: ps2) ++ tail) []
      = Ret (cp', wire rs ++ take n (frame_bytes bs), Err (IoError msg)).
Proof.
  intros Hw Hk [Hp1 [Hp _]%Forall_cons]%Forall_app [Hq1 [Hq _]%Forall_cons]%Forall_app Hr.
  destruct (client_loop ps1 (S fuel) writes cp [] (frame_bytes p.2 ++ wire ps2 ++ tail) Hw Hp1 Hq1 Hr)
    as (rs & cp1 & Es & Hr1 & Hrs & Eh).
  destruct (process_total p.1 cp1 Hr1 Hq) as (r & cp2 & E & _ & b & t & ->).
  destruct (ack_serializes b t) as [bs Hbs]. exists rs, (ResponseAck b t), bs, cp2.
  split_and!; [|done|done|].
  - rewrite fmap_app, serve_app, Es. monad_simpl. cbn [fmap list_fmap serve]. by rewrite E.
  - replace (wire (ps1 ++ p :: ps2) ++ tail) with (wire ps1 ++ frame_bytes p.2 ++ wire ps2 ++ tail)
      by (rewrite wire_app; change (wire (p :: ps2)) with (frame_bytes p.2 ++ wire ps2);
          by rewrite <- !app_assoc).
    rewrite Eh, (drop_S _ _ _ Hk). cbn [handle_client next_write]. unfold client_turn.
    destruct p as [m mb]. cbn [fst snd] in *. rewrite (stream_roundtrip m mb _ Hp), E. monad_simpl.
    unfold send_control_message_tokio. by rewrite Hbs.
Qed.

(** ** All clients *)

(** The requests that make up the bytes of a client, and what is left. *)
Inductive consumed : list Z → list ControlMessagePayload → list Z → Prop :=
  | ConsumedNil s : consumed s [] s
  | ConsumedSnoc s ms s1 m s2 :
      consumed s ms s1 → recv_control_message_tokio s1 = (Ok m, s2) → consumed s (ms ++ [m]) s2.

Lemma read_exact_app n s a rest bs :
  read_exact n s = Some (a, rest) → read_exact n (s ++ bs) = Some (a, rest ++ bs).
Proof.
  unfold read_exact. destruct (Nat.leb_spec n (length s)); [|done]. intros [= <- <-].
  rewrite (proj2 (Nat.leb_le _ _)) by (rewrite length_app; lia).
  by rewrite take_app_le, drop_app_le by done.
Qed.

Lemma recv_app s m rest bs :
  recv_control_message_tokio s = (Ok m, rest) →
  recv_control_message_tokio (s ++ bs) = (Ok m, rest ++ bs).
Proof.
  unfold recv_control_message_tokio.
  destruct (read_exact 6 s) as [[hd s1]|] eqn:E1; [|done]. rewrite (read_exact_app _ _ _ _ bs E1).
  destruct (check_header hd) as [[len fl]|]; [|done].
  destruct (read_exact _ s1) as [[pl s2]|] eqn:E2; [|done]. rewrite (read_exact_app _ _ _ _ bs E2).
  by intros [= -> ->].
Qed.

Lemma consumed_app s ms rest bs : consumed s ms rest → consumed (s ++ bs) ms (rest ++ bs).
Proof.
  induction 1 as [|s ms s1 m s2 _ IH Hr]; [constructor|].
  econstructor; [exact IH|by apply recv_app].
Qed.

(** One executed request. *)
Record entry := Entry {
  client : nat;
  request : ControlMessagePayload;
  reply : ControlMessagePayload;
  reply_bytes : list Z;
}.

Definition of_client (i : nat) (hist : list entry) : list entry :=
  filter (λ e, client e = i) hist.

Definition written (hist : list entry) : list Z := concat ((λ e, frame_bytes (reply_bytes e)) <$> hist).

Lemma of_client_snoc i hist e :
  of_client i (hist ++ [e]) = of_client i hist ++ (if decide (client e = i) then [e] else []).
Proof. unfold of_client. by rewrite filter_app. Qed.

Lemma written_snoc hist e : written (hist ++ [e]) = written hist ++ frame_bytes (reply_bytes e).
Proof. unfold written. rewrite fmap_app, concat_app. cbn. by rewrite app_nil_r. Qed.

(** The bytes are written, unless a write failed and ended the connection. *)
Definition all_sent (c : connection) (bs : list Z) : Prop :=
  output c = bs ∨ output c `prefix_of` bs ∧ ∃ e, ended c = Some (Err (IoError e)).

Lemma all_sent_live c bs : all_sent c bs → ended c = None → output c = bs.
Proof. intros [->|[_ [e He]]]; [done|congruence]. Qed.

(** A connection against the history: it has written the answers to its own
    requests, which are the whole frames of what it has sent. *)
Definition conn_ok (hist : list entry) (i : nat) (c : connection) : Prop :=
  all_sent c (written (of_client i hist)) ∧
  ∃ rest, consumed (arrived c) (request <$> of_client i hist) rest ∧
          (ended c = None → rest = input c).

Record linearized (cp0 : Control.ControlPlaneManager) (s : server) (hist : list entry) : Prop := {
  lin_served : serve (request <$> hist) cp0 = Ret (reply <$> hist, control_plane s);
  lin_bytes : Forall (λ e, serialize (reply e) = Ok (reply_bytes e)) hist;
  lin_clients : Forall (λ e, (client e < length (connections s))%nat) hist;
  lin_conns i c : connections s !! i = Some c → conn_ok hist i c;
}.

Lemma process_ack m cp r cp' :
  process_control_payload m cp = Ret (r, cp') → ∃ b t, r = ResponseAck b t.
Proof.
  pose proof ack_shape as Hack. destruct m; cbn [process_control_payload].
  - destruct (Control.register_region _ _) as [[x y]| |]; monad_simpl; [|done..]. intros [= <- _]. auto.
  - destruct (Control.deregister_region _ _) as [[x y]| |]; monad_simpl; [|done..]. intros [= <- _]. auto.
  - destruct (Control.acquire_lock _ _ _). intros [= <- _]. auto.
  - destruct (Control.release_lock _ _ _). intros [= <- _]. auto.
  - intros [= <- _]. eauto.
  - intros [= <- _]. eauto.
Qed.

Lemma turn_inv w cp inp out cp' inp' out' t :
  client_turn w cp inp out = Ret (cp', inp', out', t) →
  (∃ m r bs, recv_control_message_tokio inp = (Ok m, inp') ∧
     process_control_payload m cp = Ret (r, cp') ∧ serialize r = Ok bs ∧
     (t = Next ∧ out' = out ++ frame_bytes bs ∨
      ∃ n e, t = Done (Err (IoError e)) ∧ out' = out ++ take n (frame_bytes bs))) ∨
  (cp' = cp ∧ out' = out ∧ ∃ r, t = Done r).
Proof.
  unfold client_turn. destruct (recv_control_message_tokio inp) as [[m|e] inp1].
  - destruct (process_control_payload m cp) as [[r cp1]| |] eqn:E; monad_simpl; [|done..].
    destruct (process_ack _ _ _ _ E) as (b & tx & ->). destruct (ack_serializes b tx) as [bs Hbs].
    unfold send_control_message_tokio. rewrite Hbs.
    destruct w as [[n e]|]; intros [= <- <- <- <-]; left; do 3 eexists; split_and!; eauto 6.
  - intros [= <- _ <- <-]. right. eauto.
Qed.

(** A connection is replaced and the history stays. *)
Lemma lin_update cp0 s hist i c c' :
  linearized cp0 s hist → connections s !! i = Some c → conn_ok hist i c' →
  linearized cp0 (Server (control_plane s) (<[i := c']> (connections s))) hist.
Proof.
  intros [L1 L2 L3 L4] Hi Hc. split; cbn; [done|done|by rewrite length_insert|].
  intros j d. destruct (decide (i = j)) as [<-|Hne].
  - rewrite list_lookup_insert_eq by (by eapply lookup_lt_Some). by intros [= <-].
  - rewrite list_lookup_insert_ne by done. auto.
Qed.

(** Connection [i] has executed one more request. *)
Lemma lin_execute cp0 s hist i c m r bs cp' c' :
  linearized cp0 s hist → connections s !! i = Some c → ended c = None →
  recv_control_message_tokio (input c) = (Ok m, input c') →
  process_control_payload m (control_plane s) = Ret (r, cp') → serialize r = Ok bs →
  arrived c' = arrived c → all_sent c' (output c ++ frame_bytes bs) →
  linearized cp0 (Server cp' (<[i := c']> (connections s))) (hist ++ [Entry i m r bs]).
Proof.
  intros [L1 L2 L3 L4] Hi He Hrecv Hp Hbs Ha Hsent. pose proof (lookup_lt_Some _ _ _ Hi) as Hlt.
  split; cbn.
  - rewrite !fmap_app, serve_app, L1. monad_simpl. cbn [fmap list_fmap serve]. cbn [request].
    rewrite Hp. done.
  - apply Forall_app. auto.
  - rewrite length_insert. apply Forall_app. auto.
  - intros j d. unfold conn_ok. rewrite of_client_snoc. cbn [client].
    destruct (decide (i = j)) as [<-|Hne].
    + rewrite list_lookup_insert_eq by done. intros [= <-].
      destruct (L4 i c Hi) as (Ho & rest & Hc & Hr). rewrite (Hr He) in Hc.
      rewrite written_snoc, fmap_app, <- (all_sent_live _ _ Ho He), Ha. split; [done|].
      exists (input c'). split; [|done]. by econstructor.
    + rewrite list_lookup_insert_ne by done. rewrite app_nil_r. apply L4.
Qed.

(** The steps that execute nothing. *)
Lemma lin_accept cp0 s hist :
  linearized cp0 s hist →
  linearized cp0 (Server (control_plane s) (connections s ++ [Conn [] [] [] None])) hist.
Proof.
  intros [L1 L2 L3 L4]. split; cbn; [done|done| |].
  - eapply Forall_impl; [exact L3|]. cbn. intros e. rewrite length_app. lia.
  - intros i c [Hc|(Hlt & Hc)]%lookup_app_Some; [auto|].
    apply list_lookup_singleton_Some in Hc as [Hz <-]. unfold conn_ok.
    assert (of_client i hist = []) as ->.
    { unfold of_client. apply elem_of_nil_inv. intros e [Hce Hin]%list_elem_of_filter.
      rewrite Forall_forall in L3. specialize (L3 e Hin). lia. }
    split; [by left|]. exists []. split; [constructor|done].
Qed.

Lemma lin_arrive cp0 s hist i c bs :
  linearized cp0 s hist → connections s !! i = Some c → ended c = None →
  linearized cp0 (Server (control_plane s)
    (<[i := Conn (arrived c ++ bs) (input c ++ bs) (output c) None]> (connections s))) hist.
Proof.
  intros Hl Hi He. eapply lin_update; [done..|].
  destruct (lin_conns _ _ _ Hl i c Hi) as (Ho & rest & Hc & Hr).
  split; [left; exact (all_sent_live _ _ Ho He)|].
  exists (rest ++ bs). split; [by apply consumed_app|]. intros _. cbn. by rewrite Hr.
Qed.

Lemma lin_end cp0 s hist i c inp r :
  linearized cp0 s hist → connections s !! i = Some c → ended c = None →
  linearized cp0 (Server (control_plane s)
    (<[i := Conn (arrived c) inp (output c) (Some r)]> (connections s))) hist.
Proof.
  intros Hl Hi He. eapply lin_update; [done..|].
  destruct (lin_conns _ _ _ Hl i c Hi) as (Ho & rest & Hc & Hr).
  split; [left; exact (all_sent_live _ _ Ho He)|]. by exists rest.
Qed.

Lemma lin_step cp0 s s' hist :
  linearized cp0 s hist → server_step s s' → ∃ hist', linearized cp0 s' (hist ++ hist').
Proof.
  intros Hl Hs. destruct Hs as [s|s i c bs Hi He|s i c w cp inp out t Hi He Ht _|s i c Hi He _].
  - exists []. rewrite app_nil_r. by apply lin_accept.
  - exists []. rewrite app_nil_r. by apply lin_arrive.
  - apply turn_inv in Ht as [(m & r & bs & Hrecv & Hp & Hbs & Ho)|(-> & -> & r & ->)].
    + exists [Entry i m r bs]. eapply lin_execute; [done..|].
      destruct Ho as [[-> ->]|(n & e & -> & ->)]; [by left|right]. cbn. split; [|by eexists].
      apply prefix_app. exists (drop n (frame_bytes bs)). by rewrite take_drop.
    + exists []. rewrite app_nil_r. by apply lin_end.
  - exists []. rewrite app_nil_r. by apply lin_end.
Qed.

Lemma lin_run cp0 s : rtc server_step (Server cp0 []) s → ∃ hist, linearized cp0 s hist.
Proof.
  intros Hr. refine (rtc_ind_r (λ s, ∃ hist, linearized cp0 s hist) (Server cp0 []) _ _ s Hr).
  - by exists [].
  - intros s1 s2 _ Hs [hist Hl]. destruct (lin_step _ _ _ _ Hl Hs) as [h' Hl']. eauto.
Qed.

End Facts.
End DaemonFacts.

Module DaemonTheorems.
Import Transport TransportTheorems Daemon DaemonFacts.

Section Theorems.
Context `{BuildProfile} `{!Bincode} `{!BincodeLaws}.
Hypothesis ack_serializes : ∀ b t, ∃ bs, serialize (ResponseAck b t) = Ok bs.

Lemma wire_length ps : (length ps ≤ length (wire ps))%nat.
Proof.
  induction ps as [|p ps IH]; [done|].
  change (wire (p :: ps)) with (frame_bytes p.2 ++ wire ps). rewrite length_app, frame_length. cbn. lia.
Qed.

(** C12. A connection is served to its end, for any client bytes made of whole
    frames and a rest the transport refuses (nothing, a truncated frame, a bad
    header or body), provided no registered or requested region reaches the last
    page of the address space.  While the answers can be written,
    [handle_client] executes exactly those requests one after the other, writes
    exactly one answer for each, in order, and returns: normally when the rest
    is nothing or truncated, with the transport's error otherwise.  When the
    write of answer [k] fails after [n] bytes, the requests up to [k] have been
    executed, the answers before it and those [n] bytes are written, and
    [handle_client] returns the error without reading further. *)
Theorem client_served cp ps tail e rest writes :
  regions_ok cp → Forall framed ps → Forall (λ p, request_ok p.1) ps →
  recv_control_message_tokio tail = (Err e, rest) →
  let client := handle_client (S (length (wire ps ++ tail))) writes cp (wire ps ++ tail) [] in
  (Forall (λ w, w = None) (take (length ps) writes) →
   ∃ rs cp', client = Ret (cp', wire rs, if is_eof e then Ok tt else Err e) ∧
     serve ps.*1 cp = Ret (rs.*1, cp') ∧ length rs = length ps ∧
     Forall (λ r, serialize r.1 = Ok r.2 ∧ ∃ b t, r.1 = ResponseAck b t) rs) ∧
  (∀ k n msg, (k < length ps)%nat → writes !! k = Some (Some (n, msg)) →
     Forall (λ w, w = None) (take k writes) →
   ∃ rs r bs cp', client = Ret (cp', wire rs ++ take n (frame_bytes bs), Err (IoError msg)) ∧
     serve (take (S k) ps).*1 cp = Ret (rs.*1 ++ [r], cp') ∧ length rs = k ∧
     Forall (λ r, serialize r.1 = Ok r.2) rs ∧ serialize r = Ok bs).
Proof.
  intros Hr Hp Hq He. pose proof (wire_length ps) as Hl.
  assert (∀ k, (k ≤ length ps)%nat → ∃ fuel, S (length (wire ps ++ tail)) = (k + S fuel)%nat) as Hfuel.
  { intros k Hk. exists (length (wire ps ++ tail) - k)%nat. rewrite length_app. lia. }
  cbv zeta. split.
  - intros Hw. destruct (Hfuel (length ps)) as [fuel ->]; [done|].
    destruct (client_loop ack_serializes ps (S fuel) writes cp [] tail Hw Hp Hq Hr)
      as (rs & cp' & Es & _ & Hrs & ->).
    destruct (serve_total ps.*1 cp Hr) as (rs' & cp'' & Es' & _ & Hl' & Hsh);
      [by rewrite Forall_fmap|]. rewrite Es in Es'. injection Es' as <- _.
    rewrite !length_fmap in Hl'. exists rs, cp'. split_and!; [|done|done|].
    + cbn [handle_client]. unfold client_turn. by rewrite He.
    + rewrite Forall_fmap in Hsh. apply Forall_and. done.
  - intros k n msg Hk Hwk Hw. destruct (Hfuel k) as [fuel ->]; [lia|].
    destruct (lookup_lt_is_Some_2 ps k Hk) as [p Hpk].
    assert (Hlk : length (take k ps) = k) by (apply length_take_le; lia).
    rewrite (take_S_r _ _ _ Hpk). rewrite <- (take_drop_middle ps k p Hpk) in Hp, Hq.
    destruct (client_write_fails ack_serializes (take k ps) p (drop (S k) ps) fuel writes n msg cp tail)
      as (rs & r & bs & cp' & Es & Hrs & Hbs & Eh); rewrite ?Hlk; [done..|].
    rewrite Hlk, (take_drop_middle ps k p Hpk) in Eh. exists rs, r, bs, cp'.
    split_and!; [done|done| |done|done].
    assert (Hsl := Es). apply serve_length in Hsl.
    rewrite length_app, !length_fmap, length_app, Hlk in Hsl. cbn in Hsl. lia.
Qed.

(** Requests that run as one step each: whatever connections are open and however
    their bytes arrive and their turns interleave, there is one order of all
    executed requests in which running them one at a time gives the control
    plane and the answers; every connection has been sent the answers to its own
    requests in that order, and its requests are the leading whole frames of
    what it sent. *)
Theorem requests_linearize cp0 s :
  rtc server_step (Server cp0 []) s →
  ∃ hist, serve (request <$> hist) cp0 = Ret (reply <$> hist, control_plane s) ∧
    Forall (λ e, serialize (reply e) = Ok (reply_bytes e)) hist ∧
    ∀ i c, connections s !! i = Some c →
      all_sent c (written (of_client i hist)) ∧
      ∃ rest, consumed (arrived c) (request <$> of_client i hist) rest ∧
              (ended c = None → rest = input c).
Proof.
  intros Hr. destruct (lin_run ack_serializes cp0 s Hr) as [hist [L1 L2 _ L4]]. by exists hist.
Qed.

End Theorems.

(** The identity of a lock's holder is the low half of the offset the request
    names, not the client: after a granted acquisition every acquisition of the
    resource whose offset agrees modulo 2^32 is granted as well, from whatever
    connection, and any such request releases the lock; an acquisition with
    another offset is refused. *)
Theorem daemon_lock_identity `{BuildProfile} cp rid off len off' len' cp1 :
  process_control_payload (LockAcquire rid off len) cp = Ret (ResponseAck true "OK", cp1) →
  ∃ r' cp2, process_control_payload (LockAcquire rid off' len') cp1 = Ret (r', cp2) ∧
    (wrap 32 off' = wrap 32 off → r' = ResponseAck true "OK" ∧ cp2 = cp1 ∧
       ∃ cp3, process_control_payload (LockRelease rid off' len') cp2
              = Ret (ResponseAck true "OK", cp3)) ∧
    (wrap 32 off' ≠ wrap 32 off → ∃ msg, r' = ResponseAck false msg).
Proof.
  cbn [process_control_payload].
  assert (Hg : (Control.acquire_lock cp rid (wrap 32 off)).1 = Ok tt →
    ∃ l, Control.locks (Control.acquire_lock cp rid (wrap 32 off)).2 !! rid = Some l ∧
         Control.current_owner_pid l = Some (wrap 32 off)).
  { unfold Control.acquire_lock.
    destruct (Control.current_owner_pid _) as [o|] eqn:Eo.
    - destruct (Z.eqb_spec o (wrap 32 off)) as [->|]; [|done]. intros _. cbn.
      rewrite lookup_insert_eq. eauto.
    - intros _. cbn. rewrite lookup_insert_eq. by eexists. }
  destruct (Control.acquire_lock cp rid (wrap 32 off)) as [[[]|e] cpx]; [|done].
  intros [= ->]. destruct (Hg eq_refl) as ([res own wait] & Hl & Ho). cbn in Hl, Ho. subst own.
  unfold Control.acquire_lock. rewrite Hl. cbn -[wrap ack Control.release_lock].
  destruct (Z.eqb_spec (wrap 32 off) (wrap 32 off')) as [Eq|Ne].
  - do 2 eexists. split; [done|]. split; [intros _|by intros []].
    split; [done|]. rewrite insert_id by done. split; [by destruct cp1|].
    unfold Control.release_lock. cbn -[wrap]. rewrite Hl. cbn -[wrap].
    rewrite bool_decide_eq_true_2 by (by rewrite Eq). by eexists.
  - do 2 eexists. split; [done|]. split; [intros E; by symmetry in E|]. intros _. by eexists.
Qed.

Section Boot.
Context `{BuildProfile} `{!MoveOps.UffdKernel}.
Context `{!IterOrder Engine.RegisteredRegion} `{!IterOrderLaws Engine.RegisteredRegion}.
Context {bincode_error : Type}
        (serialize : RdmaMetadata.MetadataSnapshot → result bincode_error (list Z)).

(** Registering the snapshot and the ring on a new engine. *)
Lemma publisher_ready device detected n sp ip bs :
  serialize (RdmaMetadata.Snapshot 0 []) = Ok bs → bs ≠ [] → sp ≠ 0 → ip ≠ 0 →
  ∃ rma p, RdmaMetadata.init_metadata_publisher serialize (Control.new n)
             (Engine.auto_detect device detected) sp ip = (rma, Ok p) ∧
    RmaTheorems.engine_ok 3 rma ∧ is_Some (RdmaMetadata.metadata_region p) ∧
    is_Some (RdmaMetadata.invalidation_region p).
Proof.
  intros Hs Hb Hsp Hip. unfold RdmaMetadata.init_metadata_publisher, RdmaMetadata.register_metadata,
    RdmaMetadata.register_invalidation_buffer.
  assert (RdmaMetadata.build_snapshot (Control.new n) (RdmaMetadata.new ip)
          = RdmaMetadata.Snapshot 0 []) as -> by done.
  rewrite Hs. assert (Hl : Z.of_nat (length bs) ≠ 0) by (destruct bs; [done|cbn; lia]).
  assert (RmaTheorems.engine_ok 1 (Engine.auto_detect device detected)) as He.
  { exists Provider.new. split_and!; [done|apply RmaTheorems.keys_ok_initial|done]. }
  destruct (RmaTheorems.rma_register_spec 1 _ sp _ None He Hsp Hl ltac:(lia))
    as (e1 & g1 & -> & He1 & _).
  cbn [RdmaMetadata.invalidation_buffer RdmaMetadata.set_buffer RdmaMetadata.new].
  destruct (RmaTheorems.rma_register_spec 2 e1 (Inval.vaddr (Inval.new ip))
    (Inval.size (Inval.new ip)) None He1 Hip ltac:(done) ltac:(lia)) as (e2 & g2 & -> & He2 & _).
  do 2 eexists. split_and!; [done|exact He2|done|done].
Qed.

Lemma pool_ready mmap num numa base :
  let total := num * Staging.PAGE_SIZE_2M in
  0 < num → total < 2 ^ 64 → (∀ t a, mmap t = Ok a → 0 ≤ a ∧ a + t ≤ 2 ^ 64) →
  mmap total = Ok base → base ≠ 0 →
  ∃ pool, Staging.new mmap num Staging.PAGE_SIZE_2M numa = Ret (Ok pool) ∧
    StagingTheorems.pool_inv (pool, []) ∧ Staging.num_slots pool = num ∧
    Staging.total_bytes pool = total ∧ Staging.base_address pool = base.
Proof.
  intros total Hn Ht Hm Hb Hb0.
  assert (E : Staging.new mmap num Staging.PAGE_SIZE_2M numa = Ret (Ok
    (Staging.Pool base total Staging.PAGE_SIZE_2M num (Staging.fill_queue num) numa false 0))).
  { unfold Staging.new. rewrite (proj2 (Z.eqb_neq num 0)) by lia.
    change ((Staging.PAGE_SIZE_2M =? 0) || _) with false. cbv iota. fold total.
    rewrite arith_ret by (unfold total, Staging.PAGE_SIZE_2M in *; lia). monad_simpl.
    by rewrite Hb, (proj2 (Z.eqb_neq base 0)) by done. }
  eexists. split; [exact E|].
  by apply StagingTheorems.new_inv in E as (Hinv & Hnum & Htot & _); [|done|lia|done|done].
Qed.

(** The start-up hands a sound node to the fault path: when the operating
    system grants the mapping and the descriptor, [main] reaches the control
    socket without a panic, with the metadata, the ring and the staging pool
    registered for remote access; and in whatever way faults and prefetches
    then interleave, the faults filled, the slots in use and the free slots
    never exceed the configured number of staging pages. *)
Theorem boot_ready cfg env bs base k :
  let num := Config.staging_num_pages (Config.klnk cfg) in
  let total := num * Staging.PAGE_SIZE_2M in
  serialize (RdmaMetadata.Snapshot 0 []) = Ok bs → bs ≠ [] →
  snapshot_ptr env ≠ 0 → inval_ptr env ≠ 0 → 0 < num → total < 2 ^ 64 →
  (∀ t a, mmap env t = Ok a → 0 ≤ a ∧ a + t ≤ 2 ^ 64) →
  mmap env total = Ok base → base ≠ 0 → create env = Ok k →
  ∃ d g, boot serialize cfg env = Ret (Ok d) ∧
    is_Some (RdmaMetadata.metadata_region (publisher d)) ∧
    is_Some (RdmaMetadata.invalidation_region (publisher d)) ∧
    Engine.registered_regions (Handler.rma_engine (Paging.node (paging d)))
      !! Engine.rkey g = Some g ∧
    Engine.vaddr g = base ∧ Engine.length_ g = total ∧
    ∀ ls w, Paging.run (paging d) ls w →
      Z.of_nat (PagingFacts.fills ls +
        length (UffdFacts.prefetched_slots (Paging.node w)
                ++ PagingFacts.all_slots (Paging.tasks w)) +
        length (Staging.free_slots (Handler.staging_pool (Paging.node w)))) ≤ num.
Proof.
  intros num total Hs Hb Hsp Hip Hn Ht Hm Hbase Hb0 Hk. unfold boot.
  destruct (publisher_ready (Some (Config.device_name (Config.rdma (Config.transport cfg))))
    (detected env) (daemon_node_id cfg) _ _ bs Hs Hb Hsp Hip) as (rma & p & -> & He & Hmr & Hir).
  fold num. destruct (pool_ready (mmap env) num (Z.max (Config.numa_node (Config.tuning cfg)) 0)
    base) as (pool & -> & Hinv & Hnum & Htot & Hpb); [done..|].
  monad_simpl. unfold Staging.total_size. rewrite Hpb, Htot. fold total.
  destruct (RmaTheorems.rma_register_spec 3 rma base total None He Hb0
    ltac:(unfold total, Staging.PAGE_SIZE_2M in *; lia) ltac:(lia)) as (e' & g & Er & _ & Hv & Hl & _ & Hg).
  unfold Engine.register_staging_pool. rewrite Er. unfold Handler.new. rewrite Hk. cbn [map_err mbind result_bind].
  do 2 eexists. split; [done|]. split_and!; [done|done|exact Hg|done|done|].
  intros ls w Hrun. cbn [paging] in Hrun.
  eapply PagingFacts.inv_run in Hrun; [|apply PagingFacts.inv_started; [exact Hinv|done|done]].
  destruct Hrun as (Hns & _ & _ & gone & Hge & Hi). cbn in Hns. rewrite <- Hnum, <- Hns.
  pose proof (StagingTheorems.pi_length _ Hi) as Hlen. cbn in Hlen.
  rewrite app_assoc, length_app in Hlen. lia.
Qed.

End Boot.

(** Region keys keep 32 bits of the address: of two regions of one process that
    lie 2^32 apart the second is refused, and deregistering the second's address
    removes the first. *)
Lemma region_key_period pid v : region_key pid (v + 2 ^ 32) = region_key pid v.
Proof.
  unfold region_key, to_signed, wrap. replace (v + 2 ^ 32) with (v + 1 * 2 ^ 32) by lia.
  by rewrite Z.mod_add.
Qed.

Lemma far_region_refused `{BuildProfile} cp pid v sz fl sz' fl' d :
  Control.regions cp !! region_key pid v = Some d →
  process_control_payload (RegionRegister pid (v + 2 ^ 32) sz fl) cp
    = Ret (ack (Err (Control.RegionAlreadyExists (region_key pid v))), cp) ∧
  process_control_payload (RegionDeregister pid (v + 2 ^ 32)) cp
    = process_control_payload (RegionDeregister pid v) cp ∧
  region_desc pid (v + 2 ^ 32) sz' fl' ≠ region_desc pid v sz' fl'.
Proof.
  intros E. cbn [process_control_payload]. rewrite region_key_period. split_and!; [|done|].
  - unfold Control.register_region, Control.register_region_with_metadata.
    cbn [region_id region_desc]. rewrite region_key_period, E.
    by rewrite bool_decide_eq_true_2.
  - intros Eq. apply (f_equal main_vaddr) in Eq. cbn in Eq. lia.
Qed.

(** A node name with the documented prefix is not parsed: every such daemon is
    node 1. *)
Lemma daemon_ignores_prefix cfg s :
  Config.node_id (Config.general cfg) = ("node-" +:+ s)%string → daemon_node_id cfg = 1.
Proof. intros E. unfold daemon_node_id. by rewrite E. Qed.

(** The inline limiter never reports backpressure: nothing is ever counted. *)
Lemma limiter_never_warns limits :
  DaemonLimits.high_watermark_pct limits = f64_lit 85 100 →
  DaemonLimits.check_backpressure (DaemonLimits.new limits) = Ok tt.
Proof.
  intros E. unfold DaemonLimits.check_backpressure, DaemonLimits.new. cbn [DaemonLimits.config
    DaemonLimits.used_staging_bytes]. rewrite E.
  destruct (f64_of_Z (DaemonLimits.max_staging_bytes limits)) as [[]|[]| |[] m x]; done.
Qed.

(** ** Examples *)

(** A codec for locks, heartbeats and answers: a tag, then the fields. *)
Definition text_bytes (t : string) : list Z :=
  (λ c, Z.of_nat (Ascii.nat_of_ascii c)) <$> String.list_ascii_of_string t.
Definition bytes_text (bs : list Z) : string :=
  String.string_of_list_ascii ((λ b, Ascii.ascii_of_nat (Z.to_nat b)) <$> bs).

Lemma text_roundtrip t : bytes_text (text_bytes t) = t.
Proof.
  unfold bytes_text, text_bytes. rewrite <- list_fmap_compose.
  rewrite <- (String.string_of_list_ascii_of_string t) at 2. f_equal.
  rewrite <- (list_fmap_id (String.list_ascii_of_string t)) at 2.
  apply list_fmap_ext. intros i c _. cbn. by rewrite Nat2Z.id, Ascii.ascii_nat_embedding.
Qed.

#[local] Instance tagged_codec : Bincode := {|
  bincode_error := unit;
  serialize m :=
    match m with
    | LockAcquire rid off len =>
        if fits 64 rid && fits 64 off && fits 64 len then Ok [1; rid; off; len] else Err tt
    | ResponseAck b t => Ok (2 :: Z.b2z b :: text_bytes t)
    | _ => Err tt
    end;
  deserialize bs :=
    match bs with
    | [1; rid; off; len] =>
        if fits 64 rid && fits 64 off && fits 64 len then Ok (LockAcquire rid off len) else Err tt
    | 2 :: b :: t => Ok (ResponseAck (b =? 1) (bytes_text t))
    | _ => Err tt
    end;
  serialize_batch _ := Err tt;
  deserialize_batch _ := Err tt;
|}.

#[local] Instance tagged_laws : BincodeLaws.
Proof.
  split; [|done]. intros [] bs; try done; cbn.
  - destruct (fits 64 region_id && fits 64 offset && fits 64 len) eqn:E; [|done].
    intros [= <-]. by rewrite E.
  - intros [= <-]. rewrite text_roundtrip. by destruct success.
Qed.

Lemma tagged_ack b t : ∃ bs, serialize (ResponseAck b t) = Ok bs.
Proof. by eexists. Qed.

(** A client that acquires a lock and closes. *)
Definition lock_request : ControlMessagePayload * list Z := (LockAcquire 7 100 8, [1; 7; 100; 8]).

Lemma client_served_witness :
  ∃ rs cp', handle_client (H := Dev) 11 [] (Control.new 1) (wire [lock_request] ++ []) []
              = Ret (cp', wire rs, Ok tt) ∧ length rs = 1%nat.
Proof.
  destruct (proj1 (client_served (H := Dev) tagged_ack (Control.new 1) [lock_request] []
    (IoError "early eof") [] []
    ltac:(apply map_Forall_empty)
    ltac:(constructor; [split; [reflexivity|discriminate]|constructor])
    ltac:(constructor; [exact I|constructor]) eq_refl) ltac:(constructor))
    as (rs & cp' & E & _ & Hl & _).
  exists rs, cp'. split; [exact E|exact Hl].
Defined.

Lemma requests_linearize_witness :
  ∃ hist, serve (H := Dev) (request <$> hist) (Control.new 1)
          = Ret (reply <$> hist, Control.new 1).
Proof.
  destruct (requests_linearize (H := Dev) tagged_ack (Control.new 1)
    (Server (Control.new 1) [Conn [] [] [] None])) as (hist & E & _).
  - apply rtc_once. exact (StepAccept (H := Dev) (Server (Control.new 1) [])).
  - exists hist. exact E.
Defined.

Definition locked : Control.ControlPlaneManager :=
  (Control.acquire_lock (Control.new 1) 7 100).2.

Lemma daemon_lock_identity_witness :
  ∃ r' cp2, process_control_payload (H := Dev) (LockAcquire 7 (100 + 2 ^ 32) 8) locked = Ret (r', cp2) ∧
    r' = ResponseAck true "OK" ∧ cp2 = locked.
Proof.
  destruct (daemon_lock_identity (H := Dev) (Control.new 1) 7 100 8 (100 + 2 ^ 32) 8 locked)
    as (r' & cp2 & E & Hs & _); [reflexivity|].
  exists r', cp2. split; [exact E|]. destruct Hs as (Hr & Hc & _); [reflexivity|]. by split.
Defined.

#[local] Existing Instance UffdTheorems.willing_kernel.
#[local] Existing Instance UffdTheorems.dev_profile.
#[local] Existing Instance RmaTheorems.in_key_order.
#[local] Existing Instance RmaTheorems.in_key_order_laws.

Definition example_env : environment :=
  Env None 0x7000 0x8000
    (StagingTheorems.fixed_mmap 65536) (Ok tt).

Lemma boot_ready_witness :
  ∃ d, boot RdmaMetadataTheorems.empty_layout Config.default example_env = Ret (Ok d).
Proof.
  edestruct (boot_ready RdmaMetadataTheorems.empty_layout Config.default example_env) as (d & _ & E & _);
    [reflexivity|discriminate|discriminate|discriminate|reflexivity|reflexivity| |reflexivity
    |discriminate|reflexivity|].
  - intros t a. cbn. unfold StagingTheorems.fixed_mmap.
    destruct (t <=? 2 ^ 64 - 65536) eqn:E; [|done]. intros [= <-]. lia.
  - exists d. exact E.
Defined.

End DaemonTheorems.
