(* ===== verification/ControlConcurrent.v ===== *)
(** * The control socket at the granularity of single map accesses

    The daemon runs on a multi-threaded runtime, and the methods of
    [ControlPlaneManager] take no lock over their whole body: a registration
    looks its key up, inserts the pages one by one and inserts the region last.
    [ControlThreads] models a request of [Daemon] as a thread whose steps are
    the single accesses of the shared maps, and the socket with such threads.
    [ControlThreadFacts] relates it to [Daemon.server_step], where a request is
    one step, by a simulation: a registration takes effect when its region is
    inserted, a deregistration when its region is removed, a lock request when
    it holds the lock's own [RwLock].  A run is observed as a history of calls
    and returns, and the simulation places the effect of a request between the
    two.  [ControlThreadBounds] counts the accesses
    of a request, [ControlThreadKeeps] has what every access keeps whoever else
    is running.  The theorems say under which condition the simulation holds and
    what happens without it. *)

From S2P Require Import Prelude Domain ControlPlane Transport Daemon.

Module ControlThreads.
Import Transport Daemon.

(** ** One request *)

(** Where the task of a request stands: before its first access, in the page
    loop of a registration or of a deregistration ([curr_addr] and [end_addr]),
    with a clone of the lock's [Arc], or with its answer. *)
Inductive thread :=
  | Start (m : ControlMessagePayload)
  | Inserting (d : MemoryRegionDescriptor) (curr stop : Z)
  | Removing (d : MemoryRegionDescriptor) (curr stop : Z)
  | Acquiring (rid pid : Z)
  | Releasing (rid pid : Z)
  | Finished (r : ControlMessagePayload)
  | Panicked.

Section Threads.
Context `{BuildProfile}.

(** [u64] additions, which abort the task in a debug build. *)
Definition advance (addr n : Z) (k : Z → thread) : thread :=
  match arith 64 (addr + n) with Ret next => k next | _ => Panicked end.

(** [locks.entry(rid).or_insert_with(..)]. *)
Definition lock_entry (cp : Control.ControlPlaneManager) (rid : Z) : Control.ControlPlaneManager :=
  match Control.locks cp !! rid with
  | Some _ => cp
  | None => Control.with_locks cp (<[rid := Control.Lock rid None []]> (Control.locks cp))
  end.

(** [register_region] up to its page loop. *)
Definition register_start (cp : Control.ControlPlaneManager) (d : MemoryRegionDescriptor) :
    Control.ControlPlaneManager * thread :=
  if bool_decide (is_Some (Control.regions cp !! region_id d))
  then (cp, Finished (ack (Err (Control.RegionAlreadyExists (region_id d)))))
  else (cp, advance (main_vaddr d) (region_size d) (Inserting d (main_vaddr d))).

(** An iteration of the loop, or what follows it. *)
Definition register_next (cp : Control.ControlPlaneManager) (d : MemoryRegionDescriptor) (curr stop : Z) :
    Control.ControlPlaneManager * thread :=
  if curr <? stop then
    (Control.with_pages cp
       (<[curr := new_with_metadata curr (Control.unit_size d) (Control.local_node_id cp) []]>
          (Control.page_states cp)),
     advance curr (Control.unit_size d) (λ next, Inserting d next stop))
  else
    (Control.with_regions cp (<[region_id d := d]> (Control.regions cp)) (Control.page_states cp),
     Finished (ack (Ok tt))).

(** [deregister_region], likewise. *)
Definition deregister_start (cp : Control.ControlPlaneManager) (id : GlobalRegionId) :
    Control.ControlPlaneManager * thread :=
  match Control.regions cp !! id with
  | Some d =>
      (Control.with_regions cp (delete id (Control.regions cp)) (Control.page_states cp),
       advance (main_vaddr d) (region_size d) (Removing d (main_vaddr d)))
  | None => (cp, Finished (ack (Err (Control.RegionNotFound id))))
  end.

Definition deregister_next (cp : Control.ControlPlaneManager) (d : MemoryRegionDescriptor) (curr stop : Z) :
    Control.ControlPlaneManager * thread :=
  if curr <? stop then
    (Control.with_pages cp (delete curr (Control.page_states cp)),
     advance curr (Control.unit_size d) (λ next, Removing d next stop))
  else (cp, Finished (ack (Ok tt))).

(** The first access of a request. *)
Definition start (cp : Control.ControlPlaneManager) (m : ControlMessagePayload) :
    Control.ControlPlaneManager * thread :=
  match m with
  | RegionRegister pid vaddr size flags => register_start cp (region_desc pid vaddr size flags)
  | RegionDeregister pid vaddr => deregister_start cp (region_key pid vaddr)
  | LockAcquire rid offset _ => (lock_entry cp rid, Acquiring rid (wrap 32 offset))
  | LockRelease rid offset _ =>
      match Control.locks cp !! rid with
      | Some _ => (cp, Releasing rid (wrap 32 offset))
      | None => (cp, Finished (ack (Err (Control.LockNotHeld rid (wrap 32 offset)))))
      end
  | Heartbeat _ _ => (cp, Finished (ResponseAck true "Heartbeat"))
  | ResponseAck _ _ => (cp, Finished (ResponseAck false "Unsupported"))
  end.

(** One access. *)
Definition access (cp : Control.ControlPlaneManager) (t : thread) :
    Control.ControlPlaneManager * thread :=
  match t with
  | Start m => start cp m
  | Inserting d curr stop => register_next cp d curr stop
  | Removing d curr stop => deregister_next cp d curr stop
  | Acquiring rid pid =>
      let '(r, cp) := Control.acquire_lock cp rid pid in (cp, Finished (ack r))
  | Releasing rid pid =>
      let '(r, cp) := Control.release_lock cp rid pid in (cp, Finished (ack r))
  | Finished _ | Panicked => (cp, t)
  end.

Definition running (t : thread) : bool :=
  match t with Finished _ | Panicked => false | _ => true end.

(** The thread alone, for [n] accesses. *)
Fixpoint accesses (n : nat) (cp : Control.ControlPlaneManager) (t : thread) :
    Control.ControlPlaneManager * thread :=
  match n with
  | O => (cp, t)
  | S n => let '(cp, t) := access cp t in accesses n cp t
  end.

Context `{!Bincode}.

(** ** The socket *)

(** A connection and the request it is executing. *)
Definition client : Type := connection * option (ControlMessagePayload * thread).

Record threads := Threads {
  shared : Control.ControlPlaneManager;
  clients : list client;
}.

Inductive step : threads → threads → Prop :=
  | Accept s :
      step s (Threads (shared s) (clients s ++ [(Conn [] [] [] None, None)]))
  | Arrive s i c t bs :
      clients s !! i = Some (c, t) → ended c = None →
      step s (Threads (shared s)
        (<[i := (Conn (arrived c ++ bs) (input c ++ bs) (output c) None, t)]> (clients s)))
  | Receive s i c m rest :
      clients s !! i = Some (c, None) → ended c = None →
      recv_control_message_tokio (input c) = (Ok m, rest) →
      step s (Threads (shared s)
        (<[i := (Conn (arrived c) rest (output c) None, Some (m, Start m))]> (clients s)))
  | Access s i c m t :
      clients s !! i = Some (c, Some (m, t)) → running t = true →
      step s (Threads (access (shared s) t).1
        (<[i := (c, Some (m, (access (shared s) t).2))]> (clients s)))
  | Reply s i c m r write sent out :
      clients s !! i = Some (c, Some (m, Finished r)) →
      send_control_message_tokio write (output c) r = (sent, out) →
      step s (Threads (shared s)
        (<[i := (Conn (arrived c) (input c) out
                   (match sent with Ok _ => None | Err e => Some (Err e) end), None)]> (clients s)))
  | Break s i c e rest :
      clients s !! i = Some (c, None) → ended c = None →
      recv_control_message_tokio (input c) = (Err e, rest) → is_eof e = false →
      step s (Threads (shared s)
        (<[i := (Conn (arrived c) rest (output c) (Some (Err e)), None)]> (clients s)))
  | Close s i c e rest :
      clients s !! i = Some (c, None) → ended c = None →
      recv_control_message_tokio (input c) = (Err e, rest) → is_eof e = true →
      step s (Threads (shared s)
        (<[i := (Conn (arrived c) [] (output c) (Some (Ok tt)), None)]> (clients s))).

End Threads.
End ControlThreads.

Module ControlThreadFacts.
Import Transport TransportTheorems Daemon DaemonFacts ControlThreads.

Ltac open_methods := cbv beta delta [register_start register_next deregister_start deregister_next].

Section Alone.
Context `{BuildProfile}.

(** ** A thread alone is the request *)

(** The thread [t] ends, from [cp], the way [o] says. *)
Definition ends (cp : Control.ControlPlaneManager) (t : thread)
    (o : outcome (ControlMessagePayload * Control.ControlPlaneManager)) : Prop :=
  match o with
  | Ret (r, cp') => ∃ n, accesses n cp t = (cp', Finished r)
  | Panic => ∃ n, (accesses n cp t).2 = Panicked
  | OutOfFuel => True
  end.

Lemma ends_access cp t o : ends (access cp t).1 (access cp t).2 o → ends cp t o.
Proof.
  destruct o as [[r cp']| |]; cbn; [| |done]; intros [n Hn]; exists (S n); cbn;
    by destruct (access cp t).
Qed.

Lemma ends_now cp r : ends cp (Finished r) (Ret (r, cp)).
Proof. by exists O. Qed.

Lemma arith_cases w z : (∃ v, arith w z = Ret v) ∨ arith w z = Panic.
Proof. unfold arith. repeat case_match; eauto. Qed.

(** The two page loops. *)
Lemma inserting_ends d fuel : ∀ curr stop cp,
  ends cp (Inserting d curr stop)
    (pages ← stride_loop fuel
       (λ a, <[a := new_with_metadata a (Control.unit_size d) (Control.local_node_id cp) []]>)
       curr stop (Control.unit_size d) (Control.page_states cp);
     Ret (ack (Ok tt), Control.with_regions cp (<[region_id d := d]> (Control.regions cp)) pages)).
Proof.
  induction fuel as [|fuel IH]; intros curr stop cp; cbn [stride_loop];
    destruct (curr <? stop) eqn:E; [done| | |];
    try (apply ends_access; (cbn [access]; open_methods); rewrite E; apply ends_now).
  apply ends_access. (cbn [access]; open_methods). rewrite E. cbn [fst snd]. unfold advance.
  destruct (arith_cases 64 (curr + Control.unit_size d)) as [[v ->]| ->]; monad_simpl; [|by exists O].
  apply (IH v stop (Control.with_pages cp _)).
Qed.

Lemma removing_ends d fuel : ∀ curr stop cp,
  ends cp (Removing d curr stop)
    (pages ← stride_loop fuel (λ a, delete a) curr stop (Control.unit_size d) (Control.page_states cp);
     Ret (ack (Ok tt), Control.with_pages cp pages)).
Proof.
  induction fuel as [|fuel IH]; intros curr stop cp; cbn [stride_loop];
    destruct (curr <? stop) eqn:E; [done| | |];
    try (apply ends_access; (cbn [access]; open_methods); rewrite E; destruct cp; apply ends_now).
  apply ends_access. (cbn [access]; open_methods). rewrite E. cbn [fst snd]. unfold advance.
  destruct (arith_cases 64 (curr + Control.unit_size d)) as [[v ->]| ->]; monad_simpl; [|by exists O].
  apply (IH v stop (Control.with_pages cp _)).
Qed.

Lemma acquire_entry cp rid pid :
  Control.acquire_lock (lock_entry cp rid) rid pid = Control.acquire_lock cp rid pid.
Proof.
  unfold lock_entry. destruct (Control.locks cp !! rid) as [l|] eqn:E; [done|].
  unfold Control.acquire_lock. cbn [Control.locks Control.with_locks]. rewrite lookup_insert_eq, E.
  cbn. unfold Control.with_locks. cbn. by rewrite insert_insert_eq.
Qed.

(** With no other thread, the accesses of a request are the request of
    [Daemon]: the same answer and the same state, or the same abort. *)
Lemma alone m cp : ends cp (Start m) (process_control_payload m cp).
Proof.
  apply ends_access. destruct m as [pid v sz fl|pid v|rid off len|rid off len|n t|b t];
    (cbn [access start process_control_payload]; open_methods).
  - unfold Control.register_region, Control.register_region_with_metadata.
    case_bool_decide; monad_simpl; [apply ends_now|]. cbn [fst snd]. unfold advance.
    destruct (arith_cases 64 (main_vaddr (region_desc pid v sz fl) + region_size (region_desc pid v sz fl)))
      as [[stop ->]| ->]; monad_simpl; [|by exists O].
    pose proof (inserting_ends (region_desc pid v sz fl) (Control.page_fuel (region_desc pid v sz fl))
                  (main_vaddr (region_desc pid v sz fl)) stop cp) as Hi.
    by destruct (stride_loop _ _ _ _ _ _).
  - unfold Control.deregister_region. destruct (Control.regions cp !! _) as [d|]; [|apply ends_now].
    cbn [fst snd]. unfold advance.
    destruct (arith_cases 64 (main_vaddr d + region_size d)) as [[stop ->]| ->]; monad_simpl; [|by exists O].
    pose proof (removing_ends d (Control.page_fuel d) (main_vaddr d) stop
      (Control.with_regions cp (delete (region_key pid v) (Control.regions cp)) (Control.page_states cp))) as Hi.
    by destruct (stride_loop _ _ _ _ _ _).
  - cbn [fst snd]. apply ends_access. (cbn [access]; open_methods). rewrite acquire_entry.
    destruct (Control.acquire_lock _ _ _). apply ends_now.
  - unfold Control.release_lock. destruct (Control.locks cp !! rid) as [l|] eqn:E; [|apply ends_now].
    cbn [fst snd]. apply ends_access. (cbn [access]; open_methods). unfold Control.release_lock. rewrite E.
    destruct (bool_decide _); [|apply ends_now]. destruct (Control.waiting_pids l); apply ends_now.
  - apply ends_now.
  - apply ends_now.
Qed.

End Alone.

(** ** Pages *)

(** [curr] is reached by the page loop of [d]. *)
Definition on_stride (d : MemoryRegionDescriptor) (curr : Z) : Prop :=
  ∃ k : nat, curr = main_vaddr d + Z.of_nat k * Control.unit_size d.

Lemma unit_pos d : 4096 ≤ Control.unit_size d.
Proof. unfold Control.unit_size. lia. Qed.

Lemma elem_pages_of d a :
  a ∈ ControlFacts.pages_of d ↔ on_stride d a ∧ a < main_vaddr d + region_size d.
Proof.
  pose proof (unit_pos d) as Hu. unfold ControlFacts.pages_of, range_count, on_stride.
  rewrite elem_of_range_addrs. set (u := Control.unit_size d) in *.
  replace (main_vaddr d + region_size d - main_vaddr d + u - 1) with (region_size d - 1 + 1 * u) by lia.
  rewrite Z.div_add by lia. pose proof (Z.mod_pos_bound (region_size d - 1) u ltac:(lia)) as Hm.
  pose proof (Z.div_mod (region_size d - 1) u ltac:(lia)) as Hd.
  set (q := (region_size d - 1) / u) in *. set (r := (region_size d - 1) mod u) in *. split.
  - intros (k & Hk & ->). split; [by exists k|].
    assert (Z.of_nat k * u ≤ q * u) by (apply Z.mul_le_mono_nonneg_r; lia). lia.
  - intros [(k & ->) Hlt]. exists k. split; [|done].
    assert (Z.of_nat k ≤ q); [|lia]. apply Z.lt_succ_r, (Z.mul_lt_mono_pos_r u); lia.
Qed.

Lemma on_stride_next d curr : on_stride d curr → on_stride d (curr + Control.unit_size d).
Proof. intros (k & ->). exists (S k). lia. Qed.

(** The pages below the next address are those below [curr], and [curr]. *)
Lemma stride_below d curr a :
  on_stride d curr → on_stride d a → a < curr + Control.unit_size d → a < curr ∨ a = curr.
Proof.
  pose proof (unit_pos d). intros (k & ->) (l & ->) Hlt.
  destruct (decide (l < k)%nat); [left|right; assert (l = k); [|by subst]]; nia.
Qed.

Lemma main_least d a : a ∈ ControlFacts.pages_of d → main_vaddr d ≤ a.
Proof. pose proof (unit_pos d). rewrite elem_pages_of. intros [(k & ->) _]. nia. Qed.

(** ** Threads that get in each other's way *)

Definition conflict (t t' : thread) : Prop :=
  match t, t' with
  | Inserting d _ _, Inserting d' _ _ => region_id d = region_id d'
  | Inserting d _ _, Removing d' _ _ | Removing d' _ _, Inserting d _ _ =>
      ∃ a, a ∈ ControlFacts.pages_of d ∧ a ∈ ControlFacts.pages_of d'
  | _, _ => False
  end.

Abbreviation tasks := (list (option (ControlMessagePayload * thread))) (only parsing).

(** Two registrations in their page loops are of different regions, and no
    registration overlaps a deregistration; the regions end a page below the
    top of the address space. *)
Definition calm_tasks (ts : tasks) : Prop :=
  (∀ i j m t m' t', i ≠ j → ts !! i = Some (Some (m, t)) → ts !! j = Some (Some (m', t')) →
                    ¬ conflict t t') ∧
  (∀ i m t, ts !! i = Some (Some (m, t)) → request_ok m).

(** The pages where the maps are ahead of the executed requests, or behind. *)
Definition dirty_by (t : thread) (a : Z) : Prop :=
  match t with
  | Inserting d curr _ => a ∈ ControlFacts.pages_of d ∧ a < curr
  | Removing d curr _ => a ∈ ControlFacts.pages_of d ∧ curr ≤ a
  | _ => False
  end.

Definition dirty_but (ts : tasks) (i : nat) (a : Z) : Prop :=
  ∃ j m t, j ≠ i ∧ ts !! j = Some (Some (m, t)) ∧ dirty_by t a.

Definition dirty (ts : tasks) (a : Z) : Prop :=
  ∃ j m t, ts !! j = Some (Some (m, t)) ∧ dirty_by t a.

Definition awaited (ts : tasks) (rid : Z) : Prop :=
  ∃ j m pid, ts !! j = Some (Some (m, Acquiring rid pid)).

(** What a task knows: [f] are the shared maps, [g] those after the executed
    requests. *)
Definition task_ok (f g : Control.ControlPlaneManager) (m : ControlMessagePayload) (t : thread) : Prop :=
  match t with
  | Start m' => m' = m
  | Inserting d curr stop =>
      (∃ pid v sz fl, m = RegionRegister pid v sz fl ∧ d = region_desc pid v sz fl) ∧
      stop = main_vaddr d + region_size d ∧ on_stride d curr ∧
      Control.regions g !! region_id d = None ∧
      ∀ a, dirty_by t a → Control.page_states f !! a =
             Some (new_with_metadata a (Control.unit_size d) (Control.local_node_id g) [])
  | Removing d curr stop =>
      ControlFacts.region_ok d ∧ stop = main_vaddr d + region_size d ∧ on_stride d curr ∧
      ∀ a, a ∈ ControlFacts.pages_of d → Control.page_states g !! a = None
  | Acquiring rid pid => ∃ off len, m = LockAcquire rid off len ∧ pid = wrap 32 off
  | Releasing rid pid => ∃ off len, m = LockRelease rid off len ∧ pid = wrap 32 off
  | Finished _ => True
  | Panicked => False
  end.

Definition lock_agrees (ts : tasks) (rid : Z) (f g : option Control.LockState) : Prop :=
  f = g ∨ (g = None ∧ f = Some (Control.Lock rid None []) ∧ awaited ts rid).

Record agrees (f : Control.ControlPlaneManager) (ts : tasks) (g : Control.ControlPlaneManager) : Prop := {
  ag_local : Control.local_node_id f = Control.local_node_id g;
  ag_remote : Control.remote_nodes f = Control.remote_nodes g;
  ag_regions : Control.regions f = Control.regions g;
  ag_locks rid : lock_agrees ts rid (Control.locks f !! rid) (Control.locks g !! rid);
  ag_pages a : ¬ dirty ts a → Control.page_states f !! a = Control.page_states g !! a;
  ag_tasks i m t : ts !! i = Some (Some (m, t)) → task_ok f g m t;
}.

(** The answer of a request that has taken effect. *)
Definition answered (t : thread) : option ControlMessagePayload :=
  match t with
  | Finished r => Some r
  | Removing _ _ _ => Some (ack (Ok tt))
  | _ => None
  end.

(** ** One access *)

Section Access.
Context `{BuildProfile}.

Section At.
Context (ts : tasks) (i : nat) (m : ControlMessagePayload) (t : thread).
Context (Hi : ts !! i = Some (Some (m, t))).

Lemma dirty_split a : dirty ts a ↔ dirty_by t a ∨ dirty_but ts i a.
Proof.
  split.
  - intros (j & m' & t' & Hj & Hd). destruct (decide (j = i)) as [->|].
    + rewrite Hi in Hj. injection Hj as <- <-. by left.
    + right. by exists j, m', t'.
  - intros [Hd|(j & m' & t' & _ & Hj & Hd)]; [by exists i, m, t|by exists j, m', t'].
Qed.

Lemma dirty_set t' a : dirty (<[i := Some (m, t')]> ts) a ↔ dirty_by t' a ∨ dirty_but ts i a.
Proof.
  pose proof (lookup_lt_Some _ _ _ Hi) as Hl. split.
  - intros (j & m' & u & Hj & Hd). destruct (decide (j = i)) as [->|].
    + rewrite list_lookup_insert_eq in Hj by done. injection Hj as <- <-. by left.
    + rewrite list_lookup_insert_ne in Hj by done. right. by exists j, m', u.
  - intros [Hd|(j & m' & u & Hne & Hj & Hd)].
    + exists i, m, t'. by rewrite list_lookup_insert_eq.
    + exists j, m', u. by rewrite list_lookup_insert_ne.
Qed.

Lemma awaited_set t' rid :
  (∀ pid, t ≠ Acquiring rid pid) → awaited ts rid → awaited (<[i := Some (m, t')]> ts) rid.
Proof.
  intros Hne (j & m' & pid & Hj). exists j, m', pid. rewrite list_lookup_insert_ne; [done|].
  intros <-. rewrite Hi in Hj. injection Hj as _ ->. by apply (Hne pid).
Qed.

(** Task [i] moves on, and the others keep what they know. *)
Lemma agrees_set f g f' g' t' :
  agrees f ts g →
  Control.local_node_id f' = Control.local_node_id g' →
  Control.remote_nodes f' = Control.remote_nodes g' →
  Control.regions f' = Control.regions g' →
  (∀ rid, lock_agrees (<[i := Some (m, t')]> ts) rid (Control.locks f' !! rid) (Control.locks g' !! rid)) →
  (∀ a, ¬ dirty_by t' a → ¬ dirty_but ts i a →
        Control.page_states f' !! a = Control.page_states g' !! a) →
  task_ok f' g' m t' →
  (∀ j m' u, j ≠ i → ts !! j = Some (Some (m', u)) → task_ok f g m' u → task_ok f' g' m' u) →
  agrees f' (<[i := Some (m, t')]> ts) g'.
Proof.
  intros Ha H1 H2 H3 H4 H5 H6 H7. split; [done..| |].
  - intros a Hd. rewrite dirty_set in Hd. apply H5; tauto.
  - intros j m' u. destruct (decide (j = i)) as [->|Hne].
    + rewrite list_lookup_insert_eq by (by eapply lookup_lt_Some). by intros [= <- <-].
    + rewrite list_lookup_insert_ne by done. intros Hj. eapply H7; [done..|]. by eapply ag_tasks.
Qed.

Lemma locks_stay f g f' g' t' :
  agrees f ts g → (∀ rid pid, t ≠ Acquiring rid pid) →
  Control.locks f' = Control.locks f → Control.locks g' = Control.locks g →
  ∀ rid, lock_agrees (<[i := Some (m, t')]> ts) rid (Control.locks f' !! rid) (Control.locks g' !! rid).
Proof.
  intros Ha Hne -> -> rid. destruct (ag_locks _ _ _ Ha rid) as [?|(? & ? & ?)]; [by left|right].
  split_and!; [done..|]. by apply awaited_set.
Qed.

End At.

(** What a task knows depends on its own region and pages. *)
Lemma task_ok_frame f g f' g' m' u :
  task_ok f g m' u → Control.local_node_id g' = Control.local_node_id g →
  (∀ d c s, u = Inserting d c s →
     Control.regions g' !! region_id d = Control.regions g !! region_id d ∧
     ∀ a, dirty_by u a → Control.page_states f' !! a = Control.page_states f !! a) →
  (∀ d c s, u = Removing d c s → ∀ a, a ∈ ControlFacts.pages_of d →
     Control.page_states g !! a = None → Control.page_states g' !! a = None) →
  task_ok f' g' m' u.
Proof.
  intros Hu Hl Hins Hrem. destruct u; try exact Hu.
  - destruct (Hins _ _ _ eq_refl) as [Hr Hp]. destruct Hu as (? & ? & ? & Hn & Ha).
    split_and!; [done..|by rewrite Hr|]. intros a Hd. rewrite (Hp a Hd), Hl. by apply Ha.
  - destruct Hu as (? & ? & ? & Ha). split_and!; [done..|]. intros a Hd. eapply Hrem; eauto.
Qed.

Section Moves.
Context (ts : tasks) (i : nat) (m : ControlMessagePayload).
Context (f g : Control.ControlPlaneManager) (Hag : agrees f ts g) (Hcalm : calm_tasks ts).

Abbreviation moves f' t' g' := (agrees f' (<[i := Some (m, t')]> ts) g') (only parsing).

(** The maps stay as they are. *)
Lemma idle_move t t' :
  ts !! i = Some (Some (m, t)) →
  (∀ rid pid, t ≠ Acquiring rid pid) → (∀ a, ¬ dirty_by t a) → (∀ a, ¬ dirty_by t' a) →
  task_ok f g m t' → moves f t' g.
Proof.
  intros Hi Hne Hd Hd' Hok. eapply agrees_set; [exact Hi|exact Hag|apply Hag..| | |done|by auto].
  - by eapply locks_stay.
  - intros a _ Hb. apply Hag. rewrite (dirty_split _ _ _ _ Hi). intros [?|?]; [by apply (Hd a)|done].
Qed.

Lemma insert_move d curr stop :
  ts !! i = Some (Some (m, Inserting d curr stop)) → curr < stop →
  moves (Control.with_pages f
           (<[curr := new_with_metadata curr (Control.unit_size d) (Control.local_node_id f) []]>
              (Control.page_states f)))
        (Inserting d (curr + Control.unit_size d) stop) g.
Proof.
  intros Hi Hlt. pose proof (ag_tasks _ _ _ Hag i m _ Hi) as (Hm & -> & Hs & Hr & Hp).
  pose proof (unit_pos d) as Hu.
  assert (curr ∈ ControlFacts.pages_of d) as Hin by by apply elem_pages_of.
  eapply agrees_set; [exact Hi|exact Hag|apply Hag..| | | |].
  - by eapply locks_stay.
  - intros a Hd Hb. cbn. rewrite lookup_insert_ne.
    + apply Hag. rewrite (dirty_split _ _ _ _ Hi). cbn in Hd |- *. intros [[? ?]|?]; [|done]. apply Hd. split; [done|lia].
    + intros <-. apply Hd. cbn. split; [done|lia].
  - split_and!; [done..|by apply on_stride_next|done|]. intros a [Ha Hl]. cbn.
    destruct (stride_below d curr a Hs (proj1 (proj1 (elem_pages_of _ _) Ha)) Hl) as [?| ->].
    + rewrite lookup_insert_ne by lia. by apply Hp.
    + rewrite lookup_insert_eq. by rewrite (ag_local _ _ _ Hag).
  - intros j m' u Hne Hj Hok. eapply task_ok_frame; [exact Hok|done| |done].
    intros d' c s' ->. split; [done|]. intros a Hd. cbn. destruct (decide (curr = a)) as [<-|];
      [|by rewrite lookup_insert_ne].
    destruct Hok as ((p & v & sz & fl & _ & ->) & _ & _ & _ & Ha). rewrite (Ha _ Hd).
    rewrite lookup_insert_eq. destruct Hm as (p1 & v1 & sz1 & fl1 & _ & ->).
    by rewrite (ag_local _ _ _ Hag).
Qed.

Lemma remove_move d curr stop :
  ts !! i = Some (Some (m, Removing d curr stop)) → curr < stop →
  moves (Control.with_pages f (delete curr (Control.page_states f)))
        (Removing d (curr + Control.unit_size d) stop) g.
Proof.
  intros Hi Hlt. pose proof (ag_tasks _ _ _ Hag i m _ Hi) as (Hr & -> & Hs & Hp).
  pose proof (unit_pos d) as Hu.
  assert (curr ∈ ControlFacts.pages_of d) as Hin by by apply elem_pages_of.
  eapply agrees_set; [exact Hi|exact Hag|apply Hag..| | | |].
  - by eapply locks_stay.
  - intros a Hd Hb. cbn. destruct (decide (curr = a)) as [<-|Hna].
    + rewrite lookup_delete_eq. by rewrite Hp.
    + rewrite lookup_delete_ne by done. apply Hag. rewrite (dirty_split _ _ _ _ Hi). intros [[Ha Hl]|?]; [|done].
      apply Hd. split; [done|]. apply elem_pages_of in Ha as [Ha _].
      destruct (Z.lt_ge_cases a (curr + Control.unit_size d)) as [Hc|]; [|done].
      destruct (stride_below d curr a Hs Ha Hc); lia.
  - split_and!; [done..|by apply on_stride_next|done].
  - intros j m' u Hne Hj Hok. eapply task_ok_frame; [exact Hok|done| |done].
    intros d' c s' ->. split; [done|]. intros a [Hd ?]. cbn. rewrite lookup_delete_ne; [done|].
    intros <-. eapply (proj1 Hcalm j i); [done..|]. by exists curr.
Qed.

(** A registration takes effect with its last access. *)
Lemma registered_move d curr stop :
  ts !! i = Some (Some (m, Inserting d curr stop)) → stop ≤ curr → request_ok m →
  ∃ g', process_control_payload m g = Ret (ack (Ok tt), g') ∧
    moves (Control.with_regions f (<[region_id d := d]> (Control.regions f)) (Control.page_states f))
          (Finished (ack (Ok tt))) g'.
Proof.
  intros Hi Hle Hq. pose proof (ag_tasks _ _ _ Hag i m _ Hi) as ((pid & v & sz & fl & -> & ->) & -> & Hs & Hr & Hp).
  set (d := region_desc pid v sz fl) in *.
  destruct (ControlFacts.register_spec g d []) as (pages & E & Hpages); [|done|].
  { cbn in Hq. unfold ControlFacts.region_ok, Control.unit_size. cbn -[Z.pow]. lia. }
  exists (Control.with_regions g (<[region_id d := d]> (Control.regions g)) pages). split.
  { cbn [process_control_payload]. fold d. unfold Control.register_region. by rewrite E. }
  eapply agrees_set; [exact Hi|exact Hag|apply Hag|apply Hag|cbn; by rewrite (ag_regions _ _ _ Hag)| | |done|].
  - by eapply locks_stay.
  - intros a _ Hb. cbn. rewrite Hpages. case_bool_decide as Ha.
    + apply Hp. split; [done|]. apply elem_pages_of in Ha. lia.
    + apply Hag. rewrite (dirty_split _ _ _ _ Hi). intros [[? ?]|?]; done.
  - intros j m' u Hne Hj Hok. eapply task_ok_frame; [exact Hok|done| |].
    + intros d' c s' ->. split; [|done]. cbn. rewrite lookup_insert_ne; [done|].
      apply (proj1 Hcalm i j _ _ _ _ (not_eq_sym Hne) Hi Hj).
    + intros d' c s' -> a Ha Hn. cbn. rewrite Hpages. case_bool_decide as Had; [|done].
      exfalso. apply (proj1 Hcalm i j _ _ _ _ (not_eq_sym Hne) Hi Hj). by exists a.
Qed.

(** A deregistration takes effect with its first. *)
Lemma deregistered_move pid v d :
  ts !! i = Some (Some (m, Start m)) → m = RegionDeregister pid v →
  Control.regions f !! region_key pid v = Some d → ControlFacts.region_ok d →
  let stop := main_vaddr d + region_size d in
  ∃ g', process_control_payload m g = Ret (ack (Ok tt), g') ∧
    moves (Control.with_regions f (delete (region_key pid v) (Control.regions f)) (Control.page_states f))
          (Removing d (main_vaddr d) stop) g'.
Proof.
  intros Hi Hm Hd Hok stop. rewrite (ag_regions _ _ _ Hag) in Hd.
  destruct (ControlFacts.deregister_spec g _ d Hok Hd) as (pages & E & Hpages).
  exists (Control.with_regions g (delete (region_key pid v) (Control.regions g)) pages). split.
  { rewrite Hm. cbn [process_control_payload]. by rewrite E. }
  eapply agrees_set; [exact Hi|exact Hag|apply Hag|apply Hag|cbn; by rewrite (ag_regions _ _ _ Hag)| | | |].
  - by eapply locks_stay.
  - intros a Hnd Hb. cbn. rewrite Hpages. case_bool_decide as Ha.
    + exfalso. apply Hnd. split; [done|by apply main_least].
    + apply Hag. rewrite (dirty_split _ _ _ _ Hi). by intros [[]|?].
  - split_and!; [done|done|exists 0%nat; lia|]. intros a Ha. cbn. rewrite Hpages. by rewrite bool_decide_eq_true_2.
  - intros j m' u Hne Hj Hu. eapply task_ok_frame; [exact Hu|done| |].
    + intros d' c s' ->. split; [|done]. cbn. destruct Hu as (_ & _ & _ & Hn & _). rewrite Hn.
      by apply lookup_delete_None; right.
    + intros d' c s' -> a Ha Hn. cbn. rewrite Hpages. by case_bool_decide.
Qed.

(** Lock requests: the entry appears early, the answer does not depend on it. *)
Lemma entry_move rid off len :
  ts !! i = Some (Some (m, Start m)) → m = LockAcquire rid off len →
  moves (lock_entry f rid) (Acquiring rid (wrap 32 off)) g.
Proof.
  intros Hi Hm. pose proof (lookup_lt_Some _ _ _ Hi) as Hl.
  assert (∀ a, ¬ dirty_but ts i a → Control.page_states f !! a = Control.page_states g !! a) as Hpg.
  { intros a Hb. apply Hag. rewrite (dirty_split _ _ _ _ Hi). by intros [[]|?]. }
  assert (∀ r, lock_agrees (<[i := Some (m, Acquiring rid (wrap 32 off))]> ts) r
                 (Control.locks f !! r) (Control.locks g !! r)) as Hlk by by eapply locks_stay.
  unfold lock_entry. destruct (Control.locks f !! rid) as [l|] eqn:E.
  - eapply agrees_set; [exact Hi|exact Hag|apply Hag..|done|auto|by exists off, len|auto].
  - eapply agrees_set; [exact Hi|exact Hag|apply Hag..| |auto|by exists off, len|].
    + intros r. cbn. destruct (decide (rid = r)) as [<-|]; [|by rewrite lookup_insert_ne].
      rewrite lookup_insert_eq. right. destruct (ag_locks _ _ _ Hag rid) as [Heq|(_ & Hx & _)]; [|congruence].
      split_and!; [congruence|done|]. exists i, m, (wrap 32 off). by apply list_lookup_insert_eq.
    + intros j m' u Hne Hj Hu. by eapply task_ok_frame.
Qed.

Lemma acquire_shape rid pid st :
  ∃ r st', ∀ cp, default (Control.Lock rid None []) (Control.locks cp !! rid) = st →
    Control.acquire_lock cp rid pid = (r, Control.with_locks cp (<[rid := st']> (Control.locks cp))).
Proof.
  destruct st as [x [owner|] w] eqn:Est; unfold Control.acquire_lock;
    [destruct (owner =? pid) eqn:E|]; do 2 eexists; intros cp ->; cbn; rewrite ?E; done.
Qed.

Lemma locked_move f' g' r t :
  ts !! i = Some (Some (m, t)) → (∀ a, ¬ dirty_by t a) →
  (∃ l, f' = Control.with_locks f l) → (∃ l, g' = Control.with_locks g l) →
  (∀ rid, lock_agrees (<[i := Some (m, Finished r)]> ts) rid (Control.locks f' !! rid) (Control.locks g' !! rid)) →
  moves f' (Finished r) g'.
Proof.
  intros Hi Hd [l ->] [l' ->] Hlk.
  eapply agrees_set; [exact Hi|exact Hag|apply Hag..|done| |done|].
  - intros a _ Hb. apply Hag. rewrite (dirty_split _ _ _ _ Hi). intros [?|?]; [by apply (Hd a)|done].
  - intros j m' u Hne Hj Hu. by eapply task_ok_frame.
Qed.

Lemma acquired_move rid off len :
  ts !! i = Some (Some (m, Acquiring rid (wrap 32 off))) → m = LockAcquire rid off len →
  ∃ r g', process_control_payload m g = Ret (ack r, g') ∧
    (Control.acquire_lock f rid (wrap 32 off)).1 = r ∧
    moves (Control.acquire_lock f rid (wrap 32 off)).2 (Finished (ack r)) g'.
Proof.
  intros Hi Hm. set (dflt := Control.Lock rid None []).
  destruct (acquire_shape rid (wrap 32 off) (default dflt (Control.locks g !! rid))) as (r & st & Hacq).
  assert (default dflt (Control.locks f !! rid) = default dflt (Control.locks g !! rid)) as Hdef.
  { by destruct (ag_locks _ _ _ Hag rid) as [->|(-> & -> & _)]. }
  rewrite (Hacq f Hdef). exists r, (Control.with_locks g (<[rid := st]> (Control.locks g))).
  split; [|split; [done|]].
  - rewrite Hm. cbn [process_control_payload]. by rewrite (Hacq g eq_refl).
  - eapply locked_move; [done|by intros ? ?|by eexists|by eexists|]. intros rid'. cbn.
    destruct (decide (rid = rid')) as [<-|]; [rewrite !lookup_insert_eq; by left|].
    rewrite !lookup_insert_ne by done.
    destruct (ag_locks _ _ _ Hag rid') as [?|(? & ? & ?)]; [by left|right]. split_and!; [done..|].
    eapply awaited_set; [done| |done]. congruence.
Qed.

Lemma released_move rid off len :
  ts !! i = Some (Some (m, Releasing rid (wrap 32 off))) → m = LockRelease rid off len →
  ∃ r g', process_control_payload m g = Ret (ack r, g') ∧
    (Control.release_lock f rid (wrap 32 off)).1 = r ∧
    moves (Control.release_lock f rid (wrap 32 off)).2 (Finished (ack r)) g'.
Proof.
  intros Hi Hm. rewrite Hm. cbn [process_control_payload]. rewrite <- Hm. clear Hm.
  assert (∀ t', ∀ r, lock_agrees (<[i := Some (m, t')]> ts) r (Control.locks f !! r) (Control.locks g !! r)) as Hlk
    by (intros t'; by eapply locks_stay).
  assert (∀ t', moves f (Finished t') g) as Hsame by (intros t'; eapply idle_move; [exact Hi|done|by intros ? ?|by intros ? ?|done]).
  unfold Control.release_lock.
  destruct (ag_locks _ _ _ Hag rid) as [Heq|(Hg & Hf & _)].
  - rewrite <- Heq. destruct (Control.locks f !! rid) as [l|]; [|do 2 eexists; split_and!; [done..|apply Hsame]].
    case_bool_decide; [|do 2 eexists; split_and!; [done..|apply Hsame]]. do 2 eexists. split_and!; [done..|]. cbn [snd].
    eapply locked_move; [done|by intros ? ?|by eexists|by eexists|]. intros rid'. cbn.
    destruct (decide (rid = rid')) as [<-|]; [rewrite !lookup_insert_eq; by left|].
    rewrite !lookup_insert_ne by done. apply Hlk.
  - rewrite Hg, Hf, bool_decide_eq_false_2 by done. do 2 eexists; split_and!; [done..|apply Hsame].
Qed.

(** What an access does to the executed requests: nothing, or it executes its
    own. *)
Definition simulated (t : thread) (x : Control.ControlPlaneManager * thread) : Prop :=
  (answered x.2 = answered t ∧ moves x.1 x.2 g) ∨
  (answered t = None ∧ ∃ r g', answered x.2 = Some r ∧
     process_control_payload m g = Ret (r, g') ∧ moves x.1 x.2 g').

Lemma refused r :
  ts !! i = Some (Some (m, Start m)) → process_control_payload m g = Ret (r, g) →
  simulated (Start m) (f, Finished r).
Proof.
  intros Hi Hp. right. split; [done|]. exists r, g. split_and!; [done..|].
  eapply idle_move; [exact Hi|done|by intros ? ?|by intros ? ?|done].
Qed.

Lemma register_sim pid v sz fl :
  ts !! i = Some (Some (m, Start m)) → m = RegionRegister pid v sz fl → request_ok m →
  simulated (Start m) (start f m).
Proof.
  intros Hi Hm Hq. set (d := region_desc pid v sz fl).
  assert (0 ≤ main_vaddr d + region_size d < 2 ^ 64) by (rewrite Hm in Hq; cbn -[Z.pow] in *; lia).
  rewrite Hm. (cbn [start]; open_methods). fold d. case_bool_decide as Hin; rewrite <- Hm.
  - apply refused; [done|]. rewrite Hm. cbn [process_control_payload]. fold d.
    unfold Control.register_region, Control.register_region_with_metadata.
    by rewrite bool_decide_eq_true_2 by (by rewrite <- (ag_regions _ _ _ Hag)).
  - unfold advance. rewrite arith_ret by lia. left. split; [done|].
    assert (∀ a, ¬ dirty_by (Inserting d (main_vaddr d) (main_vaddr d + region_size d)) a) as Hd.
    { intros a [Ha ?]. apply main_least in Ha. lia. }
    eapply idle_move; [exact Hi|done|by intros ? ?|done|]. split_and!; [by exists pid, v, sz, fl|done| | |].
    + exists 0%nat. lia.
    + rewrite <- (ag_regions _ _ _ Hag). by apply eq_None_not_Some.
    + intros a Ha. by destruct (Hd a).
Qed.

Lemma start_sim :
  ts !! i = Some (Some (m, Start m)) → regions_ok g → request_ok m → simulated (Start m) (start f m).
Proof.
  intros Hi Hr Hq. destruct m as [pid v sz fl|pid v|rid off len|rid off len|n t|b t] eqn:Hm; rewrite <- Hm in *.
  - by eapply register_sim.
  - rewrite Hm. (cbn [start]; open_methods). destruct (Control.regions f !! region_key pid v) as [d|] eqn:E; rewrite <- Hm.
    + assert (ControlFacts.region_ok d) as Hd by (eapply Hr; by rewrite <- (ag_regions _ _ _ Hag)).
      pose proof (unit_pos d). pose proof Hd as (? & ? & ?). unfold advance. rewrite arith_ret by lia.
      right. split; [done|]. destruct (deregistered_move pid v d Hi Hm E Hd) as (g' & Hp & Hmv).
      by exists (ack (Ok tt)), g'.
    + apply refused; [done|]. rewrite Hm. cbn [process_control_payload].
      unfold Control.deregister_region. by rewrite <- (ag_regions _ _ _ Hag), E.
  - left. rewrite Hm. (cbn [start fst snd]; open_methods). rewrite <- Hm. split; [done|]. by eapply entry_move.
  - rewrite Hm. (cbn [start]; open_methods). destruct (Control.locks f !! rid) as [l|] eqn:E; rewrite <- Hm.
    + left. split; [done|]. eapply idle_move; [exact Hi|done|by intros ? ?|by intros ? ?|]. by exists off, len.
    + apply refused; [done|]. rewrite Hm. cbn [process_control_payload]. unfold Control.release_lock.
      destruct (ag_locks _ _ _ Hag rid) as [<-|(-> & _)]; by rewrite ?E.
  - replace (start f m) with (f, Finished (ResponseAck true "Heartbeat")) by (by rewrite Hm).
    apply refused; [done|by rewrite Hm].
  - replace (start f m) with (f, Finished (ResponseAck false "Unsupported")) by (by rewrite Hm).
    apply refused; [done|by rewrite Hm].
Qed.

Lemma access_sim t :
  ts !! i = Some (Some (m, t)) → running t = true → regions_ok g → request_ok m →
  simulated t (access f t).
Proof.
  intros Hi Hrun Hr Hq. pose proof (ag_tasks _ _ _ Hag i m t Hi) as Hok.
  destruct t as [m'|d curr stop|d curr stop|rid pid|rid pid|r|]; try done; (cbn [access]; open_methods).
  - cbn in Hok. subst m'. by apply start_sim.
  - pose proof Hok as ((p & v & sz & fl & Hm & Hd) & Hstop & _).
    destruct (Z.ltb_spec curr stop) as [Hlt|Hge].
    + left. unfold advance. rewrite arith_ret; [split; [done|by apply insert_move]|].
      destruct Hok as (_ & _ & (k & ->) & _). rewrite Hm in Hq. pose proof (unit_pos d).
      revert Hlt. rewrite Hstop, Hd. cbn -[Z.pow Control.unit_size] in Hq |- *. unfold Control.unit_size. cbn -[Z.pow]. lia.
    + right. split; [done|]. destruct (registered_move d curr stop Hi Hge Hq) as (g' & Hp & Hmv).
      by exists (ack (Ok tt)), g'.
  - pose proof Hok as ((? & ? & ?) & Hstop & (k & Hk) & _). pose proof (unit_pos d).
    left. destruct (Z.ltb_spec curr stop) as [Hlt|Hge].
    + unfold advance. rewrite arith_ret by lia. split; [done|by apply remove_move].
    + split; [done|]. eapply idle_move; [exact Hi|done| |by intros ? ?|done].
      intros a [Ha ?]. apply elem_pages_of in Ha. lia.
  - destruct Hok as (off & len & Hm & ->). right. split; [done|].
    destruct (acquired_move rid off len Hi Hm) as (r & g' & Hp & Hr' & Hmv).
    destruct (Control.acquire_lock _ _ _) as [x y]. cbn in Hr', Hmv |- *. subst x. by exists (ack r), g'.
  - destruct Hok as (off & len & Hm & ->). right. split; [done|].
    destruct (released_move rid off len Hi Hm) as (r & g' & Hp & Hr' & Hmv).
    destruct (Control.release_lock _ _ _) as [x y]. cbn in Hr', Hmv |- *. subst x. by exists (ack r), g'.
Qed.

End Moves.
End Access.
(** ** The socket *)

Lemma agrees_tasks f ts ts' g :
  agrees f ts g →
  (∀ i m t, ts !! i = Some (Some (m, t)) →
     ts' !! i = Some (Some (m, t)) ∨ ∃ r, t = Finished r) →
  (∀ i m t, ts' !! i = Some (Some (m, t)) → ts !! i = Some (Some (m, t)) ∨ t = Start m) →
  agrees f ts' g.
Proof.
  intros Hag Hto Hfrom. split; [apply Hag..| | |].
  - intros rid. destruct (ag_locks _ _ _ Hag rid) as [?|(? & ? & j & m & pid & Hj)]; [by left|right].
    split_and!; [done..|]. exists j, m, pid. destruct (Hto _ _ _ Hj) as [?|[r ?]]; done.
  - intros a Hd. apply Hag. intros (j & m & t & Hj & Ht). apply Hd.
    destruct (Hto _ _ _ Hj) as [?|[r ->]]; [by exists j, m, t|done].
  - intros j m t Hj. destruct (Hfrom _ _ _ Hj) as [?| ->]; [by eapply ag_tasks|done].
Qed.

(** A connection without a request that has begun takes one, or drops one that
    has ended. *)
Lemma agrees_swap f ts g i x y :
  agrees f ts g → ts !! i = Some x →
  (∀ m t, x = Some (m, t) → ∃ r, t = Finished r) → (∀ m t, y = Some (m, t) → t = Start m) →
  agrees f (<[i := y]> ts) g.
Proof.
  intros Hag Hi Hx Hy. pose proof (lookup_lt_Some _ _ _ Hi) as Hl.
  eapply agrees_tasks; [exact Hag| |]; intros j m t; destruct (decide (i = j)) as [<-|];
    rewrite ?list_lookup_insert_eq by done; rewrite ?list_lookup_insert_ne by done; auto.
  - rewrite Hi. intros [= ->]. right. by eapply Hx.
  - intros [= ->]. right. by eapply Hy.
Qed.

(** ** Histories

    What the clients see of a request: the task reads it and, later, is done
    with its answer; in between it takes effect. *)
Inductive event :=
  | Call (i : nat) (m : ControlMessagePayload)
  | Effect (e : entry)
  | Return (i : nat) (r : ControlMessagePayload).

Definition event_client (ev : event) : nat :=
  match ev with Call i _ | Return i _ => i | Effect e => DaemonFacts.client e end.

Definition effects (tl : list event) : list entry :=
  omap (λ ev, match ev with Effect e => Some e | _ => None end) tl.

Definition visible (tl : list event) : list event :=
  omap (λ ev, match ev with Effect _ => None | _ => Some ev end) tl.

(** Where a client stands. *)
Inductive phase :=
  | Idle
  | Called (m : ControlMessagePayload)
  | Effected (r : ControlMessagePayload).

(** Client [i] is at [p] after the timeline, and each of its requests so far was
    called, took effect once and returned with the answer of that effect, in
    this order. *)
Inductive timely (i : nat) : list event → phase → Prop :=
  | TimelyStart : timely i [] Idle
  | TimelyCall tl m : timely i tl Idle → timely i (tl ++ [Call i m]) (Called m)
  | TimelyEffect tl e :
      timely i tl (Called (request e)) → DaemonFacts.client e = i →
      timely i (tl ++ [Effect e]) (Effected (reply e))
  | TimelyReturn tl r : timely i tl (Effected r) → timely i (tl ++ [Return i r]) Idle
  | TimelyOther tl p ev : timely i tl p → event_client ev ≠ i → timely i (tl ++ [ev]) p.

Definition phase_of (x : option (ControlMessagePayload * thread)) : phase :=
  match x with
  | None => Idle
  | Some (m, t) => match answered t with None => Called m | Some r => Effected r end
  end.

Section Observed.
Context `{!Bincode}.

Definition phase_at (cs : list client) (i : nat) : phase :=
  match cs !! i with Some x => phase_of x.2 | None => Idle end.

(** What a step shows of client [i]. *)
Definition change (i : nat) (a b : option (ControlMessagePayload * thread)) : list event :=
  match a, b with
  | None, Some (m, _) => [Call i m]
  | Some (_, Finished r), None => [Return i r]
  | _, _ => []
  end.

Fixpoint observe (i : nat) (xs ys : list client) : list event :=
  match xs, ys with
  | x :: xs, y :: ys => change i x.2 y.2 ++ observe (S i) xs ys
  | _, _ => []
  end.

Lemma change_same i a : change i a a = [].
Proof. by destruct a as [[? []]|]. Qed.

Lemma observe_same xs : ∀ k, observe k xs xs = [].
Proof. induction xs as [|x xs IH]; intros k; [done|]. cbn. by rewrite change_same, IH. Qed.

Lemma observe_app xs ys : ∀ k, observe k xs (xs ++ ys) = [].
Proof.
  induction xs as [|x xs IH]; intros k; [by destruct ys|]. cbn. by rewrite change_same, IH.
Qed.

Lemma observe_insert xs i x y : ∀ k,
  xs !! i = Some x → observe k xs (<[i := y]> xs) = change (k + i) x.2 y.2.
Proof.
  revert i. induction xs as [|x0 xs IH]; intros [|i] k Hi; try done; cbn.
  - injection Hi as ->. by rewrite observe_same, app_nil_r, Nat.add_0_r.
  - rewrite change_same. cbn. rewrite IH by done. f_equal. lia.
Qed.

Lemma phase_insert xs i x y j :
  xs !! i = Some x → phase_at (<[i := y]> xs) j = if decide (i = j) then phase_of y.2 else phase_at xs j.
Proof.
  intros Hi. unfold phase_at. destruct (decide (i = j)) as [<-|Hne].
  - by rewrite list_lookup_insert_eq by (by eapply lookup_lt_Some).
  - by rewrite list_lookup_insert_ne.
Qed.

(** A step of client [i] that is not seen, and one that is. *)
Lemma timely_quiet xs i x y j tl :
  xs !! i = Some x → phase_of y.2 = phase_of x.2 →
  timely j tl (phase_at xs j) → timely j (tl ++ []) (phase_at (<[i := y]> xs) j).
Proof.
  intros Hi Hp Ht. rewrite app_nil_r, (phase_insert _ _ _ _ _ Hi). case_decide as Hd; [|done].
  subst j. unfold phase_at in Ht. rewrite Hi in Ht. by rewrite Hp.
Qed.

Lemma timely_event xs i x y j tl ev :
  xs !! i = Some x → event_client ev = i →
  (∀ tl, timely i tl (phase_of x.2) → timely i (tl ++ [ev]) (phase_of y.2)) →
  timely j tl (phase_at xs j) → timely j (tl ++ [ev]) (phase_at (<[i := y]> xs) j).
Proof.
  intros Hi He Hstep Ht. rewrite (phase_insert _ _ _ _ _ Hi). case_decide as Hd.
  - subst j. apply Hstep. unfold phase_at in Ht. by rewrite Hi in Ht.
  - apply TimelyOther; [done|congruence].
Qed.

End Observed.

Section Socket.
Context `{BuildProfile} `{!Bincode} `{!BincodeLaws}.
Hypothesis ack_serializes : ∀ b t, ∃ bs, serialize (ResponseAck b t) = Ok bs.

Definition calm (s : threads) : Prop := calm_tasks (clients s).*2.

(** The write of an answer failed; the image wrote it. *)
Definition cut_off (x c : connection) : Prop :=
  (∃ e, ended x = Some (Err (IoError e))) ∧ arrived c = arrived x ∧ ended c = None ∧
  output x `prefix_of` output c.

(** A connection and its image in [Daemon.server]: a request that has not taken
    effect is still unread there, one that has is answered. *)
Definition conn_rel (x : client) (c : connection) : Prop :=
  match x.2 with
  | None => c = x.1 ∨ cut_off x.1 c
  | Some (m, t) =>
      ended x.1 = None ∧
      match answered t with
      | Some r => ∃ bs, serialize r = Ok bs ∧
          c = Conn (arrived x.1) (input x.1) (output x.1 ++ frame_bytes bs) None
      | None => ∃ taken, recv_control_message_tokio (taken ++ input x.1) = (Ok m, input x.1) ∧
          c = Conn (arrived x.1) (taken ++ input x.1) (output x.1) None
      end
  end.

Record related (s : threads) (S : server) : Prop := {
  rel_state : agrees (shared s) (clients s).*2 (control_plane S);
  rel_regions : regions_ok (control_plane S);
  rel_conns : Forall2 conn_rel (clients s) (connections S);
}.

Lemma recv_taken s m rest :
  recv_control_message_tokio s = (Ok m, rest) → ∃ taken, s = taken ++ rest.
Proof.
  assert (∀ n s a rest, read_exact n s = Some (a, rest) → s = a ++ rest) as Hre.
  { intros n s' a r. unfold read_exact. case_match; [|done]. intros [= <- <-]. by rewrite take_drop. }
  unfold recv_control_message_tokio.
  destruct (read_exact 6 s) as [[hd s1]|] eqn:E1; [|done].
  destruct (check_header hd) as [[len fl]|]; [|done].
  destruct (read_exact _ s1) as [[pl s2]|] eqn:E2; [|done]. intros [= _ <-].
  apply Hre in E1, E2. exists (hd ++ pl). by rewrite <- app_assoc, <- E2.
Qed.

Lemma conn_rel_arrive x c bs :
  conn_rel x c → ended x.1 = None →
  ended c = None ∧
  conn_rel (Conn (arrived x.1 ++ bs) (input x.1 ++ bs) (output x.1) None, x.2)
           (Conn (arrived c ++ bs) (input c ++ bs) (output c) None).
Proof.
  intros Hc He. unfold conn_rel in *. cbn [fst snd]. destruct x.2 as [[m t]|].
  2:{ destruct Hc as [->|[[e ?] _]]; [|congruence]. split; [done|by left]. }
  destruct Hc as [_ Hc]. cbn [arrived input output ended]. destruct (answered t) as [r|].
  - destruct Hc as (b & Hb & ->). cbn. split; [done|]. split; [done|]. by exists b.
  - destruct Hc as (taken & Hr & ->). cbn [arrived input output ended]. split; [done|]. split; [done|].
    exists taken. rewrite app_assoc. split; [by apply recv_app|done].
Qed.

Lemma related_set s S i x' c' f' g' :
  related s S → agrees f' (<[i := x'.2]> (clients s).*2) g' → regions_ok g' → conn_rel x' c' →
  related (Threads f' (<[i := x']> (clients s))) (Server g' (<[i := c']> (connections S))).
Proof.
  intros [R1 R2 R3] Hag Hr Hc. split; cbn; [|done|by apply Forall2_insert].
  by rewrite list_fmap_insert.
Qed.

(** The connection of the image that stays in place. *)
Lemma related_keep s S i x x' c f' :
  related s S → clients s !! i = Some x → connections S !! i = Some c →
  agrees f' (<[i := x'.2]> (clients s).*2) (control_plane S) → conn_rel x' c →
  related (Threads f' (<[i := x']> (clients s))) S.
Proof.
  intros R Hi Hc Hag Hrel. replace S with (Server (control_plane S) (<[i := c]> (connections S)))
    by (rewrite (list_insert_id _ _ _ Hc); by destruct S).
  eapply related_set; [done..|apply R|done].
Qed.

Lemma related_at s S i x :
  related s S → clients s !! i = Some x →
  ∃ c, connections S !! i = Some c ∧ conn_rel x c ∧ (clients s).*2 !! i = Some x.2.
Proof.
  intros R Hi. destruct (Forall2_lookup_l _ _ _ _ _ (rel_conns _ _ R) Hi) as (c & Hc & Hrel).
  exists c. split_and!; [done..|]. rewrite list_lookup_fmap. exact (f_equal (fmap snd) Hi).
Qed.

Lemma conn_rel_idle c c' : conn_rel (c, None) c' → ended c = None → c' = c.
Proof. intros [?|[[e ?] _]] He; [done|cbn in *; congruence]. Qed.

(** The image follows a step, executing at most the request of the step, and
    the events of the step fit every client's timeline. *)
Definition followed (cp0 : Control.ControlPlaneManager) (hist : list entry)
    (s s' : threads) (S : server) : Prop :=
  ∃ S' evs, rtc server_step S S' ∧ related s' S' ∧ linearized cp0 S' (hist ++ effects evs) ∧
    visible evs = observe 0 (clients s) (clients s') ∧
    ∀ j tl, timely j tl (phase_at (clients s) j) → timely j (tl ++ evs) (phase_at (clients s') j).

(** A step that executes nothing: [evs] is what is seen of client [i]. *)
Lemma followed_seen cp0 hist s S i x y f S' evs :
  clients s !! i = Some x → rtc server_step S S' →
  related (Threads f (<[i := y]> (clients s))) S' → linearized cp0 S' hist →
  (evs = [] ∧ phase_of y.2 = phase_of x.2 ∨
   ∃ ev, evs = [ev] ∧ event_client ev = i ∧
     ∀ tl, timely i tl (phase_of x.2) → timely i (tl ++ [ev]) (phase_of y.2)) →
  change i x.2 y.2 = evs → effects evs = [] → visible evs = evs →
  followed cp0 hist s (Threads f (<[i := y]> (clients s))) S.
Proof.
  intros Hi HS R L Hev Hch Heff Hvis. exists S', evs. split_and!; [done|done| | |].
  - by rewrite Heff, app_nil_r.
  - cbn [clients]. by rewrite (observe_insert _ _ _ _ _ Hi), Nat.add_0_l, Hch.
  - intros j tl. cbn. destruct Hev as [[-> Hp]|(ev & -> & He & Hp)];
      [by eapply timely_quiet|by eapply timely_event].
Qed.

Lemma access_step cp0 hist s S i c m t :
  related s S → linearized cp0 S hist → calm s →
  clients s !! i = Some (c, Some (m, t)) → running t = true →
  followed cp0 hist s
    (Threads (access (shared s) t).1 (<[i := (c, Some (m, (access (shared s) t).2))]> (clients s))) S.
Proof.
  intros R L Hcalm Hi Hrun. destruct (related_at _ _ _ _ R Hi) as (c' & Hc & Hrel & Ht). cbn in Ht.
  pose proof (proj2 Hcalm _ _ _ Ht) as Hq.
  pose proof (access_sim _ i m _ _ (rel_state _ _ R) Hcalm t Ht Hrun (rel_regions _ _ R) Hq) as Hs.
  destruct (access (shared s) t) as [f' t']. cbn [fst snd] in *.
  assert (Hch : change i (Some (m, t)) (Some (m, t')) = []) by (by destruct t).
  destruct Hs as [[Ha Hag]|(Ha & r & g' & Hr & Hp & Hag)]; cbn [fst snd] in *.
  - eapply (followed_seen _ _ _ _ _ _ _ _ S []); [done|done| |done| |done..].
    + eapply related_keep; [done..|]. unfold conn_rel in *. cbn in *. by rewrite Ha.
    + left. cbn. by rewrite Ha.
  - unfold conn_rel in Hrel. cbn [fst snd] in Hrel. rewrite Ha in Hrel.
    destruct Hrel as (He & taken & Hrecv & ->).
    destruct (process_total m _ (rel_regions _ _ R) Hq) as (r' & g'' & Hp' & Hok & b & tx & Hb).
    rewrite Hp in Hp'. injection Hp' as <- <-. subst r. destruct (ack_serializes b tx) as [bs Hbs].
    eexists _, [Effect (Entry i m (ResponseAck b tx) bs)]. split_and!.
    + apply rtc_once.
      eapply (StepTurn _ i _ None g' (input c) (output c ++ frame_bytes bs) Next); [done..| |done].
      unfold client_turn. cbn [input output]. rewrite Hrecv, Hp. monad_simpl.
      unfold send_control_message_tokio. by rewrite Hbs.
    + cbn [arrived]. eapply related_set; [done..|]. unfold conn_rel. cbn [fst snd]. rewrite Hr. eauto.
    + eapply lin_execute; [done..|by left].
    + cbn [clients]. by rewrite (observe_insert _ _ _ _ _ Hi), Nat.add_0_l.
    + intros j tl. cbn. eapply timely_event; [done|done|]. cbn. rewrite Ha, Hr. intros tl' Htl.
      by apply (TimelyEffect i tl' (Entry i m (ResponseAck b tx) bs)).
Qed.

(** The answer is written, or its write fails. *)
Lemma reply_step cp0 hist s S i c m r w sent out :
  related s S → linearized cp0 S hist → clients s !! i = Some (c, Some (m, Finished r)) →
  send_control_message_tokio w (output c) r = (sent, out) →
  followed cp0 hist s
    (Threads (shared s) (<[i := (Conn (arrived c) (input c) out
       (match sent with Ok _ => None | Err e => Some (Err e) end), None)]> (clients s))) S.
Proof.
  intros R L Hi Hs. destruct (related_at _ _ _ _ R Hi) as (c' & Hc & Hrel & Ht). cbn in Ht.
  unfold conn_rel in Hrel. cbn in Hrel. destruct Hrel as (He & bs & Hbs & ->).
  unfold send_control_message_tokio in Hs. rewrite Hbs in Hs.
  eapply (followed_seen _ _ _ _ _ _ _ _ S [Return i r]); [done|done| |done| |done..].
  - eapply related_keep; [done..| |].
    + eapply agrees_swap; [apply R|done| |done]. intros m' t' [= _ <-]. by exists r.
    + unfold conn_rel. cbn [fst snd]. destruct w as [[n e]|]; injection Hs as <- <-; [right|by left].
      split_and!; [by eexists|done|done|]. cbn. apply prefix_app.
      exists (drop n (frame_bytes bs)). by rewrite take_drop.
  - right. eexists. split_and!; [done|done|]. cbn. intros. by apply TimelyReturn.
Qed.

Lemma sim_step cp0 hist s S s' :
  related s S → linearized cp0 S hist → calm s → step s s' → followed cp0 hist s s' S.
Proof.
  intros R L Hcalm Hstep.
  destruct Hstep as [s|s i c t bs Hi He|s i c m rest Hi He Hr|s i c m t Hi Hrun|s i c m r w sent out Hi Hs
                    |s i c e rest Hi He Hr Heof|s i c e rest Hi He Hr Heof];
    try (destruct (related_at _ _ _ _ R Hi) as (c' & Hc & Hrel & Ht); cbn in Ht).
  - eexists _, []. split_and!; [apply rtc_once, StepAccept| | | |].
    + destruct R as [R1 R2 R3]. split; cbn; [|done|].
      * rewrite fmap_app. cbn. eapply agrees_tasks; [exact R1| |]; intros i m t Hi.
        -- left. by apply lookup_app_l_Some.
        -- left. apply lookup_app_Some in Hi as [?|(_ & Hx)]; [done|].
           apply list_lookup_singleton_Some in Hx as [_ Hx]. done.
      * apply Forall2_app; [done|]. by repeat constructor.
    + cbn [effects omap list_omap]. rewrite app_nil_r. by apply lin_accept.
    + cbn. by rewrite observe_app.
    + intros j tl. rewrite app_nil_r. unfold phase_at. cbn [clients].
      destruct (clients s !! j) as [x|] eqn:E; [by rewrite (lookup_app_l_Some _ _ _ _ E)|].
      apply lookup_ge_None in E. rewrite lookup_app_r by done.
      by match goal with |- context [[_] !! ?n] => destruct n as [|[|]] end.
  - destruct (conn_rel_arrive _ _ bs Hrel He) as [He' Hrel']. cbn in Hrel'.
    eapply (followed_seen _ _ _ _ _ _ _ _ _ []); [done|by apply rtc_once, (StepArrive _ i c' bs)| |
      by apply lin_arrive|by left|by apply change_same|done|done].
    eapply related_set; [done| |apply R|done]. cbn. rewrite list_insert_id by done. apply R.
  - destruct (recv_taken _ _ _ Hr) as [taken Htk]. apply conn_rel_idle in Hrel; [subst c'|done].
    eapply (followed_seen _ _ _ _ _ _ _ _ S [Call i m]); [done|done| |done| |done..].
    + eapply related_keep; [done..| |].
      * eapply agrees_swap; [apply R|done|done|]. by intros m' t' [= -> <-].
      * unfold conn_rel. cbn. split; [done|]. exists taken. rewrite <- Htk.
        split; [done|]. destruct c; cbn in *; by subst.
    + right. eexists. split_and!; [done|done|]. cbn. intros. by apply TimelyCall.
  - by eapply access_step.
  - by eapply reply_step.
  - apply conn_rel_idle in Hrel; [subst c'|done].
    eapply (followed_seen _ _ _ _ _ _ _ _ _ []); [done| | |by apply (lin_end _ S _ i c rest (Err e))|by left|done..].
    + apply rtc_once. eapply (StepTurn _ i c None _ rest (output c) (Done (Err e))); [done..| |done].
      unfold client_turn. by rewrite Hr, Heof.
    + eapply related_set; [done| |apply R|by left]. cbn. rewrite list_insert_id by done. apply R.
  - apply conn_rel_idle in Hrel; [subst c'|done].
    eapply (followed_seen _ _ _ _ _ _ _ _ _ []); [done| | |by apply (lin_end _ S _ i c [] (Ok tt))|by left|done..].
    + apply rtc_once. apply (StepClose _ i c); [done..|]. exists None. do 3 eexists. unfold client_turn.
      by rewrite Hr, Heof.
    + eapply related_set; [done| |apply R|by left]. cbn. rewrite list_insert_id by done. apply R.
Qed.

(** Steps from states where no two requests are in each other's way. *)
Definition calm_step (s s' : threads) : Prop := calm s ∧ step s s'.

(** A run of such steps and what is seen of it. *)
Inductive history (cp0 : Control.ControlPlaneManager) : list event → threads → Prop :=
  | HistoryStart : history cp0 [] (Threads cp0 [])
  | HistoryStep tr s s' :
      history cp0 tr s → calm_step s s' →
      history cp0 (tr ++ observe 0 (clients s) (clients s')) s'.

Lemma history_run cp0 s s' tr :
  rtc calm_step s s' → history cp0 tr s → ∃ tr', history cp0 (tr ++ tr') s'.
Proof.
  intros Hr. revert tr. induction Hr as [|s s1 s2 Hst _ IH]; intros tr Htr.
  - exists []. by rewrite app_nil_r.
  - destruct (IH _ (HistoryStep _ _ _ _ Htr Hst)) as [tr' ?]. rewrite <- app_assoc in *. eauto.
Qed.

Lemma effects_app a b : effects (a ++ b) = effects a ++ effects b.
Proof. apply omap_app. Qed.

Lemma visible_app a b : visible (a ++ b) = visible a ++ visible b.
Proof. apply omap_app. Qed.

Lemma sim_run cp0 tr s :
  regions_ok cp0 → history cp0 tr s →
  ∃ S tl, rtc server_step (Server cp0 []) S ∧ related s S ∧ linearized cp0 S (effects tl) ∧
    visible tl = tr ∧ ∀ j, timely j tl (phase_at (clients s) j).
Proof.
  intros Hr Hh. induction Hh as [|tr s s' _ (S & tl & HS & R & L & Hv & Ht) [Hc Hstep]].
  - exists (Server cp0 []), []. split_and!; [done| |done|done|intros j; constructor].
    split; [|done|constructor]. split; [done..|by left|done|]. by intros i m t.
  - destruct (sim_step _ _ _ _ _ R L Hc Hstep) as (S' & evs & HS' & R' & L' & Hv' & Ht').
    exists S', (tl ++ evs). split_and!; [by etrans|done|by rewrite effects_app| |].
    + by rewrite visible_app, Hv, Hv'.
    + intros j. by apply Ht'.
Qed.

(** With no request on its way the maps are those of the executed requests. *)
Lemma agrees_idle f ts g : agrees f ts g → Forall (λ x, x = None) ts → f = g.
Proof.
  intros [A1 A2 A3 A4 A5 _] Hidle. rewrite Forall_lookup in Hidle.
  assert (∀ i m t, ts !! i ≠ Some (Some (m, t))) as Hn by (intros i m t Hi; by apply Hidle in Hi).
  destruct f as [f1 f2 f3 f4 f5], g as [g1 g2 g3 g4 g5]. cbn in *. subst.
  assert (f3 = g3) as -> by (apply map_eq; intros a; apply A5; intros (j & m & t & Hj & _); by eapply Hn).
  assert (f5 = g5) as ->; [|done]. apply map_eq. intros rid.
  destruct (A4 rid) as [?|(_ & _ & j & m & pid & Hj)]; [done|by eapply Hn in Hj].
Qed.

Lemma conn_rel_output x c : conn_rel x c → output x.1 `prefix_of` output c.
Proof.
  unfold conn_rel. destruct x.2 as [[m t]|]; [|by intros [->|(_ & _ & _ & ?)]]. intros [_ Hc].
  destruct (answered t); destruct Hc as (? & _ & ->); cbn; [by apply prefix_app_r|done].
Qed.

(** ** A thread that runs while the others wait *)

Lemma run_thread n : ∀ s i c m t cp' t',
  clients s !! i = Some (c, Some (m, t)) → accesses n (shared s) t = (cp', t') →
  rtc step s (Threads cp' (<[i := (c, Some (m, t'))]> (clients s))).
Proof.
  induction n as [|n IH]; intros s i c m t cp' t' Hi; cbn [accesses].
  - intros [= <- <-]. rewrite list_insert_id by done. by destruct s.
  - destruct (running t) eqn:Hrun.
    + pose proof (Access s i c m t Hi Hrun) as Hst. destruct (access (shared s) t) as [f1 t1]. cbn [fst snd] in Hst.
      intros Hn. eapply rtc_l; [exact Hst|].
      eapply (IH (Threads f1 _)) in Hn; [|by apply list_lookup_insert_eq, (lookup_lt_Some _ _ _ Hi)].
      cbn [clients] in Hn. by rewrite list_insert_insert_eq in Hn.
    + assert (access (shared s) t = (shared s, t)) as -> by (by destruct t). by apply IH.
Qed.

Lemma inserting_alone d cp :
  ControlFacts.region_ok d →
  ∃ n pages, accesses n cp (Inserting d (main_vaddr d) (main_vaddr d + region_size d)) =
      (Control.with_regions cp (<[region_id d := d]> (Control.regions cp)) pages, Finished (ack (Ok tt))) ∧
    ∀ a, pages !! a = if bool_decide (a ∈ ControlFacts.pages_of d)
      then Some (new_with_metadata a (Control.unit_size d) (Control.local_node_id cp) [])
      else Control.page_states cp !! a.
Proof.
  intros Hok. pose proof (ControlFacts.page_fuel_enough d Hok) as Hf. destruct Hok as (H1' & H2 & H3).
  pose proof (unit_pos d).
  pose proof (inserting_ends d (Control.page_fuel d) (main_vaddr d) (main_vaddr d + region_size d) cp) as He.
  rewrite stride_loop_spec in He by (done || lia). destruct He as [n Hn]. exists n. eexists.
  split; [exact Hn|]. intros a.
  apply (foldl_insert_lookup (λ a, new_with_metadata a (Control.unit_size d) (Control.local_node_id cp) [])).
Qed.

Lemma removing_alone d cp :
  ControlFacts.region_ok d →
  ∃ n pages, accesses n cp (Removing d (main_vaddr d) (main_vaddr d + region_size d)) =
      (Control.with_pages cp pages, Finished (ack (Ok tt))) ∧
    ∀ a, a ∈ ControlFacts.pages_of d → pages !! a = None.
Proof.
  intros Hok. pose proof (ControlFacts.page_fuel_enough d Hok) as Hf. destruct Hok as (H1' & H2 & H3).
  pose proof (unit_pos d).
  pose proof (removing_ends d (Control.page_fuel d) (main_vaddr d) (main_vaddr d + region_size d) cp) as He.
  rewrite stride_loop_spec in He by (done || lia). destruct He as [n Hn]. exists n. eexists.
  split; [exact Hn|]. intros a Ha. rewrite foldl_delete_lookup. by rewrite bool_decide_eq_true_2.
Qed.

Lemma desc_ok pid v sz fl :
  request_ok (RegionRegister pid v sz fl) → ControlFacts.region_ok (region_desc pid v sz fl).
Proof. cbn -[Z.pow]. unfold ControlFacts.region_ok, Control.unit_size. cbn -[Z.pow]. lia. Qed.

(** A deregistration and a registration of a registered region, in either order:
    if the region is registered afterwards, so are its pages. *)
Lemma race_serial cp0 pid v sz fl ms rs cp :
  let d := region_desc pid v sz fl in
  request_ok (RegionRegister pid v sz fl) → Control.regions cp0 !! region_id d = Some d →
  ms ≡ₚ [RegionDeregister pid v; RegionRegister pid v sz fl] → serve ms cp0 = Ret (rs, cp) →
  Control.regions cp !! region_id d = Some d →
  ∀ a, a ∈ ControlFacts.pages_of d → is_Some (Control.page_states cp !! a).
Proof.
  intros d Hq Hd Hp. pose proof (desc_ok _ _ _ _ Hq) as Hok. fold d in Hok.
  apply Permutation_sym, Permutation_length_2_inv in Hp as [-> | ->]; cbn [serve process_control_payload]; fold d.
  - destruct (ControlFacts.deregister_spec cp0 (region_id d) d Hok Hd) as (p1 & E1 & _).
    change (region_key pid v) with (region_id d). rewrite E1. monad_simpl.
    destruct (ControlFacts.register_spec (Control.with_regions cp0 (delete (region_id d) (Control.regions cp0)) p1) d [])
      as (p2 & E2 & Hp2); [done|by apply lookup_delete_eq|].
    unfold Control.register_region. rewrite E2. monad_simpl. intros [= _ <-] _ a Ha. cbn.
    by rewrite Hp2, bool_decide_eq_true_2.
  - unfold Control.register_region, Control.register_region_with_metadata. rewrite Hd.
    rewrite bool_decide_eq_true_2 by done. monad_simpl.
    destruct (ControlFacts.deregister_spec cp0 (region_id d) d Hok Hd) as (p1 & E1 & _).
    change (region_key pid v) with (region_id d). rewrite E1. monad_simpl. intros [= _ <-]. cbn.
    by rewrite lookup_delete_eq.
Qed.

(** Two clients have sent a request each, and both have been read. *)
Lemma two_clients cp m0 b0 m1 b1 :
  framed (m0, b0) → framed (m1, b1) →
  rtc step (Threads cp [])
    (Threads cp [(Conn (frame_bytes b0) [] [] None, Some (m0, Start m0));
                 (Conn (frame_bytes b1) [] [] None, Some (m1, Start m1))]).
Proof.
  intros H0' H1'. pose proof (stream_roundtrip m0 b0 [] H0') as R0. pose proof (stream_roundtrip m1 b1 [] H1') as R1.
  rewrite app_nil_r in R0, R1.
  eapply rtc_l; [apply Accept|]. eapply rtc_l; [apply Accept|]. cbn.
  eapply rtc_l; [by apply (Arrive _ 0 (Conn [] [] [] None) None (frame_bytes b0))|]. cbn.
  eapply rtc_l; [by apply (Arrive _ 1 (Conn [] [] [] None) None (frame_bytes b1))|]. cbn.
  eapply rtc_l; [by apply (Receive _ 0 (Conn (frame_bytes b0) (frame_bytes b0) [] None) m0 [])|]. cbn.
  eapply rtc_l; [by apply (Receive _ 1 (Conn (frame_bytes b1) (frame_bytes b1) [] None) m1 [])|]. done.
Qed.

(** Both have their answer. *)
Lemma two_answers cp c0 m0 r0 b0 c1 m1 r1 b1 :
  serialize r0 = Ok b0 → serialize r1 = Ok b1 →
  rtc step (Threads cp [(c0, Some (m0, Finished r0)); (c1, Some (m1, Finished r1))])
    (Threads cp [(Conn (arrived c0) (input c0) (output c0 ++ frame_bytes b0) None, None);
                 (Conn (arrived c1) (input c1) (output c1 ++ frame_bytes b1) None, None)]).
Proof.
  intros S0 S1.
  eapply rtc_l; [eapply (Reply _ 0 _ _ _ None); [done|unfold send_control_message_tokio; by rewrite S0]|]. cbn.
  eapply rtc_l; [eapply (Reply _ 1 _ _ _ None); [done|unfold send_control_message_tokio; by rewrite S1]|]. done.
Qed.

End Socket.
End ControlThreadFacts.

(** ** How many accesses a request takes *)

Module ControlThreadBounds.
Import Transport Daemon DaemonFacts ControlThreads ControlThreadFacts.

Section Bounds.
Context `{BuildProfile}.

(** A thread whose accesses find the shared maps in the given states, whatever
    has happened to them in between. *)
Definition follow (cps : list Control.ControlPlaneManager) (t : thread) : thread :=
  foldl (λ t cp, (access cp t).2) t cps.

(** The regions of [cp] end below the top of the address space and have at most
    [size] bytes, and so does the region a request names. *)
Definition regions_within (size : Z) (cp : Control.ControlPlaneManager) : Prop :=
  map_Forall (λ _ d, ControlFacts.region_ok d ∧ region_size d ≤ size) (Control.regions cp).

Definition request_within (size : Z) (m : ControlMessagePayload) : Prop :=
  request_ok m ∧ match m with RegionRegister _ _ sz _ => sz ≤ size | _ => True end.

Definition on_course (size : Z) (t : thread) : Prop :=
  match t with
  | Start m => request_within size m
  | Inserting d curr stop | Removing d curr stop => 0 ≤ curr ∧ stop + Control.unit_size d ≤ 2 ^ 64
  | Finished r => ∃ b t, r = ResponseAck b t
  | Panicked => False
  | _ => True
  end.

(** The accesses left, at most. *)
Definition accesses_left (size : Z) (t : thread) : nat :=
  match t with
  | Start _ => Z.to_nat (size / 4096) + 3
  | Inserting d curr stop | Removing d curr stop => S (range_count curr stop (Control.unit_size d))
  | Acquiring _ _ | Releasing _ _ => 1
  | Finished _ | Panicked => 0
  end.

Lemma loop_begins size d :
  ControlFacts.region_ok d → region_size d ≤ size →
  (S (range_count (main_vaddr d) (main_vaddr d + region_size d) (Control.unit_size d))
   < Z.to_nat (size / 4096) + 3)%nat.
Proof.
  intros Hok Hs. pose proof (ControlFacts.page_fuel_enough d Hok) as Hf. unfold Control.page_fuel in Hf.
  assert (region_size d / 4096 ≤ size / 4096) by (apply Z.div_le_mono; lia).
  assert (0 ≤ region_size d / 4096) by (apply Z.div_pos; destruct Hok as (? & ? & ?); lia). lia.
Qed.

Lemma start_advances size cp m :
  regions_within size cp → request_within size m →
  on_course size (start cp m).2 ∧
  (accesses_left size (start cp m).2 < Z.to_nat (size / 4096) + 3)%nat.
Proof.
  intros Hc [Hq Hsz]. destruct m as [pid v sz fl|pid v|rid off len|rid off len|n t|b t]; (cbn [start]; open_methods).
  - case_bool_decide; [split; [apply ack_shape|cbn; lia]|]. pose proof (desc_ok _ _ _ _ Hq) as Hd.
    pose proof Hd as (? & ? & ?). pose proof (unit_pos (region_desc pid v sz fl)).
    unfold advance. rewrite arith_ret by lia. split; [cbn -[Z.pow Control.unit_size] in *; lia|]. by apply loop_begins.
  - destruct (Control.regions cp !! _) as [d|] eqn:E; [|split; [apply ack_shape|cbn; lia]].
    destruct (Hc _ _ E) as [Hd Hs]. pose proof Hd as (? & ? & ?). pose proof (unit_pos d).
    unfold advance. cbn [fst snd]. rewrite arith_ret by lia. split; [cbn -[Z.pow Control.unit_size]; lia|]. by apply loop_begins.
  - cbn. split; [done|lia].
  - destruct (Control.locks cp !! rid); (split; [done || apply ack_shape|cbn; lia]).
  - cbn. split; [eauto|lia].
  - cbn. split; [eauto|lia].
Qed.

Lemma access_advances size cp t :
  regions_within size cp → on_course size t → running t = true →
  on_course size (access cp t).2 ∧
  (accesses_left size (access cp t).2 < accesses_left size t)%nat.
Proof.
  intros Hc Ht Hr. destruct t as [m|d curr stop|d curr stop|rid pid|rid pid|r|]; try done; (cbn [access]; open_methods).
  - by apply start_advances.
  - destruct Ht as [H0 H1]. pose proof (unit_pos d). destruct (Z.ltb_spec curr stop); cbn [fst snd]; [|split; [apply ack_shape|cbn; lia]].
    unfold advance. rewrite arith_ret by lia. cbn [on_course accesses_left]. rewrite (range_count_S curr) by lia. lia.
  - destruct Ht as [H0 H1]. pose proof (unit_pos d). destruct (Z.ltb_spec curr stop); cbn [fst snd]; [|split; [apply ack_shape|cbn; lia]].
    unfold advance. rewrite arith_ret by lia. cbn [on_course accesses_left]. rewrite (range_count_S curr) by lia. lia.
  - destruct (Control.acquire_lock _ _ _). split; [apply ack_shape|cbn; lia].
  - destruct (Control.release_lock _ _ _). split; [apply ack_shape|cbn; lia].
Qed.

Lemma follow_ends size cps : ∀ t,
  Forall (regions_within size) cps → on_course size t → (accesses_left size t ≤ length cps)%nat →
  ∃ b tx, follow cps t = Finished (ResponseAck b tx).
Proof.
  induction cps as [|cp cps IH]; intros t Hc Ht Hl.
  - destruct t; cbn in Hl; try lia; [destruct Ht as (b & tx & ->); by eexists _, _|done].
  - apply Forall_cons in Hc as [Hcp Hc]. cbn [follow foldl]. destruct (running t) eqn:Hr.
    + destruct (access_advances size cp t Hcp Ht Hr) as [Ht' Hlt]. apply IH; [done|done|cbn in Hl; lia].
    + destruct t; try done. apply IH; [done|done|cbn; lia].
Qed.

End Bounds.
End ControlThreadBounds.

(** ** What every access keeps, whoever else is running *)

Module ControlThreadKeeps.
Import Transport Daemon ControlLocks ControlThreads ControlThreadFacts.

Section Keeps.
Context `{BuildProfile}.

(** *** The queues of the locks *)

(** The holder of a resource and those who wait for it, in order, before and
    after an access of a thread: the thread has nothing to do with it, or joins
    the end of the queue, or is the holder and leaves it. *)
Definition queue_moves (rid : Z) (t : thread) (q q' : list Z) : Prop :=
  q' = q ∨ (∃ pid, t = Acquiring rid pid ∧ ¬ (pid ∈ q) ∧ q' = q ++ [pid]) ∨
  (∃ pid, t = Releasing rid pid ∧ q = pid :: q').

Lemma same_locks rid t cp cp' :
  lock_wf cp → Control.locks cp' = Control.locks cp →
  lock_wf cp' ∧ queue_moves rid t (lock_queue cp rid) (lock_queue cp' rid).
Proof.
  intros Hw E. cbn in *. unfold ControlLocks.queue. rewrite E. split; [done|by left].
Qed.

Lemma access_locks rid cp t :
  lock_wf cp →
  lock_wf (access cp t).1 ∧ queue_moves rid t (lock_queue cp rid) (lock_queue (access cp t).1 rid).
Proof.
  intros Hw. destruct t as [m|d curr stop|d curr stop|r pid|r pid|r|];
    (cbn [access]; open_methods); try by apply same_locks.
  - destruct m as [| |r off len|r off len| |]; (cbn [start]; open_methods); try by apply same_locks.
    + case_bool_decide; by apply same_locks.
    + destruct (Control.regions cp !! _); by apply same_locks.
    + cbn [fst]. unfold lock_entry. destruct (Control.locks cp !! r) as [st|] eqn:E; [by apply same_locks|].
      split; [apply map_Forall_insert_2; [split; [constructor|done]|done]|left].
      cbn [lock_queue ControlLocks.control_locks]. rewrite ControlLocks.queue_set.
      destruct (Z.eqb_spec rid r) as [->|]; [|done]. unfold ControlLocks.queue. by rewrite E.
    + destruct (Control.locks cp !! _); by apply same_locks.
  - destruct (curr <? stop); by apply same_locks.
  - destruct (curr <? stop); by apply same_locks.
  - pose proof (lock_acquire_wf cp r pid Hw) as Hw'. destruct (lock_acquire_spec cp r pid Hw) as [_ Hq].
    specialize (Hq rid). cbn [lock_acquire ControlLocks.control_locks] in Hw', Hq.
    destruct (Control.acquire_lock cp r pid) as [res cp']. cbn [fst snd] in *. split; [done|].
    rewrite Hq. destruct (Z.eqb_spec rid r) as [->|]; [|by left].
    destruct (lock_queue cp r) as [|o q] eqn:Eq; cbn [LockSpec.acquire snd].
    + right; left. exists pid. split_and!; [done|apply not_elem_of_nil|done].
    + destruct (Z.eqb_spec o pid); cbn [snd]; [by left|]. case_bool_decide as Hin; [by left|right; left].
      by exists pid.
  - pose proof (lock_release_wf cp r pid Hw) as Hw'. destruct (lock_release_spec cp r pid Hw) as [_ Hq].
    specialize (Hq rid). cbn [lock_release ControlLocks.control_locks] in Hw', Hq.
    destruct (Control.release_lock cp r pid) as [res cp']. cbn [fst snd] in *. split; [done|].
    rewrite Hq. destruct (Z.eqb_spec rid r) as [->|]; [|by left].
    destruct (lock_queue cp r) as [|o q] eqn:Eq; cbn [LockSpec.release snd]; [by left|].
    destruct (Z.eqb_spec o pid) as [->|]; cbn [snd]; [right; right|by left]. by exists pid.
Qed.

(** *** The node's own pages *)

(** No other node is known, and every page is the local node's. *)
Definition local_pages (n : NodeId) (cp : Control.ControlPlaneManager) : Prop :=
  Control.local_node_id cp = n ∧ Control.remote_nodes cp = ∅ ∧
  map_Forall (λ _ e, primary_owner e = n) (Control.page_states cp).

Lemma access_local n cp t : local_pages n cp → local_pages n (access cp t).1.
Proof.
  intros (Hl & Hr & Hp).
  destruct t as [m|d curr stop|d curr stop|rid pid|rid pid|r|]; (cbn [access]; open_methods); try done.
  - destruct m; (cbn [start]; open_methods); try done.
    + by case_bool_decide.
    + by destruct (Control.regions cp !! _).
    + unfold lock_entry. by destruct (Control.locks cp !! _).
    + by destruct (Control.locks cp !! _).
  - destruct (curr <? stop); split_and!; try done. cbn. by apply map_Forall_insert_2.
  - destruct (curr <? stop); split_and!; try done. cbn. by apply map_Forall_delete.
  - unfold Control.acquire_lock. repeat case_match; by simplify_eq.
  - unfold Control.release_lock. repeat case_match; by simplify_eq.
Qed.

End Keeps.
End ControlThreadKeeps.

Module ControlThreadTheorems.
Import Transport TransportTheorems Daemon DaemonFacts ControlThreads ControlThreadFacts ControlThreadBounds.

Section Theorems.
Context `{BuildProfile} `{!Bincode} `{!BincodeLaws}.
Hypothesis ack_serializes : ∀ b t, ∃ bs, serialize (ResponseAck b t) = Ok bs.

(** C1. The control socket is linearizable at the granularity of single map
    accesses, with two conditions: two registrations in progress at the same time
    are of different regions and no registration overlaps a deregistration in
    progress, and no registered or requested region reaches the last page of the
    address space.  Lock requests need no condition.  However the connections,
    their bytes and the accesses of their requests interleave, the calls and
    returns seen at the socket extend to a timeline in which every request takes
    effect once, after its call and before its return, with the answer it
    returns; so a request that returned before another was called takes effect
    before it.  Running the requests one at a time in the order of their effects
    gives every answer and the region table, and the whole control plane when no
    request is in progress.  Every connection has been sent, or is about to be
    sent, the answers to its own requests in that order, unless a write failed,
    which ends the connection. *)
Theorem concurrent_requests_linearize cp0 tr s :
  regions_ok cp0 → history cp0 tr s →
  ∃ tl cp, let hist := effects tl in
    visible tl = tr ∧ (∀ i, timely i tl (phase_at (clients s) i)) ∧
    serve (request <$> hist) cp0 = Ret (reply <$> hist, cp) ∧
    Forall (λ e, serialize (reply e) = Ok (reply_bytes e)) hist ∧
    Control.regions (shared s) = Control.regions cp ∧
    (Forall (λ x, x.2 = None) (clients s) → shared s = cp) ∧
    ∀ i c t, clients s !! i = Some (c, t) →
      output c `prefix_of` written (of_client i hist) ∧
      (t = None → all_sent c (written (of_client i hist)) ∧
         ∃ rest, consumed (arrived c) (request <$> of_client i hist) rest ∧
                 (ended c = None → rest = input c)).
Proof.
  intros Hr Hs. destruct (sim_run ack_serializes cp0 tr s Hr Hs) as (S & tl & _ & R & L & Hv & Ht).
  destruct L as [L1 L2 _ L4].
  exists tl, (control_plane S). split_and!; [done|done|done|done|apply R| |].
  - intros Hidle. eapply agrees_idle; [apply R|]. by rewrite Forall_fmap.
  - intros i c t Hi. destruct (related_at _ _ _ _ R Hi) as (c' & Hc & Hrel & _).
    destruct (L4 _ _ Hc) as (Ho & rest & Hcons & Hrest). split.
    + etrans; [by apply (conn_rel_output (c, t))|]. by destruct Ho as [->|[]].
    + intros ->. destruct Hrel as [->|((e & He) & Ha & He' & Hpre)]; cbn in *; [eauto|].
      split; [right; split; [|by eexists]|].
      * by rewrite <- (all_sent_live _ _ Ho He').
      * exists rest. rewrite <- Ha. split; [done|congruence].
Qed.

(** C21. Every request ends, whatever the other clients do: when regions end below
    the top of the address space and have at most [size] bytes, a request is
    answered after at most [size / 4096 + 3] accesses of its own, in whatever
    states these find the shared maps. *)
Theorem requests_wait_free size m cps :
  Forall (regions_within size) cps → request_within size m →
  (Z.to_nat (size / 4096) + 3 ≤ length cps)%nat →
  ∃ b tx, follow cps (Start m) = Finished (ResponseAck b tx).
Proof. intros Hc Hm Hl. by apply (follow_ends size). Qed.

(** C20. When registrations overlap deregistrations, one can be lost.  While a
    deregistration removes the pages of a registered region, another client can
    register the region again; both are told OK, and afterwards the region is
    registered and has no page.  No order of the two requests gives that. *)
Theorem deregistration_race cp0 pid v sz fl b0 b1 :
  let d := region_desc pid v sz fl in
  let m0 := RegionDeregister pid v in
  let m1 := RegionRegister pid v sz fl in
  framed (m0, b0) → framed (m1, b1) → request_ok m1 →
  Control.regions cp0 !! region_id d = Some d →
  ∃ s c0 c1 ok, rtc step (Threads cp0 []) s ∧
    clients s = [(c0, None); (c1, None)] ∧
    serialize (ResponseAck true "OK") = Ok ok ∧
    output c0 = frame_bytes ok ∧ output c1 = frame_bytes ok ∧
    Control.regions (shared s) !! region_id d = Some d ∧
    (∀ a, a ∈ ControlFacts.pages_of d → Control.page_states (shared s) !! a = None) ∧
    ∀ ms rs cp, ms ≡ₚ [m0; m1] → serve ms cp0 = Ret (rs, cp) →
      Control.regions cp !! region_id d = Some d →
      ∀ a, a ∈ ControlFacts.pages_of d → is_Some (Control.page_states cp !! a).
Proof.
  intros d m0 m1 F0 F1 Hq Hd. destruct (ack_serializes true "OK") as [ok Hok].
  assert (ControlFacts.region_ok d) as Hrok by by apply desc_ok.
  pose proof (unit_pos d). pose proof Hrok as (? & ? & ?).
  set (cp1 := Control.with_regions cp0 (delete (region_id d) (Control.regions cp0)) (Control.page_states cp0)).
  destruct (inserting_alone d cp1 Hrok) as (n1 & pages & E1 & _).
  set (cp2 := Control.with_regions cp1 (<[region_id d := d]> (Control.regions cp1)) pages) in *.
  destruct (removing_alone d cp2 Hrok) as (n2 & pages' & E2 & Hgone).
  assert (accesses (S n1) cp1 (Start m1) = (cp2, Finished (ack (Ok tt)))) as E1'.
  { unfold m1. (cbn [accesses access start]; open_methods). fold d.
    change (Control.regions cp1) with (delete (region_id d) (Control.regions cp0)).
    rewrite lookup_delete_eq, bool_decide_eq_false_2 by (by intros []).
    unfold advance. rewrite arith_ret by lia. exact E1. }
  assert (access cp0 (Start m0) = (cp1, Removing d (main_vaddr d) (main_vaddr d + region_size d))) as E0.
  { unfold m0. (cbn [access start]; open_methods). change (region_key pid v) with (region_id d). rewrite Hd.
    unfold advance. by rewrite arith_ret by lia. }
  set (c0 := Conn (frame_bytes b0) [] (frame_bytes ok) None).
  set (c1 := Conn (frame_bytes b1) [] (frame_bytes ok) None).
  exists (Threads (Control.with_pages cp2 pages') [(c0, None); (c1, None)]), c0, c1, ok.
  split_and!; try done.
  - etrans; [by apply (two_clients cp0 m0 b0 m1 b1)|].
    eapply rtc_l; [by apply (Access _ 0)|]. cbn [shared clients]. rewrite E0. cbn.
    etrans; [by eapply (run_thread (S n1) _ 1); [reflexivity|exact E1']|]. cbn.
    etrans; [by eapply (run_thread n2 _ 0); [reflexivity|exact E2]|]. cbn.
    by apply (two_answers _ (Conn (frame_bytes b0) [] [] None) m0 _ ok (Conn (frame_bytes b1) [] [] None) m1 _ ok).
  - cbn. by rewrite lookup_insert_eq.
  - intros ms rs cp Hp Hs. by eapply race_serial.
Qed.

End Theorems.
(** ** Witnesses *)

(** A tag and the fields. *)
#[local] Instance field_codec : Bincode := {|
  bincode_error := unit;
  serialize m := Ok
    match m with
    | RegionRegister pid vaddr size flags => [0; pid; vaddr; size; flags]
    | RegionDeregister pid vaddr => [1; pid; vaddr]
    | LockAcquire rid off len => [2; rid; off; len]
    | LockRelease rid off len => [3; rid; off; len]
    | Heartbeat node time => [4; node; time]
    | ResponseAck b t => 5 :: Z.b2z b :: DaemonTheorems.text_bytes t
    end;
  deserialize bs :=
    match bs with
    | [0; pid; vaddr; size; flags] => Ok (RegionRegister pid vaddr size flags)
    | [1; pid; vaddr] => Ok (RegionDeregister pid vaddr)
    | [2; rid; off; len] => Ok (LockAcquire rid off len)
    | [3; rid; off; len] => Ok (LockRelease rid off len)
    | [4; node; time] => Ok (Heartbeat node time)
    | 5 :: b :: t => Ok (ResponseAck (b =? 1) (DaemonTheorems.bytes_text t))
    | _ => Err tt
    end;
  serialize_batch _ := Err tt;
  deserialize_batch _ := Err tt;
|}.

#[local] Instance field_laws : BincodeLaws.
Proof.
  split; [|done]. intros [] bs; cbn; intros [= <-]; try done.
  rewrite DaemonTheorems.text_roundtrip. by destruct success.
Qed.

Lemma field_ack b t : ∃ bs, serialize (ResponseAck b t) = Ok bs.
Proof. by eexists. Qed.

(** Two registrations of different regions. *)
Definition register_a : ControlMessagePayload := RegionRegister 7 4096 8192 3.
Definition register_b : ControlMessagePayload := RegionRegister 8 4096 4096 3.

Ltac calm_tac :=
  split;
  [intros [|[|i]] [|[|j]] m t m' t' Hne Hi Hj; vm_compute in Hi, Hj; simplify_eq; vm_compute;
     (done || (intros ?; simplify_eq))
  |intros [|[|i]] m t Hi; vm_compute in Hi; simplify_eq; vm_compute; done].

Definition desc_a : MemoryRegionDescriptor := region_desc 7 4096 8192 3.
Definition desc_b : MemoryRegionDescriptor := region_desc 8 4096 4096 3.

Definition conn_of (m : ControlMessagePayload) : connection :=
  Conn (frame_bytes (match serialize m with Ok b => b | Err _ => [] end)) [] [] None.

Definition page_in (d : MemoryRegionDescriptor) (a : Z) (cp : Control.ControlPlaneManager) :
    Control.ControlPlaneManager :=
  Control.with_pages cp (<[a := new_with_metadata a (Control.unit_size d) (Control.local_node_id cp) []]>
                           (Control.page_states cp)).

(** The two clients while their requests are executed. *)
Definition executing (cp : Control.ControlPlaneManager) (ta tb : thread) : threads :=
  Threads cp [(conn_of register_a, Some (register_a, ta)); (conn_of register_b, Some (register_b, tb))].

Lemma executing_a cp ta tb cp' ta' :
  running ta = true → access (H := Dev) cp ta = (cp', ta') →
  step (H := Dev) (executing cp ta tb) (executing cp' ta' tb).
Proof.
  intros Hr E. pose proof (Access (H := Dev) (executing cp ta tb) 0 _ _ _ eq_refl Hr) as Hs.
  cbn [executing shared] in Hs. rewrite E in Hs. exact Hs.
Qed.

Lemma executing_b cp ta tb cp' tb' :
  running tb = true → access (H := Dev) cp tb = (cp', tb') →
  step (H := Dev) (executing cp ta tb) (executing cp' ta tb').
Proof.
  intros Hr E. pose proof (Access (H := Dev) (executing cp ta tb) 1 _ _ _ eq_refl Hr) as Hs.
  cbn [executing shared] in Hs. rewrite E in Hs. exact Hs.
Qed.

Lemma both_received : rtc (calm_step (H := Dev)) (Threads (Control.new 1) [])
  (executing (Control.new 1) (Start register_a) (Start register_b)).
Proof.
  set (ca := Conn [] [] [] None). set (ba := arrived (conn_of register_a)). set (bb := arrived (conn_of register_b)).
  eapply rtc_l; [split; [calm_tac|apply Accept]|].
  eapply rtc_l; [split; [calm_tac|apply Accept]|].
  eapply rtc_l; [split; [calm_tac|by apply (Arrive _ 0 ca None ba)]|].
  eapply rtc_l; [split; [calm_tac|by apply (Arrive _ 1 ca None bb)]|].
  eapply rtc_l; [split; [calm_tac|by apply (Receive _ 0 (Conn ba ba [] None) register_a [])]|].
  eapply rtc_l; [split; [calm_tac|by apply (Receive _ 1 (Conn bb bb [] None) register_b [])]|].
  apply rtc_refl.
Qed.

(** Both are in their page loops; the second one finishes first. *)
Lemma interleaved_run :
  let cp1 := page_in desc_a 4096 (Control.new 1) in
  let cp2 := page_in desc_b 4096 cp1 in
  rtc (calm_step (H := Dev)) (Threads (Control.new 1) [])
    (executing (Control.with_regions cp2 (<[region_id desc_b := desc_b]> ∅) (Control.page_states cp2))
       (Inserting desc_a 8192 12288) (Finished (ack (Ok tt)))).
Proof.
  intros cp1 cp2. etrans; [exact both_received|].
  eapply rtc_l; [split; [calm_tac|by apply executing_a]|].
  eapply rtc_l; [split; [calm_tac|by apply executing_b]|].
  apply (rtc_l _ _ (executing cp1 (Inserting desc_a 8192 12288) (Inserting desc_b 4096 8192)));
    [split; [calm_tac|by apply executing_a]|].
  apply (rtc_l _ _ (executing cp2 (Inserting desc_a 8192 12288) (Inserting desc_b 8192 8192)));
    [split; [calm_tac|by apply executing_b]|].
  apply rtc_once. split; [calm_tac|by apply executing_b].
Qed.

Lemma concurrent_requests_linearize_witness :
  ∃ s tl cp, serve (H := Dev) (request <$> effects tl) (Control.new 1) = Ret (reply <$> effects tl, cp) ∧
    timely 1 tl (Effected (ack (Ok tt))) ∧
    Control.regions (shared s) = Control.regions cp ∧
    Control.regions (shared s) !! region_id desc_b = Some desc_b.
Proof.
  destruct (history_run (Control.new 1) _ _ [] interleaved_run (HistoryStart _)) as [tr Htr].
  destruct (concurrent_requests_linearize (H := Dev) field_ack (Control.new 1) _ _
    ltac:(apply map_Forall_empty) Htr) as (tl & cp & _ & Ht & Hs & _ & Hr & _).
  eexists _, tl, cp. split; [exact Hs|]. split; [exact (Ht 1%nat)|]. split; [exact Hr|]. reflexivity.
Defined.

(** Five accesses are enough for two pages, here against maps that change under
    the request. *)
Lemma requests_wait_free_witness :
  ∃ b tx, follow (H := Dev)
    [Control.new 1; Control.new 1; page_in desc_b 4096 (Control.new 1); Control.new 2; Control.new 1]
    (Start register_a) = Finished (ResponseAck b tx).
Proof.
  apply (requests_wait_free (H := Dev) 8192).
  - repeat (apply Forall_cons_2; [apply map_Forall_empty|]). constructor.
  - split; cbn -[Z.pow]; lia.
  - vm_compute. lia.
Defined.

(** The region of [register_a] is registered when the two requests come. *)
Lemma deregistration_race_witness :
  ∃ s, rtc (step (H := Dev))
         (Threads (Control.with_regions (Control.new 1) {[ region_id desc_a := desc_a ]} ∅) []) s ∧
       Control.regions (shared s) !! region_id desc_a = Some desc_a ∧
       Control.page_states (shared s) !! 4096 = None.
Proof.
  destruct (deregistration_race (H := Dev) field_ack
    (Control.with_regions (Control.new 1) {[ region_id desc_a := desc_a ]} ∅) 7 4096 8192 3
    [1; 7; 4096] [0; 7; 4096; 8192; 3]) as (s & c0 & c1 & ok & Hr & _ & _ & _ & _ & Hd & Hp & _).
  - split; [reflexivity|discriminate].
  - split; [reflexivity|discriminate].
  - cbn -[Z.pow]. lia.
  - reflexivity.
  - exists s. split; [exact Hr|]. split; [exact Hd|]. apply Hp. vm_compute. left.
Defined.

End ControlThreadTheorems.
