(* ===== verification/Startup.v ===== *)
(** * The daemon process

    What surrounds [Daemon.boot] in [klnk-daemon/src/main.rs]: the
    configuration or its defaults, the settings of the transport with the search
    for a device ([librmashim/src/lib.rs]), pinning, the start of the prefetch
    engine, the control socket and the rounds of the limiter.  System calls and
    the file system are arguments or a small state. *)

From stdpp Require Import strings pretty.
From S2P Require Import Prelude F64 Domain ControlPlane StagingPool Config ConfigToml Transport Rma.
From S2P Require Import Uffd Prefetch Paging RdmaMetadata Daemon.

(** ** Transport settings *)

Module Verbs.

Record RdmaEndpointConfig := {
  device_name : option string;
  enable_gdr : bool;
  rq_prepost_count : Z;
  control_immediate : bool;
  bind_addr : option SocketAddr;
  max_recv_wr : Z;
  max_send_wr : Z;
  selective_signaling : bool;
  signal_batch_size : Z;
  inline_data_max : Z;
  enable_srq : bool;
}.

Definition default_endpoint : RdmaEndpointConfig := {|
  device_name := None;
  enable_gdr := true;
  rq_prepost_count := 512;
  control_immediate := true;
  bind_addr := None;
  max_recv_wr := 1024;
  max_send_wr := 1024;
  selective_signaling := true;
  signal_batch_size := 8;
  inline_data_max := 64;
  enable_srq := false;
|}.

(** The directory of devices: absent, unreadable, or its entries, each with a
    name that may not be valid text. *)
Inductive directory := Absent | Unreadable | Entries (names : list (option string)).

Definition detect_verbs_hardware (infiniband : directory) : option string :=
  match infiniband with
  | Entries names => head (omap id names)
  | _ => None
  end.

(** The daemon's settings: the other fields keep their defaults. *)
Definition verbs_config (cfg : Config.VirthubConfig) : RdmaEndpointConfig :=
  let r := Config.rdma (Config.transport cfg) in
  {| device_name := Some (Config.device_name r);
     enable_gdr := Config.enable_gdr r;
     rq_prepost_count := wrap 32 (Config.rq_prepost_count r);
     control_immediate := Config.control_immediate r;
     bind_addr := bind_addr default_endpoint;
     max_recv_wr := max_recv_wr default_endpoint;
     max_send_wr := max_send_wr default_endpoint;
     selective_signaling := selective_signaling default_endpoint;
     signal_batch_size := signal_batch_size default_endpoint;
     inline_data_max := inline_data_max default_endpoint;
     enable_srq := enable_srq default_endpoint |}.

Definition enable_srq_op (config : RdmaEndpointConfig) : result Engine.RmaError () :=
  if negb (enable_srq config) then Err (Engine.Unimplemented "SRQ support not yet implemented") else Ok tt.

Definition set_inline_threshold (config : RdmaEndpointConfig) (max_bytes : Z) :
    result Engine.RmaError () := Ok tt.

Definition completed_operations_count (self : Engine.RmaTransportEngine) : Z :=
  Engine.completed_ops self.

End Verbs.

(** ** The process *)

Module Startup.

(** [load_default().unwrap_or_else(|_| default())]. *)
Definition app_config {E : Type} (loaded : result E Config.VirthubConfig) : Config.VirthubConfig :=
  match loaded with Ok cfg => cfg | Err _ => Config.default end.

(** [tid]: the answer of [gettid]; [affinity]: that of [sched_setaffinity]. *)
Definition pin_thread_to_core (tid : Z) (affinity : Z → Z → result string ()) (core_id : Z) :
    result string () :=
  if tid <? 0 then Err "Failed to get tid"
  else map_err (λ e, "Failed: " +:+ e) (affinity tid core_id).

(** A task runs whether or not it could be pinned; the warnings of the attempt. *)
Definition spawn_pinned_task {A : Type} (numa_node tid : Z) (affinity : Z → Z → result string ())
    (future : outcome A) : list string * outcome A :=
  match Daemon.get_core_id_for_numa_node numa_node with
  | None => ([], future)
  | Some cid =>
      match pin_thread_to_core tid affinity cid with
      | Ok _ => ([], future)
      | Err e => (["Failed to pin task: " +:+ e], future)
      end
  end.

(** [PrefetchEngine::start]: the receiver is taken once. *)
Inductive started := Disabled | Spawned.

Definition prefetch_start (config : Prefetch.PrefetchConfig) (receiver : bool) : outcome (bool * started) :=
  if negb (Prefetch.enabled config) then Ret (receiver, Disabled)
  else if receiver then Ret (false, Spawned) else Panic.

(** One round of the limiter's task. *)
Definition limiter_round (limiter : DaemonLimits.ResourceLimiter) : list string :=
  match DaemonLimits.check_backpressure limiter with
  | Err _ => ["Backpressure"]
  | Ok _ => []
  end.

(** *** The control socket *)

(** The names that exist.  Everything else the operating system decides on,
    permissions, the length of a name, the limits of the process, it answers
    through [os]. *)
Record Fs := { dirs : gset string; files : gset string }.

Record Os := {
  parent : string → option string;
  mkdir : string → result string ();
  unlink : string → result string ();
  may_bind : string → result string ();
}.

Section Socket.
Context (os : Os).

Definition create_dir_all (fs : Fs) (p : string) : result string Fs :=
  _ ← mkdir os p; Ok {| dirs := {[p]} ∪ dirs fs; files := files fs |}.

Definition remove_file (fs : Fs) (p : string) : Fs * result string () :=
  if bool_decide (p ∈ files fs) then
    match unlink os p with
    | Ok _ => ({| dirs := dirs fs; files := files fs ∖ {[p]} |}, Ok tt)
    | Err e => (fs, Err e)
    end
  else (fs, Err "no such file").

(** A socket is bound to a name that does not exist, in a directory that does. *)
Definition bind (fs : Fs) (p : string) : result string Fs :=
  if bool_decide (p ∈ files fs ∪ dirs fs) then Err "address in use"
  else match parent os p with
       | Some d =>
           if bool_decide (d ∈ dirs fs)
           then _ ← may_bind os p; Ok {| dirs := dirs fs; files := {[p]} ∪ files fs |}
           else Err "no such directory"
       | None => Err "no such directory"
       end.

Definition open_socket (fs : Fs) (socket_path : string) : result string Fs :=
  fs ← (match parent os socket_path with
        | Some d => if bool_decide (d ∈ dirs fs ∪ files fs) then Ok fs else create_dir_all fs d
        | None => Ok fs
        end);
  let '(fs, _) := remove_file fs socket_path in
  bind fs socket_path.

(** *** [main] up to the accept loop *)

Context `{BuildProfile} `{!MoveOps.UffdKernel} `{!IterOrder Engine.RegisteredRegion}.
Context `{!Transport.Bincode}.
Context {bincode_error : Type}
        (serialize : RdmaMetadata.MetadataSnapshot → result bincode_error (list Z)).

Inductive MainError :=
  | BootFailed (e : Daemon.BootError (bincode_error := bincode_error))
  | SocketFailed (e : string).

Record Process := {
  config : Config.VirthubConfig;
  daemon : Daemon.daemon;
  prefetcher : started;
  server : Daemon.server;
  fs : Fs;
}.

Definition main {E : Type} (loaded : result E Config.VirthubConfig) (env : Daemon.environment) (fs : Fs) :
    outcome (result MainError Process) :=
  let cfg := app_config loaded in
  r ← Daemon.boot serialize cfg env;
  match r with
  | Err e => Ret (Err (BootFailed e))
  | Ok d =>
      '(_, p) ← prefetch_start (Daemon.prefetch_config cfg) true;
      match open_socket fs (Config.control_socket (Config.general cfg)) with
      | Err e => Ret (Err (SocketFailed e))
      | Ok fs =>
          Ret (Ok {| config := cfg; daemon := d; prefetcher := p;
                     server := Daemon.Server
                       (Handler.control_plane (Paging.node (Daemon.paging d))) [];
                     fs := fs |})
      end
  end.

End Socket.
End Startup.

Module StartupTheorems.
Import Startup.

(** A file without all the sections: the process runs on the defaults. *)
Lemma shipped_file_unused path :
  app_config (Config.load_from_file (IoErr := unit) Ok
    (Toml.from_str (Syntax := unit) (λ _, Ok ConfFiles.virthub_toml)) path) = Config.default.
Proof. vm_compute. reflexivity. Qed.

Section Socket.
Context (os : Os).

(** A socket name that can be opened: not a directory, below a directory that
    exists or can be made, and one that the process may remove and bind. *)
Definition openable (fs : Fs) (p d : string) : Prop :=
  parent os p = Some d ∧ d ≠ p ∧ (p ∉ dirs fs) ∧
  (d ∈ dirs fs ∨ (d ∉ files fs) ∧ mkdir os d = Ok tt) ∧
  unlink os p = Ok tt ∧ may_bind os p = Ok tt.

Lemma open_socket_ok fs p d :
  openable fs p d →
  ∃ fs', open_socket os fs p = Ok fs' ∧ p ∈ files fs' ∧ openable fs' p d.
Proof.
  intros (Hp & Hne & Hnd & Hd & Hu & Hmb). unfold open_socket. rewrite Hp.
  set (fs1 := {| dirs := {[d]} ∪ dirs fs; files := files fs |}).
  assert (∃ fs0, (if bool_decide (d ∈ dirs fs ∪ files fs) then Ok fs else create_dir_all os fs d) = Ok fs0 ∧
    files fs0 = files fs ∧ d ∈ dirs fs0 ∧ p ∉ dirs fs0) as (fs0 & -> & Hf & Hd0 & Hp0).
  { destruct Hd as [Hd|[Hd Hm]].
    - rewrite bool_decide_eq_true_2 by (apply elem_of_union; tauto). by exists fs.
    - destruct (decide (d ∈ dirs fs)) as [Hi|Hi].
      + rewrite bool_decide_eq_true_2 by (apply elem_of_union; tauto). by exists fs.
      + rewrite bool_decide_eq_false_2 by (rewrite elem_of_union; tauto). unfold create_dir_all. rewrite Hm.
        exists fs1. split; [done|]. cbn. split; [done|].
        rewrite !elem_of_union, !elem_of_singleton. split; [tauto|]. intros [?|?]; [congruence|done]. }
  cbn [mbind result_bind]. unfold remove_file. rewrite Hu.
  assert (Hbind : ∀ fs2, dirs fs2 = dirs fs0 → p ∉ files fs2 → ∃ fs', bind os fs2 p = Ok fs' ∧
    p ∈ files fs' ∧ openable fs' p d).
  { intros fs2 E Hn. unfold bind.
    rewrite bool_decide_eq_false_2 by (rewrite elem_of_union, E; tauto).
    rewrite Hp, bool_decide_eq_true_2, Hmb by (by rewrite E). eexists. split; [done|]. cbn.
    split; [apply elem_of_union_l, elem_of_singleton; done|].
    split_and!; [done|done|by rewrite E|left; by rewrite E|done|done]. }
  case_bool_decide; apply Hbind; cbn; [done| |done|done].
  rewrite elem_of_difference, elem_of_singleton. tauto.
Qed.

Context `{BuildProfile} `{!MoveOps.UffdKernel} `{!IterOrder Engine.RegisteredRegion}.
Context `{!IterOrderLaws Engine.RegisteredRegion} `{!Transport.Bincode}.
Context {bincode_error : Type}
        (serialize : RdmaMetadata.MetadataSnapshot → result bincode_error (list Z)).

(** The operating system grants what the start-up asks for under [cfg]. *)
Definition grants (cfg : Config.VirthubConfig) (env : Daemon.environment) (fs : Fs) : Prop :=
  let total := Config.staging_num_pages (Config.klnk cfg) * Staging.PAGE_SIZE_2M in
  (∃ bs, serialize (RdmaMetadata.Snapshot 0 []) = Ok bs ∧ bs ≠ []) ∧
  Daemon.snapshot_ptr env ≠ 0 ∧ Daemon.inval_ptr env ≠ 0 ∧
  0 < Config.staging_num_pages (Config.klnk cfg) ∧ total < 2 ^ 64 ∧
  (∀ t a, Daemon.mmap env t = Ok a → 0 ≤ a ∧ a + t ≤ 2 ^ 64) ∧
  (∃ base, Daemon.mmap env total = Ok base ∧ base ≠ 0) ∧ (∃ k, Daemon.create env = Ok k) ∧
  ∃ d, openable fs (Config.control_socket (Config.general cfg)) d.

Lemma boot_limiter cfg env d :
  Daemon.boot serialize cfg env = Ret (Ok d) → limiter_round (Daemon.limiter d) = [].
Proof.
  unfold Daemon.boot. destruct (RdmaMetadata.init_metadata_publisher _ _ _ _ _) as [rma [p|e]]; [|done].
  destruct (Staging.new _ _ _ _) as [[pool|e]| |]; monad_simpl; try done.
  destruct (Engine.register_staging_pool _ _ _) as [rma' r].
  destruct (Handler.new _ _ _ _) as [h|e]; [|done]. intros [= <-].
  unfold limiter_round. cbn [Daemon.limiter]. by rewrite DaemonTheorems.limiter_never_warns.
Qed.

(** C8. The daemon starts: when the operating system grants the memory, the
    descriptor, the socket's directory and its name, [main] reaches its accept loop
    without a panic, on the configuration that loads or else on the defaults,
    with the staging pool and the metadata registered, the prefetch engine
    running and its socket the one that is bound, also where a socket of an
    earlier or another daemon was; and in whatever way faults and prefetches
    then interleave they never use more slots than the configuration asked
    for. *)
Theorem daemon_starts {E : Type} (loaded : result E Config.VirthubConfig) env fs :
  let cfg := app_config loaded in
  grants cfg env fs →
  ∃ p, main os serialize loaded env fs = Ret (Ok p) ∧
    config p = cfg ∧ prefetcher p = Spawned ∧ Daemon.connections (server p) = [] ∧
    Config.control_socket (Config.general cfg) ∈ files (Startup.fs p) ∧
    is_Some (RdmaMetadata.metadata_region (Daemon.publisher (daemon p))) ∧
    is_Some (RdmaMetadata.invalidation_region (Daemon.publisher (daemon p))) ∧
    limiter_round (Daemon.limiter (daemon p)) = [] ∧
    (∀ ls w, Paging.run (Daemon.paging (daemon p)) ls w →
      Z.of_nat (PagingFacts.fills ls +
        length (UffdFacts.prefetched_slots (Paging.node w) ++ PagingFacts.all_slots (Paging.tasks w)) +
        length (Staging.free_slots (Handler.staging_pool (Paging.node w))))
        ≤ Config.staging_num_pages (Config.klnk cfg)) ∧
    (** A second daemon on the same name starts as well. *)
    ∃ p', main os serialize loaded env (Startup.fs p) = Ret (Ok p').
Proof.
  intros cfg ((bs & Hs & Hb) & Hsp & Hip & Hn & Ht & Hm & (base & Hbase & Hb0) & (k & Hk) & d & Ho).
  destruct (DaemonTheorems.boot_ready serialize cfg env bs base k Hs Hb Hsp Hip Hn Ht Hm Hbase Hb0 Hk)
    as (dm & g & Eb & Hmr & Hir & _ & _ & _ & Hrun).
  destruct (open_socket_ok fs _ d Ho) as (fs' & Es & Hin & Ho').
  destruct (open_socket_ok fs' _ d Ho') as (fs'' & Es' & _ & _).
  unfold main. fold cfg. rewrite Eb. monad_simpl. unfold prefetch_start. cbn [Daemon.prefetch_config
    Prefetch.enabled negb]. monad_simpl. rewrite Es. eexists. split; [reflexivity|].
  cbn [config prefetcher server Startup.fs daemon Daemon.connections]. rewrite Es'.
  split_and!; try done; [by eapply boot_limiter|by eexists].
Qed.

End Socket.

(** ** Examples *)

#[local] Existing Instance UffdTheorems.willing_kernel.
#[local] Existing Instance UffdTheorems.dev_profile.
#[local] Existing Instance RmaTheorems.in_key_order.
#[local] Existing Instance RmaTheorems.in_key_order_laws.
#[local] Existing Instance DaemonTheorems.tagged_codec.

(** No directory can be made. *)
Definition tmp_os : Os := {|
  parent _ := Some "/tmp"; mkdir _ := Err "denied"; unlink _ := Ok tt; may_bind _ := Ok tt |}.
Definition tmp_only : Fs := {| dirs := {["/tmp"]}; files := {["/tmp/virthub_control.sock"]} |}.
Definition rejected : result unit Config.VirthubConfig := Err tt.

(** The shipped file does not load; a socket of an earlier run is in the way. *)
Lemma daemon_starts_witness :
  ∃ p, main tmp_os RdmaMetadataTheorems.empty_layout rejected
         DaemonTheorems.example_env tmp_only = Ret (Ok p) ∧ config p = Config.default.
Proof.
  destruct (daemon_starts tmp_os RdmaMetadataTheorems.empty_layout rejected
    DaemonTheorems.example_env tmp_only) as (p & E & Hc & _).
  - unfold grants. split_and!; try discriminate; try reflexivity.
    + eexists. split; [reflexivity|discriminate].
    + intros t a. cbn. unfold StagingTheorems.fixed_mmap.
      destruct (t <=? 2 ^ 64 - 65536) eqn:Et; [|discriminate]. intros [= <-]. lia.
    + exists 65536. split; [reflexivity|discriminate].
    + exists tt. reflexivity.
    + exists "/tmp"%string. split; [reflexivity|]. split; [discriminate|].
      split; [apply (bool_decide_unpack _); vm_compute; exact I|].
      split; [left; apply (bool_decide_unpack _); vm_compute; exact I|]. split; reflexivity.
  - exists p. split; [exact E|exact Hc].
Defined.

End StartupTheorems.
