(* ===== verification/Node.v ===== *)
(** * The running daemon

    [Startup.main] hands the objects of the daemon to the tasks it spawns and
    enters the accept loop.  [Node] puts them together: the clients of the
    control socket at the granularity of map accesses ([ControlConcurrent]), the
    batch loop over the fault descriptor ([UffdBatch]) with the fault tasks it
    spawns and the prefetch tasks ([Paging]), the invalidation poller
    ([Invalidation]) over the ring that peers write, the periodic push of the
    metadata ([RdmaMetadata]), the telemetry consumer ([EbpfTrace]), the limiter
    and the shutdown signal.  All of them share one control plane, one staging
    pool and one transport engine.  The theorems are about every state this
    system reaches from the start-up, in every interleaving. *)

From S2P Require Import Prelude Domain ControlPlane StagingPool Rma Ebpf EbpfTrace Config Transport.
From S2P Require Import Invalidation Uffd Prefetch Paging RdmaMetadata UffdBatch Daemon.
From S2P Require Import ControlConcurrent Startup.

Module Node.
Import MoveOps.

Section Node.
Context `{BuildProfile} `{!UffdKernel} `{!IterOrder Engine.RegisteredRegion} `{!Transport.Bincode}.
Context `{!Trace.Mpsc}.
Context {bincode_error : Type}
        (serialize : RdmaMetadata.MetadataSnapshot → result bincode_error (list Z)).

(** [telemetry] is [None] when eBPF is off or its consumer has ended; [recs] is
    the channel to the prefetch engine; [alive] until [main] returns. *)
Record node := MkNode {
  world : Paging.world;
  clients : list ControlThreads.client;
  publisher : RdmaMetadata.RdmaMetadataPublisher;
  batch : UffdBatch.BatchStats;
  telemetry : option Trace.Telemetry;
  recs : list Stride.PrefetchRecommendation;
  limiter : DaemonLimits.ResourceLimiter;
  shutdown : bool;
  alive : bool;
}.

Definition handler (n : node) : Handler.UffdHandler := Paging.node (world n).
Definition cp (n : node) : Control.ControlPlaneManager := Handler.control_plane (handler n).

Definition with_world (n : node) (w : Paging.world) : node :=
  MkNode w (clients n) (publisher n) (batch n) (telemetry n) (recs n) (limiter n) (shutdown n) (alive n).
Definition with_handler (n : node) (h : Handler.UffdHandler) : node :=
  with_world n (Paging.with_node (world n) h (Paging.tasks (world n))).
Definition with_cp (n : node) (c : Control.ControlPlaneManager) : node :=
  with_handler n (Handler.set_cp (handler n) c).
Definition with_clients (n : node) (cs : list ControlThreads.client) : node :=
  MkNode (world n) cs (publisher n) (batch n) (telemetry n) (recs n) (limiter n) (shutdown n) (alive n).
Definition with_publisher (n : node) (p : RdmaMetadata.RdmaMetadataPublisher) : node :=
  MkNode (world n) (clients n) p (batch n) (telemetry n) (recs n) (limiter n) (shutdown n) (alive n).
Definition with_batch (n : node) (b : UffdBatch.BatchStats) : node :=
  MkNode (world n) (clients n) (publisher n) b (telemetry n) (recs n) (limiter n) (shutdown n) (alive n).
Definition with_telemetry (n : node) (t : option Trace.Telemetry)
    (rs : list Stride.PrefetchRecommendation) : node :=
  MkNode (world n) (clients n) (publisher n) (batch n) t rs (limiter n) (shutdown n) (alive n).
Definition with_flags (n : node) (s a : bool) : node :=
  MkNode (world n) (clients n) (publisher n) (batch n) (telemetry n) (recs n) (limiter n) s a.

(** The ring of the publisher, and another in its place. *)
Definition ring (n : node) : Inval.InvalidationBuffer :=
  RdmaMetadata.invalidation_buffer (publisher n).

Definition with_ring (n : node) (b : Inval.InvalidationBuffer) : node :=
  let p := publisher n in
  with_publisher n (RdmaMetadata.Publisher (RdmaMetadata.metadata_region p)
    (RdmaMetadata.invalidation_region p) (RdmaMetadata.meta_version p) (RdmaMetadata.buffer p) b).

(** The telemetry consumer of [main], when an event is there: it goes on with
    the channel and forwards what the detector recommends, or it ends. *)
Definition forward (now : Z) (t : Trace.Telemetry) :
    option (option Trace.Telemetry * list Stride.PrefetchRecommendation) :=
  match Trace.recv t with
  | (_, Trace.Pending) => None
  | (_, Trace.Ready None) => Some (None, [])
  | (t, Trace.Ready (Some ev)) =>
      match Trace.analyze_event t now ev with
      | (t, Ret r) => Some (Some t, option_list r)
      | _ => Some (None, [])
      end
  end.

(** The objects [main] has created, at the accept loop. *)
Definition launch (cfg : Config.VirthubConfig) (d : Daemon.daemon) : outcome node :=
  t ← (if Config.enabled (Config.ebpf cfg)
       then '(_, t) ← Trace.new cfg 1024; Ret (Some t) else Ret None);
  Ret (MkNode (Daemon.paging d) [] (Daemon.publisher d) UffdBatch.default_stats t []
         (Daemon.limiter d) false true).

(** A tick of [start_periodic_push]: [env] is what the push finds after each of
    its awaits. *)
Definition push_tick (n : node) (env : nat → Control.ControlPlaneManager * Control.ControlPlaneManager)
    (ptr : Z) : node * list RdmaMetadata.Write :=
  let '(rma, p, ws) := RdmaMetadata.push_metadata_to_peers serialize (cp n) env
                         (Handler.rma_engine (handler n)) (publisher n) ptr in
  (with_publisher (with_handler n (Handler.set_rma (handler n) rma)) p, ws).

(** What a step shows outside the shared objects. *)
Inductive event :=
  | Quiet
  | Fault (l : Paging.label)
  | Polled (processed : Z)
  | Pushed (ws : list RdmaMetadata.Write)
  | Recommended (rec : Stride.PrefetchRecommendation)
  | Warned (log : list string).

Inductive action : node → event → node → Prop :=
  (** The accept loop and the tasks of the clients. *)
  | ActSocket n s :
      ControlThreads.step (ControlThreads.Threads (cp n) (clients n)) s →
      action n Quiet (with_clients (with_cp n (ControlThreads.shared s)) (ControlThreads.clients s))
  (** Memory accesses of other processes: faults arrive at the descriptor. *)
  | ActKernel n k :
      action n Quiet (with_handler n (Handler.set_uffd (handler n) k))
  (** A turn of the batch loop spawns a task per fault. *)
  | ActBatch n elapsed p ms faults :
      UffdBatch.run_turn (UffdBatch.Processor (handler n) UffdBatch.default_config (batch n)) elapsed
        = Ret (p, ms, faults) →
      action n Quiet
        (with_batch (with_world n (Paging.with_node (world n) (UffdBatch.handler p)
                       (Paging.tasks (world n) ++ (Paging.FaultTask <$> faults)))) (UffdBatch.stats p))
  (** A fault task or a task of the prefetch engine goes on. *)
  | ActTask n l w :
      Paging.advance (world n) l w → action n (Fault l) (with_world n w)
  (** Peers write the ring. *)
  | ActRemote n m :
      length m = length (Inval.mem (ring n)) →
      action n Quiet (with_ring n {| Inval.mem := m; Inval.size := Inval.size (ring n);
                                     Inval.vaddr := Inval.vaddr (ring n) |})
  | ActPoll n k b c :
      Inval.poll_once (cp n) (ring n) = Ret (k, b, c) →
      action n (Polled k) (with_ring (with_cp n c) b)
  | ActPush n env ptr :
      action n (Pushed (push_tick n env ptr).2) (push_tick n env ptr).1
  | ActTelemetry n now t t' rs :
      telemetry n = Some t → forward now t = Some (t', rs) →
      action n Quiet (with_telemetry n t' (recs n ++ rs))
  (** The prefetch engine's loop spawns a task per recommendation. *)
  | ActRecommend n rec rs :
      recs n = rec :: rs → Prefetch.enabled (Paging.config (world n)) = true →
      action n (Recommended rec)
        (with_telemetry (with_world n
           (Paging.World (handler n) (Paging.config (world n)) (Paging.permits (world n))
              (Prefetch.count_recommendation (Paging.metrics (world n)))
              (Paging.tasks (world n) ++ [Paging.RecTask rec 0]))) (telemetry n) rs)
  | ActLimiter n :
      action n (Warned (Startup.limiter_round (limiter n))) n
  (** Ctrl-C: the flag, and the loop that sees it; the tasks end with [main]. *)
  | ActSignal n :
      action n Quiet (with_flags n true (alive n))
  | ActExit n :
      shutdown n = true → action n Quiet (with_flags n true false).

Inductive run : node → list event → node → Prop :=
  | RunNil n : run n [] n
  | RunSnoc n1 es n2 e n3 :
      run n1 es n2 → alive n2 = true → action n2 e n3 → run n1 (es ++ [e]) n3.

End Node.
End Node.

Module NodeFacts.
Import MoveOps UffdFacts ControlLocks ControlThreadKeeps Node.

Section Facts.
Context `{BuildProfile} `{!UffdKernel} `{!IterOrder Engine.RegisteredRegion} `{!Transport.Bincode}.
Context `{!Trace.Mpsc} `{!Trace.MpscLaws}.
Context {bincode_error : Type}
        (serialize : RdmaMetadata.MetadataSnapshot → result bincode_error (list Z)).

(** ** A fault on a node that knows no other *)

(** The entry of a page after its fault has been resolved locally. *)
Definition shared_entry (id : NodeId) (e : DistributedPageEntry) (rs : list NodeId) : DistributedPageEntry :=
  PageEntry (page_vaddr e) (page_size e) SharedRead id rs (Domain.version e) (metadata e).

Definition entry_shared (id : NodeId) (v : Z) (c c' : Control.ControlPlaneManager) : Prop :=
  ∃ e rs, Control.page_states c !! v = Some e ∧
    c' = Control.with_pages c (<[v := shared_entry id e rs]> (Control.page_states c)).

(** Everything but the kernel's state, the pool, the counters and one entry. *)
Record quiet_fault (id : NodeId) (v : Z) (h h' : Handler.UffdHandler) : Prop := {
  qf_rma : Handler.rma_engine h' = Handler.rma_engine h;
  qf_regions : Handler.regions h' = Handler.regions h;
  qf_prefetched : Handler.prefetched_pages h' = Handler.prefetched_pages h;
  qf_cp : Handler.control_plane h' = Handler.control_plane h ∨
          entry_shared id v (Handler.control_plane h) (Handler.control_plane h');
}.

Lemma with_reader_entry id e :
  ∃ rs, with_reader (with_state e SharedRead id) id = shared_entry id e rs.
Proof. unfold with_reader. case_bool_decide; by eexists. Qed.

Lemma zeropage_quiet id h v e h' r :
  Control.local_node_id (Handler.control_plane h) = id → page_of h v = Some e →
  Handler.resolve_with_zeropage h v = Ret (h', r) → quiet_fault id v h h'.
Proof.
  intros Hid He. unfold Handler.resolve_with_zeropage.
  destruct (uffd_zeropage _ _ _) as [k [[]|x]]; [|intros [= <- _]; by repeat split; left].
  rewrite (update_page_set _ v SharedRead _ e) by done. monad_simpl. intros [= <- _].
  split; [done..|]. right. exists e, (replica_holders e). split; [done|]. cbn. by rewrite Hid.
Qed.

Lemma missing_quiet id h v e h' r :
  Control.local_node_id (Handler.control_plane h) = id → page_of h v = Some e →
  Handler.resolve_local_missing h v = Ret (h', r) → quiet_fault id v h h'.
Proof.
  intros Hid He. unfold Handler.resolve_local_missing.
  destruct (Staging.pop_slot _) as [[[slot|x] pool]| |]; monad_simpl; [| |done..].
  2: { intros [= <- _]. by repeat split; left. }
  pose proof (move_or_push_frame (Handler.set_pool h pool) v slot) as Hf.
  unfold Handler.move_or_push in *. destruct (uffd_move _ _ _ _) as [k [n|x]].
  2: { intros [= <- _]. by repeat split; left. }
  rewrite (update_page_set _ v SharedRead _ e) by done. monad_simpl.
  rewrite (add_local_reader_set _ v _ (page_of_set_entry _ v _)), set_entry_set_entry.
  intros [= <- _]. split; [done..|]. right. unfold local_of. cbn. rewrite Hid.
  destruct (with_reader_entry id e) as [rs ->]. by exists e, rs.
Qed.

Lemma local_begin id h v h' p :
  local_pages id (Handler.control_plane h) → Handler.handle_begin h v = Ret (h', p) →
  (∃ r, p = Handler.Finished r) ∧ quiet_fault id v h h'.
Proof.
  intros (Hid & _ & Hp). unfold Handler.handle_begin, Control.lookup_page_state.
  destruct (Control.page_states (Handler.control_plane h) !! v) as [e|] eqn:He.
  2: { intros [= <- <-]. split; [by eexists|]. by repeat split; left. }
  rewrite (Hp _ _ He), Hid, Z.eqb_refl. cbn [negb].
  destruct (coherence_state e).
  4: { destruct (Handler.resolve_with_zeropage _ v) as [[h1 r]| |] eqn:E; monad_simpl; [|done..].
       intros [= <- <-]. split; [by eexists|].
       destruct (zeropage_quiet id (Handler.count Handler.incr_zero h) v e _ _ Hid He E). by split. }
  all: destruct (Handler.resolve_local_missing _ v) as [[h1 r]| |] eqn:E; monad_simpl; [|done..];
       intros [= <- <-]; (split; [by eexists|]);
       destruct (missing_quiet id (Handler.count Handler.incr_local h) v e _ _ Hid He E); by split.
Qed.

(** ** What the tasks leave alone *)

Definition cp_ok (id : NodeId) (c : Control.ControlPlaneManager) : Prop :=
  local_pages id c ∧ lock_wf c.

Lemma entry_shared_ok id v c c' :
  cp_ok id c → entry_shared id v c c' → cp_ok id c' ∧ Control.locks c' = Control.locks c.
Proof.
  intros [(Hl & Hr & Hp) Hw] (e & rs & He & ->). split; [|done]. split; [|done].
  split_and!; [done|done|]. cbn. by apply map_Forall_insert_2.
Qed.

(** The polling loop accepts no invalidation of an own or unknown page. *)
Lemma local_poll id c b k b' c' :
  local_pages id c → Inval.poll_once c b = Ret (k, b', c') → k = 0 ∧ b' = b ∧ c' = c.
Proof.
  intros (Hid & _ & Hp). unfold Inval.poll_once, Inval.process_pending.
  destruct (Inval.head b) as [hd| |]; monad_simpl; [|done..].
  destruct (Inval.tail b) as [tl| |]; monad_simpl; [|done..].
  destruct (hd <? tl) eqn:E; [|by intros [= <- <- <-]].
  cbn [Inval.process_loop]. rewrite E.
  destruct (Inval.read_entry_raw b hd) as [[[[valid va] ver] sz]| |]; monad_simpl; [|done..].
  destruct (valid =? 0); monad_simpl; [by intros [= <- <- <-]|].
  assert (Inval.poller_callback c va ver sz = Ret (false, c)) as ->; [|monad_simpl; by intros [= <- <- <-]].
  unfold Inval.poller_callback, Control.lookup_page_state.
  destruct (Control.page_states c !! va) as [e|] eqn:He; [|done].
  by rewrite (Hp _ _ He), Hid, Z.eqb_refl.
Qed.

Lemma local_push id c env rma p ptr rma' p' ws :
  local_pages id c →
  RdmaMetadata.push_metadata_to_peers serialize c env rma p ptr = (rma', p', ws) → rma' = rma ∧ ws = [].
Proof.
  intros (_ & Hr & _). unfold RdmaMetadata.push_metadata_to_peers, Control.get_all_remote_nodes.
  destruct (RdmaMetadata.metadata_region p); [|by intros [= <- _ <-]].
  destruct (RdmaMetadata.refresh_metadata _ _ _ _) as [p1 [[]|e]]; [|by intros [= <- _ <-]].
  rewrite Hr, map_to_list_empty. cbn. by intros [= <- _ <-].
Qed.

(** The batch loop reads the descriptor and counts. *)
Definition same_node (h h' : Handler.UffdHandler) : Prop :=
  Handler.control_plane h' = Handler.control_plane h ∧ Handler.staging_pool h' = Handler.staging_pool h ∧
  Handler.rma_engine h' = Handler.rma_engine h ∧ Handler.regions h' = Handler.regions h ∧
  Handler.prefetched_pages h' = Handler.prefetched_pages h.

Lemma poll_loop_same n : ∀ h t p, same_node h (UffdBatch.poll_loop n h t p).1.1.
Proof.
  assert (∀ h t, same_node h (Handler.poll_and_handle h t).1.1) as Hp.
  { intros h t. unfold Handler.poll_and_handle. destruct (uffd_poll _ _) as [k [c|e]]; [|done].
    destruct (c =? 0); [done|]. by destruct (uffd_read_event _) as [k' [[[b|]|]|e]]. }
  induction n as [|n IH]; intros h t p; cbn [UffdBatch.poll_loop]; [done|].
  specialize (Hp h t). destruct (Handler.poll_and_handle h t) as [[h1 [[]|e]] f]; [|done..].
  specialize (IH h1 t (p + 1)). destruct (UffdBatch.poll_loop n h1 t (p + 1)) as [[h2 r] fs]. cbn in *.
  unfold same_node in *. intuition congruence.
Qed.

Lemma run_turn_same p elapsed p' ms faults :
  UffdBatch.run_turn p elapsed = Ret (p', ms, faults) →
  same_node (UffdBatch.handler p) (UffdBatch.handler p').
Proof.
  unfold UffdBatch.run_turn, UffdBatch.process_batch.
  pose proof (poll_loop_same (Z.to_nat (UffdBatch.max_batch_size (UffdBatch.config p)))
    (UffdBatch.handler p) (UffdBatch.poll_timeout_ms (UffdBatch.config p)) 0) as Hs.
  destruct (UffdBatch.poll_loop _ _ _ _) as [[h [q|e]] fs]; cbn in Hs.
  - destruct (UffdBatch.record_batch _ _ _); monad_simpl; [|done..]. by intros [= <- _ _].
  - monad_simpl. destruct (arith _ _); monad_simpl; [|done..]. by intros [= <- _ _].
Qed.

(** What a step does to the queue of a lock: nothing, or what a task of the
    socket that is at its access of the lock does to it. *)
Definition passes_on (rid : Z) (cs : list ControlThreads.client) (q q' : list Z) : Prop :=
  q' = q ∨ ∃ i c m t, cs !! i = Some (c, Some (m, t)) ∧ queue_moves rid t q q'.

(** The clients of the socket. *)
Lemma socket_ok id s s' :
  cp_ok id (ControlThreads.shared s) → ControlThreads.step s s' →
  cp_ok id (ControlThreads.shared s') ∧
  ∀ rid, passes_on rid (ControlThreads.clients s)
    (lock_queue (ControlThreads.shared s) rid) (lock_queue (ControlThreads.shared s') rid).
Proof.
  intros [Hl Hw] Hs.
  destruct Hs as [s|s i c t bs Hi He|s i c m rest Hi He Hr|s i c m t Hi Hrun|s i c m r w sent out Hi Hs
                 |s i c e rest Hi He Hr Heof|s i c e rest Hi He Hr Heof];
    cbn [ControlThreads.shared ControlThreads.clients];
    try (split; [done|intros rid; by left]).
  split; [split; [by apply access_local|exact (proj1 (access_locks 0 _ t Hw))]|].
  intros rid. right. exists i, c, m, t. split; [done|]. exact (proj2 (access_locks rid _ t Hw)).
Qed.

(** ** The invariant of the daemon *)

Definition fault_task (t : Paging.task) : Prop := match t with Paging.FaultTask _ => True | _ => False end.

(** The channel of the probes has a sender and no message. *)
Definition silent (t : Trace.Telemetry) : Prop :=
  (Trace.mpsc_recv (Trace.channel t)).2 = Trace.Pending.

Record node_inv (id : NodeId) (rma : Engine.RmaTransportEngine) (lim : DaemonLimits.ResourceLimiter)
    (slots : Z) (k : nat) (n : node) : Prop := {
  ni_world : PagingFacts.world_inv slots k (world n);
  ni_cp : cp_ok id (cp n);
  ni_rma : Handler.rma_engine (handler n) = rma;
  ni_regions : Handler.regions (handler n) = ∅;
  ni_prefetched : Handler.prefetched_pages (handler n) = Some ∅;
  ni_tasks : Forall fault_task (Paging.tasks (world n));
  ni_recs : recs n = [];
  ni_telemetry : from_option silent True (telemetry n);
  ni_limiter : limiter n = lim;
}.

(** What can be seen of such a daemon. *)
Definition local_event (e : event) : Prop :=
  match e with
  | Quiet | Fault _ => True
  | Polled k => k = 0
  | Pushed ws => ws = []
  | Recommended _ => False
  | Warned log => log = []
  end.

Definition event_fills (e : event) : nat :=
  match e with Fault l => PagingFacts.filled l | _ => 0 end.

Section Inv.
Context (id : NodeId) (rma : Engine.RmaTransportEngine) (lim : DaemonLimits.ResourceLimiter) (slots : Z).
Context (Hlim : Startup.limiter_round lim = []).
Abbreviation inv := (node_inv id rma lim slots) (only parsing).

(** The handler changes outside what the invariant speaks about. *)
Lemma inv_handler k n h ts :
  inv k n → cp_ok id (Handler.control_plane h) →
  Handler.staging_pool h = Handler.staging_pool (handler n) → Handler.rma_engine h = rma →
  Handler.regions h = ∅ → Handler.prefetched_pages h = Some ∅ → Forall fault_task ts →
  inv k (with_world n (Paging.with_node (world n) h (Paging.tasks (world n) ++ ts))).
Proof.
  intros [] Hc Hp Hr Hg Hf Hts. split; try done; cbn.
  - eapply PagingFacts.inv_frame; [done|done|by rewrite Hf|].
    eapply Forall_impl; [exact Hts|]. by intros [].
  - by apply Forall_app.
Qed.

Lemma inv_same_tasks k n h :
  inv k n → cp_ok id (Handler.control_plane h) →
  Handler.staging_pool h = Handler.staging_pool (handler n) → Handler.rma_engine h = rma →
  Handler.regions h = ∅ → Handler.prefetched_pages h = Some ∅ →
  inv k (with_handler n h).
Proof.
  intros Hi Hc Hp Hr Hg Hf. unfold with_handler. rewrite <- (app_nil_r (Paging.tasks (world n))).
  by apply inv_handler.
Qed.

(** A task of a node that only has fault tasks. *)
Lemma inv_task k n l w :
  inv k n → Paging.advance (world n) l w →
  inv (k + PagingFacts.filled l)%nat (with_world n w) ∧
  Control.locks (cp (with_world n w)) = Control.locks (cp n).
Proof.
  intros Hi Ha. pose proof (PagingFacts.inv_advance _ _ _ _ _ (ni_world _ _ _ _ _ _ Hi) Ha) as Hw.
  pose proof (ni_tasks _ _ _ _ _ _ Hi) as Hts.
  assert (∀ l1 t l2, Paging.tasks (world n) = l1 ++ t :: l2 → fault_task t ∧ Forall fault_task (l1 ++ l2)) as Hmid.
  { intros l1 t l2 E. rewrite E in Hts. apply Forall_app in Hts as [H1' H2']. apply Forall_cons in H2' as [? ?].
    split; [done|]. by apply Forall_app. }
  pose proof (ni_cp _ _ _ _ _ _ Hi) as Hc. pose proof (proj1 Hc) as Hlp.
  destruct n as [w0 cs pub bt te rc li sd al]. cbn [world] in *. unfold cp, handler in Hc, Hlp. cbn [world] in *.
  destruct Ha as [w l1 l2 v h r Ht E|w l1 l2 v h slot Ht E|w l1 l2 v o slot h r Ht E|w l1 l2 rec i v Ht _ _ _
    |w l1 l2 rec i v size peer rkey Ht _ _ _|w l1 l2 rec i v size peer rkey Ht Hp|w l1 l2 rec i Ht _
    |w l1 l2 v size peer rkey e Ht E|w l1 l2 v size peer rkey e slot len Ht E|w l1 l2 v slot len Ht];
    destruct (Hmid _ _ _ Ht) as [Hft Hrest]; try done.
  - destruct (local_begin id _ _ _ _ Hlp E) as [_ [Q1 Q2 Q3 Q4]]. destruct Hi.
    assert (∀ A (g : Handler.UffdHandler → A), (∀ h, g (Handler.count Handler.incr_failed h) = g h) →
      g (Paging.fault_done h r) = g h) as Hg by (intros A g Hg; unfold Paging.fault_done; by destruct (is_ok r)).
    assert (cp_ok id (Handler.control_plane h) ∧
            Control.locks (Handler.control_plane h) = Control.locks (Handler.control_plane (Paging.node w)))
      as [Hc' Hlk] by (destruct Q4 as [->|Q4]; [done|by eapply entry_shared_ok]).
    unfold cp, handler. cbn -[Paging.fault_done]. rewrite (Hg _ Handler.control_plane) by done.
    split; [|done]. split; try done; cbn -[Paging.fault_done].
    + unfold cp, handler. cbn -[Paging.fault_done]. by rewrite (Hg _ Handler.control_plane) by done.
    + unfold handler. cbn -[Paging.fault_done]. rewrite (Hg _ Handler.rma_engine) by done. by rewrite Q1.
    + unfold handler. cbn -[Paging.fault_done]. rewrite (Hg _ Handler.regions) by done. by rewrite Q2.
    + unfold handler. cbn -[Paging.fault_done]. rewrite (Hg _ Handler.prefetched_pages) by done. by rewrite Q3.
  - destruct (local_begin id _ _ _ _ Hlp E) as [[r Hr] _]. done.
Qed.

Lemma inv_action k n e n' :
  inv k n → action serialize n e n' →
  inv (k + event_fills e)%nat n' ∧ local_event e ∧
  ∀ rid, passes_on rid (clients n) (lock_queue (cp n) rid) (lock_queue (cp n') rid).
Proof.
  assert (∀ n n', Control.locks (cp n') = Control.locks (cp n) →
    ∀ rid, passes_on rid (clients n) (lock_queue (cp n) rid) (lock_queue (cp n') rid)) as Hsame.
  { intros n1 n2 E rid. left. cbn. unfold queue. by rewrite E. }
  intros Hi Ha. pose proof Hi as [Hw Hc Hrma Hreg Hpf Hts Hrecs Htel Hl].
  destruct Ha as [n s Hs|n kn|n el p ms fs Hrun|n l w Hadv|n m Hm|n c b c' Hp|n env ptr
    |n now t t' rs Ht Hf|n rec rs Hr _|n|n|n Hsd]; cbn [event_fills local_event]; rewrite ?Nat.add_0_r.
  - destruct (socket_ok id (ControlThreads.Threads (cp n) (clients n)) _ Hc Hs) as [Hc' Hq].
    split_and!; [|done|exact Hq].
    assert (inv k (with_cp n (ControlThreads.shared s))) as [] by by apply inv_same_tasks. by split.
  - split_and!; [by apply inv_same_tasks|done|by apply Hsame].
  - destruct (run_turn_same _ _ _ _ _ Hrun) as (S1 & S2 & S3 & S4 & S5). cbn in *.
    split_and!; [|done|apply Hsame; unfold cp, handler; cbn; by rewrite S1].
    assert (inv k (with_world n (Paging.with_node (world n) (UffdBatch.handler p)
      (Paging.tasks (world n) ++ (Paging.FaultTask <$> fs))))) as []; [|by split].
    apply inv_handler; [done|by rewrite S1|done|by rewrite S3|by rewrite S4|by rewrite S5|].
    apply Forall_fmap, Forall_forall. done.
  - destruct (inv_task _ _ _ _ Hi Hadv) as [Hi' Hlk]. split_and!; [done|done|by apply Hsame].
  - split_and!; [by split|done|by apply Hsame].
  - destruct (local_poll id _ _ _ _ _ (proj1 Hc) Hp) as (-> & -> & ->).
    split_and!; [|done|by apply Hsame].
    assert (inv k (with_cp n (cp n))) as [] by by apply inv_same_tasks. by split.
  - unfold push_tick. destruct (RdmaMetadata.push_metadata_to_peers _ _ _ _ _ _) as [[r' p] ws] eqn:Hp.
    destruct (local_push id _ _ _ _ _ _ _ _ (proj1 Hc) Hp) as [-> ->].
    split_and!; [|done|by apply Hsame].
    assert (inv k (with_handler n (Handler.set_rma (handler n) (Handler.rma_engine (handler n))))) as []
      by by apply inv_same_tasks. by split.
  - exfalso. rewrite Ht in Htel. unfold silent in Htel. cbn in Htel. unfold forward, Trace.recv in Hf.
    destruct (Trace.mpsc_recv (Trace.channel t)) as [ch r]. cbn in Htel. by subst r.
  - exfalso. by rewrite Hrecs in Hr.
  - split_and!; [done|by rewrite Hl|by apply Hsame].
  - split_and!; [by split|done|by apply Hsame].
  - split_and!; [by split|done|by apply Hsame].
Qed.

Definition fills_of (es : list event) : nat := foldr (λ e n, event_fills e + n)%nat 0%nat es.

Lemma fills_of_snoc es e : fills_of (es ++ [e]) = (fills_of es + event_fills e)%nat.
Proof. induction es as [|x es IH]; cbn; [lia|]. unfold fills_of in IH. rewrite IH. lia. Qed.

Lemma inv_reachable n0 es n :
  inv 0%nat n0 → run serialize n0 es n → inv (fills_of es) n ∧ Forall local_event es.
Proof.
  intros Hi Hr. induction Hr as [|n1 es n2 e n3 _ IH _ Ha]; [done|]. destruct (IH Hi) as [Hi2 He].
  destruct (inv_action _ _ _ _ Hi2 Ha) as (Hi3 & He3 & _). rewrite fills_of_snoc. split; [done|].
  apply Forall_app. auto.
Qed.

End Inv.

(** ** The start *)

Lemma boot_started cfg env d :
  let num := Config.staging_num_pages (Config.klnk cfg) in
  (∀ t a, Daemon.mmap env t = Ok a → 0 ≤ a ∧ a + t ≤ 2 ^ 64) →
  0 ≤ num → num * Staging.PAGE_SIZE_2M < 2 ^ 64 →
  Daemon.boot serialize cfg env = Ret (Ok d) →
  ∃ h, Daemon.paging d = Paging.started h (Daemon.prefetch_config cfg) ∧
    StagingTheorems.pool_inv (Handler.staging_pool h, []) ∧
    Staging.num_slots (Handler.staging_pool h) = num ∧
    Handler.control_plane h = Control.new (Daemon.daemon_node_id cfg) ∧
    Handler.regions h = ∅ ∧ Handler.prefetched_pages h = Some ∅.
Proof.
  intros num Hm Hn Ht. unfold Daemon.boot.
  destruct (RdmaMetadata.init_metadata_publisher _ _ _ _ _) as [rma [p|e]]; [|done].
  destruct (Staging.new _ _ _ _) as [[pool|e]| |] eqn:Ep; monad_simpl; try done.
  apply StagingTheorems.new_inv in Ep as (Hp & Hnum & _); [|done..].
  destruct (Engine.register_staging_pool _ _ _) as [rma' r]. unfold Handler.new.
  destruct (Daemon.create env) as [k|e]; [|done]. cbn [map_err mbind result_bind]. intros [= <-].
  eexists. split; [reflexivity|]. by split_and!.
Qed.

Lemma launched cfg env d n :
  let num := Config.staging_num_pages (Config.klnk cfg) in
  (∀ t a, Daemon.mmap env t = Ok a → 0 ≤ a ∧ a + t ≤ 2 ^ 64) →
  0 ≤ num → num * Staging.PAGE_SIZE_2M < 2 ^ 64 →
  Daemon.boot serialize cfg env = Ret (Ok d) → launch cfg d = Ret n →
  node_inv (Daemon.daemon_node_id cfg) (Handler.rma_engine (handler n)) (Daemon.limiter d) num 0 n.
Proof.
  intros num Hm Hn Ht Hb. destruct (boot_started cfg env d Hm Hn Ht Hb) as (h & Hd & Hp & Hs & Hc & Hg & Hf).
  unfold launch.
  assert (∃ t, (if Config.enabled (Config.ebpf cfg) then '(_, t) ← Trace.new cfg 1024; Ret (Some t)
                else Ret None) = Ret t ∧ from_option silent True t) as (t & -> & Ht').
  { destruct (Config.enabled _); [|by exists None].
    destruct (Trace.mpsc_channel_new 1024) as [c Hch]; [lia|]. unfold Trace.new.
    cbn [mbind outcome_bind]. rewrite Hch. eexists. split; [done|]. exact (Trace.mpsc_fresh_waits _ _ Hch). }
  monad_simpl. intros [= <-]. split; cbn; rewrite ?Hd; try done; unfold cp, handler; cbn; rewrite ?Hd; cbn;
    rewrite ?Hc; try done.
  unfold num. rewrite <- Hs. apply PagingFacts.inv_started; [done| |done]. unfold prefetched_slots. by rewrite Hf.
Qed.

End Facts.
End NodeFacts.

Module NodeTheorems.
Import MoveOps ControlLocks Node NodeFacts ControlThreadKeeps.

Section Theorems.
Context (os : Startup.Os).
Context `{BuildProfile} `{!UffdKernel} `{!IterOrder Engine.RegisteredRegion} `{!Transport.Bincode}.
Context `{!Trace.Mpsc} `{!Trace.MpscLaws}.
Context {bincode_error : Type}
        (serialize : RdmaMetadata.MetadataSnapshot → result bincode_error (list Z)).

(** The machine: [mmap] answers with a range of addresses, and the configured
    pool fits the address space. *)
Definition fits_machine (cfg : Config.VirthubConfig) (env : Daemon.environment) : Prop :=
  let num := Config.staging_num_pages (Config.klnk cfg) in
  (∀ t a, Daemon.mmap env t = Ok a → 0 ≤ a ∧ a + t ≤ 2 ^ 64) ∧
  0 ≤ num ∧ num * Staging.PAGE_SIZE_2M < 2 ^ 64.

Lemma reached {E : Type} (loaded : result E Config.VirthubConfig) env fs p n0 es n :
  fits_machine (Startup.app_config loaded) env →
  Startup.main os serialize loaded env fs = Ret (Ok p) →
  launch (Startup.config p) (Startup.daemon p) = Ret n0 → run serialize n0 es n →
  Startup.limiter_round (Daemon.limiter (Startup.daemon p)) = [] ∧
  node_inv (Daemon.daemon_node_id (Startup.app_config loaded)) (Handler.rma_engine (handler n0))
    (Daemon.limiter (Startup.daemon p))
    (Config.staging_num_pages (Config.klnk (Startup.app_config loaded))) (fills_of es) n ∧
  Forall local_event es.
Proof.
  intros (Hm & Hn & Ht). unfold Startup.main. set (cfg := Startup.app_config loaded) in *.
  destruct (Daemon.boot serialize cfg env) as [[d|e]| |] eqn:Eb; monad_simpl; try done.
  destruct (Startup.prefetch_start _ _) as [[? ?]| |]; monad_simpl; [|done..].
  destruct (Startup.open_socket _ _ _); [|done]. intros [= <-] Hl Hr. cbn in *.
  pose proof (StartupTheorems.boot_limiter _ _ _ _ Eb) as Hlim. split; [done|].
  eapply inv_reachable; [done|by eapply launched|done].
Qed.

(** C4. A daemon never works with another node: from its start, however clients,
    faults, peers that write its ring and its own timers interleave, no other
    node is ever known to it and every page stays its own; it therefore pushes
    its metadata to nobody, follows no prefetch recommendation, accepts no
    invalidation and posts no operation to the transport engine; it has no
    address range registered with the fault descriptor, and the faults it fills
    and the free slots together never exceed the configured pool. *)
Theorem daemon_stays_local {E : Type} (loaded : result E Config.VirthubConfig) env fs p n0 es n :
  let cfg := Startup.app_config loaded in
  fits_machine cfg env →
  Startup.main os serialize loaded env fs = Ret (Ok p) →
  launch (Startup.config p) (Startup.daemon p) = Ret n0 → run serialize n0 es n →
  Forall local_event es ∧ local_pages (Daemon.daemon_node_id cfg) (cp n) ∧
  Handler.rma_engine (handler n) = Handler.rma_engine (handler n0) ∧
  Handler.regions (handler n) = ∅ ∧ Handler.prefetched_pages (handler n) = Some ∅ ∧
  Z.of_nat (fills_of es) + Z.of_nat (length (Staging.free_slots (Handler.staging_pool (handler n))))
    ≤ Config.staging_num_pages (Config.klnk cfg).
Proof.
  intros cfg Hfit Hm Hl Hr. destruct (reached loaded env fs p n0 es n Hfit Hm Hl Hr) as (_ & [] & He).
  split_and!; [done|apply ni_cp0|done..|].
  destruct ni_world0 as (Hn & _ & _ & gone & Hk & Hi). fold cfg in Hn.
  pose proof (StagingTheorems.pi_length _ Hi) as Hlen. cbn in Hlen. rewrite !length_app in Hlen.
  unfold handler. lia.
Qed.

(** C17. The locks of the running daemon are fair queues, at the granularity of
    single accesses: in every state, for every resource, the holder and the
    waiting processes are a queue without duplicates, and whatever step comes
    next (of a client's request, a fault, the ring, a timer), the queue stays as
    it is, or a process that is not in it joins its end by the access of its own
    acquisition, or the holder leaves it by the access of its own release and
    the process that waited longest becomes the holder. *)
Theorem daemon_locks_fair {E : Type} (loaded : result E Config.VirthubConfig) env fs p n0 es n ev n' rid :
  fits_machine (Startup.app_config loaded) env →
  Startup.main os serialize loaded env fs = Ret (Ok p) →
  launch (Startup.config p) (Startup.daemon p) = Ret n0 → run serialize n0 es n →
  action serialize n ev n' →
  NoDup (lock_queue (cp n) rid) ∧
  passes_on rid (clients n) (lock_queue (cp n) rid) (lock_queue (cp n') rid).
Proof.
  intros Hfit Hm Hl Hr Ha.
  destruct (reached loaded env fs p n0 es n Hfit Hm Hl Hr) as (Hlim & Hi & _).
  split; [apply lock_queue_NoDup; apply Hi|]. by eapply inv_action.
Qed.

End Theorems.

(** ** A run *)

#[local] Existing Instance UffdTheorems.willing_kernel.
#[local] Existing Instance UffdTheorems.dev_profile.
#[local] Existing Instance RmaTheorems.in_key_order.
#[local] Existing Instance DaemonTheorems.tagged_codec.
#[local] Existing Instance TraceTheorems.fifo_mpsc.
#[local] Existing Instance TraceTheorems.fifo_laws.

Definition example_main :=
  Startup.main StartupTheorems.tmp_os RdmaMetadataTheorems.empty_layout
    StartupTheorems.rejected DaemonTheorems.example_env StartupTheorems.tmp_only.

Lemma example_fits :
  fits_machine (Startup.app_config StartupTheorems.rejected) DaemonTheorems.example_env.
Proof.
  split; [|split; [discriminate|reflexivity]]. intros t a. cbn. unfold StagingTheorems.fixed_mmap.
  destruct (t <=? 2 ^ 64 - 65536) eqn:Et; [|discriminate]. intros [= <-]. lia.
Qed.

Lemma example_started : ∃ p n0, example_main = Ret (Ok p) ∧
  launch (Startup.config p) (Startup.daemon p) = Ret n0 ∧ alive n0 = true ∧ clients n0 = [].
Proof.
  assert (match example_main with Ret (Ok _) => true | _ => false end = true) as Hs by (vm_compute; reflexivity).
  destruct example_main as [[p|e]| |]; [|discriminate Hs..]. exists p. unfold launch.
  destruct (Config.enabled (Config.ebpf (Startup.config p))); cbn; by eexists.
Qed.

(** A client connects, then Ctrl-C. *)
Lemma example_run n0 :
  alive n0 = true →
  ∃ n, run RdmaMetadataTheorems.empty_layout n0 [Quiet; Quiet; Quiet] n ∧ alive n = false.
Proof.
  intros Ha. eexists. split.
  - apply (RunSnoc _ _ [Quiet; Quiet] (with_flags (with_clients (with_cp n0 (cp n0))
      (clients n0 ++ [(Daemon.Conn [] [] [] None, None)])) true (alive n0))).
    + apply (RunSnoc _ _ [Quiet] (with_clients (with_cp n0 (cp n0))
        (clients n0 ++ [(Daemon.Conn [] [] [] None, None)]))).
      * apply (RunSnoc _ _ [] n0); [constructor|done|].
        apply (ActSocket _ n0 (ControlThreads.Threads (cp n0) (clients n0 ++ [(Daemon.Conn [] [] [] None, None)]))).
        apply (ControlThreads.Accept (ControlThreads.Threads (cp n0) (clients n0))).
      * done.
      * apply (ActSignal _ (with_clients (with_cp n0 (cp n0)) _)).
    + done.
    + by apply ActExit.
  - done.
Qed.

Lemma daemon_stays_local_witness :
  ∃ p n0 n, example_main = Ret (Ok p) ∧ launch (Startup.config p) (Startup.daemon p) = Ret n0 ∧
    run RdmaMetadataTheorems.empty_layout n0 [Quiet; Quiet; Quiet] n ∧
    Control.remote_nodes (cp n) = ∅.
Proof.
  destruct example_started as (p & n0 & Em & El & Ha & _). destruct (example_run n0 Ha) as (n & Hr & _).
  exists p, n0, n. split; [exact Em|]. split; [exact El|]. split; [exact Hr|].
  destruct (daemon_stays_local StartupTheorems.tmp_os
    RdmaMetadataTheorems.empty_layout StartupTheorems.rejected
    DaemonTheorems.example_env StartupTheorems.tmp_only p n0 _ n example_fits Em El Hr)
    as (_ & (_ & Hrem & _) & _).
  exact Hrem.
Defined.

(** Steps of the socket are steps of the daemon. *)
Lemma socket_run n s :
  alive n = true → rtc ControlThreads.step (ControlThreads.Threads (cp n) (clients n)) s →
  ∃ es n', run RdmaMetadataTheorems.empty_layout n es n' ∧ alive n' = true ∧
    ControlThreads.Threads (cp n') (clients n') = s.
Proof.
  intros Ha Hr. refine (rtc_ind_r (λ s, ∃ es n', run RdmaMetadataTheorems.empty_layout n es n' ∧
    alive n' = true ∧ ControlThreads.Threads (cp n') (clients n') = s) _ _ _ s Hr).
  - exists [], n. split; [constructor|done].
  - intros s1 s2 _ Hst (es & n1 & Hrun & Ha1 & <-). eexists _, _.
    split; [eapply RunSnoc; [exact Hrun|done|by apply ActSocket]|]. split; [done|]. by destruct s2.
Qed.

(** A client asks for the free resource 7 as process 100, and its task is at the
    access of the lock. *)
Lemma acquiring_run c :
  ∃ c1 m cp1, rtc ControlThreads.step (ControlThreads.Threads c [])
    (ControlThreads.Threads cp1 [(c1, Some (m, ControlThreads.Acquiring 7 100))]).
Proof.
  set (bs := Transport.frame_bytes [1; 7; 100; 8]). set (m := Transport.LockAcquire 7 100 8).
  do 3 eexists.
  eapply rtc_l; [apply ControlThreads.Accept|]. cbn.
  eapply rtc_l; [by apply (ControlThreads.Arrive _ 0 (Daemon.Conn [] [] [] None) None bs)|]. cbn.
  eapply rtc_l; [by apply (ControlThreads.Receive _ 0 (Daemon.Conn bs bs [] None) m [])|]. cbn.
  eapply rtc_l; [by eapply (ControlThreads.Access _ 0 (Daemon.Conn bs [] [] None) m (ControlThreads.Start m))|]. cbn.
  apply rtc_refl.
Qed.

Lemma daemon_locks_fair_witness :
  ∃ p n0 es n ev n', example_main = Ret (Ok p) ∧
    launch (Startup.config p) (Startup.daemon p) = Ret n0 ∧
    run RdmaMetadataTheorems.empty_layout n0 es n ∧
    action RdmaMetadataTheorems.empty_layout n ev n' ∧
    passes_on 7 (clients n) (lock_queue (cp n) 7) (lock_queue (cp n') 7).
Proof.
  destruct example_started as (p & n0 & Em & El & Ha & Hcl).
  destruct (acquiring_run (cp n0)) as (c1 & m & cp1 & Hs). rewrite <- Hcl in Hs.
  destruct (socket_run n0 _ Ha Hs) as (es & n & Hr & _ & E).
  pose proof (ControlThreads.Access (ControlThreads.Threads cp1
    [(c1, Some (m, ControlThreads.Acquiring 7 100))]) 0 c1 m (ControlThreads.Acquiring 7 100)
    eq_refl eq_refl) as Hst. rewrite <- E in Hst. apply (ActSocket RdmaMetadataTheorems.empty_layout) in Hst.
  eexists p, n0, es, n, _, _. split; [exact Em|]. split; [exact El|]. split; [exact Hr|].
  split; [exact Hst|].
  exact (proj2 (daemon_locks_fair StartupTheorems.tmp_os
    RdmaMetadataTheorems.empty_layout StartupTheorems.rejected
    DaemonTheorems.example_env StartupTheorems.tmp_only p n0 es n _ _ 7 example_fits Em El Hr Hst)).
Defined.

End NodeTheorems.
