(* ===== verification/Shim.v ===== *)
(** * Length-prefixed messages: the socket fallback and the application's client

    [Socket] models [librmashim/src/socket_provider.rs], [Ipc] models
    [klnk-shim/src/{lib,ipc_client}.rs] and [LocalStaging] models
    [klnk-shim/src/staging.rs].  A stream is a list of bytes; the answers of the
    operating system and [bincode] are arguments.  The theorems give the round
    trip of the framing, the retry loop, and what happens when the client talks
    to the daemon of [Daemon]. *)

From stdpp Require Import strings.
From S2P Require Import Prelude Domain ControlPlane Config Transport Daemon.

Module Socket.

Inductive SocketProviderError :=
  | TransportFailure (msg : string)
  | BindError (addr reason : string)
  | ConnectError (peer : SocketAddr) (reason : string)
  | BufferOverflow
  | IoError (msg : string).

(** A bound listener is its local address. *)
Record SocketTransportFallback := Fallback {
  bind_addr : string;
  listener : option SocketAddr;
}.

Definition new : SocketTransportFallback := Fallback "127.0.0.1:0" None.
Definition with_address (addr : string) : SocketTransportFallback := Fallback addr None.

(** [parse] is [SocketAddr]'s parser, [tcp_bind] the system's answer: the
    address really bound. *)
Definition bind (parse : string → result string SocketAddr)
    (tcp_bind : SocketAddr → result string SocketAddr) (self : SocketTransportFallback) :
    SocketTransportFallback * result SocketProviderError () :=
  match listener self with
  | Some _ => (self, Ok tt)
  | None =>
      match parse (bind_addr self) with
      | Err e => (self, Err (BindError (bind_addr self) ("Failed to parse address: " +:+ e)))
      | Ok addr =>
          match tcp_bind addr with
          | Err e => (self, Err (BindError (bind_addr self) e))
          | Ok local => (Fallback local (Some local), Ok tt)
          end
      end
  end.

Definition bound_address (parse : string → result string SocketAddr)
    (self : SocketTransportFallback) : result SocketProviderError SocketAddr :=
  match listener self with
  | Some local => Ok local
  | None =>
      map_err (λ e, BindError (bind_addr self) ("Not bound and address invalid: " +:+ e))
        (parse (bind_addr self))
  end.

Definition connect (tcp : SocketAddr → result string ()) (peer : SocketAddr) :
    result SocketProviderError () := map_err (ConnectError peer) (tcp peer).

Definition accept (tcp : result string SocketAddr) (self : SocketTransportFallback) :
    result SocketProviderError SocketAddr :=
  match listener self with
  | None => Err (TransportFailure "Cannot accept: listener not bound")
  | Some _ => map_err (λ e, TransportFailure ("Accept failed: " +:+ e)) tcp
  end.

(** [write] is the answer to [write_all] and [flush]. *)
Definition send (write : result string ()) (stream buffer : list Z) :
    list Z * result SocketProviderError Z :=
  match buffer with
  | [] => (stream, Ok 0)
  | _ =>
      match write with
      | Err e => (stream, Err (TransportFailure e))
      | Ok _ => (stream ++ buffer, Ok (Z.of_nat (length buffer)))
      end
  end.

(** [n] bytes are available; the buffer has room for [cap]. *)
Definition recv (n cap : nat) (stream : list Z) : list Z * result SocketProviderError (list Z) :=
  let k := Nat.min (Nat.min n cap) (length stream) in (drop k stream, Ok (take k stream)).

Definition frame (payload : list Z) : list Z :=
  to_be_bytes 4 (wrap 32 (Z.of_nat (length payload))) ++ payload.

Definition send_message (write : result string ()) (stream payload : list Z) :
    list Z * result SocketProviderError () :=
  match write with
  | Err e => (stream, Err (TransportFailure e))
  | Ok _ => (stream ++ frame payload, Ok tt)
  end.

Definition recv_message (stream : list Z) : list Z * result SocketProviderError (list Z) :=
  match Transport.read_exact 4 stream with
  | None => ([], Err (TransportFailure "early eof"))
  | Some (header, stream) =>
      match Transport.read_exact (Z.to_nat (from_be_bytes header)) stream with
      | None => ([], Err (TransportFailure "early eof"))
      | Some (payload, stream) => (stream, Ok payload)
      end
  end.

End Socket.

Module Ipc.

Inductive IpcRequest :=
  | RegisterRegion (id : GlobalRegionId) (vaddr size flags : Z)
  | DeregisterRegion (id : GlobalRegionId)
  | Heartbeat.

Inductive IpcResponse :=
  | Ack (success : bool) (message : string)
  | RegionRegistered (desc : MemoryRegionDescriptor)
  | RegionDeregistered
  | Pong.

(** [bincode] at the two types. *)
Class IpcCodec := {
  ipc_error : Type;
  serialize : IpcRequest → result ipc_error (list Z);
  deserialize : list Z → result ipc_error IpcResponse;
}.

Section Client.
Context `{!IpcCodec}.

Inductive IpcError :=
  | ConnectError (path reason : string)
  | IoError (msg : string)
  | SerializationError (e : ipc_error)
  | NotConnected
  | Timeout (ms : Z)
  | DaemonError (msg : string).

(** A connected socket: the bytes written and the number of bytes read. *)
Record Stream := MkStream { sent : list Z; taken : nat }.

Record DaemonIpcClient := Client {
  socket_path : string;
  stream : option Stream;
  timeout : Z;
}.

Definition new (path : string) : DaemonIpcClient := Client path None 5000.
Definition with_timeout (self : DaemonIpcClient) (timeout : Z) : DaemonIpcClient :=
  Client (socket_path self) (stream self) timeout.

(** [os] is the answer to the connection; the standard library refuses a zero
    timeout. *)
Definition connect (os : result string ()) (self : DaemonIpcClient) :
    DaemonIpcClient * result IpcError () :=
  match os with
  | Err reason => (self, Err (ConnectError (socket_path self) reason))
  | Ok _ =>
      if timeout self =? 0 then (self, Err (IoError "cannot set a 0 duration timeout"))
      else (Client (socket_path self) (Some (MkStream [] 0)) (timeout self), Ok tt)
  end.

(** The retry loop from [attempt] on, with [remaining] iterations after this one;
    [os i] is the answer to the [i]-th attempt. *)
Fixpoint retry (os : nat → result string ()) (remaining attempt : nat) (self : DaemonIpcClient) :
    DaemonIpcClient * result IpcError () :=
  match connect (os attempt) self with
  | (self, Ok _) => (self, Ok tt)
  | (self, Err e) =>
      match remaining with
      | O => (self, Err e)
      | S remaining => retry os remaining (S attempt) self
      end
  end.

Definition connect_with_retry (os : nat → result string ()) (max_retries : nat)
    (self : DaemonIpcClient) : DaemonIpcClient * result IpcError () :=
  retry os max_retries 0 self.

Definition is_connected (self : DaemonIpcClient) : bool := bool_decide (is_Some (stream self)).
Definition disconnect (self : DaemonIpcClient) : DaemonIpcClient :=
  Client (socket_path self) None (timeout self).

(** [peer bs] is everything the other side has written once it has received
    [bs]; a read past it fails, by a timeout or the end of the stream. *)
Context (peer : list Z → list Z).

Definition read (n : nat) (st : Stream) : option (list Z * Stream) :=
  '(bs, _) ← Transport.read_exact n (drop (taken st) (peer (sent st)));
  Some (bs, MkStream (sent st) (taken st + n)).

Definition send_request (self : DaemonIpcClient) (request : IpcRequest) :
    DaemonIpcClient * result IpcError IpcResponse :=
  match stream self with
  | None => (self, Err NotConnected)
  | Some st =>
      match serialize request with
      | Err e => (self, Err (SerializationError e))
      | Ok payload =>
          let put st := Client (socket_path self) (Some st) (timeout self) in
          let st := MkStream (sent st ++ Socket.frame payload) (taken st) in
          match read 4 st with
          | None => (put st, Err (IoError "failed to fill whole buffer"))
          | Some (header, st) =>
              match read (Z.to_nat (from_be_bytes header)) st with
              | None => (put st, Err (IoError "failed to fill whole buffer"))
              | Some (resp, st) => (put st, map_err SerializationError (deserialize resp))
              end
          end
      end
  end.

Definition register_region (self : DaemonIpcClient) (id : GlobalRegionId) (vaddr size flags : Z) :
    DaemonIpcClient * result IpcError MemoryRegionDescriptor :=
  if negb (is_connected self) then (self, Err NotConnected)
  else
    let '(self, r) := send_request self (RegisterRegion id vaddr size flags) in
    (self, resp ← r;
           match resp with
           | RegionRegistered desc => Ok desc
           | Ack false message => Err (DaemonError message)
           | _ => Err (DaemonError "Unexpected response")
           end).

Definition deregister_region (self : DaemonIpcClient) (id : GlobalRegionId) :
    DaemonIpcClient * result IpcError () :=
  if negb (is_connected self) then (self, Err NotConnected)
  else
    let '(self, r) := send_request self (DeregisterRegion id) in
    (self, resp ← r;
           match resp with
           | RegionDeregistered => Ok tt
           | Ack false message => Err (DaemonError message)
           | _ => Err (DaemonError "Unexpected response")
           end).

Definition heartbeat (self : DaemonIpcClient) : DaemonIpcClient * result IpcError () :=
  if negb (is_connected self) then (self, Err NotConnected)
  else
    let '(self, r) := send_request self Heartbeat in
    (self, resp ← r;
           match resp with
           | Pong => Ok tt
           | _ => Err (DaemonError "Unexpected heartbeat response")
           end).

End Client.

(** The process-wide client of [klnk-shim/src/lib.rs]; [var] is the value of
    [VIRTHUB_CONTROL_SOCKET]. *)
Definition DAEMON_CLIENT (var : option string) : DaemonIpcClient :=
  new (default "/tmp/virthub_control.sock" var).

End Ipc.

Module LocalStaging.

Definition PAGE_SIZE : Z := 4096.
Definition HUGE_PAGE_SIZE : Z := 2 * 1024 * 1024.

Inductive StagingAllocationError :=
  | AllocationFailed (errno : Z)
  | InvalidSize.

(** The mapping is its address and its length; [touched] are the offsets
    written. *)
Record LocalStagingAllocation := Alloc {
  base : Z;
  len : Z;
  touched : list Z;
  page_size : Z;
  num_pages : Z;
}.

(** [(0..len).step_by(PAGE_SIZE)]. *)
Definition offsets (len : Z) : list Z :=
  (λ i, i * PAGE_SIZE) <$> seqZ 0 ((len + PAGE_SIZE - 1) / PAGE_SIZE).

Definition new `{BuildProfile} (mmap : Z → result Z Z) (num : Z) :
    outcome (result StagingAllocationError LocalStagingAllocation) :=
  if num =? 0 then Ret (Err InvalidSize)
  else
    total ← arith 64 (num * PAGE_SIZE);
    match mmap total with
    | Err errno => Ret (Err (AllocationFailed errno))
    | Ok addr => Ret (Ok (Alloc addr total (offsets total) PAGE_SIZE num))
    end.

Definition base_address (self : LocalStagingAllocation) : Z := base self.
Definition total_size (self : LocalStagingAllocation) : Z := len self.
Definition advise_memory (self : LocalStagingAllocation) (advice : Z) :
    result StagingAllocationError () := Ok tt.
Definition mark_sequential (self : LocalStagingAllocation) := advise_memory self 2.
Definition mark_random (self : LocalStagingAllocation) := advise_memory self 1.

End LocalStaging.

Module ShimTheorems.

(** ** The socket fallback *)
Section SocketFacts.
Import Socket.

Lemma read_exact_prefix a b : Transport.read_exact (length a) (a ++ b) = Some (a, b).
Proof.
  unfold Transport.read_exact. rewrite (proj2 (Nat.leb_le _ _)) by (rewrite length_app; lia).
  by rewrite take_app_length, drop_app_length.
Qed.

(** The two reads of a framed payload. *)
Lemma frame_reads payload rest :
  Z.of_nat (length payload) < 2 ^ 32 →
  ∃ header, Transport.read_exact 4 (frame payload ++ rest) = Some (header, payload ++ rest) ∧
    Z.to_nat (from_be_bytes header) = length payload.
Proof.
  intros Hl. unfold frame. rewrite wrap_small by lia.
  exists (to_be_bytes 4 (Z.of_nat (length payload))). split.
  - rewrite <- app_assoc.
    rewrite <- (to_be_bytes_length 4 (Z.of_nat (length payload))) at 1. apply read_exact_prefix.
  - rewrite be_bytes_roundtrip by (cbn; lia). apply Nat2Z.id.
Qed.

Lemma recv_frame payload rest :
  Z.of_nat (length payload) < 2 ^ 32 →
  recv_message (frame payload ++ rest) = (rest, Ok payload).
Proof.
  intros Hl. unfold recv_message. destruct (frame_reads payload rest Hl) as (hd & -> & ->).
  by rewrite read_exact_prefix.
Qed.

Fixpoint send_all (stream : list Z) (payloads : list (list Z)) :
    list Z * result SocketProviderError () :=
  match payloads with
  | [] => (stream, Ok tt)
  | p :: ps =>
      match send_message (Ok tt) stream p with
      | (stream, Ok _) => send_all stream ps
      | (stream, Err e) => (stream, Err e)
      end
  end.

Fixpoint recv_n (n : nat) (stream : list Z) : list Z * result SocketProviderError (list (list Z)) :=
  match n with
  | O => (stream, Ok [])
  | S n =>
      match recv_message stream with
      | (stream, Err e) => (stream, Err e)
      | (stream, Ok p) => let '(stream, r) := recv_n n stream in (stream, ps ← r; Ok (p :: ps))
      end
  end.

Lemma send_all_frames ps : ∀ stream, send_all stream ps = (stream ++ (ps ≫= frame), Ok tt).
Proof.
  induction ps as [|p ps IH]; intros stream; cbn [send_all send_message].
  - by rewrite app_nil_r.
  - rewrite IH. cbn. by rewrite <- app_assoc.
Qed.

(** Messages of any content that are shorter than 2^32 bytes survive the
    length-prefixed stream: what is sent one after the other is received as the
    same messages in the same order, and the bytes after them are untouched.  An
    empty message is a message. *)
Theorem socket_messages_roundtrip payloads rest :
  Forall (λ p, Z.of_nat (length p) < 2 ^ 32) payloads →
  ∃ bytes, send_all [] payloads = (bytes, Ok tt) ∧
    recv_n (length payloads) (bytes ++ rest) = (rest, Ok payloads).
Proof.
  intros Hl. exists (payloads ≫= frame). split; [by rewrite send_all_frames|].
  induction Hl as [|p ps Hp _ IH]; [done|]. cbn [length recv_n mbind list_bind].
  rewrite <- app_assoc, recv_frame by done. fold (ps ≫= frame). by rewrite IH.
Qed.

Lemma socket_messages_roundtrip_witness :
  ∃ bytes, send_all [] [[1; 2]; []; [3]] = (bytes, Ok tt) ∧
    recv_n 3 (bytes ++ [9]) = ([9], Ok [[1; 2]; []; [3]]).
Proof.
  apply (socket_messages_roundtrip [[1; 2]; []; [3]] [9]). repeat constructor.
Defined.

End SocketFacts.

(** ** The application's client *)
Section IpcFacts.
Import Ipc.
Context `{!IpcCodec}.

(** Whether attempt [i] connects. *)
Definition connects (os : nat → result string ()) (self : DaemonIpcClient) (i : nat) : Prop :=
  is_ok (os i) = true ∧ timeout self ≠ 0.

Lemma connect_spec os (self : DaemonIpcClient) i :
  match connect (os i) self with
  | (self', Ok _) => connects os self i ∧
      self' = Client (socket_path self) (Some (MkStream [] 0)) (timeout self)
  | (self', Err _) => ¬ connects os self i ∧ self' = self
  end.
Proof.
  unfold connect, connects. destruct (os i) as [[]|e]; cbn; [|by split; [intros []|]].
  destruct (Z.eqb_spec (timeout self) 0); [by split; [intros []|]|]. done.
Qed.

Lemma retry_spec os n : ∀ a self,
  (∃ i, (a ≤ i ≤ a + n)%nat ∧ connects os self i ∧ (∀ j, (a ≤ j < i)%nat → ¬ connects os self j) ∧
     retry os n a self
     = (Client (socket_path self) (Some (MkStream [] 0)) (timeout self), Ok tt)) ∨
  ((∀ j, (a ≤ j ≤ a + n)%nat → ¬ connects os self j) ∧ ∃ e, retry os n a self = (self, Err e)).
Proof.
  induction n as [|n IH]; intros a self; cbn [retry]; pose proof (connect_spec os self a) as Hc;
    destruct (connect (os a) self) as [self' [[]|e]]; destruct Hc as [Hc ->].
  1, 3: left; exists a; split_and!; [lia|lia|done..|intros; lia|done].
  - right. split; [|eauto]. intros j Hj. by replace j with a by lia.
  - destruct (IH (S a) self) as [(i & Hi & Hci & Hb & E)|[Hb E]].
    + left. exists i. split_and!; [lia|lia|done..| |done]. intros j Hj.
      destruct (decide (j = a)) as [->|]; [done|]. apply Hb. lia.
    + right. split; [|done]. intros j Hj.
      destruct (decide (j = a)) as [->|]; [done|]. apply Hb. lia.
Qed.

(** The retry loop ends after at most [max_retries + 1] attempts, never
    reaches the code marked unreachable, and returns a connected client exactly
    when one of those attempts connects; the first that does is used, and a
    client whose attempts all fail is left as it was. *)
Theorem connect_with_retry_bounded os max self :
  (∃ i, (i ≤ max)%nat ∧ connects os self i ∧ (∀ j, (j < i)%nat → ¬ connects os self j) ∧
     ∃ self', connect_with_retry os max self = (self', Ok tt) ∧ is_connected self' = true ∧
       socket_path self' = socket_path self ∧ timeout self' = timeout self) ∨
  ((∀ j, (j ≤ max)%nat → ¬ connects os self j) ∧
     ∃ e, connect_with_retry os max self = (self, Err e)).
Proof.
  unfold connect_with_retry. destruct (retry_spec os max 0 self) as [(i & Hi & Hc & Hb & E)|[Hb E]].
  - left. exists i. split_and!; [lia|done|intros j Hj; apply Hb; lia|].
    rewrite E. by eexists.
  - right. split; [|done]. intros j Hj. apply Hb. lia.
Qed.

(** A request to a peer that answers with one framed response. *)
Lemma request_answered peer (self : DaemonIpcClient) st request payload resp rest :
  stream self = Some st → serialize request = Ok payload → Z.of_nat (length resp) < 2 ^ 32 →
  drop (taken st) (peer (sent st ++ Socket.frame payload)) = Socket.frame resp ++ rest →
  send_request peer self request
  = (Client (socket_path self) (Some (MkStream (sent st ++ Socket.frame payload)
       (taken st + 4 + length resp))) (timeout self),
     map_err SerializationError (deserialize resp)).
Proof.
  intros Hs Hp Hl Hd. unfold send_request. rewrite Hs, Hp. unfold read at 1. cbn [sent taken].
  destruct (frame_reads resp rest Hl) as (hd & E & En). rewrite Hd, E. cbn [mbind option_bind].
  unfold read. cbn [sent taken]. rewrite En.
  assert (drop (taken st + 4) (peer (sent st ++ Socket.frame payload)) = resp ++ rest) as ->.
  { rewrite <- drop_drop, Hd. revert E. unfold Transport.read_exact. case_match; [|done].
    intros Eq. by injection Eq. }
  by rewrite read_exact_prefix.
Qed.

(** ** Against the daemon of the same repository *)

(** The daemon's side of a connection: what [handle_client] has written after
    the bytes received so far. *)
Definition daemon_peer `{BuildProfile} `{!Transport.Bincode} (cp : Control.ControlPlaneManager)
    (bs : list Z) : list Z :=
  match Daemon.handle_client (S (length bs)) [] cp bs [] with
  | Ret (_, out, _) => out
  | _ => []
  end.

(** The big-endian length of a short payload starts with a zero byte. *)
Lemma be4_small z : 0 ≤ z < 2 ^ 24 → ∃ b c d, to_be_bytes 4 z = [0; b; c; d].
Proof.
  intros Hz. exists (wrap 8 (Z.shiftr (Z.shiftr z 8) 8)), (wrap 8 (Z.shiftr z 8)), (wrap 8 z).
  unfold to_be_bytes, reverse. cbn -[wrap Z.shiftr]. f_equal.
  rewrite !Z.shiftr_shiftr by lia. replace (Z.shiftr z (8 + (8 + 8))) with 0; [done|].
  rewrite Z.shiftr_div_pow2 by lia. symmetry. apply Z.div_small. lia.
Qed.

Lemma daemon_rejects_frame `{BuildProfile} `{!Transport.Bincode} cp payload fuel :
  2 ≤ Z.of_nat (length payload) < 2 ^ 24 →
  Daemon.handle_client (S fuel) [] cp (Socket.frame payload) []
  = Ret (cp, [], Err (Transport.UnsupportedVersion 0)).
Proof.
  intros Hl. unfold Socket.frame. rewrite wrap_small by lia.
  destruct (be4_small (Z.of_nat (length payload))) as (b & c & d & ->); [lia|].
  destruct payload as [|x [|y payload]]; [cbn in Hl; lia..|]. done.
Qed.

Lemma send_to_daemon `{BuildProfile} `{!Transport.Bincode} cp (self : DaemonIpcClient) r bs :
  stream self = Some (MkStream [] 0) → serialize r = Ok bs →
  2 ≤ Z.of_nat (length bs) < 2 ^ 24 →
  (send_request (daemon_peer cp) self r).2 = Err (IoError "failed to fill whole buffer").
Proof.
  intros Hs Hr Hl. unfold send_request. rewrite Hs, Hr. unfold read, daemon_peer. cbn [sent app].
  by rewrite daemon_rejects_frame.
Qed.

(** C37. The application's client cannot talk to the daemon: its requests have no
    version byte, so the daemon reads the first byte of their length as version
    0, refuses, executes nothing, writes nothing and ends the connection;
    registering, deregistering and the heartbeat all fail with an I/O error on a
    freshly connected client, whatever the state of the daemon. *)
Theorem shim_daemon_incompatible `{BuildProfile} `{!Transport.Bincode} cp (self : DaemonIpcClient)
    id vaddr size flags :
  stream self = Some (MkStream [] 0) →
  (∀ r, ∃ bs, serialize r = Ok bs ∧ 2 ≤ Z.of_nat (length bs) < 2 ^ 24) →
  let peer := daemon_peer cp in
  let broken {A} (r : result IpcError A) := ∃ msg, r = Err (IoError msg) in
  (∀ r bs, serialize r = Ok bs →
     Daemon.handle_client (S (length (Socket.frame bs))) [] cp (Socket.frame bs) []
     = Ret (cp, [], Err (Transport.UnsupportedVersion 0))) ∧
  broken (register_region peer self id vaddr size flags).2 ∧
  broken (deregister_region peer self id).2 ∧
  broken (heartbeat peer self).2.
Proof.
  intros Hs Hb peer broken.
  assert (Hall : ∀ r, ∃ self', send_request peer self r
                      = (self', Err (IoError "failed to fill whole buffer"))).
  { intros r. destruct (Hb r) as (bs & Hr & Hl). pose proof (send_to_daemon cp self r bs Hs Hr Hl).
    destruct (send_request peer self r) as [self' x] eqn:E. exists self'. f_equal.
    unfold peer in E. by rewrite E in *. }
  assert (is_connected self = true) as Hc by (unfold is_connected; by rewrite Hs).
  split_and!.
  - intros r bs Hr. destruct (Hb r) as (bs' & Hr' & Hl). rewrite Hr in Hr'. injection Hr' as <-.
    by apply daemon_rejects_frame.
  - unfold register_region. rewrite Hc. cbn [negb].
    destruct (Hall (RegisterRegion id vaddr size flags)) as [self' ->]. by eexists.
  - unfold deregister_region. rewrite Hc. cbn [negb].
    destruct (Hall (DeregisterRegion id)) as [self' ->]. by eexists.
  - unfold heartbeat. rewrite Hc. cbn [negb]. destruct (Hall Heartbeat) as [self' ->]. by eexists.
Qed.

End IpcFacts.

(** Without the variable the process-wide client looks for the socket that a
    daemon on its defaults opens. *)
Lemma default_client_meets_daemon :
  Ipc.socket_path (Ipc.DAEMON_CLIENT None) = Config.control_socket (Config.general Config.default) ∧
  Ipc.is_connected (Ipc.DAEMON_CLIENT None) = false.
Proof. done. Qed.

(** A codec of the documented shape: a four-byte tag, then the fields. *)
#[local] Instance tag_codec : Ipc.IpcCodec := {|
  Ipc.ipc_error := unit;
  Ipc.serialize r := Ok (to_le_bytes 4
    match r with Ipc.RegisterRegion _ _ _ _ => 0 | Ipc.DeregisterRegion _ => 1 | Ipc.Heartbeat => 2 end);
  Ipc.deserialize _ := Ok Ipc.Pong;
|}.
#[local] Existing Instance DaemonTheorems.tagged_codec.
#[local] Instance dev : BuildProfile := Dev.

Lemma shim_daemon_incompatible_witness :
  let self := Ipc.Client "/tmp/virthub_control.sock" (Some (Ipc.MkStream [] 0)) 5000 in
  ∃ msg, (Ipc.heartbeat (daemon_peer (Control.new 1)) self).2 = Err (Ipc.IoError msg).
Proof.
  intros self.
  destruct (shim_daemon_incompatible (Control.new 1) self (RegionId 1 2) 4096 4096 0)
    as (_ & _ & _ & Hh).
  - reflexivity.
  - intros r. eexists. split; [reflexivity|]. rewrite to_le_bytes_length. split; [discriminate|reflexivity].
  - exact Hh.
Defined.

(** ** The application's staging memory *)

(** Every page of the mapping is touched exactly once, inside the mapping. *)
Lemma all_pages_touched `{BuildProfile} mmap num a :
  0 < num → num * 4096 < 2 ^ 64 →
  LocalStaging.new mmap num = Ret (Ok a) →
  LocalStaging.len a = num * 4096 ∧ NoDup (LocalStaging.touched a) ∧
  ∀ o, o ∈ LocalStaging.touched a ↔ 0 ≤ o < LocalStaging.len a ∧ o mod 4096 = 0.
Proof.
  intros Hn Hf. unfold LocalStaging.new. rewrite (proj2 (Z.eqb_neq num 0)) by lia.
  unfold LocalStaging.PAGE_SIZE. rewrite arith_ret by lia. monad_simpl.
  destruct (mmap (num * 4096)); [|done]. intros [= <-]. cbn [LocalStaging.len LocalStaging.touched].
  unfold LocalStaging.offsets, LocalStaging.PAGE_SIZE.
  replace ((num * 4096 + 4096 - 1) / 4096) with num.
  2: { symmetry. replace (num * 4096 + 4096 - 1) with (4095 + num * 4096) by lia.
       rewrite Z.div_add by lia. done. }
  split; [done|]. split.
  - apply NoDup_fmap_2; [|apply NoDup_seqZ]. intros x y. lia.
  - intros o. rewrite list_elem_of_fmap. setoid_rewrite elem_of_seqZ. split.
    + intros (i & -> & Hi). rewrite Z.mod_mul by lia. lia.
    + intros [Ho Hm]. exists (o / 4096). pose proof (Z.div_mod o 4096). lia.
Qed.

End ShimTheorems.
