(* ===== verification/Connectors.v ===== *)
(** * The inference-engine connectors

    [Vllm], [Sglang] and [LmCache] model the three crates under
    [src/connectors]: each owns a transport engine ([Rma]) and maps its own keys
    (block numbers, prefix hashes, chunk keys) to registered regions, precision
    policies and sidecars.  What the three share is [Core].  [HashMap] iteration
    is [IterOrder].  The theorems follow sequences of calls on the vLLM
    connector and the chunk store of the LMCache connector. *)

From stdpp Require Import strings.
From S2P Require Import Prelude Precision KvBlock TierManager Config Rma.

Module Core.

Section Core.
Context {K : Type} `{Countable K}.

Record Core := MkCore {
  config : Config.VirthubConfig;
  rma_engine : Engine.RmaTransportEngine;
  registered : gmap K Engine.RegisteredRegion;
  policies : gmap K Policy.PackedBlockPolicy;
  sidecars : gmap K PspKv.PspKvSidecarDescriptor;
}.

(** [new]: the address [0.0.0.0:port] of a 16-bit port always parses;
    [detected] is the device the transport finds. *)
Definition new (cfg : Config.VirthubConfig) (detected : option string) : Core :=
  MkCore cfg
    (Engine.auto_detect (Some (Config.device_name (Config.rdma (Config.transport cfg)))) detected)
    ∅ ∅ ∅.

Definition set_rma (self : Core) (rma : Engine.RmaTransportEngine) : Core :=
  MkCore (config self) rma (registered self) (policies self) (sidecars self).
Definition set_registered (self : Core) (m : gmap K Engine.RegisteredRegion) : Core :=
  MkCore (config self) (rma_engine self) m (policies self) (sidecars self).
Definition forget_metadata (self : Core) (k : K) : Core :=
  MkCore (config self) (rma_engine self) (registered self) (delete k (policies self))
    (delete k (sidecars self)).

Definition gpu_opt (self : Core) (gpu_device_id : Z) : option Z :=
  if Config.enable_gdr (Config.rdma (Config.transport (config self)))
  then Some gpu_device_id else None.

Context `{!IterOrder Engine.RegisteredRegion}.

(** Registration of a keyed region with its optional metadata. *)
Definition put (self : Core) (k : K) (vaddr len gpu : Z) (policy : option Policy.PackedBlockPolicy)
    (sidecar : option PspKv.PspKvSidecarDescriptor) :
    Core * result Engine.RmaError Engine.RegisteredRegion :=
  let '(rma, r) := Engine.register_memory_region (rma_engine self) vaddr len (gpu_opt self gpu) in
  let self := set_rma self rma in
  match r with
  | Err e => (self, Err e)
  | Ok region =>
      (MkCore (config self) (rma_engine self) (<[k := region]> (registered self))
         (match policy with Some p => <[k := p]> (policies self) | None => policies self end)
         (match sidecar with Some d => <[k := d]> (sidecars self) | None => sidecars self end),
       Ok region)
  end.

(** A region without a key. *)
Definition put_untracked (self : Core) (vaddr len gpu : Z) :
    Core * result Engine.RmaError Engine.RegisteredRegion :=
  let '(rma, r) := Engine.register_memory_region (rma_engine self) vaddr len (gpu_opt self gpu) in
  (set_rma self rma, r).

(** The entry leaves the map before the transport is asked. *)
Definition take (self : Core) (k : K) (region : Engine.RegisteredRegion) :
    Core * result Engine.RmaError () :=
  let self := set_registered self (delete k (registered self)) in
  let '(rma, r) := Engine.deregister_memory_region (rma_engine self) (Engine.rkey region) in
  let self := set_rma self rma in
  match r with
  | Err e => (self, Err e)
  | Ok _ => (forget_metadata self k, Ok tt)
  end.

Definition read (self : Core) (peer : SocketAddr) (remote_vaddr rkey local_vaddr len : Z) :
    Core * result Engine.RmaError () :=
  let '(rma, r) := Engine.rdma_read (rma_engine self) peer remote_vaddr rkey local_vaddr len in
  (set_rma self rma, r).

End Core.
Arguments Core K {_ _}.
End Core.

Module Vllm.
Import Core.

Inductive VllmConnectorError :=
  | ConfigError (msg : string)
  | RmaEngineFailed (e : Engine.RmaError)
  | TransportFailed (msg : string)
  | BlockNotFound (block_id : Z)
  | RkeyNotFound (rkey : Z)
  | IoError (msg : string).

Record VllmBlockMeta := BlockMeta {
  block_id : Z;
  vaddr : Z;
  size_bytes : Z;
  gpu_device_id : Z;
  rkey : Z;
  lkey : Z;
  precision_policy : option Policy.PackedBlockPolicy;
  sidecar : option PspKv.PspKvSidecarDescriptor;
}.

(** [registered_blocks], [block_policies] and [block_sidecars] by block number. *)
Definition VirthubVllmConnector : Type := Core Z.

Definition new (cfg : Config.VirthubConfig) (detected : option string) :
    result VllmConnectorError VirthubVllmConnector := Ok (Core.new cfg detected).
Definition from_config (cfg : Config.VirthubConfig) (detected : option string) := new cfg detected.

Section Vllm.
Context `{!IterOrder Engine.RegisteredRegion}.

Definition register_kv_block_with_policy (self : VirthubVllmConnector) (id va size gpu : Z)
    (policy : option Policy.PackedBlockPolicy) (side : option PspKv.PspKvSidecarDescriptor) :
    VirthubVllmConnector * result VllmConnectorError VllmBlockMeta :=
  let '(self, r) := put self id va size gpu policy side in
  (self, region ← map_err RmaEngineFailed r;
         Ok (BlockMeta id (Engine.vaddr region) (Engine.length_ region) gpu
               (Engine.rkey region) (Engine.lkey region) policy side)).

Definition register_kv_block (self : VirthubVllmConnector) (id va size gpu : Z) :=
  register_kv_block_with_policy self id va size gpu None None.

Definition unregister_kv_block (self : VirthubVllmConnector) (id : Z) :
    VirthubVllmConnector * result VllmConnectorError () :=
  match registered self !! id with
  | Some region => let '(self, r) := take self id region in (self, map_err RmaEngineFailed r)
  | None => (self, Err (BlockNotFound id))
  end.

Definition deregister_memory_region (self : VirthubVllmConnector) (k : Z) :
    VirthubVllmConnector * result VllmConnectorError () :=
  match List.find (λ '(_, region), Engine.rkey region =? k) (iter_order (registered self)) with
  | Some (id, region) => let '(self, r) := take self id region in (self, map_err RmaEngineFailed r)
  | None => (self, Err (RkeyNotFound k))
  end.

(** The loop over the drained entries; an error leaves the others registered
    with the transport. *)
Fixpoint deregister_all (rma : Engine.RmaTransportEngine)
    (regions : list (Z * Engine.RegisteredRegion)) :
    Engine.RmaTransportEngine * result Engine.RmaError () :=
  match regions with
  | [] => (rma, Ok tt)
  | (_, region) :: regions =>
      let '(rma, r) := Engine.deregister_memory_region rma (Engine.rkey region) in
      match r with
      | Err e => (rma, Err e)
      | Ok _ => deregister_all rma regions
      end
  end.

Definition close (self : VirthubVllmConnector) :
    VirthubVllmConnector * result VllmConnectorError () :=
  let '(rma, r) := deregister_all (rma_engine self) (iter_order (registered self)) in
  let self := set_registered (set_rma self rma) ∅ in
  match r with
  | Err e => (self, Err (RmaEngineFailed e))
  | Ok _ => (MkCore (config self) (rma_engine self) ∅ ∅ ∅, Ok tt)
  end.

Definition swap_in_remote_block (self : VirthubVllmConnector) (peer : SocketAddr)
    (remote_vaddr remote_rkey local_vaddr size : Z) :
    VirthubVllmConnector * result VllmConnectorError () :=
  let '(self, r) := read self peer remote_vaddr remote_rkey local_vaddr size in
  (self, map_err RmaEngineFailed r).

Definition registered_block_count (self : VirthubVllmConnector) : Z :=
  Z.of_nat (size (registered self)).
Definition local_node_id (self : VirthubVllmConnector) : Z :=
  Config.parsed_node_id (config self).
Definition get_block_policy (self : VirthubVllmConnector) (id : Z) := policies self !! id.
Definition get_block_sidecar (self : VirthubVllmConnector) (id : Z) := sidecars self !! id.

Definition register_kv_cache (self : VirthubVllmConnector) (va size gpu : Z) :
    VirthubVllmConnector * result VllmConnectorError Engine.RegisteredRegion :=
  let '(self, r) := put_untracked self va size gpu in (self, map_err RmaEngineFailed r).

Definition fetch_remote_kv_block := swap_in_remote_block.

End Vllm.
End Vllm.

Module Sglang.
Import Core.

Inductive SglangConnectorError :=
  | ConfigError (msg : string)
  | RmaEngineFailed (e : Engine.RmaError)
  | TransportFailed (msg : string)
  | PrefixNotFound (prefix_hash : Z)
  | IoError (msg : string).

Record SglangPrefixMeta := PrefixMeta {
  prefix_hash : Z;
  token_count : Z;
  vaddr : Z;
  size_bytes : Z;
  gpu_device_id : Z;
  rkey : Z;
  lkey : Z;
  precision_policy : option Policy.PackedBlockPolicy;
  sidecar : option PspKv.PspKvSidecarDescriptor;
}.

(** [registered_prefixes], [prefix_policies], [prefix_sidecars] by prefix hash. *)
Definition VirthubSglangConnector : Type := Core Z.

Definition new (cfg : Config.VirthubConfig) (detected : option string) :
    result SglangConnectorError VirthubSglangConnector := Ok (Core.new cfg detected).
Definition from_config (cfg : Config.VirthubConfig) (detected : option string) := new cfg detected.

Section Sglang.
Context `{!IterOrder Engine.RegisteredRegion}.

Definition register_prefix_node_with_policy (self : VirthubSglangConnector)
    (hash tokens va size gpu : Z) (policy : option Policy.PackedBlockPolicy)
    (side : option PspKv.PspKvSidecarDescriptor) :
    VirthubSglangConnector * result SglangConnectorError SglangPrefixMeta :=
  let '(self, r) := put self hash va size gpu policy side in
  (self, region ← map_err RmaEngineFailed r;
         Ok (PrefixMeta hash tokens (Engine.vaddr region) (Engine.length_ region) gpu
               (Engine.rkey region) (Engine.lkey region) policy side)).

Definition register_prefix_node (self : VirthubSglangConnector) (hash tokens va size gpu : Z) :=
  register_prefix_node_with_policy self hash tokens va size gpu None None.

Definition fetch_remote_prefix (self : VirthubSglangConnector) (peer : SocketAddr)
    (remote_vaddr remote_rkey local_vaddr size : Z) :
    VirthubSglangConnector * result SglangConnectorError () :=
  let '(self, r) := read self peer remote_vaddr remote_rkey local_vaddr size in
  (self, map_err RmaEngineFailed r).

Definition unregister_prefix (self : VirthubSglangConnector) (hash : Z) :
    VirthubSglangConnector * result SglangConnectorError () :=
  match registered self !! hash with
  | Some region => let '(self, r) := take self hash region in (self, map_err RmaEngineFailed r)
  | None => (self, Err (PrefixNotFound hash))
  end.

Definition registered_prefix_count (self : VirthubSglangConnector) : Z :=
  Z.of_nat (size (registered self)).
Definition local_node_id (self : VirthubSglangConnector) : Z :=
  Config.parsed_node_id (config self).
Definition get_prefix_policy (self : VirthubSglangConnector) (hash : Z) := policies self !! hash.
Definition get_prefix_sidecar (self : VirthubSglangConnector) (hash : Z) := sidecars self !! hash.

Definition register_kv_cache (self : VirthubSglangConnector) (va size gpu : Z) :
    VirthubSglangConnector * result SglangConnectorError Engine.RegisteredRegion :=
  let '(self, r) := put_untracked self va size gpu in (self, map_err RmaEngineFailed r).

Definition fetch_remote_kv_block := fetch_remote_prefix.

End Sglang.
End Sglang.

Module LmCache.
Import Core.

Inductive LmCacheConnectorError :=
  | ConfigError (msg : string)
  | RmaEngineFailed (e : Engine.RmaError)
  | TransportFailed (msg : string)
  | ChunkNotFound (key : KvBlockKey)
  | IoError (msg : string)
  | SerializationError (msg : string).

Record LmCacheChunkMeta := ChunkMeta {
  key : KvBlockKey;
  tier : Tier.StorageTier;
  vaddr : Z;
  size_bytes : Z;
  gpu_device_id : Z;
  rkey : Z;
  lkey : Z;
  precision_policy : option Policy.PackedBlockPolicy;
  sidecar : option PspKv.PspKvSidecarDescriptor;
}.

(** [registered_chunks], [chunk_policies] and [chunk_sidecars] by chunk key, and
    the payloads. *)
Record VirthubLmCacheConnector := LmCacheConnector {
  core : Core KvBlockKey;
  local_store : gmap KvBlockKey (list Z);
}.

Definition new (cfg : Config.VirthubConfig) (detected : option string) :
    result LmCacheConnectorError VirthubLmCacheConnector :=
  Ok (LmCacheConnector (Core.new cfg detected) ∅).
Definition from_config (cfg : Config.VirthubConfig) (detected : option string) := new cfg detected.

Section LmCache.
Context `{!IterOrder Engine.RegisteredRegion}.

Definition put_chunk_with_policy (self : VirthubLmCacheConnector) (k : KvBlockKey)
    (t : Tier.StorageTier) (gpu : Z) (payload : list Z) (va len : Z)
    (policy : option Policy.PackedBlockPolicy) (side : option PspKv.PspKvSidecarDescriptor) :
    VirthubLmCacheConnector * result LmCacheConnectorError LmCacheChunkMeta :=
  let store := <[k := payload]> (local_store self) in
  let '(c, r) := put (core self) k va len gpu policy side in
  (LmCacheConnector c store,
   region ← map_err RmaEngineFailed r;
   Ok (ChunkMeta k t (Engine.vaddr region) (Engine.length_ region) gpu
         (Engine.rkey region) (Engine.lkey region) policy side)).

Definition put_chunk (self : VirthubLmCacheConnector) (k : KvBlockKey) (t : Tier.StorageTier)
    (gpu : Z) (payload : list Z) (va len : Z) :=
  put_chunk_with_policy self k t gpu payload va len None None.

Definition get_chunk (self : VirthubLmCacheConnector) (k : KvBlockKey) :
    result LmCacheConnectorError (list Z) := ok_or (local_store self !! k) (ChunkNotFound k).

Definition remove_chunk (self : VirthubLmCacheConnector) (k : KvBlockKey) :
    VirthubLmCacheConnector * result LmCacheConnectorError () :=
  let store := delete k (local_store self) in
  match registered (core self) !! k with
  | Some region =>
      let '(c, r) := take (core self) k region in
      (LmCacheConnector c store, map_err RmaEngineFailed r)
  | None => (LmCacheConnector (forget_metadata (core self) k) store, Ok tt)
  end.

Definition fetch_remote_chunk (self : VirthubLmCacheConnector) (k : KvBlockKey)
    (peer : SocketAddr) (remote_vaddr remote_rkey local_vaddr size : Z) :
    VirthubLmCacheConnector * result LmCacheConnectorError () :=
  let '(c, r) := read (core self) peer remote_vaddr remote_rkey local_vaddr size in
  (LmCacheConnector c (local_store self), map_err RmaEngineFailed r).

Definition registered_chunk_count (self : VirthubLmCacheConnector) : Z :=
  Z.of_nat (size (registered (core self))).
Definition local_node_id (self : VirthubLmCacheConnector) : Z :=
  Config.parsed_node_id (config (core self)).
Definition get_chunk_policy (self : VirthubLmCacheConnector) (k : KvBlockKey) :=
  policies (core self) !! k.
Definition get_chunk_sidecar (self : VirthubLmCacheConnector) (k : KvBlockKey) :=
  sidecars (core self) !! k.

Definition register_kv_cache (self : VirthubLmCacheConnector) (va size gpu : Z) :
    VirthubLmCacheConnector * result LmCacheConnectorError Engine.RegisteredRegion :=
  let '(c, r) := put_untracked (core self) va size gpu in
  (LmCacheConnector c (local_store self), map_err RmaEngineFailed r).

Definition fetch_remote_kv_block (self : VirthubLmCacheConnector) (peer : SocketAddr)
    (remote_vaddr remote_rkey local_vaddr size : Z) :
    VirthubLmCacheConnector * result LmCacheConnectorError () :=
  let '(c, r) := read (core self) peer remote_vaddr remote_rkey local_vaddr size in
  (LmCacheConnector c (local_store self), map_err RmaEngineFailed r).

End LmCache.
End LmCache.

Module ConnectorFacts.
Import Core RmaTheorems.

Section Engine.
Context `{!IterOrder Engine.RegisteredRegion} `{!IterOrderLaws Engine.RegisteredRegion}.

(** No live registration has this range. *)
Definition fresh_range (e : Engine.RmaTransportEngine) (va len : Z) : Prop :=
  map_Forall (λ _ g, ¬ (Engine.vaddr g = va ∧ Engine.length_ g = len))
    (Engine.registered_regions e).

(** A range that is not registered gets a key that is not in use, and the
    other registrations stay. *)
Lemma register_fresh n e va len gpu :
  engine_ok n e → va ≠ 0 → len ≠ 0 → n + 1 < 2 ^ 32 → fresh_range e va len →
  ∃ e' g, Engine.register_memory_region e va len gpu = (e', Ok g) ∧ engine_ok (n + 1) e' ∧
    Engine.vaddr g = va ∧ Engine.length_ g = len ∧
    Engine.registered_regions e !! Engine.rkey g = None ∧
    Engine.registered_regions e' = <[Engine.rkey g := g]> (Engine.registered_regions e).
Proof.
  intros He Hva Hlen Hn Hf. pose proof He as (p & Hp & Hk & Hb).
  destruct (rma_register_spec n e va len gpu He Hva Hlen Hn) as (e' & g & E & He' & Hv & Hl & _).
  exists e', g. split_and!; [done|done|done|done|..]; revert E; unfold Engine.register_memory_region;
    rewrite (proj2 (Z.eqb_neq va 0)), (proj2 (Z.eqb_neq len 0)) by done; cbn [orb];
    (destruct (List.find _ _) as [g'|] eqn:Hfind;
      [apply find_same_region in Hfind as (k & Hg & ? & ? & _); by destruct (Hf k g' Hg)|]);
    rewrite Hp; unfold Provider.register_region, MrRegistry.get_by_vaddr_size;
    (destruct (MrRegistry.vaddr_index (Provider.mr_registry p) !! (va, len)) as [k|] eqn:Hix;
      [destruct (ko_index _ _ Hk _ _ _ Hix) as (r & Hr & Hrv & Hrs);
       destruct (ko_region _ _ Hk k r Hr) as (_ & _ & _ & _ & [x Hx]);
       destruct (ko_engine _ _ Hk k x Hx) as (_ & r' & Hr' & ? & ?);
       exfalso; apply (Hf k x Hx); split; congruence|]);
    unfold MrRegistry.register; cbn;
    rewrite (proj2 (Z.eqb_neq va 0)), (proj2 (Z.eqb_neq len 0)) by done; cbn [orb];
    rewrite decide_False by (intros [r Hr]; destruct (ko_region _ _ Hk _ r Hr)
      as (_ & _ & ? & _); lia); cbn; intros [= <- <-]; cbn; [|done].
  destruct (Engine.registered_regions e !! Provider.next_qp_num p) as [x|] eqn:Hx; [|done].
  destruct (ko_engine _ _ Hk _ x Hx) as (_ & r & Hr & _).
  destruct (ko_region _ _ Hk _ r Hr) as (_ & _ & ? & _). lia.
Qed.

Lemma rdma_read_spec n e peer rv rk lv len :
  engine_ok n e → n + 1 < 2 ^ 32 →
  ∃ e', Engine.rdma_read e peer rv rk lv len = (e', Ok tt) ∧ engine_ok (n + 1) e' ∧
    Engine.registered_regions e' = Engine.registered_regions e.
Proof.
  intros (p & Hp & Hk & Hb) Hn. unfold Engine.rdma_read, Provider.post_read. rewrite Hp.
  destruct (provider_post_keys _ p peer tt Hk) as (p' & -> & Hk' & Hb'); [lia|].
  eexists. split; [done|]. split; [|done]. exists p'. split_and!; [done|done|lia].
Qed.

End Engine.

Section Core.
Context {K : Type} `{Countable K}.
Context `{!IterOrder Engine.RegisteredRegion} `{!IterOrderLaws Engine.RegisteredRegion}.

(** Every entry is live in the transport, entries have distinct keys, and
    metadata belongs to an entry. *)
Record core_inv (n : Z) (c : Core K) : Prop := {
  ci_engine : engine_ok n (rma_engine c);
  ci_live k g : registered c !! k = Some g →
    Engine.registered_regions (rma_engine c) !! Engine.rkey g = Some g;
  ci_inj k k' g g' : registered c !! k = Some g → registered c !! k' = Some g' →
    Engine.rkey g = Engine.rkey g' → k = k';
  ci_policies : dom (policies c) ⊆ dom (registered c);
  ci_sidecars : dom (sidecars c) ⊆ dom (registered c);
}.

Lemma core_new_inv cfg detected : core_inv 1 (Core.new cfg detected).
Proof.
  split; cbn; try done; [|set_solver..].
  exists Provider.new. split_and!; [done|apply keys_ok_initial|done].
Qed.

Lemma put_inv n c k va len gpu policy side :
  core_inv n c → n + 1 < 2 ^ 32 → va ≠ 0 → len ≠ 0 → fresh_range (rma_engine c) va len →
  ∃ c' g, put c k va len gpu policy side = (c', Ok g) ∧ core_inv (n + 1) c' ∧
    Engine.vaddr g = va ∧ Engine.length_ g = len ∧
    registered c' = <[k := g]> (registered c) ∧
    Engine.registered_regions (rma_engine c) !! Engine.rkey g = None ∧
    Engine.registered_regions (rma_engine c')
      = <[Engine.rkey g := g]> (Engine.registered_regions (rma_engine c)).
Proof.
  intros [I1 I2 I3 I4 I5] Hn Hva Hlen Hf. unfold put.
  destruct (register_fresh n _ va len (gpu_opt c gpu) I1 Hva Hlen Hn Hf)
    as (e' & g & -> & He' & Hv & Hl & Hnone & Hreg).
  do 2 eexists. split; [done|]. split; [|done].
  assert (Hnew : ∀ k' g', registered c !! k' = Some g' → Engine.rkey g' ≠ Engine.rkey g).
  { intros k' g' Hg' E. apply I2 in Hg'. rewrite E in Hg'. congruence. }
  split; cbn; [done| | | |].
  - intros k' g' Hg'. rewrite Hreg. apply lookup_insert_Some in Hg' as [[-> ->]|[Hne Hg']].
    + by rewrite lookup_insert_eq.
    + rewrite lookup_insert_ne by (intros E; by apply (Hnew k' g' Hg')). by apply (I2 k').
  - intros k1 k2 g1 g2 [[-> ->]|[Hn1 Hg1]]%lookup_insert_Some [[-> ->]|[Hn2 Hg2]]%lookup_insert_Some E;
      [done|by destruct (Hnew _ _ Hg2)|by destruct (Hnew _ _ Hg1)|by eapply I3].
  - destruct policy; rewrite ?dom_insert_L; set_solver.
  - destruct side; rewrite ?dom_insert_L; set_solver.
Qed.

Lemma take_inv n c k g :
  core_inv n c → registered c !! k = Some g →
  ∃ c', take c k g = (c', Ok tt) ∧ core_inv n c' ∧ registered c' = delete k (registered c) ∧
    Engine.registered_regions (rma_engine c')
      = delete (Engine.rkey g) (Engine.registered_regions (rma_engine c)).
Proof.
  intros [I1 I2 I3 I4 I5] Hg. unfold take. cbn [rma_engine set_registered].
  destruct (rma_deregister_spec n _ (Engine.rkey g) I1) as (e' & r & -> & He' & Hreg & Hr).
  rewrite (proj2 Hr) by eauto. eexists. split; [done|]. split; [|done].
  split; cbn; [done| | | |].
  - intros k' g' [Hne Hg']%lookup_delete_Some. rewrite Hreg.
    rewrite lookup_delete_ne by (intros E; by apply Hne, (I3 _ _ _ _ Hg Hg')). by apply (I2 k').
  - intros k1 k2 g1 g2 [_ H1]%lookup_delete_Some [_ H2]%lookup_delete_Some. eauto.
  - rewrite !dom_delete_L. set_solver.
  - rewrite !dom_delete_L. set_solver.
Qed.

Lemma read_inv n c peer rv rk lv len :
  core_inv n c → n + 1 < 2 ^ 32 →
  ∃ c', read c peer rv rk lv len = (c', Ok tt) ∧ core_inv (n + 1) c' ∧
    registered c' = registered c ∧
    Engine.registered_regions (rma_engine c') = Engine.registered_regions (rma_engine c).
Proof.
  intros [I1 I2 I3 I4 I5] Hn. unfold read.
  destruct (rdma_read_spec n _ peer rv rk lv len I1 Hn) as (e' & -> & He' & Hreg).
  eexists. split; [done|]. split; [|done]. split; cbn; [done| |done..].
  intros k g Hg. rewrite Hreg. by apply (I2 k).
Qed.

Lemma untracked_inv n c va len gpu :
  core_inv n c → n + 1 < 2 ^ 32 → va ≠ 0 → len ≠ 0 → fresh_range (rma_engine c) va len →
  ∃ c' g, put_untracked c va len gpu = (c', Ok g) ∧ core_inv (n + 1) c' ∧
    registered c' = registered c.
Proof.
  intros [I1 I2 I3 I4 I5] Hn Hva Hlen Hf. unfold put_untracked.
  destruct (register_fresh n _ va len (gpu_opt c gpu) I1 Hva Hlen Hn Hf)
    as (e' & g & -> & He' & Hv & Hl & Hnone & Hreg).
  do 2 eexists. split; [done|]. split; [|done]. split; cbn; [done| |done..].
  intros k g' Hg. apply I2 in Hg. rewrite Hreg, lookup_insert_ne; [done|].
  intros E. rewrite <- E in Hg. congruence.
Qed.

End Core.
End ConnectorFacts.

Module ConnectorTheorems.
Import Core RmaTheorems ConnectorFacts.

Section Vllm.
Import Vllm.
Context `{!IterOrder Engine.RegisteredRegion} `{!IterOrderLaws Engine.RegisteredRegion}.

(** A call on the connector, where a registered range is not in use yet. *)
Inductive vllm_step (c : VirthubVllmConnector) : VirthubVllmConnector → Prop :=
  | StepRegister id va len gpu policy side :
      fresh_range (rma_engine c) va len →
      vllm_step c (register_kv_block_with_policy c id va len gpu policy side).1
  | StepUnregister id : vllm_step c (unregister_kv_block c id).1
  | StepDeregister k : vllm_step c (deregister_memory_region c k).1
  | StepSwapIn peer rv rk lv len : vllm_step c (swap_in_remote_block c peer rv rk lv len).1
  | StepCache va len gpu :
      fresh_range (rma_engine c) va len → vllm_step c (register_kv_cache c va len gpu).1.

Lemma core_inv_weaken n (c : Core Z) : core_inv n c → core_inv (n + 1) c.
Proof.
  intros [(p & Hp & Hk & Hb) I2 I3 I4 I5]. split; [|done..]. exists p. split_and!; [done|done|lia].
Qed.

(** A refused registration changes nothing. *)
Lemma refused_registration e va len gpu :
  va = 0 ∨ len = 0 →
  Engine.register_memory_region e va len gpu = (e, Err (Engine.MemoryRegistrationFailed va len)).
Proof.
  intros Hz. unfold Engine.register_memory_region.
  by replace ((va =? 0) || (len =? 0)) with true by lia.
Qed.

Lemma found_block (c : VirthubVllmConnector) k id g :
  List.find (λ '(_, region), Engine.rkey region =? k) (iter_order (registered c)) = Some (id, g) →
  registered c !! id = Some g ∧ Engine.rkey g = k.
Proof.
  intros [Hin Hk]%List.find_some. apply list_elem_of_In, elem_of_iter_order in Hin.
  split; [done|lia].
Qed.

Lemma vllm_step_inv n c c' :
  core_inv n c → n + 1 < 2 ^ 32 → vllm_step c c' → core_inv (n + 1) c'.
Proof.
  intros Hi Hn Hs. pose proof (core_inv_weaken n c Hi) as Hw.
  destruct Hs as [id va len gpu policy side Hf|id|k|peer rv rk lv len|va len gpu Hf].
  - unfold register_kv_block_with_policy. destruct (decide (va = 0 ∨ len = 0)) as [Hz|Hz].
    + unfold put. rewrite (refused_registration _ _ _ _ Hz). by destruct c.
    + destruct (put_inv n c id va len gpu policy side Hi Hn) as (c' & g & -> & Hi' & _);
        [tauto|tauto|done|done].
  - unfold unregister_kv_block. destruct (registered c !! id) as [g|] eqn:E; [|done].
    by destruct (take_inv (n + 1) c id g Hw E) as (c' & -> & Hi' & _).
  - unfold deregister_memory_region. destruct (List.find _ _) as [[id g]|] eqn:E; [|done].
    apply found_block in E as [E _].
    by destruct (take_inv (n + 1) c id g Hw E) as (c' & -> & Hi' & _).
  - unfold swap_in_remote_block.
    by destruct (read_inv n c peer rv rk lv len Hi Hn) as (c' & -> & Hi' & _).
  - unfold register_kv_cache. destruct (decide (va = 0 ∨ len = 0)) as [Hz|Hz].
    + unfold put_untracked. rewrite (refused_registration _ _ _ _ Hz). by destruct c.
    + destruct (untracked_inv n c va len gpu Hi Hn) as (c' & g & -> & Hi' & _);
        [tauto|tauto|done|done].
Qed.

(** Deregistering live regions with distinct keys. *)
Lemma deregister_all_spec l : ∀ n e,
  engine_ok n e → NoDup (Engine.rkey ∘ snd <$> l) →
  Forall (λ x, is_Some (Engine.registered_regions e !! Engine.rkey x.2)) l →
  ∃ e', deregister_all e l = (e', Ok tt) ∧ engine_ok n e' ∧
    ∀ k, Engine.registered_regions e' !! k =
         if decide (k ∈ Engine.rkey ∘ snd <$> l) then None else Engine.registered_regions e !! k.
Proof.
  induction l as [|[id g] l IH]; intros n e He Hnd Hl; cbn [deregister_all].
  - exists e. split_and!; [done|done|]. intros k. by rewrite decide_False by apply not_elem_of_nil.
  - cbn in Hnd. apply NoDup_cons in Hnd as [Hni Hnd]. apply Forall_cons in Hl as [Hg Hl].
    destruct (rma_deregister_spec n e (Engine.rkey g) He) as (e1 & r & -> & He1 & Hreg & Hr).
    rewrite (proj2 Hr Hg).
    destruct (IH n e1 He1 Hnd) as (e2 & -> & He2 & Hk).
    { apply Forall_forall. intros x Hx. rewrite Forall_forall in Hl. rewrite Hreg.
      rewrite lookup_delete_ne; [by apply Hl|]. intros E. apply Hni. rewrite E.
      by apply (list_elem_of_fmap_2 (Engine.rkey ∘ snd)). }
    exists e2. split_and!; [done|done|]. intros k. rewrite Hk, Hreg. cbn.
    destruct (decide (k = Engine.rkey g)) as [->|Hne].
    + rewrite (decide_True (P := _ ∈ _ :: _)) by left. rewrite lookup_delete_eq. by case_decide.
    + rewrite lookup_delete_ne by done.
      destruct (decide (k ∈ Engine.rkey ∘ snd <$> l)) as [Hin|Hin].
      * by rewrite decide_True by (by right).
      * rewrite decide_False; [done|]. by intros [|]%elem_of_cons.
Qed.

Lemma vllm_reach_inv k : ∀ n c c',
  core_inv n c → n + Z.of_nat k < 2 ^ 32 → nsteps vllm_step k c c' →
  core_inv (n + Z.of_nat k) c'.
Proof.
  induction k as [|k IH]; intros n c c' Hi Hn Hs; inversion Hs as [|? ? c1 ? Hs1 Hs2]; subst.
  - by rewrite Z.add_0_r.
  - replace (n + Z.of_nat (S k)) with (n + 1 + Z.of_nat k) by lia.
    eapply IH; [|lia|exact Hs2]. eapply vllm_step_inv; [done|lia|done].
Qed.

(** The entries in iteration order have distinct live keys. *)
Lemma entries_distinct n (c : VirthubVllmConnector) :
  core_inv n c →
  NoDup (Engine.rkey ∘ snd <$> iter_order (registered c)) ∧
  Forall (λ x, is_Some (Engine.registered_regions (rma_engine c) !! Engine.rkey x.2))
    (iter_order (registered c)).
Proof.
  intros [I1 I2 I3 _ _]. split.
  - apply NoDup_fmap_2_strong.
    + intros [id g] [id' g'] Hx Hy E. apply elem_of_iter_order in Hx, Hy. cbn in E.
      pose proof (I3 _ _ _ _ Hx Hy E) as ->. congruence.
    + rewrite iter_order_perm. apply NoDup_map_to_list.
  - apply Forall_forall. intros [id g] Hx. apply elem_of_iter_order in Hx.
    eexists. by apply (I2 id).
Qed.

Lemma close_spec n c :
  core_inv n c →
  ∃ c', close c = (c', Ok tt) ∧ registered c' = ∅ ∧ policies c' = ∅ ∧ sidecars c' = ∅ ∧
    (∀ id g, registered c !! id = Some g →
       Engine.registered_regions (rma_engine c') !! Engine.rkey g = None) ∧
    (∀ rk, (∀ id g, registered c !! id = Some g → Engine.rkey g ≠ rk) →
       Engine.registered_regions (rma_engine c') !! rk
       = Engine.registered_regions (rma_engine c) !! rk).
Proof.
  intros Hi. destruct (entries_distinct n c Hi) as [Hnd Hl]. unfold close.
  destruct (deregister_all_spec _ n _ (ci_engine _ _ Hi) Hnd Hl) as (e' & -> & _ & Hk).
  eexists. split_and!; [done..| |]; cbn.
  - intros id g Hg. rewrite Hk, decide_True; [done|].
    apply (list_elem_of_fmap_2 (Engine.rkey ∘ snd) _ (id, g)). by apply elem_of_iter_order.
  - intros rk Hrk. rewrite Hk, decide_False; [done|].
    intros ([id g] & -> & Hx)%list_elem_of_fmap. apply elem_of_iter_order in Hx.
    by apply (Hrk id g Hx).
Qed.

(** C15. Blocks stay live until they are given back: after any sequence of calls
    on a new connector (fewer than 2^32 - 1, each registering a range that is not
    registered already), every recorded block is a live registration of the
    transport, two blocks have different keys, and policies and sidecars belong
    to recorded blocks; closing then succeeds, forgets every block, releases
    their registrations and no others. *)
Theorem vllm_blocks_live cfg detected k c :
  1 + Z.of_nat k < 2 ^ 32 → nsteps vllm_step k (Core.new cfg detected) c →
  (∀ id g, registered c !! id = Some g →
     Engine.registered_regions (rma_engine c) !! Engine.rkey g = Some g) ∧
  (∀ id id' g g', registered c !! id = Some g → registered c !! id' = Some g' →
     Engine.rkey g = Engine.rkey g' → id = id') ∧
  dom (policies c) ⊆ dom (registered c) ∧ dom (sidecars c) ⊆ dom (registered c) ∧
  ∃ c', close c = (c', Ok tt) ∧ registered c' = ∅ ∧ policies c' = ∅ ∧ sidecars c' = ∅ ∧
    (∀ id g, registered c !! id = Some g →
       Engine.registered_regions (rma_engine c') !! Engine.rkey g = None) ∧
    (∀ rk, (∀ id g, registered c !! id = Some g → Engine.rkey g ≠ rk) →
       Engine.registered_regions (rma_engine c') !! rk
       = Engine.registered_regions (rma_engine c) !! rk).
Proof.
  intros Hn Hs. pose proof (vllm_reach_inv k 1 _ _ (core_new_inv cfg detected) Hn Hs) as Hi.
  pose proof (close_spec _ c Hi) as Hc. by destruct Hi.
Qed.

End Vllm.

Section LmCache.
Import LmCache.
Context `{!IterOrder Engine.RegisteredRegion} `{!IterOrderLaws Engine.RegisteredRegion}.

(** The life of a chunk: storing a chunk whose memory is not registered yet
    succeeds and registers exactly that range under a new key, reading it gives
    the payload back, removing it succeeds, releases the registration and makes
    the chunk unknown; all other chunks and registrations are as before. *)
Lemma lmcache_chunk_lifecycle n (c : VirthubLmCacheConnector) k t gpu payload va len policy side :
  core_inv n (core c) → n + 1 < 2 ^ 32 → va ≠ 0 → len ≠ 0 →
  fresh_range (rma_engine (core c)) va len → registered (core c) !! k = None →
  ∃ c1 meta c2,
    put_chunk_with_policy c k t gpu payload va len policy side = (c1, Ok meta) ∧
    vaddr meta = va ∧ size_bytes meta = len ∧
    Engine.registered_regions (rma_engine (core c)) !! rkey meta = None ∧
    is_Some (Engine.registered_regions (rma_engine (core c1)) !! rkey meta) ∧
    get_chunk c1 k = Ok payload ∧ (∀ k', k' ≠ k → get_chunk c1 k' = get_chunk c k') ∧
    remove_chunk c1 k = (c2, Ok tt) ∧ core_inv (n + 1) (core c2) ∧
    get_chunk c2 k = Err (ChunkNotFound k) ∧ (∀ k', k' ≠ k → get_chunk c2 k' = get_chunk c k') ∧
    registered (core c2) = registered (core c) ∧
    Engine.registered_regions (rma_engine (core c2))
      = Engine.registered_regions (rma_engine (core c)).
Proof.
  intros Hi Hn Hva Hlen Hf Hnone. unfold put_chunk_with_policy, get_chunk.
  destruct (put_inv n (core c) k va len gpu policy side Hi Hn Hva Hlen Hf)
    as (cc & g & -> & Hi1 & Hv & Hl & Hreg & Hng & Her).
  assert (Hk : registered cc !! k = Some g) by (rewrite Hreg; apply lookup_insert_eq).
  destruct (take_inv (n + 1) cc k g Hi1 Hk) as (cc2 & Et & Hi2 & Hreg2 & Her2).
  do 3 eexists. split; [done|]. cbn -[Engine.registered_regions].
  split_and!; [done|done|done| | | |unfold remove_chunk; cbn; rewrite Hk, Et; done|done| | | |].
  - rewrite Her, lookup_insert_eq. by eexists.
  - by rewrite lookup_insert_eq.
  - intros k' Hk'. by rewrite lookup_insert_ne.
  - cbn. by rewrite lookup_delete_eq.
  - intros k' Hk'. cbn. by rewrite lookup_delete_ne, lookup_insert_ne by done.
  - cbn. by rewrite Hreg2, Hreg, delete_insert_id.
  - cbn. by rewrite Her2, Her, delete_insert_id.
Qed.

(** A chunk whose registration is refused keeps its payload: [put_chunk] reports
    an error and [get_chunk] then returns the new bytes. *)
Lemma failed_put_keeps_payload (c : VirthubLmCacheConnector) k t gpu payload len policy side :
  let '(c1, r) := put_chunk_with_policy c k t gpu payload 0 len policy side in
  is_ok r = false ∧ get_chunk c1 k = Ok payload ∧
  registered (core c1) = registered (core c).
Proof.
  unfold put_chunk_with_policy, put. rewrite refused_registration by (by left).
  unfold get_chunk. cbn. by rewrite lookup_insert_eq.
Qed.

End LmCache.
(** ** Examples *)

#[local] Existing Instance in_key_order.
#[local] Existing Instance in_key_order_laws.

Definition vllm0 : Core Z := Core.new Config.default None.
Definition vllm1 : Core Z := (Vllm.register_kv_block vllm0 7 4096 4096 0).1.

Lemma vllm_blocks_live_witness :
  (∃ g, registered vllm1 !! 7 = Some g ∧
     Engine.registered_regions (rma_engine vllm1) !! Engine.rkey g = Some g) ∧
  ∃ c', Vllm.close vllm1 = (c', Ok tt) ∧ registered c' = ∅.
Proof.
  destruct (vllm_blocks_live Config.default None 1 vllm1)
    as (Hl & _ & _ & _ & c' & Hc & Hr & _).
  - reflexivity.
  - apply nsteps_once. apply (StepRegister vllm0 7 4096 4096 0 None None).
    apply map_Forall_empty.
  - split; [|exists c'; split; [exact Hc|exact Hr]].
    exists (Engine.Reg 1 1 4096 4096 None). split; [reflexivity|]. apply (Hl 7). reflexivity.
Defined.

(** Two blocks on one buffer share a registration: giving back the first breaks
    the second, and closing fails. *)
Definition shared : Core Z := (Vllm.register_kv_block vllm1 8 4096 4096 0).1.

Lemma shared_buffer_breaks :
  let c := (Vllm.unregister_kv_block shared 7).1 in
  registered c !! 8 = Some (Engine.Reg 1 1 4096 4096 None) ∧
  Engine.registered_regions (rma_engine c) !! 1 = None ∧
  is_ok (Vllm.close shared).2 = false.
Proof. vm_compute. done. Qed.

(** Registering a block again under another range leaves the first range
    registered: closing does not release it. *)
Lemma reregistered_range_leaks :
  let c := (Vllm.register_kv_block vllm1 7 8192 4096 0).1 in
  let '(c', r) := Vllm.close c in
  r = Ok tt ∧ is_Some (Engine.registered_regions (rma_engine c') !! 1).
Proof. vm_compute. by eauto. Qed.

End ConnectorTheorems.
