(* ===== verification/DsmApi.v ===== *)
(** * The DSM interface and its KLNK backend

    [DsmBackend] is the trait of [src/api/src/lib.rs], as a class;
    [KlnkDsm] models its implementation in [klnk-dsm-api/src/lib.rs] over the
    control plane and the transport engine.  Memory is a function from addresses
    to bytes; [copy_nonoverlapping] on overlapping ranges (undefined behaviour)
    is [Panic].  The crate is not a member of the workspace, and its pattern
    [if let Some((src_vaddr, src_size)) = map.get(..)] on a map guard is read as
    the pair behind the guard.  [BlockStore] is what the trait promises its
    clients for registered blocks; the theorem is that the backend keeps it. *)

From stdpp Require Import strings pretty.
From S2P Require Import Prelude Domain ControlPlane Rma.

Definition BlockMetadata : Type := list Z.
Abbreviation DsmRegionId := Z (only parsing).
Definition memory : Type := Z → Z.

(** A message: a text, or the text of another error, represented by it. *)
Inductive text :=
  | Text (s : string)
  | ControlText (e : Control.ControlPlaneError)
  | RmaText (e : Engine.RmaError).

Inductive DsmError :=
  | RegionAlreadyExists (id : DsmRegionId)
  | RegionNotFound (id : DsmRegionId)
  | FetchFailed (id : DsmRegionId) (reason : text)
  | UpdateFailed (id : DsmRegionId) (reason : text)
  | IoError (msg : string)
  | Internal (msg : text).

Definition size_mismatch (expected got : Z) : text :=
  Text ("size mismatch: expected " +:+ pretty expected +:+ ", got " +:+ pretty got).

Record BlockData := { payload : list Z; block_metadata : BlockMetadata }.

(** The trait; every method may change the backend and the memory. *)
Class DsmBackend (S : Type) := {
  register_block : S → memory → DsmRegionId → Z → Z → BlockMetadata →
    outcome (S * memory * result DsmError ());
  fetch_block : S → memory → DsmRegionId → SocketAddr → Z → Z →
    outcome (S * memory * result DsmError BlockData);
  update_metadata : S → memory → DsmRegionId → BlockMetadata →
    outcome (S * memory * result DsmError ());
}.

Module KlnkDsm.

(** The high half is the process, the low half the segment. *)
Definition region_id_to_global (id : DsmRegionId) : GlobalRegionId :=
  RegionId (wrap 32 (Z.shiftr id 32)) (to_signed 32 (Z.land id 0xFFFFFFFF)).

Record RemoteBlockInfo := RemoteBlock {
  peer_addr : SocketAddr;
  remote_vaddr : Z;
  remote_rkey : Z;
  remote_size : Z;
  remote_metadata : BlockMetadata;
}.

Record KlnkDsmBackend := Backend {
  control_plane : Control.ControlPlaneManager;
  rma_engine : Engine.RmaTransportEngine;
  local_blocks : gmap DsmRegionId (Z * Z);
  remote_blocks : gmap DsmRegionId RemoteBlockInfo;
}.

Definition new cp rma : KlnkDsmBackend := Backend cp rma ∅ ∅.

Definition register_remote_block_info (self : KlnkDsmBackend) (id : DsmRegionId)
    (peer : SocketAddr) (va rkey size : Z) (md : BlockMetadata) : KlnkDsmBackend :=
  Backend (control_plane self) (rma_engine self) (local_blocks self)
    (<[id := RemoteBlock peer va rkey size md]> (remote_blocks self)).

(** [READ | WRITE]. *)
Definition block_descriptor (id : DsmRegionId) (vaddr size : Z) : MemoryRegionDescriptor := {|
  region_id := region_id_to_global id;
  main_vaddr := vaddr;
  region_size := size;
  staging_vaddr := 0;
  staging_num_pages := 1;
  staging_page_size := Z.max size 4096;
  prot_flags := Z.lor 1 2;
  mem_flags := 0;
  region_version := 0;
|}.

(** The bytes of a range, and the memory after a copy. *)
Definition bytes_at (mem : memory) (addr size : Z) : list Z :=
  (λ i, mem (addr + i)) <$> seqZ 0 size.

Definition overlap (a b size : Z) : bool := (a <? b + size) && (b <? a + size).

Definition copied (mem : memory) (src dst size : Z) : memory := λ a,
  if (dst <=? a) && (a <? dst + size) then mem (src + (a - dst)) else mem a.

Definition copy_nonoverlapping (mem : memory) (src dst size : Z) : outcome memory :=
  if (0 <? size) && overlap src dst size then Panic else Ret (copied mem src dst size).

Section Backend.
Context `{BuildProfile}.

Definition klnk_register_block (self : KlnkDsmBackend) (mem : memory) (id : DsmRegionId)
    (vaddr size : Z) (md : BlockMetadata) :
    outcome (KlnkDsmBackend * memory * result DsmError ()) :=
  '(r, cp) ← Control.register_region_with_metadata (control_plane self)
               (block_descriptor id vaddr size) md;
  match r with
  | Err e => Ret (Backend cp (rma_engine self) (local_blocks self) (remote_blocks self), mem,
                  Err (Internal (ControlText e)))
  | Ok _ => Ret (Backend cp (rma_engine self) (<[id := (vaddr, size)]> (local_blocks self))
                   (remote_blocks self), mem, Ok tt)
  end.

Definition klnk_fetch_block (self : KlnkDsmBackend) (mem : memory) (id : DsmRegionId)
    (peer : SocketAddr) (local_vaddr size : Z) :
    outcome (KlnkDsmBackend * memory * result DsmError BlockData) :=
  match local_blocks self !! id with
  | Some (src_vaddr, src_size) =>
      if negb (src_size =? size) then Ret (self, mem, Err (Internal (size_mismatch size src_size)))
      else
        mem ← copy_nonoverlapping mem src_vaddr local_vaddr size;
        let md := default [] (Control.get_page_metadata (control_plane self) src_vaddr) in
        Ret (self, mem, Ok {| payload := bytes_at mem local_vaddr size; block_metadata := md |})
  | None =>
      match remote_blocks self !! id with
      | None => Ret (self, mem, Err (FetchFailed id (Text "remote block info not registered")))
      | Some info =>
          if negb (remote_size info =? size)
          then Ret (self, mem, Err (FetchFailed id (size_mismatch size (remote_size info))))
          else
            let '(rma, r) := Engine.rdma_read (rma_engine self) (peer_addr info)
                               (remote_vaddr info) (remote_rkey info) local_vaddr size in
            let self := Backend (control_plane self) rma (local_blocks self)
                          (remote_blocks self) in
            match r with
            | Err e => Ret (self, mem, Err (FetchFailed id (RmaText e)))
            | Ok _ => Ret (self, mem, Ok {| payload := bytes_at mem local_vaddr size;
                                            block_metadata := remote_metadata info |})
            end
      end
  end.

Definition klnk_update_metadata (self : KlnkDsmBackend) (mem : memory) (id : DsmRegionId)
    (md : BlockMetadata) : outcome (KlnkDsmBackend * memory * result DsmError ()) :=
  match local_blocks self !! id with
  | None => Ret (self, mem, Err (RegionNotFound id))
  | Some (vaddr, _) =>
      let '(_, cp) := Control.set_page_metadata (control_plane self) vaddr md in
      Ret (Backend cp (rma_engine self) (local_blocks self) (remote_blocks self), mem, Ok tt)
  end.

#[export] Instance klnk_backend : DsmBackend KlnkDsmBackend := {|
  register_block := klnk_register_block;
  fetch_block := klnk_fetch_block;
  update_metadata := klnk_update_metadata;
|}.

End Backend.
End KlnkDsm.

(** ** What the trait promises

    Registered blocks by identifier: where they are and their metadata. *)
Module BlockStore.

Record block := Block { addr : Z; size : Z; meta : BlockMetadata }.

(** A range that fits the address space with one more unit above it. *)
Definition block_ok (b : block) : Prop :=
  0 ≤ addr b ∧ 0 < size b ∧ addr b + size b + Z.max (size b) 4096 ≤ 2 ^ 64.

Class DsmBackendLaws (S : Type) `{DsmBackend S} := {
  (** [represents s m]: the backend knows exactly the blocks of [m]. *)
  represents : S → gmap DsmRegionId block → Prop;
  register_law s m mem id b :
    represents s m → m !! id = None → 0 ≤ id < 2 ^ 64 → block_ok b →
    map_Forall (λ _ b', addr b' ≠ addr b) m →
    ∃ s', register_block s mem id (addr b) (size b) (meta b) = Ret (s', mem, Ok tt) ∧
          represents s' (<[id := b]> m);
  register_again_law s m mem id b v sz md :
    represents s m → m !! id = Some b →
    ∃ s' e, register_block s mem id v sz md = Ret (s', mem, Err e) ∧ represents s' m;
  update_law s m mem id b md :
    represents s m → m !! id = Some b →
    ∃ s', update_metadata s mem id md = Ret (s', mem, Ok tt) ∧
          represents s' (<[id := Block (addr b) (size b) md]> m);
  update_unknown_law s m mem id md :
    represents s m → m !! id = None →
    update_metadata s mem id md = Ret (s, mem, Err (RegionNotFound id));
  fetch_law s m mem id b peer dst :
    represents s m → m !! id = Some b →
    (dst + size b ≤ addr b ∨ addr b + size b ≤ dst) →
    fetch_block s mem id peer dst (size b)
    = Ret (s, KlnkDsm.copied mem (addr b) dst (size b),
           Ok {| payload := KlnkDsm.bytes_at mem (addr b) (size b); block_metadata := meta b |});
  fetch_wrong_size_law s m mem id b peer dst sz :
    represents s m → m !! id = Some b → sz ≠ size b →
    ∃ e, fetch_block s mem id peer dst sz = Ret (s, mem, Err e);
}.

End BlockStore.

Module DsmTheorems.
Import KlnkDsm BlockStore.

(** Identifiers and their global form correspond one to one. *)
Lemma region_id_inj id id' :
  0 ≤ id < 2 ^ 64 → 0 ≤ id' < 2 ^ 64 →
  region_id_to_global id = region_id_to_global id' → id = id'.
Proof.
  assert (Hp : ∀ z, 0 ≤ z < 2 ^ 64 → region_id_to_global z =
    RegionId (z / 2 ^ 32) (if z mod 2 ^ 32 <? 2 ^ 31 then z mod 2 ^ 32 else z mod 2 ^ 32 - 2 ^ 32)).
  { intros z Hz. unfold region_id_to_global, to_signed.
    change 0xFFFFFFFF with (2 ^ 32 - 1). rewrite land_mask by lia.
    rewrite Z.shiftr_div_pow2 by lia. unfold wrap. rewrite Z.mod_mod by lia.
    rewrite (Z.mod_small (z / 2 ^ 32)); [done|].
    split; [apply Z.div_pos; lia|apply Z.div_lt_upper_bound; lia]. }
  intros Hi Hi' E. rewrite (Hp id Hi), (Hp id' Hi') in E. injection E as Ed Em.
  rewrite (Z.div_mod id (2 ^ 32)), (Z.div_mod id' (2 ^ 32)) by lia. rewrite Ed.
  pose proof (Z.mod_pos_bound id (2 ^ 32) ltac:(lia)).
  pose proof (Z.mod_pos_bound id' (2 ^ 32) ltac:(lia)).
  destruct (Z.ltb_spec (id mod 2 ^ 32) (2 ^ 31)), (Z.ltb_spec (id' mod 2 ^ 32) (2 ^ 31)); lia.
Qed.

(** A block has one page entry, at its address. *)
Lemma block_pages id b :
  block_ok b → ControlFacts.region_ok (block_descriptor id (addr b) (size b)) ∧
  ControlFacts.pages_of (block_descriptor id (addr b) (size b)) = [addr b].
Proof.
  intros (Ha & Hs & Ht). unfold ControlFacts.region_ok, ControlFacts.pages_of, Control.unit_size.
  cbn -[Z.pow]. replace (Z.max (Z.max (size b) 4096) 4096) with (Z.max (size b) 4096) by lia.
  split; [lia|]. rewrite range_count_S, range_count_done by lia. by rewrite range_addrs_S.
Qed.

(** ** Copies *)

Lemma bytes_at_ext m m' a a' n :
  (∀ i, 0 ≤ i < n → m (a + i) = m' (a' + i)) → bytes_at m a n = bytes_at m' a' n.
Proof.
  intros Hm. unfold bytes_at. apply list_fmap_ext. intros j i Hi.
  apply list_elem_of_lookup_2, elem_of_seqZ in Hi. apply Hm. lia.
Qed.

Lemma copied_bytes m src dst n : bytes_at (copied m src dst n) dst n = bytes_at m src n.
Proof.
  apply bytes_at_ext. intros i Hi. unfold copied.
  replace ((dst <=? dst + i) && (dst + i <? dst + n)) with true by lia. f_equal. lia.
Qed.

Lemma copy_spec m src dst n :
  dst + n ≤ src ∨ src + n ≤ dst → copy_nonoverlapping m src dst n = Ret (copied m src dst n).
Proof.
  intros Hd. unfold copy_nonoverlapping, overlap.
  by replace ((0 <? n) && ((src <? dst + n) && (dst <? src + n))) with false by lia.
Qed.

(** ** The backend against the block store *)

Record klnk_represents (s : KlnkDsmBackend) (m : gmap DsmRegionId block) : Prop := {
  kr_blocks id : local_blocks s !! id = (λ b, (addr b, size b)) <$> m !! id;
  kr_meta id b : m !! id = Some b → 0 ≤ id < 2 ^ 64 ∧
    Control.get_page_metadata (control_plane s) (addr b) = Some (meta b);
  kr_regions gid : is_Some (Control.regions (control_plane s) !! gid) ↔
    ∃ id, is_Some (m !! id) ∧ gid = region_id_to_global id;
  kr_addr id id' b b' : m !! id = Some b → m !! id' = Some b' → addr b = addr b' → id = id';
}.

Section Laws.
Context `{BuildProfile}.

Lemma klnk_register s m mem id b :
  klnk_represents s m → m !! id = None → 0 ≤ id < 2 ^ 64 → block_ok b →
  map_Forall (λ _ b', addr b' ≠ addr b) m →
  ∃ s', klnk_register_block s mem id (addr b) (size b) (meta b) = Ret (s', mem, Ok tt) ∧
        klnk_represents s' (<[id := b]> m).
Proof.
  intros [R1 R2 R3 R4] Hn Hid Hb Hfresh. destruct (block_pages id b Hb) as [Hok Hpg].
  assert (Hreg : Control.regions (control_plane s) !! region_id_to_global id = None).
  { destruct (Control.regions (control_plane s) !! region_id_to_global id) eqn:E; [|done].
    destruct (proj1 (R3 _) (mk_is_Some _ _ E)) as (id' & [b' Hb'] & Eg).
    assert (id = id') as <- by (apply region_id_inj; [done|by apply (R2 id' b')|done]).
    by rewrite Hn in Hb'. }
  unfold klnk_register_block.
  destruct (ControlFacts.register_spec (control_plane s) _ (meta b) Hok Hreg) as (pages & -> & Hp).
  monad_simpl. eexists. split; [done|]. split; cbn.
  - intros i. destruct (decide (i = id)) as [->|Hne].
    + by rewrite !lookup_insert_eq.
    + rewrite !lookup_insert_ne by done. apply R1.
  - intros i c [[-> ->]|[Hne Hc]]%lookup_insert_Some.
    + split; [done|]. unfold Control.get_page_metadata. cbn. rewrite Hp, Hpg.
      by rewrite bool_decide_eq_true_2 by left.
    + destruct (R2 i c Hc) as [Hi Hm]. split; [done|].
      unfold Control.get_page_metadata in *. cbn. rewrite Hp, Hpg.
      rewrite bool_decide_eq_false_2; [done|]. intros ?%list_elem_of_singleton.
      by apply (Hfresh i c Hc).
  - intros gid. rewrite lookup_insert_is_Some', R3. split.
    + intros [<-|(i & Hi & ->)]; [exists id|exists i]; (split; [|done]);
        apply lookup_insert_is_Some'; auto.
    + intros (i & Hi & ->). apply lookup_insert_is_Some' in Hi as [<-|Hi]; [by left|right]. eauto.
  - intros i j c d [[-> ->]|[Hn1 Hc]]%lookup_insert_Some [[-> ->]|[Hn2 Hd]]%lookup_insert_Some E;
      [done|by destruct (Hfresh _ _ Hd)|by destruct (Hfresh _ _ Hc)|by eapply R4].
Qed.

Lemma klnk_register_again s m mem id b v sz md :
  klnk_represents s m → m !! id = Some b →
  ∃ s' e, klnk_register_block s mem id v sz md = Ret (s', mem, Err e) ∧ klnk_represents s' m.
Proof.
  intros [R1 R2 R3 R4] Hb. unfold klnk_register_block, Control.register_region_with_metadata.
  rewrite bool_decide_eq_true_2.
  - monad_simpl. do 2 eexists. split; [done|]. by destruct s.
  - apply R3. exists id. split; [by eexists|done].
Qed.

Lemma klnk_update s m mem id b md :
  klnk_represents s m → m !! id = Some b →
  ∃ s', klnk_update_metadata s mem id md = Ret (s', mem, Ok tt) ∧
        klnk_represents s' (<[id := Block (addr b) (size b) md]> m).
Proof.
  intros [R1 R2 R3 R4] Hb. unfold klnk_update_metadata. rewrite R1, Hb. cbn.
  destruct (R2 id b Hb) as [Hid Hm]. unfold Control.get_page_metadata in Hm.
  unfold Control.set_page_metadata, Control.alter_entry.
  destruct (Control.page_states (control_plane s) !! addr b) as [e|] eqn:He; [|done].
  eexists. split; [done|]. split; cbn.
  - intros i. rewrite R1. destruct (decide (i = id)) as [->|Hne].
    + by rewrite lookup_insert_eq, Hb.
    + by rewrite lookup_insert_ne.
  - intros i c [[<- <-]|[Hne Hc]]%lookup_insert_Some; unfold Control.get_page_metadata; cbn.
    + by rewrite lookup_insert_eq.
    + destruct (R2 i c Hc) as [Hi Hmc]. split; [done|].
      rewrite lookup_insert_ne; [done|]. intros E. by apply Hne, (R4 _ _ _ _ Hb Hc).
  - intros gid. rewrite R3. f_equiv. intros i. destruct (decide (i = id)) as [->|Hne].
    + rewrite lookup_insert_eq, Hb. split; intros [_ ?]; split; done || by eexists.
    + by rewrite lookup_insert_ne.
  - intros i j c d [[<- <-]|[Hn1 Hc]]%lookup_insert_Some [[<- <-]|[Hn2 Hd]]%lookup_insert_Some E;
      [done|by eapply (R4 _ _ b d)|by eapply (R4 _ _ c b)|by eapply R4].
Qed.

Lemma klnk_fetch s m mem id b peer dst :
  klnk_represents s m → m !! id = Some b →
  (dst + size b ≤ addr b ∨ addr b + size b ≤ dst) →
  klnk_fetch_block s mem id peer dst (size b)
  = Ret (s, copied mem (addr b) dst (size b),
         Ok {| payload := bytes_at mem (addr b) (size b); block_metadata := meta b |}).
Proof.
  intros [R1 R2 R3 R4] Hb Hd. unfold klnk_fetch_block. rewrite R1, Hb. cbn [fmap option_fmap option_map].
  rewrite Z.eqb_refl. cbn [negb]. rewrite copy_spec by done. monad_simpl.
  destruct (R2 id b Hb) as [_ ->]. by rewrite copied_bytes.
Qed.

Lemma klnk_fetch_wrong_size s m mem id b peer dst sz :
  klnk_represents s m → m !! id = Some b → sz ≠ size b →
  ∃ e, klnk_fetch_block s mem id peer dst sz = Ret (s, mem, Err e).
Proof.
  intros [R1 _ _ _] Hb Hs. unfold klnk_fetch_block. rewrite R1, Hb. cbn [fmap option_fmap option_map].
  rewrite (proj2 (Z.eqb_neq (size b) sz)) by done. by eexists.
Qed.

Lemma klnk_update_unknown s m mem id md :
  klnk_represents s m → m !! id = None →
  klnk_update_metadata s mem id md = Ret (s, mem, Err (RegionNotFound id)).
Proof. intros [R1 _ _ _] Hb. unfold klnk_update_metadata. by rewrite R1, Hb. Qed.

#[export] Instance klnk_laws : DsmBackendLaws KlnkDsmBackend := {|
  represents := klnk_represents;
  register_law := klnk_register;
  register_again_law := klnk_register_again;
  update_law := klnk_update;
  update_unknown_law := klnk_update_unknown;
  fetch_law := klnk_fetch;
  fetch_wrong_size_law := klnk_fetch_wrong_size;
|}.

Lemma klnk_represents_new n rma : klnk_represents (new (Control.new n) rma) ∅.
Proof.
  split; cbn; [by intros|done| |done]. intros gid. rewrite lookup_empty. split.
  - by intros [? ?].
  - intros (id & [? Hx] & _). by rewrite lookup_empty in Hx.
Qed.

End Laws.

(** ** Clients of the trait *)

Inductive op :=
  | Register (id : DsmRegionId) (b : block)
  | Update (id : DsmRegionId) (md : BlockMetadata)
  | Fetch (id : DsmRegionId) (peer : SocketAddr) (dst sz : Z).

Inductive answer := Done | Data (d : BlockData) | Failed.

Definition unit_answer (r : result DsmError ()) : answer :=
  match r with Ok _ => Done | Err _ => Failed end.
Definition data_answer (r : result DsmError BlockData) : answer :=
  match r with Ok d => Data d | Err _ => Failed end.

(** The block store of the specification. *)
Definition spec_step (m : gmap DsmRegionId block) (mem : memory) (o : op) :
    gmap DsmRegionId block * memory * answer :=
  match o with
  | Register id b =>
      match m !! id with Some _ => (m, mem, Failed) | None => (<[id := b]> m, mem, Done) end
  | Update id md =>
      match m !! id with
      | Some b => (<[id := Block (addr b) (size b) md]> m, mem, Done)
      | None => (m, mem, Failed)
      end
  | Fetch id _ dst sz =>
      match m !! id with
      | Some b =>
          if sz =? size b
          then (m, copied mem (addr b) dst sz,
                Data {| payload := bytes_at mem (addr b) sz; block_metadata := meta b |})
          else (m, mem, Failed)
      | None => (m, mem, Failed)
      end
  end.

(** What the client must respect: a new block is well-formed and starts where no
    other block starts, a fetch names a registered block and a destination
    outside it. *)
Definition allowed (m : gmap DsmRegionId block) (o : op) : Prop :=
  match o with
  | Register id b =>
      0 ≤ id < 2 ^ 64 ∧ block_ok b ∧ (m !! id = None → map_Forall (λ _ b', addr b' ≠ addr b) m)
  | Update _ _ => True
  | Fetch id _ dst sz =>
      ∃ b, m !! id = Some b ∧ (dst + size b ≤ addr b ∨ addr b + size b ≤ dst)
  end.

Fixpoint spec_run (m : gmap DsmRegionId block) (mem : memory) (os : list op) :
    gmap DsmRegionId block * memory * list answer :=
  match os with
  | [] => (m, mem, [])
  | o :: os =>
      let '(m, mem, a) := spec_step m mem o in
      let '(m, mem, l) := spec_run m mem os in (m, mem, a :: l)
  end.

Fixpoint all_allowed (m : gmap DsmRegionId block) (mem : memory) (os : list op) : Prop :=
  match os with
  | [] => True
  | o :: os => allowed m o ∧ let '(m, mem, _) := spec_step m mem o in all_allowed m mem os
  end.

Section Client.
Context {S : Type} `{DsmBackend S}.

Definition client_step (s : S) (mem : memory) (o : op) : outcome (S * memory * answer) :=
  match o with
  | Register id b =>
      '(s, mem, r) ← register_block s mem id (addr b) (size b) (meta b);
      Ret (s, mem, unit_answer r)
  | Update id md => '(s, mem, r) ← update_metadata s mem id md; Ret (s, mem, unit_answer r)
  | Fetch id peer dst sz =>
      '(s, mem, r) ← fetch_block s mem id peer dst sz; Ret (s, mem, data_answer r)
  end.

Fixpoint client_run (s : S) (mem : memory) (os : list op) : outcome (S * memory * list answer) :=
  match os with
  | [] => Ret (s, mem, [])
  | o :: os =>
      '(s, mem, a) ← client_step s mem o;
      '(s, mem, l) ← client_run s mem os;
      Ret (s, mem, a :: l)
  end.

Context `{!DsmBackendLaws S}.

Lemma client_step_spec s m mem o :
  represents s m → allowed m o →
  let '(m', mem', a) := spec_step m mem o in
  ∃ s', client_step s mem o = Ret (s', mem', a) ∧ represents s' m'.
Proof.
  intros Hr Ha. destruct o as [id b|id md|id peer dst sz]; cbn [client_step spec_step allowed] in *.
  - destruct Ha as (Hid & Hb & Hf). destruct (m !! id) as [b'|] eqn:E.
    + destruct (register_again_law s m mem id b' (addr b) (size b) (meta b) Hr E) as (s' & e & -> & Hs).
      monad_simpl. eauto.
    + destruct (register_law s m mem id b Hr E Hid Hb (Hf eq_refl)) as (s' & -> & Hs).
      monad_simpl. eauto.
  - destruct (m !! id) as [b|] eqn:E.
    + destruct (update_law s m mem id b md Hr E) as (s' & -> & Hs). monad_simpl. eauto.
    + rewrite (update_unknown_law s m mem id md Hr E). monad_simpl. eauto.
  - destruct Ha as (b & E & Hd). rewrite E. destruct (Z.eqb_spec sz (size b)) as [->|Hne].
    + rewrite (fetch_law s m mem id b peer dst Hr E Hd). monad_simpl. eauto.
    + destruct (fetch_wrong_size_law s m mem id b peer dst sz Hr E Hne) as (e & ->).
      monad_simpl. eauto.
Qed.

Lemma client_run_spec os : ∀ s m mem,
  represents s m → all_allowed m mem os →
  let '(m', mem', l) := spec_run m mem os in
  ∃ s', client_run s mem os = Ret (s', mem', l) ∧ represents s' m'.
Proof.
  induction os as [|o os IH]; intros s m mem Hr Ha; cbn [client_run spec_run all_allowed] in *.
  - eauto.
  - destruct Ha as [Ha Hos]. pose proof (client_step_spec s m mem o Hr Ha) as Hs.
    destruct (spec_step m mem o) as [[m1 mem1] a]. destruct Hs as (s1 & -> & Hr1). monad_simpl.
    specialize (IH s1 m1 mem1 Hr1 Hos). destruct (spec_run m1 mem1 os) as [[m2 mem2] l].
    destruct IH as (s2 & -> & Hr2). monad_simpl. eauto.
Qed.

End Client.

(** C13. The KLNK backend is a block store: a client of the trait that registers
    blocks at distinct addresses, updates metadata and fetches registered blocks
    into memory outside them gets, for any sequence of calls and without a panic,
    the answers of a map from identifiers to blocks: a fetch copies and returns
    the bytes the block has in memory and the metadata last set, a wrong size, a
    second registration and an update of an unknown block are refused. *)
Theorem klnk_refines_block_store `{BuildProfile} n rma mem os :
  all_allowed ∅ mem os →
  let '(m', mem', l) := spec_run ∅ mem os in
  ∃ s', client_run (new (Control.new n) rma) mem os = Ret (s', mem', l) ∧ klnk_represents s' m'.
Proof.
  intros Ha.
  exact (client_run_spec os (new (Control.new n) rma) ∅ mem (klnk_represents_new n rma) Ha).
Qed.

Lemma klnk_refines_block_store_witness :
  let os := [Register 5 (Block 0x10000 3 [9]); Update 5 [8]; Fetch 5 "10.0.0.2:7000" 0x20000 3] in
  ∃ s', client_run (H := klnk_backend (H := Dev)) (new (Control.new 1) (Engine.auto_detect None None))
          (λ a, a mod 256) os
        = Ret (s', copied (λ a, a mod 256) 0x10000 0x20000 3,
               [Done; Done; Data {| payload := [0; 1; 2]; block_metadata := [8] |}]).
Proof.
  intros os.
  destruct (klnk_refines_block_store (H := Dev) 1 (Engine.auto_detect None None)
    (λ a, a mod 256) os) as (s' & E & _).
  - split; [split; [lia|split; [unfold block_ok; cbn -[Z.pow]; lia|intros _; apply map_Forall_empty]]|].
    split; [exact I|]. split; [|exact I]. eexists. split; [reflexivity|]. cbn. lia.
  - exists s'. exact E.
Defined.

(** A remote fetch returns the bytes that were at the destination before: the
    transport's software provider moves no data. *)
Lemma remote_fetch_returns_local_bytes `{BuildProfile} s mem id peer info dst :
  local_blocks s !! id = None → remote_blocks s !! id = Some info →
  ∃ s', fetch_block s mem id peer dst (remote_size info)
        = Ret (s', mem, Ok {| payload := bytes_at mem dst (remote_size info);
                              block_metadata := remote_metadata info |}).
Proof.
  intros Hl Hr. cbn. unfold klnk_fetch_block. rewrite Hl, Hr, Z.eqb_refl. cbn [negb].
  unfold Engine.rdma_read, Provider.post_read, Provider.post, Provider.get_or_create_qp,
    Provider.create_qp.
  destruct (Engine.rdma_provider (rma_engine s)) as [p|]; [|by eexists].
  destruct (Provider.qps p !! peer_addr info) as [q|]; by eexists.
Qed.

End DsmTheorems.
