(* ===== verification/Bindings.v ===== *)
(** * The Python bindings

    [Bindings] models [bindings/rust/src/lib.rs]: the classes Python sees, each
    around a connector of [Connectors].  A call returns a value or raises; an
    exception is its class and the error whose text it carries. *)

From stdpp Require Import strings pretty.
From S2P Require Import Prelude KvBlock TierManager Config Rma Connectors.

Module Bindings.

Section Bindings.
Context `{!IterOrder Engine.RegisteredRegion}.
(** Reading and parsing the configuration file, as in [Config], the parser of
    socket addresses, and the device the transport finds. *)
Context {IoErr TomlErr : Type} (read_to_string : string → result IoErr string).
Context (from_str : string → result TomlErr Config.VirthubConfig).
Context (parse_addr : string → result string SocketAddr) (detected : option string).

Inductive cause :=
  | OfConfig (e : @Config.ConfigError IoErr TomlErr)
  | OfAddress (e : string)
  | OfVllm (e : Vllm.VllmConnectorError)
  | OfLmCache (e : LmCache.LmCacheConnectorError)
  | OfSglang (e : Sglang.SglangConnectorError).

Inductive PyErr := PyValueError (c : cause) | PyRuntimeError (c : cause) | PyKeyError (c : cause).

Definition load_config (path : string) : result PyErr Config.VirthubConfig :=
  map_err (PyValueError ∘ OfConfig) (Config.load_from_file read_to_string from_str path).

(** *** Plain data *)

Record PyKvBlockKey := PyKey { namespace_id : Z; block_id : Z }.

Definition key_repr (self : PyKvBlockKey) : string :=
  ("KvBlockKey(ns=" +:+ pretty (namespace_id self) +:+ ", id=" +:+ pretty (block_id self) +:+ ")")%string.
Definition key_eq (self other : PyKvBlockKey) : bool :=
  (namespace_id self =? namespace_id other) && (block_id self =? block_id other).

Inductive PyStorageTier := PyDram | PySsd | PyVram.

Definition to_rust (t : PyStorageTier) : Tier.StorageTier :=
  match t with PyDram => Tier.Dram | PySsd => Tier.Ssd | PyVram => Tier.Vram end.
Definition of_rust (t : Tier.StorageTier) : PyStorageTier :=
  match t with Tier.Dram => PyDram | Tier.Ssd => PySsd | Tier.Vram => PyVram end.

Definition native_key (k : PyKvBlockKey) : KvBlockKey := KvKey (namespace_id k) (block_id k).

Record PyVllmBlockMeta := {
  v_block_id : Z; v_vaddr : Z; v_size_bytes : Z; v_gpu_device_id : Z; v_rkey : Z; v_lkey : Z;
}.

Record PyLmCacheChunkMeta := {
  l_namespace_id : Z; l_block_id : Z; l_tier : PyStorageTier; l_vaddr : Z; l_size_bytes : Z;
  l_gpu_device_id : Z; l_rkey : Z; l_lkey : Z;
}.

Record PySglangPrefixMeta := {
  s_prefix_hash : Z; s_token_count : Z; s_vaddr : Z; s_size_bytes : Z; s_gpu_device_id : Z;
  s_rkey : Z; s_lkey : Z;
}.

(** *** vLLM *)

Definition vllm_new (config_path : string) : result PyErr Vllm.VirthubVllmConnector :=
  config ← load_config config_path;
  map_err (PyRuntimeError ∘ OfVllm) (Vllm.new config detected).

Definition vllm_register_kv_block (inner : Vllm.VirthubVllmConnector) (id va size gpu : Z) :
    Vllm.VirthubVllmConnector * result PyErr PyVllmBlockMeta :=
  let '(inner, r) := Vllm.register_kv_block inner id va size gpu in
  (inner, meta ← map_err (PyRuntimeError ∘ OfVllm) r;
          Ok {| v_block_id := Vllm.block_id meta; v_vaddr := Vllm.vaddr meta;
                v_size_bytes := Vllm.size_bytes meta;
                v_gpu_device_id := Vllm.gpu_device_id meta;
                v_rkey := Vllm.rkey meta; v_lkey := Vllm.lkey meta |}).

Definition vllm_swap_in_remote_block (inner : Vllm.VirthubVllmConnector) (peer : string)
    (remote_vaddr remote_rkey local_vaddr size : Z) :
    Vllm.VirthubVllmConnector * result PyErr () :=
  match map_err (PyValueError ∘ OfAddress) (parse_addr peer) with
  | Err e => (inner, Err e)
  | Ok addr =>
      let '(inner, r) := Vllm.swap_in_remote_block inner addr remote_vaddr remote_rkey
                           local_vaddr size in
      (inner, map_err (PyRuntimeError ∘ OfVllm) r)
  end.

Definition vllm_deregister_memory_region (inner : Vllm.VirthubVllmConnector) (rkey : Z) :
    Vllm.VirthubVllmConnector * result PyErr () :=
  let '(inner, r) := Vllm.deregister_memory_region inner rkey in
  (inner, map_err (PyRuntimeError ∘ OfVllm) r).

Definition vllm_close (inner : Vllm.VirthubVllmConnector) :
    Vllm.VirthubVllmConnector * result PyErr () :=
  let '(inner, r) := Vllm.close inner in (inner, map_err (PyRuntimeError ∘ OfVllm) r).

(** *** LMCache *)

Definition lmcache_new (config_path : string) : result PyErr LmCache.VirthubLmCacheConnector :=
  config ← load_config config_path;
  map_err (PyRuntimeError ∘ OfLmCache) (LmCache.new config detected).

Definition lmcache_put_chunk (inner : LmCache.VirthubLmCacheConnector) (key : PyKvBlockKey)
    (tier : PyStorageTier) (gpu : Z) (payload : list Z) (va len : Z) :
    LmCache.VirthubLmCacheConnector * result PyErr PyLmCacheChunkMeta :=
  let '(inner, r) := LmCache.put_chunk inner (native_key key) (to_rust tier) gpu payload va len in
  (inner, meta ← map_err (PyRuntimeError ∘ OfLmCache) r;
          Ok {| l_namespace_id := KvBlock.namespace_id (LmCache.key meta);
                l_block_id := KvBlock.block_id (LmCache.key meta);
                l_tier := of_rust (LmCache.tier meta);
                l_vaddr := LmCache.vaddr meta; l_size_bytes := LmCache.size_bytes meta;
                l_gpu_device_id := LmCache.gpu_device_id meta;
                l_rkey := LmCache.rkey meta; l_lkey := LmCache.lkey meta |}).

Definition lmcache_get_chunk (inner : LmCache.VirthubLmCacheConnector) (key : PyKvBlockKey) :
    result PyErr (list Z) :=
  map_err (PyKeyError ∘ OfLmCache) (LmCache.get_chunk inner (native_key key)).

Definition lmcache_remove_chunk (inner : LmCache.VirthubLmCacheConnector) (key : PyKvBlockKey) :
    LmCache.VirthubLmCacheConnector * result PyErr () :=
  let '(inner, r) := LmCache.remove_chunk inner (native_key key) in
  (inner, map_err (PyRuntimeError ∘ OfLmCache) r).

Definition lmcache_deregister_memory_region (inner : LmCache.VirthubLmCacheConnector) (rkey : Z) :
    LmCache.VirthubLmCacheConnector * result PyErr () := (inner, Ok tt).
Definition lmcache_close (inner : LmCache.VirthubLmCacheConnector) :
    LmCache.VirthubLmCacheConnector * result PyErr () := (inner, Ok tt).

(** *** SGLang *)

Definition sglang_new (config_path : string) : result PyErr Sglang.VirthubSglangConnector :=
  config ← load_config config_path;
  map_err (PyRuntimeError ∘ OfSglang) (Sglang.new config detected).

Definition sglang_register_prefix_node (inner : Sglang.VirthubSglangConnector)
    (hash tokens va size gpu : Z) :
    Sglang.VirthubSglangConnector * result PyErr PySglangPrefixMeta :=
  let '(inner, r) := Sglang.register_prefix_node inner hash tokens va size gpu in
  (inner, meta ← map_err (PyRuntimeError ∘ OfSglang) r;
          Ok {| s_prefix_hash := Sglang.prefix_hash meta; s_token_count := Sglang.token_count meta;
                s_vaddr := Sglang.vaddr meta; s_size_bytes := Sglang.size_bytes meta;
                s_gpu_device_id := Sglang.gpu_device_id meta;
                s_rkey := Sglang.rkey meta; s_lkey := Sglang.lkey meta |}).

Definition sglang_fetch_remote_prefix (inner : Sglang.VirthubSglangConnector) (peer : string)
    (remote_vaddr remote_rkey local_vaddr size : Z) :
    Sglang.VirthubSglangConnector * result PyErr () :=
  match map_err (PyValueError ∘ OfAddress) (parse_addr peer) with
  | Err e => (inner, Err e)
  | Ok addr =>
      let '(inner, r) := Sglang.fetch_remote_prefix inner addr remote_vaddr remote_rkey
                           local_vaddr size in
      (inner, map_err (PyRuntimeError ∘ OfSglang) r)
  end.

Definition sglang_deregister_memory_region (inner : Sglang.VirthubSglangConnector) (rkey : Z) :
    Sglang.VirthubSglangConnector * result PyErr () := (inner, Ok tt).
Definition sglang_close (inner : Sglang.VirthubSglangConnector) :
    Sglang.VirthubSglangConnector * result PyErr () := (inner, Ok tt).

End Bindings.
End Bindings.

Module BindingsTheorems.
Import Core RmaTheorems ConnectorFacts Bindings.

Section Theorems.
Context `{!IterOrder Engine.RegisteredRegion} `{!IterOrderLaws Engine.RegisteredRegion}.
Context {IoErr TomlErr : Type} (read_to_string : string → result IoErr string).
Context (from_str : string → result TomlErr Config.VirthubConfig).
Context (parse_addr : string → result string SocketAddr) (detected : option string).

(** Every call of the SGLang class, on ranges that are not registered yet. *)
Inductive sglang_call (c : Sglang.VirthubSglangConnector) : Sglang.VirthubSglangConnector → Prop :=
  | CallRegister hash tokens va len gpu :
      fresh_range (rma_engine c) va len →
      sglang_call c (sglang_register_prefix_node (IoErr := IoErr) (TomlErr := TomlErr)
                       c hash tokens va len gpu).1
  | CallFetch peer rv rk lv len :
      sglang_call c (sglang_fetch_remote_prefix (IoErr := IoErr) (TomlErr := TomlErr)
                       parse_addr c peer rv rk lv len).1
  | CallDeregister rk :
      sglang_call c (sglang_deregister_memory_region (IoErr := IoErr) (TomlErr := TomlErr) c rk).1
  | CallClose :
      sglang_call c (sglang_close (IoErr := IoErr) (TomlErr := TomlErr) c).1.

Definition live (c : Core Z) : gmap Z Engine.RegisteredRegion :=
  Engine.registered_regions (rma_engine c).

Lemma sglang_call_inv n c c' :
  core_inv n c → n + 1 < 2 ^ 32 → sglang_call c c' → core_inv (n + 1) c' ∧ live c ⊆ live c'.
Proof.
  intros Hi Hn Hs. pose proof (ConnectorTheorems.core_inv_weaken n c Hi) as Hw.
  destruct Hs as [hash tokens va len gpu Hf|peer rv rk lv len|rk|]; [| |done|done].
  - unfold sglang_register_prefix_node, Sglang.register_prefix_node,
      Sglang.register_prefix_node_with_policy.
    destruct (decide (va = 0 ∨ len = 0)) as [Hz|Hz].
    + unfold put. rewrite (ConnectorTheorems.refused_registration _ _ _ _ Hz). by destruct c.
    + destruct (put_inv n c hash va len gpu None None Hi Hn) as (c' & g & -> & Hi' & _ & _ & _ & Hg & Hr);
        [tauto|tauto|done|]. split; [done|]. unfold live. cbn. rewrite Hr. by apply insert_subseteq.
  - unfold sglang_fetch_remote_prefix, Sglang.fetch_remote_prefix.
    destruct (parse_addr peer) as [addr|e]; [|done]. cbn [map_err].
    destruct (read_inv n c addr rv rk lv len Hi Hn) as (c' & -> & Hi' & _ & Hr).
    split; [done|]. unfold live. cbn. by rewrite Hr.
Qed.

(** A Python program cannot release what it registers with the SGLang class:
    through any sequence of its calls, the ones named [deregister_memory_region]
    and [close] included, every registration of the transport stays live. *)
Theorem sglang_bindings_never_release cfg k c1 j c2 :
  1 + Z.of_nat k + Z.of_nat j < 2 ^ 32 →
  nsteps sglang_call k (Core.new cfg detected) c1 → nsteps sglang_call j c1 c2 →
  live c1 ⊆ live c2.
Proof.
  assert (Hrun : ∀ m n c c', core_inv n c → n + Z.of_nat m < 2 ^ 32 → nsteps sglang_call m c c' →
    core_inv (n + Z.of_nat m) c' ∧ live c ⊆ live c').
  { induction m as [|m IH]; intros n c c' Hi Hn Hs; inversion Hs as [|? ? d ? Hs1 Hs2]; subst.
    - by rewrite Z.add_0_r.
    - destruct (sglang_call_inv n c d Hi) as [Hi1 Hl1]; [lia|done|].
      destruct (IH (n + 1) d c' Hi1) as [Hi2 Hl2]; [lia|done|].
      replace (n + Z.of_nat (S m)) with (n + 1 + Z.of_nat m) by lia.
      split; [done|by transitivity (live d)]. }
  intros Hn H1 H2. destruct (Hrun k 1 _ c1 (core_new_inv cfg detected)) as [Hi _]; [lia|done|].
  by destruct (Hrun j _ c1 c2 Hi) as [_ Hl]; [lia|done|].
Qed.

(** What Python sees of a chunk: on a class built from a configuration file
    that loads, storing a chunk returns its key and tier, reading it returns the
    bytes, removing it succeeds and a later read raises [KeyError]; a file that
    does not load raises [ValueError] instead of building the class. *)
Theorem python_chunk_roundtrip path key tier gpu payload va len :
  va ≠ 0 → len ≠ 0 →
  match Config.load_from_file read_to_string from_str path with
  | Err e => lmcache_new read_to_string from_str detected path = Err (PyValueError (OfConfig e))
  | Ok _ => ∃ c0 c1 c2 meta,
      lmcache_new read_to_string from_str detected path = Ok c0 ∧
      lmcache_put_chunk (IoErr := IoErr) (TomlErr := TomlErr) c0 key tier gpu payload va len
        = (c1, Ok meta) ∧
      l_namespace_id meta = namespace_id key ∧ l_block_id meta = block_id key ∧
      l_tier meta = tier ∧ l_vaddr meta = va ∧ l_size_bytes meta = len ∧
      lmcache_get_chunk (IoErr := IoErr) (TomlErr := TomlErr) c1 key = Ok payload ∧
      lmcache_remove_chunk (IoErr := IoErr) (TomlErr := TomlErr) c1 key = (c2, Ok tt) ∧
      lmcache_get_chunk (IoErr := IoErr) (TomlErr := TomlErr) c2 key
        = Err (PyKeyError (OfLmCache (LmCache.ChunkNotFound (native_key key))))
  end.
Proof.
  intros Hva Hlen. unfold lmcache_new, load_config.
  destruct (Config.load_from_file read_to_string from_str path) as [cfg|e]; [|done].
  cbn [map_err mbind result_bind]. unfold lmcache_put_chunk, LmCache.put_chunk.
  destruct (ConnectorTheorems.lmcache_chunk_lifecycle 1
    (LmCache.LmCacheConnector (Core.new cfg detected) ∅) (native_key key) (to_rust tier) gpu payload
    va len None None) as (c1 & meta & c2 & E & Hv & Hl & _ & _ & Hg & _ & Er & _ & Hg2 & _);
    [apply core_new_inv|lia|done|done|apply map_Forall_empty|done|].
  eexists _, c1, c2, _. split; [done|]. rewrite E. split; [done|].
  cbn [map_err mbind result_bind l_namespace_id l_block_id l_tier l_vaddr l_size_bytes].
  assert (LmCache.key meta = native_key key ∧ LmCache.tier meta = to_rust tier) as [-> ->].
  { revert E. unfold LmCache.put_chunk_with_policy. destruct (put _ _ _ _ _ _ _) as [cc [g|x]]; [|done].
    by intros [= _ <-]. }
  unfold lmcache_get_chunk, lmcache_remove_chunk. rewrite Hg, Er, Hg2.
  split_and!; try done. by destruct tier.
Qed.

(** A peer address that does not parse raises [ValueError] and changes nothing. *)
Lemma bad_address_raises c peer e rv rk lv len :
  parse_addr peer = Err e →
  sglang_fetch_remote_prefix (IoErr := IoErr) (TomlErr := TomlErr) parse_addr c peer rv rk lv len
    = (c, Err (PyValueError (OfAddress e))) ∧
  vllm_swap_in_remote_block (IoErr := IoErr) (TomlErr := TomlErr) parse_addr c peer rv rk lv len
    = (c, Err (PyValueError (OfAddress e))).
Proof. intros E. unfold sglang_fetch_remote_prefix, vllm_swap_in_remote_block. by rewrite E. Qed.

End Theorems.

(** ** Examples *)

#[local] Existing Instance in_key_order.
#[local] Existing Instance in_key_order_laws.

Definition any_addr (s : string) : result string SocketAddr := Ok s.
Definition sglang0 : Core Z := Core.new Config.default None.
Definition sglang1 : Core Z :=
  (sglang_register_prefix_node (IoErr := unit) (TomlErr := unit) sglang0 7 16 4096 4096 0).1.

Lemma sglang_bindings_never_release_witness :
  is_Some (live (sglang_close (IoErr := unit) (TomlErr := unit) sglang1).1 !! 1).
Proof.
  apply (lookup_weaken_is_Some (live sglang1)); [by eexists|].
  apply (sglang_bindings_never_release (IoErr := unit) (TomlErr := unit) any_addr None
           Config.default 1 sglang1 1).
  - reflexivity.
  - apply nsteps_once. apply (CallRegister (IoErr := unit) (TomlErr := unit) any_addr sglang0).
    apply map_Forall_empty.
  - apply nsteps_once. exact (CallClose (IoErr := unit) (TomlErr := unit) any_addr sglang1).
Defined.

Lemma python_chunk_roundtrip_witness :
  ∃ c0 c1 meta,
    lmcache_new (IoErr := unit) (TomlErr := unit) Ok (λ _, Ok Config.default) None "virthub.toml" = Ok c0 ∧
    lmcache_put_chunk (IoErr := unit) (TomlErr := unit) c0 (PyKey 1 2) PySsd 0 [1; 2; 3] 4096 4096
      = (c1, Ok meta) ∧
    lmcache_get_chunk (IoErr := unit) (TomlErr := unit) c1 (PyKey 1 2) = Ok [1; 2; 3].
Proof.
  destruct (python_chunk_roundtrip (IoErr := unit) (TomlErr := unit) Ok (λ _, Ok Config.default) None
    "virthub.toml" (PyKey 1 2) PySsd 0 [1; 2; 3] 4096 4096)
    as (c0 & c1 & c2 & meta & E0 & E1 & _ & _ & _ & _ & _ & Eg & _); [discriminate|discriminate|].
  exists c0, c1, meta. split; [exact E0|]. split; [exact E1|exact Eg].
Defined.

End BindingsTheorems.
