(* ===== verification/PyAdapters.v ===== *)
(** * The Python adapters

    [PyVllm], [PySglang] and [PyLmCache] model bindings/python/virthub/{vllm,
    sglang,lmcache}.py: the classes the serving frameworks load.  Each talks to a
    client that is either the native class of [Bindings] or an in-memory stub,
    chosen at import.  A Python dict is [PyDict]; a method returns its object and
    a value or an exception, so that what a failing call has already changed is
    visible.  How the extension module converts arguments is the interface
    [Pyo3]. *)

From stdpp Require Import strings.
From S2P Require Import Prelude F64 KvBlock TierManager Config ConfigToml Rma Connectors Bindings.

(** ** Python dictionaries: insertion order, one entry per key *)

Module PyDict.
Section PyDict.
Context {K V : Type} `{EqDecision K}.

Definition dict : Type := list (K * V).

Fixpoint get (d : dict) (k : K) : option V :=
  match d with
  | [] => None
  | (k', v) :: d => if bool_decide (k' = k) then Some v else get d k
  end.

(** [d[k] = v]: an existing key keeps its place. *)
Fixpoint set (d : dict) (k : K) (v : V) : dict :=
  match d with
  | [] => [(k, v)]
  | (k', v') :: d => if bool_decide (k' = k) then (k', v) :: d else (k', v') :: set d k v
  end.

(** [d.pop(k, None)]. *)
Fixpoint pop (d : dict) (k : K) : dict :=
  match d with
  | [] => []
  | (k', v') :: d => if bool_decide (k' = k) then d else (k', v') :: pop d k
  end.

Definition values (d : dict) : list V := d.*2.

(** [for k in [k for k, v in d.items() if p v]: del d[k]]. *)
Fixpoint del_where (p : V → bool) (d : dict) : dict :=
  match d with
  | [] => []
  | (k, v) :: d => if p v then del_where p d else (k, v) :: del_where p d
  end.

Lemma dict_get_set d k v k' : get (set d k v) k' = if bool_decide (k = k') then Some v else get d k'.
Proof.
  induction d as [|[x y] d IH]; cbn [get set]; [done|].
  destruct (bool_decide_reflect (x = k)) as [->|E1]; cbn [get].
  - by repeat case_bool_decide.
  - rewrite IH.
    destruct (bool_decide_reflect (x = k')), (bool_decide_reflect (k = k')); congruence.
Qed.

(** The keys of a dict are distinct. *)
Definition wf (d : dict) : Prop := NoDup d.*1.

Lemma get_None d k : get d k = None ↔ k ∉ d.*1.
Proof.
  induction d as [|[x y] d IH]; cbn [get]; [split; [intros _; apply not_elem_of_nil|done]|].
  cbn. rewrite not_elem_of_cons. case_bool_decide as E; [split; [done|intros []; congruence]|]. rewrite IH.
  split; [intros ?; split; [congruence|done]|tauto].
Qed.

Lemma elem_of_keys_set d k v x : x ∈ (set d k v).*1 ↔ x = k ∨ x ∈ d.*1.
Proof.
  induction d as [|[y z] d IH]; cbn [set].
  - cbn. rewrite elem_of_cons. tauto.
  - case_bool_decide as E; cbn; rewrite !elem_of_cons; [subst; tauto|]. rewrite IH. tauto.
Qed.

Lemma set_wf d k v : wf d → wf (set d k v).
Proof.
  unfold wf. induction d as [|[y z] d IH]; cbn [set]; intros Hd; [apply NoDup_singleton|].
  cbn in Hd. apply NoDup_cons in Hd as [Hy Hd].
  case_bool_decide as E; cbn; apply NoDup_cons; [done|]. split; [|by apply IH].
  rewrite elem_of_keys_set. intros [?|?]; done.
Qed.

Lemma get_pop d k k' : wf d → get (pop d k) k' = if bool_decide (k = k') then None else get d k'.
Proof.
  unfold wf. induction d as [|[y z] d IH]; cbn [pop get]; intros Hd; [by case_bool_decide|].
  cbn in Hd. apply NoDup_cons in Hd as [Hy Hd].
  destruct (bool_decide_reflect (y = k)) as [->|E1]; cbn [get].
  - case_bool_decide as E2; [subst; by apply get_None|done].
  - rewrite IH by done. repeat case_bool_decide; subst; done.
Qed.

Lemma elem_of_keys_pop d k x : x ∈ (pop d k).*1 → x ∈ d.*1.
Proof.
  induction d as [|[y z] d IH]; cbn [pop]; [done|].
  case_bool_decide; cbn; rewrite ?elem_of_cons; [by right|]. intros [-> |Hx]; [by left|right; by apply IH].
Qed.

Lemma pop_wf d k : wf d → wf (pop d k).
Proof.
  unfold wf. induction d as [|[y z] d IH]; cbn [pop]; intros Hd; [done|].
  cbn in Hd. apply NoDup_cons in Hd as [Hy Hd].
  case_bool_decide; [done|]. cbn. apply NoDup_cons. split; [|by apply IH].
  intros Hx%elem_of_keys_pop. done.
Qed.

Lemma elem_of_keys_del p d k : k ∈ (del_where p d).*1 → k ∈ d.*1.
Proof.
  induction d as [|[y z] d IH]; cbn [del_where]; [done|].
  destruct (p z); cbn; rewrite !elem_of_cons; [auto|]. intros [?|?]; auto.
Qed.

Lemma del_where_wf p d : wf d → wf (del_where p d).
Proof.
  unfold wf. induction d as [|[y z] d IH]; intros Hd; [done|].
  cbn in Hd. apply NoDup_cons in Hd as [Hy Hd]. cbn [del_where].
  destruct (p z); [by apply IH|]. cbn. apply NoDup_cons. split; [|by apply IH].
  intros Hk. by apply Hy, (elem_of_keys_del p).
Qed.

Lemma get_del_where p d k :
  wf d → get (del_where p d) k = v ← get d k; if p v then None else Some v.
Proof.
  unfold wf. induction d as [|[y z] d IH]; intros Hd; [done|].
  cbn in Hd. apply NoDup_cons in Hd as [Hy Hd]. cbn [del_where get].
  case_bool_decide as E; [subst|].
  - cbn [mbind option_bind]. destruct (p z); cbn [get]; [|by rewrite bool_decide_eq_true_2].
    apply get_None. intros Hk. by apply Hy, (elem_of_keys_del p).
  - rewrite <- (IH Hd). destruct (p z); [done|]. cbn [get]. by rewrite bool_decide_eq_false_2.
Qed.

End PyDict.
Arguments dict : clear implicits.
End PyDict.

(** ** Python objects and the extension module *)

(** The objects that reach an argument of the extension module's own types. *)
Inductive pyobj := PyStr (s : string) | PyTier (t : Bindings.PyStorageTier).

(** How the extension module binds a call: [binds params kws], the call by the
    keywords [kws] of a method with parameters [params]; and the conversions of
    its arguments, an unsigned integer of [w] bits and a storage tier. *)
Class Pyo3 := {
  binds : list string → list string → bool;
  extract_uint : Z → Z → option Z;
  extract_tier : pyobj → option Bindings.PyStorageTier;
}.

Class Pyo3Laws `{!Pyo3} : Prop := {
  unknown_keyword params kws k : k ∈ kws → k ∉ params → binds params kws = false;
  same_keywords kws : binds kws kws = true;
  uint_in_range w z : 0 ≤ z < 2 ^ w → extract_uint w z = Some z;
  uint_out_of_range w z : ¬ 0 ≤ z < 2 ^ w → extract_uint w z = None;
  tier_of_tier t : extract_tier (PyTier t) = Some t;
  tier_of_str s : extract_tier (PyStr s) = None;
}.

Inductive PyExc {IoErr TomlErr : Type} :=
  | KeyError
  | TypeError
  | OverflowError
  | Raised (e : @Bindings.PyErr IoErr TomlErr).
Arguments PyExc : clear implicits.

(** [for x in xs: f(x)] on an object that the body changes: an exception keeps
    what the earlier rounds did. *)
Fixpoint py_for {S X E : Type} (f : X → S → S * result E ()) (xs : list X) (s : S) :
    S * result E () :=
  match xs with
  | [] => (s, Ok tt)
  | x :: xs =>
      match f x s with
      | (s, Err e) => (s, Err e)
      | (s, Ok _) => py_for f xs s
      end
  end.

(** [[await f(x) for x in xs]], in the order of [xs]. *)
Fixpoint py_collect {S X A E : Type} (f : X → S → S * result E A) (xs : list X) (s : S) :
    S * result E (list A) :=
  match xs with
  | [] => (s, Ok [])
  | x :: xs =>
      match f x s with
      | (s, Err e) => (s, Err e)
      | (s, Ok a) =>
          match py_collect f xs s with
          | (s, Err e) => (s, Err e)
          | (s, Ok l) => (s, Ok (a :: l))
          end
      end
  end.

Definition extract {E A : Type} (e : E) (o : option A) : result E A :=
  match o with Some a => Ok a | None => Err e end.

(** The dict that the stubs build for a registered block. *)
Record BlockDict := {
  d_block_id : Z; d_vaddr : Z; d_size_bytes : Z; d_gpu_device_id : Z;
  d_rkey : Z; d_lkey : Z; d_node_addr : string;
}.

Definition stub_block (base id va size gpu : Z) : BlockDict :=
  {| d_block_id := id; d_vaddr := va; d_size_bytes := size; d_gpu_device_id := gpu;
     d_rkey := base + id; d_lkey := base + id; d_node_addr := "127.0.0.1:19001" |}.

(** ** vllm.py *)

Module PyVllm.
(** The module-wide native client, shared by every connector. *)
Abbreviation World := (option Vllm.VirthubVllmConnector) (only parsing).

Section PyVllm.
Context `{!IterOrder Engine.RegisteredRegion} `{!Pyo3}.
(** The file a configuration dict is written to: [toml.dump], the parser of
    [Config], the name of the temporary file; the parser of addresses and the
    device the transport finds. *)
Context {TomlErr : Type} (dump : Toml.table → string).
Context (from_str : string → result TomlErr Config.VirthubConfig) (tmp : string).
Context (parse_addr : string → result string SocketAddr) (detected : option string).
(** The objects of vLLM that are only stored. *)
Context {Obj : Type}.

Abbreviation exc := (PyExc unit TomlErr) (only parsing).

(** [None], a dict, or another object such as vLLM's own configuration. *)
Inductive pyconfig := PyNone | PyTable (t : Toml.table) | PyObject.

(** [config or {}]. *)
Definition or_empty (config : pyconfig) : pyconfig :=
  match config with PyNone => PyTable [] | _ => config end.

Definition default_config_dict : Toml.table :=
  let VStr := Toml.VString in let VInt := Toml.VInteger in let VBool := Toml.VBoolean in
  [("general", Toml.VTable [
      ("log_level", VStr "info"); ("control_socket", VStr "/tmp/virthub_control.sock");
      ("data_bind_addr", VStr "0.0.0.0:19001"); ("node_id", VStr "node-1")]);
   ("klnk", Toml.VTable [
      ("enable_uffd_move", VBool true); ("fallback_copy", VBool true);
      ("staging_num_pages", VInt 16); ("huge_page_size", VInt 2097152)]);
   ("store", Toml.VTable [
      ("block_size", VInt 2097152);
      ("tier", Toml.VTable [
         ("l0_enabled", VBool false); ("l0_device_ids", Toml.VArray [VInt 0; VInt 1]);
         ("l1_enabled", VBool true); ("l2_enabled", VBool false);
         ("l2_path", VStr "/mnt/nvme/virthub_cache")])]);
   ("master", Toml.VTable [
      ("raft", Toml.VTable [
         ("embedded", VBool true);
         ("initial_peers", Toml.VArray [VStr "node-1"; VStr "node-2"; VStr "node-3"]);
         ("etcd_endpoints", Toml.VArray [VStr "http://127.0.0.1:2379"])]);
      ("scheduler", Toml.VTable [
         ("prefetch_window", VInt 8); ("l0_promote_threshold", VInt 100);
         ("l1_demote_idle_secs", VInt 60); ("lru_decay", Toml.VFloat (f64_lit 8 10))]);
      ("sharding", Toml.VTable [("shard_count", VInt 64)])]);
   ("transport", Toml.VTable [
      ("default_protocol", VStr "tcp");
      ("rdma", Toml.VTable [
         ("device_name", VStr EmptyString); ("enable_gdr", VBool false);
         ("rq_prepost_count", VInt 1024); ("control_immediate", VBool true)]);
      ("tcp", Toml.VTable [("io_uring_enabled", VBool true); ("tcp_port", VInt 19002)])]);
   ("ebpf", Toml.VTable [
      ("enabled", VBool true); ("program_path", VStr "/usr/lib/virthub/stride_tracer.bpf.o");
      ("report_interval_ms", VInt 100)]);
   ("tuning", Toml.VTable [
      ("numa_node", VInt (-1)); ("operation_timeout_ms", VInt 500);
      ("memlock_limit", VInt 17179869184)])].

Definition get_native_client (w : World) (config_dict : Toml.table) : World * result exc () :=
  match w with
  | Some _ => (w, Ok tt)
  | None =>
      match Bindings.vllm_new (λ _, Ok (dump config_dict)) from_str detected tmp with
      | Ok c => (Some c, Ok tt)
      | Err e => (None, Err (Raised e))
      end
  end.

(** [_client]: the stub and its [regions], or the shared native client. *)
Inductive Client := Stub (regions : PyDict.dict Z BlockDict) | Native.

(** What a call to the client returned: a dict, or an object of the native
    class, which has attributes and no items. *)
Inductive Meta := DictMeta (m : BlockDict) | NativeMeta (m : Bindings.PyVllmBlockMeta).

Definition items (m : Meta) : result exc BlockDict :=
  match m with DictMeta m => Ok m | NativeMeta _ => Err TypeError end.

Record Connector := {
  config : pyconfig;
  client : Client;
  block_map : PyDict.dict Z Meta;
  kv_caches : option Obj;
  host_xfer_ops : option Obj;
  handshake_metadata : option Obj;
}.

Definition update (self : Connector) (c : Client) (m : PyDict.dict Z Meta) : Connector :=
  {| config := config self; client := c; block_map := m; kv_caches := kv_caches self;
     host_xfer_ops := host_xfer_ops self; handshake_metadata := handshake_metadata self |}.

Definition register_kv_caches (self : Connector) (o : Obj) : Connector :=
  {| config := config self; client := client self; block_map := block_map self; kv_caches := Some o;
     host_xfer_ops := host_xfer_ops self; handshake_metadata := handshake_metadata self |}.
Definition set_host_xfer_buffer_ops (self : Connector) (o : Obj) : Connector :=
  {| config := config self; client := client self; block_map := block_map self;
     kv_caches := kv_caches self; host_xfer_ops := Some o;
     handshake_metadata := handshake_metadata self |}.
Definition set_xfer_handshake_metadata (self : Connector) (o : Obj) : Connector :=
  {| config := config self; client := client self; block_map := block_map self;
     kv_caches := kv_caches self; host_xfer_ops := host_xfer_ops self;
     handshake_metadata := Some o |}.

Definition create_client (rust_available : bool) (w : World) (config : pyconfig) :
    World * result exc Client :=
  if rust_available then
    let config_dict := match config with PyTable t => t | _ => default_config_dict end in
    let '(w, r) := get_native_client w config_dict in (w, _ ← r; Ok Native)
  else (w, Ok (Stub [])).

(** [_BaseConnector.__init__]. *)
Definition init (rust_available : bool) (w : World) (config : pyconfig) : World * result exc Connector :=
  let config := or_empty config in
  let '(w, r) := create_client rust_available w config in
  (w, c ← r; Ok {| config := config; client := c; block_map := []; kv_caches := None;
                   host_xfer_ops := None; handshake_metadata := None |}).

(** A call of the native client; every connector that has it was built after it. *)
Definition with_native {A : Type} (w : World)
    (f : Vllm.VirthubVllmConnector → Vllm.VirthubVllmConnector * result (@Bindings.PyErr unit TomlErr) A) :
    World * result exc A :=
  match w with
  | None => (None, Err TypeError)
  | Some c => let '(c, r) := f c in (Some c, map_err Raised r)
  end.

(** The keywords of the call and the parameters of the native method. *)
Definition register_keywords : list string := ["block_id"; "vaddr"; "size"; "gpu_device_id"].
Definition register_params : list string := ["block_id"; "vaddr"; "size_bytes"; "gpu_device_id"].
Definition swap_keywords : list string :=
  ["peer_addr"; "remote_vaddr"; "remote_rkey"; "local_vaddr"; "size_bytes"].

Definition native_register (w : World) (id va size gpu : Z) : World * result exc Bindings.PyVllmBlockMeta :=
  if binds register_params register_keywords then
    match (id ← extract_uint 64 id; va ← extract_uint 64 va; size ← extract_uint 64 size;
           gpu ← extract_uint 32 gpu; Some (id, va, size, gpu)) with
    | None => (w, Err OverflowError)
    | Some (id, va, size, gpu) =>
        with_native w (λ c, Bindings.vllm_register_kv_block c id va size gpu)
    end
  else (w, Err TypeError).

Definition native_swap_in (w : World) (peer : string) (rv rk lv size : Z) : World * result exc () :=
  if binds swap_keywords swap_keywords then
    match (rv ← extract_uint 64 rv; rk ← extract_uint 32 rk; lv ← extract_uint 64 lv;
           size ← extract_uint 64 size; Some (rv, rk, lv, size)) with
    | None => (w, Err OverflowError)
    | Some (rv, rk, lv, size) =>
        with_native w (λ c, Bindings.vllm_swap_in_remote_block parse_addr c peer rv rk lv size)
    end
  else (w, Err TypeError).

Record Worker := { device_id : Z }.
Record Block := { b_block_id : option Z; gpu_ptr : Z; b_size : Z }.

(** [getattr(block, "block_id", 0)]. *)
Definition id_of (b : Block) : Z := from_option id 0 (b_block_id b).

(** The client's methods, on the connector that holds the client. *)
Definition client_register (w : World) (self : Connector) (id va size gpu : Z) :
    World * Connector * result exc Meta :=
  match client self with
  | Stub regions =>
      let meta := stub_block 1000 id va size gpu in
      (w, update self (Stub (PyDict.set regions id meta)) (block_map self), Ok (DictMeta meta))
  | Native =>
      let '(w, r) := native_register w id va size gpu in (w, self, m ← r; Ok (NativeMeta m))
  end.

Definition client_deregister (w : World) (self : Connector) (rkey : Z) :
    World * Connector * result exc () :=
  match client self with
  | Stub regions =>
      (w, update self (Stub (PyDict.del_where (λ m, d_rkey m =? rkey) regions)) (block_map self), Ok tt)
  | Native =>
      match extract_uint 32 rkey with
      | None => (w, self, Err OverflowError)
      | Some rkey =>
          let '(w, r) := with_native w (λ c, Bindings.vllm_deregister_memory_region c rkey) in
          (w, self, r)
      end
  end.

Definition client_close (w : World) (self : Connector) : World * Connector * result exc () :=
  match client self with
  | Stub _ => (w, update self (Stub []) (block_map self), Ok tt)
  | Native => let '(w, r) := with_native w Bindings.vllm_close in (w, self, r)
  end.

Definition save_block (worker : Worker) (block : Block) (s : World * Connector) :
    World * Connector * result exc () :=
  let '(w, self) := s in
  if id_of block =? 0 then (w, self, Ok tt)
  else
    let '(w, self, r) :=
      client_register w self (id_of block) (gpu_ptr block) (b_size block) (device_id worker) in
    match r with
    | Err e => (w, self, Err e)
    | Ok meta => (w, update self (client self) (PyDict.set (block_map self) (id_of block) meta), Ok tt)
    end.

Definition save_kv_layer (layer_idx : Z) (kv_blocks : list Block) (worker : Worker) (s : World * Connector) :
    World * Connector * result exc () :=
  py_for (save_block worker) kv_blocks s.

Definition load_block (block : Block) (s : World * Connector) : World * Connector * result exc () :=
  let '(w, self) := s in
  if id_of block =? 0 then (w, self, Ok tt)
  else
    match PyDict.get (block_map self) (id_of block) with
    | None => (w, self, Ok tt)
    | Some meta =>
        match items meta with
        | Err e => (w, self, Err e)
        | Ok m =>
            match client self with
            | Stub _ => (w, self, Ok tt)
            | Native =>
                let '(w, r) := native_swap_in w (d_node_addr m) (d_vaddr m) (d_rkey m)
                                 (gpu_ptr block) (d_size_bytes m) in
                (w, self, r)
            end
        end
    end.

(** vLLM itself calls it with one argument. *)
Definition start_load_kv (kv_blocks : list Block) (worker : option Worker) (s : World * Connector) :
    World * Connector * result exc () :=
  match worker with
  | None => (s, Ok tt)
  | Some _ => py_for load_block kv_blocks s
  end.

Definition unregister_block (block_id : Z) (s : World * Connector) : World * Connector * result exc () :=
  let '(w, self) := s in
  match PyDict.get (block_map self) block_id with
  | None => (w, self, Ok tt)
  | Some meta =>
      let self := update self (client self) (PyDict.pop (block_map self) block_id) in
      match items meta with
      | Err e => (w, self, Err e)
      | Ok m => client_deregister w self (d_rkey m)
      end
  end.

Definition release (meta : Meta) (s : World * Connector) : World * Connector * result exc () :=
  let '(w, self) := s in
  match items meta with
  | Err e => (w, self, Err e)
  | Ok m => client_deregister w self (d_rkey m)
  end.

Definition close (s : World * Connector) : World * Connector * result exc () :=
  match py_for release (PyDict.values (block_map s.2)) s with
  | (s, Err e) => (s, Err e)
  | ((w, self), Ok _) =>
      match client_close w self with
      | (s, Err e) => (s, Err e)
      | ((w, self), Ok _) => (w, update self (client self) [], Ok tt)
      end
  end.

Definition shutdown (s : World * Connector) : World * Connector * result exc () := close s.

End PyVllm.
End PyVllm.

Module PyVllmFacts.
Import PyVllm.

Section Facts.
Context `{!IterOrder Engine.RegisteredRegion} `{!Pyo3}.
Context {TomlErr : Type} (parse_addr : string → result string SocketAddr) {Obj : Type}.

(** What a framework may ask of a connector. *)
Inductive call :=
  | Save (layer : Z) (blocks : list Block) (worker : Worker)
  | Load (blocks : list Block) (worker : option Worker)
  | Unregister (id : Z)
  | Close.

Definition run (c : call) (s : World * Connector (Obj := Obj)) :
    World * Connector * result (PyExc unit TomlErr) () :=
  match c with
  | Save layer blocks worker => save_kv_layer layer blocks worker s
  | Load blocks worker => start_load_kv parse_addr blocks worker s
  | Unregister id => unregister_block id s
  | Close => close s
  end.

(** What it promises: a finite map of the blocks that are saved. *)
Definition spec_save (worker : Worker) (m : gmap Z BlockDict) (b : Block) : gmap Z BlockDict :=
  if id_of b =? 0 then m
  else <[id_of b := stub_block 1000 (id_of b) (gpu_ptr b) (b_size b) (device_id worker)]> m.

Definition spec (c : call) (m : gmap Z BlockDict) : gmap Z BlockDict :=
  match c with
  | Save _ blocks worker => foldl (spec_save worker) m blocks
  | Load _ _ => m
  | Unregister id => delete id m
  | Close => ∅
  end.

(** The stub's regions and the connector's own map both hold [m]. *)
Definition holds (self : Connector (Obj := Obj)) (m : gmap Z BlockDict) : Prop :=
  ∃ regions, client self = Stub regions ∧ PyDict.wf regions ∧ PyDict.wf (block_map self) ∧
    (∀ k, PyDict.get regions k = m !! k) ∧
    (∀ k, PyDict.get (block_map self) k = DictMeta <$> m !! k) ∧
    (∀ k b, m !! k = Some b → d_rkey b = 1000 + k).

Lemma save_block_holds worker b w self m :
  holds self m → ∃ self', save_block (TomlErr := TomlErr) worker b (w, self) = (w, self', Ok tt) ∧
                          holds self' (spec_save worker m b).
Proof.
  intros (regions & Hc & Hw & Hb & Hr & Hm & Hk). unfold save_block, spec_save.
  destruct (id_of b =? 0); [by exists self; split; [|exists regions]|].
  unfold client_register. rewrite Hc. eexists. split; [reflexivity|].
  eexists. split; [done|]. split_and!; [by apply PyDict.set_wf..| | |].
  - intros k. rewrite PyDict.dict_get_set, Hr, lookup_insert. by repeat case_decide || case_bool_decide.
  - intros k. cbn [block_map update]. rewrite PyDict.dict_get_set, Hm, lookup_insert.
    by repeat case_decide || case_bool_decide.
  - intros k b'. rewrite lookup_insert. case_decide; [|apply Hk]. by intros [= <-]; subst.
Qed.

Lemma load_holds blocks w self m :
  holds self m → py_for (load_block (TomlErr := TomlErr) parse_addr) blocks (w, self) = (w, self, Ok tt).
Proof.
  intros (regions & Hc & _ & _ & _ & Hm & _).
  induction blocks as [|b blocks IH]; [done|]. cbn [py_for].
  enough (load_block (TomlErr := TomlErr) parse_addr b (w, self) = (w, self, Ok tt)) as -> by exact IH.
  unfold load_block. destruct (id_of b =? 0); [done|]. rewrite Hm.
  destruct (m !! id_of b); [|done]. cbn. by rewrite Hc.
Qed.

Lemma release_stub metas w (self : Connector (Obj := Obj)) regions :
  client self = Stub regions → Forall (λ m, ∃ b, m = DictMeta b) metas →
  ∃ self', py_for (release (TomlErr := TomlErr)) metas (w, self) = (w, self', Ok tt) ∧
           ∃ regions', client self' = Stub regions'.
Proof.
  intros Hc Hm. revert self regions Hc. induction Hm as [|m metas [b ->] _ IH]; intros self regions Hc.
  - exists self. split; [done|by exists regions].
  - cbn [py_for release items]. unfold client_deregister. rewrite Hc. by eapply IH.
Qed.

Lemma values_dict self m :
  holds self m → Forall (λ x, ∃ b, x = DictMeta b) (PyDict.values (block_map self)).
Proof.
  intros (regions & _ & _ & Hb & _ & Hm & _). apply Forall_forall. intros x Hx.
  unfold PyDict.values in Hx. apply list_elem_of_fmap in Hx as ([k y] & -> & Hx).
  enough (PyDict.get (block_map self) k = Some y) as E.
  { rewrite Hm in E. destruct (m !! k) as [b|]; [|done]. injection E as <-. by exists b. }
  clear Hm. revert Hb Hx. unfold PyDict.wf. induction (block_map self) as [|[k' y'] d IH]; intros Hd Hx.
  - by apply not_elem_of_nil in Hx.
  - cbn in Hd. apply NoDup_cons in Hd as [Hk Hd]. cbn [PyDict.get].
    apply elem_of_cons in Hx as [[= <- <-]|Hx]; [by rewrite bool_decide_eq_true_2|].
    rewrite bool_decide_eq_false_2; [by apply IH|].
    intros <-. apply Hk, list_elem_of_fmap. by exists (k', y).
Qed.

Lemma vllm_run_holds c w self m :
  holds self m → ∃ self', run c (w, self) = (w, self', Ok tt) ∧ holds self' (spec c m).
Proof.
  intros Hh. destruct c as [layer blocks worker|blocks worker|id|]; cbn [run spec].
  - unfold save_kv_layer. revert self m Hh.
    induction blocks as [|b blocks IH]; intros self m Hh; cbn [py_for foldl]; [by exists self|].
    destruct (save_block_holds worker b w self m Hh) as (self' & -> & Hh'). by apply IH.
  - exists self. unfold start_load_kv. destruct worker; [|done]. by rewrite (load_holds blocks w self m).
  - unfold unregister_block. destruct Hh as (regions & Hc & Hw & Hb & Hr & Hm & Hk). rewrite Hm.
    destruct (m !! id) as [b|] eqn:E; cbn [fmap option_fmap option_map items].
    + unfold client_deregister. cbn [client update]. rewrite Hc, (Hk id b E). eexists. split; [done|].
      eexists. split; [done|]. cbn [block_map update].
      split_and!; [by apply PyDict.del_where_wf|by apply PyDict.pop_wf| | |].
      * intros k. rewrite PyDict.get_del_where, Hr, lookup_delete by done.
        destruct (m !! k) as [b'|] eqn:Ek; cbn [mbind option_bind]; [|by case_decide].
        rewrite (Hk k b' Ek). case_decide; [subst; by rewrite Z.eqb_refl|].
        by rewrite (proj2 (Z.eqb_neq _ _)) by lia.
      * intros k. rewrite PyDict.get_pop, Hm, lookup_delete by done.
        by repeat case_decide || case_bool_decide.
      * intros k b'. rewrite lookup_delete. case_decide; [done|apply Hk].
    + exists self. split; [done|]. rewrite (delete_id m id E). by exists regions.
  - unfold close. pose proof (values_dict self m Hh) as Hv.
    destruct Hh as (regions & Hc & _).
    destruct (release_stub _ w self regions Hc Hv) as (self' & E & regions' & Hc').
    cbn [snd]. rewrite E. unfold client_close. rewrite Hc'. eexists. split; [done|].
    exists []. split; [done|]. by split_and!; try apply NoDup_nil_2.
Qed.

End Facts.
End PyVllmFacts.

Module PyVllmTheorems.
Import PyVllm PyVllmFacts.

Section Theorems.
Context `{!IterOrder Engine.RegisteredRegion} `{!Pyo3} `{!Pyo3Laws}.
Context (parse_addr : string → result string SocketAddr) {Obj : Type}.

(** The calls of a program, each on what the one before left, and what each
    returned. *)
Fixpoint run_all {TomlErr : Type} (cs : list call) (s : World * Connector (Obj := Obj)) :
    World * Connector * list (result (PyExc unit TomlErr) ()) :=
  match cs with
  | [] => (s, [])
  | c :: cs => let '(s, r) := run parse_addr c s in
               let '(s, rs) := run_all cs s in (s, r :: rs)
  end.

(** The vLLM adapter over its stub implements a finite map of saved blocks:
    through any sequence of calls no call raises, the connector's own map and
    the stub's regions hold the same blocks, those that the calls saved and
    neither unregistered nor closed, and no native client is built. *)
Theorem vllm_stub_refines_map {TomlErr : Type} dump (from_str : string → result TomlErr _) tmp detected
    config cs :
  ∃ self self', init (Obj := Obj) dump from_str tmp detected false None config = (None, Ok self) ∧
    run_all (TomlErr := TomlErr) cs (None, self) = (None, self', replicate (length cs) (Ok tt)) ∧
    holds self' (foldl (flip spec) ∅ cs).
Proof.
  assert (Hrun : ∀ (self : Connector (Obj := Obj)) m, holds self m →
    ∃ self', run_all (TomlErr := TomlErr) cs (None, self) = (None, self', replicate (length cs) (Ok tt)) ∧
             holds self' (foldl (flip spec) m cs)).
  { induction cs as [|c cs IH]; intros self m Hh; cbn [run_all foldl]; [by exists self|].
    destruct (vllm_run_holds (TomlErr := TomlErr) parse_addr c None self m Hh) as (self' & -> & Hh').
    destruct (IH self' _ Hh') as (self'' & -> & Hh''). by exists self''. }
  eexists. edestruct Hrun as (self' & E & Hh); [|exists self'; split; [reflexivity|by split]].
  exists []. split; [done|]. by split_and!; try apply NoDup_nil_2.
Qed.

(** Saves nothing to be saved. *)
Definition idle (c : call) : bool :=
  match c with Save _ blocks _ => forallb (λ b, id_of b =? 0) blocks | _ => true end.

(** Over the native client the vLLM adapter saves no block: the call of
    [register_kv_block] names a keyword that the native method does not have, so
    that every save of a block raises [TypeError] and leaves the connector and
    the client as they were; loads and unregistrations find nothing, and nothing
    but [close] ever reaches the client. *)
Theorem vllm_native_saves_nothing {TomlErr : Type} c w (self : Connector (Obj := Obj)) :
  client self = Native → block_map self = [] → c ≠ Close →
  run (TomlErr := TomlErr) parse_addr c (w, self)
    = (w, self, if idle c then Ok tt else Err TypeError).
Proof.
  intros Hc Hm Hn.
  assert (Hk : binds register_params register_keywords = false).
  { apply (unknown_keyword _ _ "size"); [by apply list_elem_of_In; cbn; tauto|].
    intros Hin%list_elem_of_In. cbn in Hin. intuition discriminate. }
  destruct c as [layer blocks worker|blocks worker|id|]; cbn [run idle]; [| | |done].
  - unfold save_kv_layer. clear Hn. induction blocks as [|b blocks IH]; cbn [py_for forallb]; [done|].
    unfold save_block at 1. destruct (id_of b =? 0); [exact IH|].
    unfold client_register, native_register. by rewrite Hc, Hk.
  - unfold start_load_kv. destruct worker; [|done]. clear Hn.
    induction blocks as [|b blocks IH]; cbn [py_for]; [done|].
    unfold load_block at 1. rewrite Hm. cbn [PyDict.get]. by destruct (id_of b =? 0).
  - unfold unregister_block. by rewrite Hm.
Qed.

(** The first configuration decides: later connectors share the client it built,
    whatever configuration they are given. *)
Lemma first_configuration_wins {TomlErr : Type} dump (from_str : string → result TomlErr _) tmp detected
    c config :
  ∃ self, init (Obj := Obj) dump from_str tmp detected true (Some c) config = (Some c, Ok self) ∧
          client self = Native ∧ block_map self = [].
Proof. by eexists. Qed.

(** A connector built without a configuration has no native client: an empty
    dict is written as an empty file, which has no section [general].  One that
    is given an object that is not a dict uses the module's own configuration,
    which is complete. *)
Lemma default_vllm_config {Syntax : Type} dump (parse : string → result Syntax (list Toml.line)) tmp
    detected doc :
  parse (dump []) = Ok [] → parse (dump default_config_dict) = Ok doc →
  Toml.table_of doc = Some default_config_dict →
  init (Obj := Obj) dump (Toml.from_str parse) tmp detected true None PyNone
    = (None, Err (Raised (Bindings.PyValueError (Bindings.OfConfig
        (Config.ParseError tmp (inr (Some (Toml.MissingField "general")))))))) ∧
  ∃ cfg, init (Obj := Obj) dump (Toml.from_str parse) tmp detected true None PyObject
           = (Some (Core.new cfg detected), Ok {| config := PyObject; client := Native; block_map := [];
               kv_caches := None; host_xfer_ops := None; handshake_metadata := None |}) ∧
         Config.default_protocol (Config.transport cfg) = "tcp"%string.
Proof.
  intros He Hd Ht. split.
  - unfold init, create_client, get_native_client, Bindings.vllm_new, Bindings.load_config,
      Config.load_from_file, Toml.from_str. cbn [or_empty map_err mbind result_bind]. by rewrite He.
  - eexists. split.
    + unfold init, create_client, get_native_client, Bindings.vllm_new, Bindings.load_config,
        Config.load_from_file, Toml.from_str. cbn [or_empty map_err mbind result_bind].
      rewrite Hd, Ht. reflexivity.
    + reflexivity.
Qed.

End Theorems.
End PyVllmTheorems.

(** ** lmcache.py *)

Module PyLmCache.
Section PyLmCache.
Context `{!IterOrder Engine.RegisteredRegion} `{!Pyo3}.
Context {TomlErr : Type} (dump : Toml.table → string).
Context (from_str : string → result TomlErr Config.VirthubConfig) (tmp : string).
Context (detected : option string).
(** Python's [hash] of a pair of integers. *)
Context (hash : Z * Z → Z).

Abbreviation exc := (PyExc unit TomlErr) (only parsing).

(** The attributes of a key, which also decide its equality. *)
Abbreviation Key := (Z * Z)%type (only parsing).
Abbreviation namespace_id := (@fst Z Z) (only parsing).
Abbreviation block_id := (@snd Z Z) (only parsing).

Inductive Region :=
  | PutRegion (m : BlockDict)
  | SubmitRegion (rkey vaddr size_bytes : Z).
Definition region_rkey (r : Region) : Z :=
  match r with PutRegion m => d_rkey m | SubmitRegion k _ _ => k end.

Record ChunkDict := {
  c_key : Key; c_tier : pyobj; c_vaddr : Z; c_size_bytes : Z; c_gpu_device_id : Z;
  c_rkey : Z; c_lkey : Z;
}.

(** [_InMemoryClient]. *)
Record InMemory := { store : PyDict.dict Key (list Z); regions : PyDict.dict Z Region }.

Definition stub_put (self : InMemory) (key : Key) (tier : pyobj) (gpu : Z) (payload : list Z)
    (va len : Z) : InMemory * ChunkDict :=
  let meta := stub_block 2000 (block_id key) va len gpu in
  ({| store := PyDict.set (store self) key payload;
      regions := PyDict.set (regions self) (block_id key) (PutRegion meta) |},
   {| c_key := key; c_tier := tier; c_vaddr := va; c_size_bytes := len; c_gpu_device_id := gpu;
      c_rkey := d_rkey meta; c_lkey := d_lkey meta |}).

Definition stub_get (self : InMemory) (key : Key) : result exc (list Z) :=
  extract KeyError (PyDict.get (store self) key).

Definition stub_remove (self : InMemory) (key : Key) : InMemory :=
  {| store := PyDict.pop (store self) key; regions := PyDict.pop (regions self) (block_id key) |}.

Definition stub_deregister (self : InMemory) (rkey : Z) : InMemory :=
  {| store := store self; regions := PyDict.del_where (λ m, region_rkey m =? rkey) (regions self) |}.

Definition stub_contains (self : InMemory) (key : Key) : bool :=
  match PyDict.get (store self) key with Some _ => true | None => false end.

(** [self.regions[hash(key) & 0xFFFF]]. *)
Definition stub_submit (self : InMemory) (key : Key) (payload : list Z) : InMemory :=
  let slot := Z.land (hash key) 0xFFFF in
  {| store := PyDict.set (store self) key payload;
     regions := PyDict.set (regions self) slot
                  (SubmitRegion (2000 + slot) 0 (Z.of_nat (length payload))) |}.

Inductive Client := Stub (c : InMemory) | Native (c : LmCache.VirthubLmCacheConnector).

Record Connector := { config : Toml.table; client : Client; block_map : PyDict.dict Z ChunkDict }.

Definition update (self : Connector) (c : Client) (m : PyDict.dict Z ChunkDict) : Connector :=
  {| config := config self; client := c; block_map := m |}.

Definition init (rust_available : bool) (config : option Toml.table) : result exc Connector :=
  let config := from_option id [] config in
  client ← (if rust_available then
              c ← map_err Raised (Bindings.lmcache_new (λ _, Ok (dump config)) from_str detected tmp);
              Ok (Native c)
            else Ok (Stub {| store := []; regions := [] |}));
  Ok {| config := config; client := client; block_map := [] |}.

(** [_RustKvBlockKey(key.namespace_id, key.block_id)]. *)
Definition native_key (key : Key) : result exc Bindings.PyKvBlockKey :=
  ns ← extract OverflowError (extract_uint 64 (namespace_id key));
  id ← extract OverflowError (extract_uint 64 (block_id key));
  Ok (Bindings.PyKey ns id).

(** [tier == "Dram"] compares with a string; a tier of the native class equals
    none. *)
Definition tier_str (tier : pyobj) : pyobj :=
  match tier with
  | PyStr "Dram" => PyStr "Dram"
  | PyStr "Ssd" => PyStr "Ssd"
  | _ => PyStr "Vram"
  end.

(** The arguments of the native [put_chunk], converted from left to right. *)
Definition put_args (key : Bindings.PyKvBlockKey) (tier : pyobj) (gpu va len : Z) :
    result exc (Bindings.PyStorageTier * Z * Z * Z) :=
  t ← extract TypeError (extract_tier tier);
  gpu ← extract OverflowError (extract_uint 32 gpu);
  va ← extract OverflowError (extract_uint 64 va);
  len ← extract OverflowError (extract_uint 64 len);
  Ok (t, gpu, va, len).

Definition put_chunk (self : Connector) (key : Key) (tier : pyobj) (gpu : Z) (payload : list Z)
    (va len : Z) : Connector * result exc ChunkDict :=
  match client self with
  | Stub c =>
      let '(c, meta) := stub_put c key tier gpu payload va len in
      (update self (Stub c) (PyDict.set (block_map self) (block_id key) meta), Ok meta)
  | Native c =>
      match (nk ← native_key key; a ← put_args nk (tier_str tier) gpu va len; Ok (nk, a)) with
      | Err e => (self, Err e)
      | Ok (nk, (t, gpu, va, len)) =>
          let '(c, r) := Bindings.lmcache_put_chunk c nk t gpu payload va len in
          match r with
          | Err e => (update self (Native c) (block_map self), Err (Raised e))
          | Ok m =>
              let meta := {| c_key := key; c_tier := tier; c_vaddr := Bindings.l_vaddr m;
                             c_size_bytes := Bindings.l_size_bytes m;
                             c_gpu_device_id := Bindings.l_gpu_device_id m;
                             c_rkey := Bindings.l_rkey m; c_lkey := Bindings.l_lkey m |} in
              (update self (Native c) (PyDict.set (block_map self) (block_id key) meta), Ok meta)
          end
      end
  end.

Definition get_chunk (self : Connector) (key : Key) : result exc (list Z) :=
  match client self with
  | Stub c => stub_get c key
  | Native c => nk ← native_key key; map_err Raised (Bindings.lmcache_get_chunk c nk)
  end.

Definition remove_chunk (self : Connector) (key : Key) : Connector * result exc () :=
  let finish self := update self (client self) (PyDict.pop (block_map self) (block_id key)) in
  match client self with
  | Stub c => (finish (update self (Stub (stub_remove c key)) (block_map self)), Ok tt)
  | Native c =>
      match native_key key with
      | Err e => (self, Err e)
      | Ok nk =>
          let '(c, r) := Bindings.lmcache_remove_chunk c nk in
          let self := update self (Native c) (block_map self) in
          match r with
          | Err e => (self, Err (Raised e))
          | Ok _ => (finish self, Ok tt)
          end
      end
  end.

(** The native method is not implemented; the stub's does nothing. *)
Definition fetch_remote_chunk (self : Connector) (key : Key) (peer_addr : string)
    (remote_vaddr remote_rkey local_vaddr size_bytes : Z) : Connector * result exc () := (self, Ok tt).

Definition deregister_memory_region (self : Connector) (rkey : Z) : Connector * result exc () :=
  match client self with
  | Stub c => (update self (Stub (stub_deregister c rkey)) (block_map self), Ok tt)
  | Native c =>
      match extract_uint 32 rkey with
      | None => (self, Err OverflowError)
      | Some rkey =>
          let '(c, r) := Bindings.lmcache_deregister_memory_region c rkey in
          (update self (Native c) (block_map self), map_err Raised r)
      end
  end.

Definition close (self : Connector) : Connector * result exc () :=
  match client self with
  | Stub _ => (update self (Stub {| store := []; regions := [] |}) [], Ok tt)
  | Native c =>
      let '(c, r) := Bindings.lmcache_close c in
      match map_err Raised r with
      | Err e => (update self (Native c) (block_map self), Err e)
      | Ok _ => (update self (Native c) [], Ok tt)
      end
  end.

Definition contains (self : Connector) (key : Key) : bool :=
  match client self with
  | Stub c => stub_contains c key
  | Native _ => match get_chunk self key with Ok _ => true | Err _ => false end
  end.

Definition submit (self : Connector) (key : Key) (payload : list Z) : Connector * result exc () :=
  match client self with
  | Stub c => (update self (Stub (stub_submit c key payload)) (block_map self), Ok tt)
  | Native _ =>
      let '(self, r) := put_chunk self key (PyStr "Dram") 0 payload 0x7FFF00000000
                          (Z.of_nat (length payload)) in
      (self, _ ← r; Ok tt)
  end.

Definition get (self : Connector) (key : Key) : result exc (list Z) := get_chunk self key.
Definition remove (self : Connector) (key : Key) : Connector * result exc () := remove_chunk self key.

Definition put_chunks_batch (self : Connector) (chunks : list (Key * pyobj * Z * list Z * Z * Z)) :
    Connector * result exc (list ChunkDict) :=
  py_collect (λ '(key, tier, gpu, payload, va, len) self, put_chunk self key tier gpu payload va len)
    chunks self.
Definition get_chunks_batch (self : Connector) (keys : list Key) : result exc (list (list Z)) :=
  (py_collect (λ key self, (self, get_chunk self key)) keys self).2.
Definition remove_chunks_batch (self : Connector) (keys : list Key) : Connector * result exc () :=
  py_for (λ key self, remove_chunk self key) keys self.

End PyLmCache.
End PyLmCache.

Module PyLmCacheTheorems.
Import PyLmCache.

Section Theorems.
Context `{!IterOrder Engine.RegisteredRegion} `{!Pyo3} `{!Pyo3Laws}.
Context {TomlErr : Type} (hash : Z * Z → Z).

Abbreviation exc := (PyExc unit TomlErr) (only parsing).
Abbreviation chunk := (Z * Z * pyobj * Z * list Z * Z * Z)%type (only parsing).

Inductive call :=
  | Put (chunks : list chunk)
  | Submit (key : Z * Z) (payload : list Z)
  | Get (keys : list (Z * Z))
  | Contains (key : Z * Z)
  | Remove (keys : list (Z * Z))
  | Deregister (rkey : Z)
  | Close.

Inductive reply := RUnit | RBytes (l : list (list Z)) | RBool (b : bool).

Definition run (c : call) (self : Connector) : Connector * result exc reply :=
  match c with
  | Put chunks => let '(self, r) := put_chunks_batch self chunks in (self, _ ← r; Ok RUnit)
  | Submit key payload => let '(self, r) := submit hash self key payload in (self, _ ← r; Ok RUnit)
  | Get keys => (self, l ← get_chunks_batch self keys; Ok (RBytes l))
  | Contains key => (self, Ok (RBool (contains (TomlErr := TomlErr) self key)))
  | Remove keys => let '(self, r) := remove_chunks_batch self keys in (self, _ ← r; Ok RUnit)
  | Deregister rkey => let '(self, r) := deregister_memory_region self rkey in (self, _ ← r; Ok RUnit)
  | Close => let '(self, r) := close self in (self, _ ← r; Ok RUnit)
  end.

(** A remote store: a finite map from keys to bytes. *)
Definition spec (c : call) (m : gmap (Z * Z) (list Z)) : gmap (Z * Z) (list Z) * result exc reply :=
  match c with
  | Put chunks => (foldl (λ m '(key, _, _, payload, _, _), <[key := payload]> m) m chunks, Ok RUnit)
  | Submit key payload => (<[key := payload]> m, Ok RUnit)
  | Get keys => (m, match mapM (λ k, m !! k) keys with Some l => Ok (RBytes l) | None => Err KeyError end)
  | Contains key => (m, Ok (RBool (bool_decide (is_Some (m !! key)))))
  | Remove keys => (foldl (λ m key, delete key m) m keys, Ok RUnit)
  | Deregister _ => (m, Ok RUnit)
  | Close => (∅, Ok RUnit)
  end.

Definition holds (self : Connector) (m : gmap (Z * Z) (list Z)) : Prop :=
  ∃ c, client self = Stub c ∧ PyDict.wf (store c) ∧ ∀ k, PyDict.get (store c) k = m !! k.

Lemma put_holds self m key tier gpu payload va len :
  holds self m →
  ∃ self' meta, put_chunk self key tier gpu payload va len = (self', Ok (E := exc) meta) ∧
                holds self' (<[key := payload]> m).
Proof.
  intros (c & Hc & Hw & Hs). unfold put_chunk. rewrite Hc. eexists _, _. split; [reflexivity|].
  eexists. split; [reflexivity|]. split; [by apply PyDict.set_wf|].
  intros k. cbn [store]. rewrite PyDict.dict_get_set, Hs, lookup_insert.
  by repeat case_decide || case_bool_decide.
Qed.

Lemma puts_hold chunks self m :
  holds self m →
  ∃ self' metas, put_chunks_batch self chunks = (self', Ok (E := exc) metas) ∧
    holds self' (foldl (λ m '(key, _, _, payload, _, _), <[key := payload]> m) m chunks).
Proof.
  unfold put_chunks_batch. revert self m. induction chunks as [|ch chunks IH]; intros self m Hh.
  - by exists self, [].
  - destruct ch as [[[[[key tier] gpu] payload] va] len]. cbn [py_collect foldl].
    destruct (put_holds self m key tier gpu payload va len Hh) as (self1 & meta & -> & Hh1).
    destruct (IH self1 _ Hh1) as (self2 & metas & -> & Hh2). by eexists _, _.
Qed.

Lemma gets_hold keys self m :
  holds self m →
  get_chunks_batch self keys = match mapM (λ k, m !! k) keys with
                               | Some l => Ok (E := exc) l
                               | None => Err KeyError
                               end.
Proof.
  intros (c & Hc & Hw & Hs). unfold get_chunks_batch.
  enough (py_collect (λ key self, (self, get_chunk (TomlErr := TomlErr) self key)) keys self
    = (self, match mapM (λ k, m !! k) keys with Some l => Ok l | None => Err KeyError end)) as -> by done.
  induction keys as [|k keys IH]; [done|]. cbn [py_collect]. rewrite IH.
  unfold get_chunk. rewrite Hc. unfold stub_get. rewrite Hs. cbn [mapM].
  destruct (m !! k); [|done]. cbn. by destruct (mapM _ keys).
Qed.

Lemma removes_hold keys self m :
  holds self m →
  ∃ self', remove_chunks_batch self keys = (self', Ok (E := exc) tt) ∧
           holds self' (foldl (λ m key, delete key m) m keys).
Proof.
  unfold remove_chunks_batch. revert self m. induction keys as [|k keys IH]; intros self m Hh.
  - by exists self.
  - destruct Hh as (c & Hc & Hw & Hs). cbn [py_for foldl]. unfold remove_chunk at 1. rewrite Hc.
    apply IH. eexists. split; [reflexivity|]. split; [by apply PyDict.pop_wf|].
    intros k'. cbn [store stub_remove]. rewrite PyDict.get_pop, Hs, lookup_delete by done.
    by repeat case_decide || case_bool_decide.
Qed.

(** C25. The LMCache adapter over its in-memory client implements a remote store:
    every call, the batched ones included, returns what a finite map from keys
    to bytes returns and leaves the adapter holding that map; only reads of an
    absent key raise, and they raise [KeyError]. *)
Theorem lmcache_stub_refines_map c self m :
  holds self m →
  ∃ self', run c self = (self', (spec c m).2) ∧ holds self' (spec c m).1.
Proof.
  intros Hh. destruct c as [chunks|key payload|keys|key|keys|rkey|]; cbn [run spec fst snd].
  - destruct (puts_hold chunks self m Hh) as (self' & metas & -> & Hh'). by exists self'.
  - destruct Hh as (c & Hc & Hw & Hs). unfold submit. rewrite Hc. eexists. split; [reflexivity|].
    eexists. split; [reflexivity|]. split; [by apply PyDict.set_wf|]. intros k. cbn [store stub_submit].
    rewrite PyDict.dict_get_set, Hs, lookup_insert. by repeat case_decide || case_bool_decide.
  - exists self. rewrite (gets_hold keys self m Hh). by destruct (mapM _ keys).
  - exists self. split; [|done]. destruct Hh as (c & Hc & Hw & Hs). unfold contains. rewrite Hc.
    unfold stub_contains. rewrite Hs. by destruct (m !! key).
  - destruct (removes_hold keys self m Hh) as (self' & -> & Hh'). by exists self'.
  - destruct Hh as (c & Hc & Hw & Hs). unfold deregister_memory_region. rewrite Hc.
    eexists. split; [reflexivity|]. by eexists.
  - destruct Hh as (c & Hc & Hw & Hs). unfold close. rewrite Hc. eexists. split; [reflexivity|].
    eexists. split; [reflexivity|]. split; [apply NoDup_nil_2|done].
Qed.

Lemma tier_str_is_str tier : ∃ s, tier_str tier = PyStr s.
Proof. unfold tier_str. repeat case_match; by eexists. Qed.

(** Over the native client the LMCache adapter stores nothing: the tier is
    passed as a string where the native method takes a tier of its own class, so
    that every [put_chunk], whichever tier it names, and every [submit] of a key
    that fits raises [TypeError] and leaves the client and the adapter's map as
    they were. *)
Theorem lmcache_native_stores_nothing self c key tier gpu payload va len :
  client self = Native c → 0 ≤ key.1 < 2 ^ 64 → 0 ≤ key.2 < 2 ^ 64 →
  put_chunk self key tier gpu payload va len = (self, Err (E := exc) TypeError) ∧
  submit hash self key payload = (self, Err (E := exc) TypeError).
Proof.
  intros Hc Hn Hi.
  assert (Hp : ∀ tier gpu payload va len,
    put_chunk self key tier gpu payload va len = (self, Err (E := exc) TypeError)).
  { intros t g p v l. unfold put_chunk, native_key, put_args. rewrite Hc.
    rewrite (uint_in_range 64 _ Hn), (uint_in_range 64 _ Hi). cbn [extract mbind result_bind].
    destruct (tier_str_is_str t) as [s ->]. by rewrite tier_of_str. }
  split; [done|]. unfold submit. by rewrite Hc, Hp.
Qed.

End Theorems.
End PyLmCacheTheorems.

(** ** sglang.py *)

Module PySglang.
Section PySglang.
Context `{!IterOrder Engine.RegisteredRegion} `{!Pyo3}.
Context {TomlErr : Type} (dump : Toml.table → string).
Context (from_str : string → result TomlErr Config.VirthubConfig) (tmp : string).
Context (parse_addr : string → result string SocketAddr) (detected : option string).

Abbreviation exc := (PyExc unit TomlErr) (only parsing).

Record PrefixDict := {
  p_prefix_hash : Z; p_token_count : Z; p_vaddr : Z; p_size_bytes : Z; p_gpu_device_id : Z;
  p_rkey : Z; p_lkey : Z;
}.

(** [_InMemoryClient]. *)
Record InMemory := { regions : PyDict.dict Z BlockDict; prefix_store : PyDict.dict Z PrefixDict }.

Definition stub_register_kv_block (self : InMemory) (id va size gpu : Z) : InMemory * BlockDict :=
  let meta := stub_block 3000 id va size gpu in
  ({| regions := PyDict.set (regions self) id meta; prefix_store := prefix_store self |}, meta).

Definition stub_deregister (self : InMemory) (rkey : Z) : InMemory :=
  {| regions := PyDict.del_where (λ m, d_rkey m =? rkey) (regions self);
     prefix_store := prefix_store self |}.

Definition stub_register_prefix (self : InMemory) (hash tokens va size gpu : Z) : InMemory * PrefixDict :=
  let '(self, meta) := stub_register_kv_block self hash va size gpu in
  let info := {| p_prefix_hash := hash; p_token_count := tokens; p_vaddr := va; p_size_bytes := size;
                 p_gpu_device_id := gpu; p_rkey := d_rkey meta; p_lkey := d_lkey meta |} in
  ({| regions := regions self; prefix_store := PyDict.set (prefix_store self) hash info |}, info).

Inductive Client := Stub (c : InMemory) | Native (c : Sglang.VirthubSglangConnector).

Record Connector := { config : Toml.table; client : Client; block_map : PyDict.dict Z PrefixDict }.

Definition update (self : Connector) (c : Client) (m : PyDict.dict Z PrefixDict) : Connector :=
  {| config := config self; client := c; block_map := m |}.

Definition init (rust_available : bool) (config : option Toml.table) : result exc Connector :=
  let config := from_option id [] config in
  client ← (if rust_available then
              c ← map_err Raised (Bindings.sglang_new (λ _, Ok (dump config)) from_str detected tmp);
              Ok (Native c)
            else Ok (Stub {| regions := []; prefix_store := [] |}));
  Ok {| config := config; client := client; block_map := [] |}.

Definition prefix_dict (m : Bindings.PySglangPrefixMeta) : PrefixDict :=
  {| p_prefix_hash := Bindings.s_prefix_hash m; p_token_count := Bindings.s_token_count m;
     p_vaddr := Bindings.s_vaddr m; p_size_bytes := Bindings.s_size_bytes m;
     p_gpu_device_id := Bindings.s_gpu_device_id m; p_rkey := Bindings.s_rkey m;
     p_lkey := Bindings.s_lkey m |}.

Definition register_prefix_node (self : Connector) (hash tokens va size gpu : Z) :
    Connector * result exc PrefixDict :=
  match client self with
  | Stub c =>
      let '(c, meta) := stub_register_prefix c hash tokens va size gpu in
      (update self (Stub c) (PyDict.set (block_map self) hash meta), Ok meta)
  | Native c =>
      match (h ← extract_uint 64 hash; t ← extract_uint 64 tokens; va ← extract_uint 64 va;
             size ← extract_uint 64 size; gpu ← extract_uint 32 gpu; Some (h, t, va, size, gpu)) with
      | None => (self, Err OverflowError)
      | Some (h, t, va, size, gpu) =>
          let '(c, r) := Bindings.sglang_register_prefix_node c h t va size gpu in
          match r with
          | Err e => (update self (Native c) (block_map self), Err (Raised e))
          | Ok m => (update self (Native c) (PyDict.set (block_map self) hash (prefix_dict m)),
                     Ok (prefix_dict m))
          end
      end
  end.

Definition register_prefix_nodes_batch (self : Connector) (items : list (Z * Z * Z * Z * Z)) :
    Connector * result exc (list PrefixDict) :=
  py_collect (λ '(hash, tokens, va, size, gpu) self, register_prefix_node self hash tokens va size gpu)
    items self.

Definition fetch_remote_prefix (self : Connector) (peer : string) (rv rk lv size : Z) :
    Connector * result exc () :=
  match client self with
  | Stub _ => (self, Ok tt)
  | Native c =>
      match (rv ← extract_uint 64 rv; rk ← extract_uint 32 rk; lv ← extract_uint 64 lv;
             size ← extract_uint 64 size; Some (rv, rk, lv, size)) with
      | None => (self, Err OverflowError)
      | Some (rv, rk, lv, size) =>
          let '(c, r) := Bindings.sglang_fetch_remote_prefix parse_addr c peer rv rk lv size in
          (update self (Native c) (block_map self), map_err Raised r)
      end
  end.

Definition deregister_memory_region (self : Connector) (rkey : Z) : Connector * result exc () :=
  match client self with
  | Stub c => (update self (Stub (stub_deregister c rkey)) (block_map self), Ok tt)
  | Native c =>
      match extract_uint 32 rkey with
      | None => (self, Err OverflowError)
      | Some rkey =>
          let '(c, r) := Bindings.sglang_deregister_memory_region c rkey in
          (update self (Native c) (block_map self), map_err Raised r)
      end
  end.

Definition unregister_prefix (self : Connector) (hash : Z) : Connector * result exc () :=
  match PyDict.get (block_map self) hash with
  | None => (self, Ok tt)
  | Some meta =>
      deregister_memory_region (update self (client self) (PyDict.pop (block_map self) hash)) (p_rkey meta)
  end.

Definition close (self : Connector) : Connector * result exc () :=
  match client self with
  | Stub _ => (update self (Stub {| regions := []; prefix_store := [] |}) [], Ok tt)
  | Native c =>
      let '(c, r) := Bindings.sglang_close c in
      match map_err Raised r with
      | Err e => (update self (Native c) (block_map self), Err e)
      | Ok _ => (update self (Native c) [], Ok tt)
      end
  end.

End PySglang.
End PySglang.

Module PySglangTheorems.
Import PySglang.

Section Theorems.
Context `{!IterOrder Engine.RegisteredRegion} `{!IterOrderLaws Engine.RegisteredRegion}.
Context `{!Pyo3} `{!Pyo3Laws}.
Context {TomlErr : Type} (parse_addr : string → result string SocketAddr).

Abbreviation exc := (PyExc unit TomlErr) (only parsing).

Inductive call :=
  | Register (hash tokens va size gpu : Z)
  | Fetch (peer : string) (rv rk lv size : Z)
  | Unregister (hash : Z)
  | Deregister (rkey : Z)
  | Close.

Definition run (c : call) (self : Connector) : Connector * result exc () :=
  match c with
  | Register hash tokens va size gpu =>
      let '(self, r) := register_prefix_node self hash tokens va size gpu in (self, _ ← r; Ok tt)
  | Fetch peer rv rk lv size => fetch_remote_prefix parse_addr self peer rv rk lv size
  | Unregister hash => unregister_prefix self hash
  | Deregister rkey => deregister_memory_region self rkey
  | Close => close self
  end.

(** Over the stub: the regions, the adapter's map and the store of prefixes. *)
Definition holds (self : Connector) (m p : gmap Z PrefixDict) (r : gmap Z BlockDict) : Prop :=
  ∃ c, client self = Stub c ∧
    PyDict.wf (regions c) ∧ PyDict.wf (prefix_store c) ∧ PyDict.wf (block_map self) ∧
    (∀ k, PyDict.get (block_map self) k = m !! k) ∧
    (∀ k, PyDict.get (prefix_store c) k = p !! k) ∧ (∀ k, PyDict.get (regions c) k = r !! k) ∧
    (∀ k x, m !! k = Some x → p_rkey x = 3000 + k) ∧ (∀ k x, r !! k = Some x → d_rkey x = 3000 + k).

Definition prefix_of (hash tokens va size gpu : Z) : PrefixDict :=
  {| p_prefix_hash := hash; p_token_count := tokens; p_vaddr := va; p_size_bytes := size;
     p_gpu_device_id := gpu; p_rkey := 3000 + hash; p_lkey := 3000 + hash |}.

Definition spec (c : call) (s : gmap Z PrefixDict * gmap Z PrefixDict * gmap Z BlockDict) :
    gmap Z PrefixDict * gmap Z PrefixDict * gmap Z BlockDict :=
  let '(m, p, r) := s in
  match c with
  | Register hash tokens va size gpu =>
      (<[hash := prefix_of hash tokens va size gpu]> m, <[hash := prefix_of hash tokens va size gpu]> p,
       <[hash := stub_block 3000 hash va size gpu]> r)
  | Fetch _ _ _ _ _ => (m, p, r)
  | Unregister hash => match m !! hash with
                       | Some _ => (delete hash m, p, delete hash r)
                       | None => (m, p, r)
                       end
  | Deregister rkey => (m, p, delete (rkey - 3000) r)
  | Close => (∅, ∅, ∅)
  end.

Lemma deregister_holds self m p r rkey :
  holds self m p r →
  ∃ self', deregister_memory_region self rkey = (self', Ok (E := exc) tt) ∧
           holds self' m p (delete (rkey - 3000) r).
Proof.
  intros (c & Hc & Hw1 & Hw2 & Hw3 & Hm & Hp & Hr & Hk1 & Hk2).
  unfold deregister_memory_region. rewrite Hc. eexists. split; [reflexivity|].
  eexists. split; [reflexivity|]. cbn [regions prefix_store stub_deregister block_map update].
  split_and!; [by apply PyDict.del_where_wf|done..| |done|].
  - intros k. rewrite PyDict.get_del_where, Hr, lookup_delete by done.
    destruct (r !! k) as [b|] eqn:E; cbn [mbind option_bind]; [|by case_decide].
    rewrite (Hk2 k b E). case_decide; [by rewrite (proj2 (Z.eqb_eq _ _)) by lia|].
    by rewrite (proj2 (Z.eqb_neq _ _)) by lia.
  - intros k x. rewrite lookup_delete. case_decide; [done|apply Hk2].
Qed.

Lemma sglang_run_holds c self m p r :
  holds self m p r →
  ∃ self', run c self = (self', Ok tt) ∧
    let '(m', p', r') := spec c (m, p, r) in holds self' m' p' r'.
Proof.
  intros Hh. destruct c as [hash tokens va size gpu|peer rv rk lv size|hash|rkey|]; cbn [run spec].
  - destruct Hh as (c & Hc & Hw1 & Hw2 & Hw3 & Hm & Hp & Hr & Hk1 & Hk2).
    unfold register_prefix_node. rewrite Hc. eexists. split; [reflexivity|].
    eexists. split; [reflexivity|]. cbn [regions prefix_store block_map update].
    split_and!; [by apply PyDict.set_wf..| | | | |].
    1-3: intros k; rewrite PyDict.dict_get_set, lookup_insert, ?Hm, ?Hp, ?Hr;
         by repeat case_decide || case_bool_decide.
    + intros k x. rewrite lookup_insert. case_decide; [|apply Hk1]. by intros [= <-]; subst.
    + intros k x. rewrite lookup_insert. case_decide; [|apply Hk2]. by intros [= <-]; subst.
  - exists self. split; [|done]. destruct Hh as (c & Hc & _). unfold fetch_remote_prefix. by rewrite Hc.
  - unfold unregister_prefix. pose proof Hh as (c & Hc & Hw1 & Hw2 & Hw3 & Hm & Hp & Hr & Hk1 & Hk2).
    rewrite Hm. destruct (m !! hash) as [x|] eqn:E; [|by exists self].
    replace (delete hash r) with (delete (p_rkey x - 3000) r) by (f_equal; rewrite (Hk1 hash x E); lia).
    apply deregister_holds. exists c. cbn [client block_map update].
    split_and!; try done; [by apply PyDict.pop_wf| |].
    + intros k. rewrite PyDict.get_pop, Hm, lookup_delete by done. by repeat case_decide || case_bool_decide.
    + intros k y. rewrite lookup_delete. case_decide; [done|apply Hk1].
  - by apply deregister_holds.
  - destruct Hh as (c & Hc & _). unfold close. rewrite Hc. eexists. split; [reflexivity|].
    eexists. split; [reflexivity|]. by split_and!; try apply NoDup_nil_2.
Qed.

(** A registration is of a range the transport does not hold yet. *)
Definition fresh (c : call) (k : Sglang.VirthubSglangConnector) : Prop :=
  match c with
  | Register _ _ va size _ => ConnectorFacts.fresh_range (Core.rma_engine k) va size
  | _ => True
  end.

(** The native client after a call keeps the invariant and what was live. *)
Definition keeps (n : Z) (k : Sglang.VirthubSglangConnector) (self : Connector) : Prop :=
  ∃ k', client self = Native k' ∧ ConnectorFacts.core_inv (n + 1) k' ∧
        BindingsTheorems.live k ⊆ BindingsTheorems.live k'.

Lemma keeps_same n k self : client self = Native k → ConnectorFacts.core_inv n k → keeps n k self.
Proof. intros Hc Hi. exists k. split_and!; [done|by apply ConnectorTheorems.core_inv_weaken|done]. Qed.

Lemma deregister_same self k rkey :
  client self = Native k → client (deregister_memory_region (TomlErr := TomlErr) self rkey).1 = Native k.
Proof. intros Hc. unfold deregister_memory_region. rewrite Hc. by destruct (extract_uint 32 rkey). Qed.

Lemma register_keeps self k n hash tokens va size gpu :
  client self = Native k → ConnectorFacts.core_inv n k → n + 1 < 2 ^ 32 →
  ConnectorFacts.fresh_range (Core.rma_engine k) va size →
  keeps n k (register_prefix_node (TomlErr := TomlErr) self hash tokens va size gpu).1.
Proof.
  intros Hc Hi Hn Hf. unfold register_prefix_node. rewrite Hc.
  destruct (extract_uint 64 va) as [va'|] eqn:Ev, (extract_uint 64 size) as [size'|] eqn:Es,
    (extract_uint 64 hash) as [h|], (extract_uint 64 tokens) as [t|], (extract_uint 32 gpu) as [g|];
    cbn [mbind option_bind fst]; try by apply keeps_same.
  assert (va' = va ∧ size' = size) as [-> ->].
  { destruct (decide (0 ≤ va < 2 ^ 64)) as [Hv|Hv], (decide (0 ≤ size < 2 ^ 64)) as [Hs|Hs];
      rewrite ?(uint_in_range _ _ Hv), ?(uint_out_of_range _ _ Hv) in Ev;
      rewrite ?(uint_in_range _ _ Hs), ?(uint_out_of_range _ _ Hs) in Es; by simplify_eq. }
  destruct (BindingsTheorems.sglang_call_inv (IoErr := unit) (TomlErr := TomlErr) parse_addr n k _ Hi Hn
    (BindingsTheorems.CallRegister parse_addr k h t va size g Hf)) as [Hi' Hl].
  destruct (Bindings.sglang_register_prefix_node k h t va size g) as [k' [m|e]];
    cbn [fst] in *; by exists k'.
Qed.

(** Over the native client what the transport holds is never released: every
    call of the adapter, [unregister_prefix] and [close] included, keeps each
    live registration. *)
Theorem sglang_native_keeps_registrations c self k n :
  client self = Native k → ConnectorFacts.core_inv n k → n + 1 < 2 ^ 32 → fresh c k →
  keeps n k (run c self).1.
Proof.
  intros Hc Hi Hn Hf.
  destruct c as [hash tokens va size gpu|peer rv rk lv size|hash|rkey|]; cbn [run].
  - pose proof (register_keeps self k n hash tokens va size gpu Hc Hi Hn Hf) as Hk.
    by destruct (register_prefix_node self hash tokens va size gpu).
  - unfold fetch_remote_prefix. rewrite Hc.
    destruct (extract_uint 64 rv) as [a|], (extract_uint 32 rk) as [b|], (extract_uint 64 lv) as [d|],
      (extract_uint 64 size) as [e|]; cbn [mbind option_bind fst]; try by apply keeps_same.
    destruct (BindingsTheorems.sglang_call_inv (IoErr := unit) (TomlErr := TomlErr) parse_addr n k _ Hi Hn
      (BindingsTheorems.CallFetch parse_addr k peer a b d e)) as [Hi' Hl].
    destruct (Bindings.sglang_fetch_remote_prefix parse_addr k peer a b d e) as [k' r].
    cbn [fst] in *. by exists k'.
  - unfold unregister_prefix. destruct (PyDict.get _ hash); [|by apply keeps_same].
    apply keeps_same; [by apply deregister_same|done].
  - apply keeps_same; [by apply deregister_same|done].
  - unfold close. rewrite Hc. by apply keeps_same.
Qed.

End Theorems.
End PySglangTheorems.

(** ** Examples *)

Module PyAdapterExamples.

#[local] Existing Instance RmaTheorems.in_key_order.
#[local] Existing Instance RmaTheorems.in_key_order_laws.

(** A binder of calls that behaves as documented. *)
#[local] Instance strict_pyo3 : Pyo3 := {|
  binds params kws := bool_decide (Forall (λ k, k ∈ params) kws);
  extract_uint w z := if bool_decide (0 ≤ z < 2 ^ w) then Some z else None;
  extract_tier o := match o with PyTier t => Some t | PyStr _ => None end;
|}.

#[local] Instance strict_pyo3_laws : Pyo3Laws.
Proof.
  split; cbn; intros; try done.
  - apply bool_decide_eq_false. rewrite Forall_forall. intros Hf. by apply Hf in H.
  - apply bool_decide_eq_true, Forall_forall. done.
  - by rewrite bool_decide_eq_true_2.
  - by rewrite bool_decide_eq_false_2.
Qed.

Definition block7 : PyVllm.Block :=
  {| PyVllm.b_block_id := Some 7; PyVllm.gpu_ptr := 4096; PyVllm.b_size := 4096 |}.
Definition native_connector : PyVllm.Connector (Obj := unit) :=
  {| PyVllm.config := PyVllm.PyObject; PyVllm.client := PyVllm.Native; PyVllm.block_map := [];
     PyVllm.kv_caches := None; PyVllm.host_xfer_ops := None; PyVllm.handshake_metadata := None |}.

Lemma vllm_native_saves_nothing_witness :
  PyVllm.save_kv_layer (TomlErr := unit) 0 [block7] {| PyVllm.device_id := 0 |}
      (Some (Core.new Config.default None), native_connector)
    = (Some (Core.new Config.default None), native_connector, Err TypeError).
Proof.
  exact (PyVllmTheorems.vllm_native_saves_nothing (TomlErr := unit) BindingsTheorems.any_addr
    (PyVllmFacts.Save 0 [block7] {| PyVllm.device_id := 0 |})
    (Some (Core.new Config.default None)) native_connector eq_refl eq_refl ltac:(discriminate)).
Defined.

Definition empty_store : PyLmCache.Connector :=
  {| PyLmCache.config := []; PyLmCache.client := PyLmCache.Stub {| PyLmCache.store := []; PyLmCache.regions := [] |};
     PyLmCache.block_map := [] |}.

Lemma lmcache_stub_refines_map_witness :
  ∃ self', PyLmCacheTheorems.run (TomlErr := unit) fst
             (PyLmCacheTheorems.Put [((1, 2), PyStr "Ssd", 0, [5; 6], 4096, 2)]) empty_store
           = (self', Ok PyLmCacheTheorems.RUnit) ∧
           PyLmCacheTheorems.holds self' {[ (1, 2) := [5; 6] ]}.
Proof.
  apply (PyLmCacheTheorems.lmcache_stub_refines_map (TomlErr := unit) fst
    (PyLmCacheTheorems.Put [((1, 2), PyStr "Ssd", 0, [5; 6], 4096, 2)]) empty_store ∅).
  eexists. split; [reflexivity|]. split; [apply NoDup_nil_2|]. intros k. reflexivity.
Defined.

Definition native_store : PyLmCache.Connector :=
  {| PyLmCache.config := [];
     PyLmCache.client := PyLmCache.Native (LmCache.LmCacheConnector (Core.new Config.default None) ∅);
     PyLmCache.block_map := [] |}.

Lemma lmcache_native_stores_nothing_witness :
  PyLmCache.submit fst native_store (1, 2) [5; 6] = (native_store, Err (E := PyExc unit unit) TypeError).
Proof.
  refine (proj2 (PyLmCacheTheorems.lmcache_native_stores_nothing (TomlErr := unit) fst native_store _
    (1, 2) (PyTier Bindings.PyDram) 0 [5; 6] 4096 4096 eq_refl _ _)); cbn; lia.
Defined.

(** Two namespaces share an entry of the adapter's map. *)
Lemma namespaces_share_block_map :
  let s := (PyLmCache.put_chunk (TomlErr := unit) empty_store (1, 2) (PyStr "Dram") 0 [5] 4096 1).1 in
  let s := (PyLmCache.put_chunk (TomlErr := unit) s (9, 2) (PyStr "Dram") 0 [6] 8192 1).1 in
  let s := (PyLmCache.remove_chunk (TomlErr := unit) s (1, 2)).1 in
  PyLmCache.get_chunk (TomlErr := unit) s (9, 2) = Ok [6] ∧ PyLmCache.block_map s = [].
Proof. vm_compute. split; reflexivity. Qed.

Lemma sglang_native_keeps_registrations_witness :
  ∃ k', PySglang.client (PySglang.close (TomlErr := unit)
          {| PySglang.config := []; PySglang.client := PySglang.Native BindingsTheorems.sglang0;
             PySglang.block_map := [] |}).1 = PySglang.Native k' ∧
        BindingsTheorems.live BindingsTheorems.sglang0 ⊆ BindingsTheorems.live k'.
Proof.
  destruct (PySglangTheorems.sglang_native_keeps_registrations (TomlErr := unit)
    BindingsTheorems.any_addr PySglangTheorems.Close
    {| PySglang.config := []; PySglang.client := PySglang.Native BindingsTheorems.sglang0;
       PySglang.block_map := [] |} BindingsTheorems.sglang0 1) as (k' & E & _ & Hl);
    [reflexivity|apply ConnectorFacts.core_new_inv|reflexivity|exact I|].
  exists k'. split; [exact E|exact Hl].
Defined.

End PyAdapterExamples.
