(* ===== verification/Conformance.v ===== *)
(** * The repository's unit tests, on the model

    Each definition transcribes the [#[cfg(test)]] module of one source file:
    a list of tests, a test being a program that ends in [Some tt] when every
    [unwrap] succeeds and every assertion holds.  The lemma after it runs the
    tests on the definitions of this development, in a build with overflow
    checks.  What the tests take from the outside is fixed here: the mapping of
    a pool is granted at 65536, a codec is an injective one.  Time measurements
    and log output are left out. *)

From stdpp Require Import strings.
From S2P Require Import Prelude F64 Precision KvBlock HashIndex RadixTree Eviction StagingPool TierManager.
From S2P Require Import Quantization DeviceQuant Config ConfigToml.

Module TestMonad.

Definition test : Type := option ().

Definition passed (t : test) : bool := match t with Some _ => true | None => false end.
Definition all_pass (ts : list test) : bool := forallb passed ts.

(** [unwrap], [expect] and [unwrap_err]. *)
Definition ret {A} (o : outcome A) : option A := match o with Ret a => Some a | _ => None end.
Definition ok {E A} (r : result E A) : option A := match r with Ok a => Some a | Err _ => None end.
Definition err {E A} (r : result E A) : option E := match r with Err e => Some e | Ok _ => None end.

(** [assert!] and [assert_eq!]. *)
Definition check (b : bool) : test := if b then Some tt else None.
Definition eq {A} `{EqDecision A} (x y : A) : test := check (bool_decide (x = y)).

Definition is_ok {E A} (r : result E A) : bool := match r with Ok _ => true | Err _ => false end.
Definition is_err {E A} (r : result E A) : bool := negb (is_ok r).

(** [for x in xs { f(x) }] over a state. *)
Fixpoint for_each {S X} (xs : list X) (s : S) (f : S → X → option S) : option S :=
  match xs with [] => Some s | x :: xs => s ← f s x; for_each xs s f end.

(** [a - b] is closer to 0 than [eps]. *)
Definition close_f32 (a b eps : spec_float) : test :=
  check (SFltb (SFabs (SFsub 24 128 a b)) eps).

End TestMonad.

Module IndexTests.
Import TestMonad.

#[local] Instance dev : BuildProfile := Dev.

#[local] Instance SlotValue_eq_dec : EqDecision Index.IndexSlotValue.
Proof. solve_decision. Defined.
#[local] Instance LeafValue_eq_dec : EqDecision Radix.RadixLeafValue.
Proof. solve_decision. Defined.

Definition insert (i : Index.ConcurrentHashIndex) k v : option Index.ConcurrentHashIndex :=
  '(r, i) ← ret (Index.insert i k v); _ ← ok r; Some i.
Definition get (i : Index.ConcurrentHashIndex) k : option Index.IndexSlotValue :=
  r ← ret (Index.get i k); ok r.

Definition hash_index_tests : list test := [
  (** test_insert_and_get *)
  (i ← ret (Index.new 64); let key := KvKey 1 100 in let val := Index.SlotValue 0 4096 2048 in
   i ← insert i key val; _ ← eq (Index.len i) 1;
   v ← get i key; eq v val);
  (** test_update_existing_key *)
  (i ← ret (Index.new 64); let key := KvKey 1 200 in
   i ← insert i key (Index.SlotValue 0 0 1024); i ← insert i key (Index.SlotValue 1 8192 1024);
   _ ← eq (Index.len i) 1;
   v ← get i key; _ ← eq (Index.tier_id v) 1; eq (Index.block_offset v) 8192);
  (** test_remove_with_backward_shift *)
  (i ← ret (Index.new 64); let k1 := KvKey 1 101 in let k2 := KvKey 1 102 in
   let v1 := Index.SlotValue 0 1000 512 in let v2 := Index.SlotValue 0 2000 512 in
   i ← insert i k1 v1; i ← insert i k2 v2; _ ← eq (Index.len i) 2;
   '(r, i) ← ret (Index.remove i k1); removed ← ok r; _ ← eq removed v1; _ ← eq (Index.len i) 1;
   v ← get i k2; eq v v2);
  (** test_capacity_exceeded *)
  (i ← ret (Index.new 16);
   i ← for_each (seqZ 0 12) i (λ i n, insert i (KvKey 1 n) (Index.SlotValue 0 (n * 4096) 512));
   i ← insert i (KvKey 1 12) (Index.SlotValue 0 (12 * 4096) 512);
   '(r, i) ← ret (Index.insert i (KvKey 1 13) (Index.SlotValue 0 (13 * 4096) 512));
   e ← err r;
   check (match e with Index.CapacityExceeded 16 => true | _ => false end));
  (** test_iter *)
  (i ← ret (Index.new 64);
   i ← for_each [(0, KvKey 1 1); (1, KvKey 1 2); (2, KvKey 2 1)] i
         (λ i '(n, k), insert i k (Index.SlotValue 0 n 10));
   eq (length (Index.iter i)) 3%nat)
].

Lemma hash_index_tests_pass : all_pass hash_index_tests = true.
Proof. vm_compute. reflexivity. Qed.

Definition insert_leaf (t : Radix.ConcurrentRadixTree) a v : option Radix.ConcurrentRadixTree :=
  '(r, t) ← ret (Radix.insert t a v); _ ← ok r; Some t.

Definition radix_tree_tests : list test := [
  (** test_radix_tree_insert_and_lookup *)
  (let vaddr := 0x7fff10000000 in let leaf := Radix.LeafValue (KvKey 1 42) 2048 1 in
   t ← insert_leaf Radix.new vaddr leaf; _ ← eq (Radix.len t) 1;
   v ← ok (Radix.lookup t vaddr); eq v leaf);
  (** test_radix_tree_unmapped_lookup *)
  (check (match Radix.lookup Radix.new 0x7fff99990000 with
          | Err (Radix.AddressUnmapped _) => true | _ => false end));
  (** test_radix_tree_range_scan *)
  (let base := 0x7fff00000000 in let page := 2 * 1024 * 1024 in
   t ← for_each (seqZ 0 4) Radix.new
         (λ t i, insert_leaf t (base + i * page) (Radix.LeafValue (KvKey 100 i) (i * 4096) 0));
   _ ← eq (Radix.len t) 4;
   l ← ret (Radix.lookup_range 10 t base (base + 4 * page) page);
   _ ← eq (length l) 4%nat;
   first ← l !! 0%nat; _ ← eq (fst first) base;
   last ← l !! 3%nat; eq (fst last) (base + 3 * page));
  (** test_variable_sized_inserts *)
  (t ← insert_leaf Radix.new 0x1000 (Radix.LeafValue (KvKey 1 1) 0 0);
   t ← insert_leaf t 0x200000 (Radix.LeafValue (KvKey 1 2) 0 0);
   t ← insert_leaf t 0x7fff12345678 (Radix.LeafValue (KvKey 1 3) 0 0);
   _ ← eq (Radix.len t) 3;
   _ ← check (is_ok (Radix.lookup t 0x1000)); _ ← check (is_ok (Radix.lookup t 0x200000));
   check (is_ok (Radix.lookup t 0x7fff12345678)))
].

Lemma radix_tree_tests_pass : all_pass radix_tree_tests = true.
Proof. vm_compute. reflexivity. Qed.

Definition eviction_tests : list test := [
  (** test_two_q_eviction_lifecycle *)
  (p ← ret (Eviction.touch Eviction.new (KvKey 1 100)); p ← ret (Eviction.touch p (KvKey 1 101));
   let '(r, p) := Eviction.evict_next p in e ← ok r; _ ← eq e (KvKey 1 100);
   let '(r, p) := Eviction.evict_next p in e ← ok r; _ ← eq e (KvKey 1 101);
   check (is_err (fst (Eviction.evict_next p))))
].

Lemma eviction_tests_pass : all_pass eviction_tests = true.
Proof. vm_compute. reflexivity. Qed.

(** index/src/lib.rs *)
Definition index_crate_tests : list test := [
  (** test_two_q_eviction_policy_instantiation *)
  (let policy := Eviction.new in Some tt);
  (** test_hash_index_creation *)
  (i ← ret (Index.new 64); _ ← eq (Index.capacity i) 64; check (Index.is_empty i));
  (** test_radix_tree_creation *)
  (check (Radix.is_empty Radix.new))
].

Lemma index_crate_tests_pass : all_pass index_crate_tests = true.
Proof. vm_compute. reflexivity. Qed.

End IndexTests.

Module StoreTests.
Import TestMonad.

#[local] Instance dev : BuildProfile := Dev.
#[local] Existing Instance ExampleCodec.example_codec.
#[local] Existing Instance ExampleCodec.sidecar_eq_dec.
#[local] Existing Instance Policy.PackedBlockPolicy_eq_dec.

Definition mmap : Z → result Z Z := StagingTheorems.fixed_mmap 65536.

Definition kv_block_tests : list test := [
  (** test_kv_block_checksum_verification *)
  (let '(block, h) := Block.new (KvKey 1 100) [1; 2; 3; 4; 5; 6; 7; 8] ∅ in
   _ ← check (is_ok (Block.verify_checksum block));
   let corrupted := Block.write_payload block 0 (Z.lxor 1 0xFF) in
   check (match Block.verify_checksum corrupted with
          | Err (ChecksumMismatch _ _) => true | _ => false end));
  (** test_kv_block_serialization_roundtrip_with_metadata *)
  (let key := KvKey 42 1001 in let payload := replicate 512 0xAB in
   let policy := Policy.new Policy.Fp8 false 0xFFFFFF in
   let '(block, h) := Block.new_with_policy key payload (Some policy) (Some PspKv.default_sidecar) ∅ in
   bytes ← ok (Block.serialize block);
   '(decoded, h) ← ok (Block.deserialize bytes h);
   _ ← eq (hdr_key (Block.header decoded)) key; _ ← eq (Block.payload decoded) payload;
   _ ← eq (Block.precision_policy decoded) (Some policy);
   eq (Block.sidecar decoded) (Some PspKv.default_sidecar));
  (** test_raw_block_buffer_aligned_allocation *)
  (b ← ok (RawBlock.allocate (λ _ _, true) 4096 64);
   _ ← eq (RawBlock.capacity b) 4096;
   let s := <[4095%nat := 0xEF]> (<[0%nat := 0xFE]> (RawBlock.as_slice b)) in
   _ ← eq (s !! 0%nat) (Some 0xFE); eq (s !! 4095%nat) (Some 0xEF));
  (** test_clone_shares_payload: a clone is the same value *)
  (let '(block, h) := Block.new (KvKey 1 1) (replicate 1024 0) ∅ in
   let clone := block in eq (Block.payload block) (Block.payload clone));
  (** test_mutation_after_clone_is_copy_on_write *)
  (let '(original, h) := Block.new (KvKey 2 2) (replicate 10 0) ∅ in
   let clone := Block.write_payload original 0 1 in
   _ ← eq (Block.payload original !! 0%nat) (Some 0); eq (Block.payload clone !! 0%nat) (Some 1))
].

Lemma kv_block_tests_pass : all_pass kv_block_tests = true.
Proof. vm_compute. reflexivity. Qed.

Definition new_pool (num size : Z) : option Staging.StagingMemoryPool :=
  r ← ret (Staging.new mmap num size 0); ok r.
Definition pop (p : Staging.StagingMemoryPool) : option (Staging.StagingSlotHandle * Staging.StagingMemoryPool) :=
  '(r, p) ← ret (Staging.pop_slot p); s ← ok r; Some (s, p).
Definition push (p : Staging.StagingMemoryPool) (s : Staging.StagingSlotHandle) :
    option Staging.StagingMemoryPool :=
  let '(r, p) := Staging.push_slot p (Staging.slot_idx s) in _ ← ok r; Some p.
Definition f64_eq (x y : f64) : test := check (SFeqb x y).

Definition staging_pool_tests : list test := [
  (** test_staging_pool_lifecycle *)
  (p ← new_pool 4 Staging.PAGE_SIZE_4K;
   _ ← eq (Staging.available_slots p) 4; _ ← eq (Staging.active_slots p) 0;
   '(s, p) ← pop p; _ ← eq (Staging.available_slots p) 3; _ ← eq (Staging.active_slots p) 1;
   p ← push p s; _ ← eq (Staging.available_slots p) 4; eq (Staging.active_slots p) 0);
  (** test_variable_slot_sizes *)
  (p ← new_pool 8 4096; _ ← eq (Staging.slot_page_size p) 4096;
   '(s, p) ← pop p; _ ← eq (Staging.size s) 4096; p ← push p s;
   p2 ← new_pool 2 Staging.PAGE_SIZE_2M; _ ← eq (Staging.slot_page_size p2) Staging.PAGE_SIZE_2M;
   '(s2, p2) ← pop p2; eq (Staging.size s2) Staging.PAGE_SIZE_2M);
  (** test_batch_operations *)
  (p ← new_pool 10 Staging.PAGE_SIZE_4K;
   '(slots, p) ← ret (Staging.pop_slots_batch p 5);
   _ ← eq (length slots) 5%nat; _ ← eq (Staging.active_slots p) 5;
   p ← for_each slots p push;
   _ ← eq (Staging.active_slots p) 0; eq (Staging.available_slots p) 10);
  (** test_utilization *)
  (p ← new_pool 4 Staging.PAGE_SIZE_4K; _ ← f64_eq (Staging.utilization p) (f64_of_Z 0);
   '(s, p) ← pop p; _ ← f64_eq (Staging.utilization p) (f64_lit 25 100);
   p ← push p s; f64_eq (Staging.utilization p) (f64_of_Z 0));
  (** test_has_capacity *)
  (p ← new_pool 4 Staging.PAGE_SIZE_4K;
   _ ← check (Staging.has_capacity p 4); _ ← check (negb (Staging.has_capacity p 5));
   '(_, p) ← pop p;
   _ ← check (Staging.has_capacity p 3); check (negb (Staging.has_capacity p 4)))
].

Lemma staging_pool_tests_pass : all_pass staging_pool_tests = true.
Proof. vm_compute. reflexivity. Qed.

Definition GB : Z := 1024 * 1024 * 1024.

Definition tier_manager_tests : list test := [
  (** test_storage_tier_usage *)
  (let m := Tier.new in _ ← eq (Tier.get_usage m Tier.Dram) 0;
   let m := Tier.allocate m Tier.Dram 1024 in _ ← eq (Tier.get_usage m Tier.Dram) 1024;
   let m := Tier.deallocate m Tier.Dram 512 in eq (Tier.get_usage m Tier.Dram) 512);
  (** test_try_allocate_capacity *)
  (let '(r, m) := Tier.try_allocate Tier.new Tier.Dram (17 * GB) in _ ← check (is_err r);
   let '(r, m) := Tier.try_allocate m Tier.Dram 1024 in _ ← check (is_ok r);
   eq (Tier.get_usage m Tier.Dram) 1024);
  (** test_deallocate_underflow_prevention *)
  (eq (Tier.get_usage (Tier.deallocate Tier.new Tier.Dram 1024) Tier.Dram) 0);
  (** test_utilization *)
  (let '(u, m) := Tier.utilization Tier.new Tier.Dram in _ ← f64_eq u (f64_of_Z 0);
   let m := Tier.allocate m Tier.Dram (8 * GB) in
   let '(u, m) := Tier.utilization m Tier.Dram in
   check (SFltb (SFabs (f64_sub u (f64_lit 5 10))) (f64_lit 1 1000000)));
  (** test_batch_operations *)
  (let m := Tier.allocate_batch Tier.new [(Tier.Dram, 1000); (Tier.Ssd, 2000); (Tier.Vram, 3000)] in
   _ ← eq (Tier.get_usage m Tier.Dram) 1000; _ ← eq (Tier.get_usage m Tier.Ssd) 2000;
   _ ← eq (Tier.get_usage m Tier.Vram) 3000;
   let m := Tier.deallocate_batch m [(Tier.Dram, 500); (Tier.Ssd, 1500)] in
   _ ← eq (Tier.get_usage m Tier.Dram) 500; _ ← eq (Tier.get_usage m Tier.Ssd) 500;
   eq (Tier.get_usage m Tier.Vram) 3000)
].

Lemma tier_manager_tests_pass : all_pass tier_manager_tests = true.
Proof. vm_compute. reflexivity. Qed.

(** Single-precision constants, by numerator and denominator. *)
Definition f32c (num den : Z) : spec_float := f32_lit num den.
Definition bits (num den : Z) : Z := Quant.to_bits (f32c num den).

Definition roundtrip (quantize : Z → Z) (dequantize : Z → spec_float) (eps : spec_float)
    (v : Z * Z) : test :=
  close_f32 (f32c (fst v) (snd v)) (dequantize (quantize (bits (fst v) (snd v)))) eps.
Definition roundtrips quantize dequantize eps (vs : list (Z * Z)) : test :=
  for_each vs tt (λ _ v, roundtrip quantize dequantize eps v).

(** [log2().round()] at the two arguments of the test. *)
Definition log2_round (x : spec_float) : Z :=
  if SFeqb x (f32c 4 1) then 2 else if SFeqb x (f32c 6 1) then 3 else 0.

Definition quantization_tests : list test := [
  (** test_fp8_e4m3_roundtrip *)
  roundtrips Quant.quantize_fp8_e4m3 Quant.dequantize_fp8_e4m3 (f32c 1 10)
    [(0, 1); (1, 1); (-1, 1); (1, 2); (2, 1); (1, 8); (6, 1); (-1, 4)];
  (** test_fp8_e5m2_roundtrip *)
  roundtrips Quant.quantize_fp8_e5m2 Quant.dequantize_fp8_e5m2 (f32c 2 10)
    [(0, 1); (1, 1); (-1, 1); (1, 2); (2, 1); (1, 4); (8, 1); (-1, 8)];
  (** test_fp4_pair_packing *)
  eq (Quant.unpack_fp4_pair (Quant.pack_fp4_pair 0x5 0xA)) (0x5, 0xA);
  (** test_fp4_e2m1_roundtrip *)
  roundtrips Quant.quantize_fp4_e2m1 Quant.dequantize_fp4_e2m1 (f32c 4 10)
    [(0, 1); (1, 2); (1, 1); (3, 2); (2, 1); (3, 1); (-1, 2); (-2, 1)];
  (** test_e8m0_conversion *)
  (_ ← check (SFeqb (Quant.e8m0_to_f32 0) (f32c 1 1)); _ ← check (SFeqb (Quant.e8m0_to_f32 1) (f32c 2 1));
   _ ← check (SFeqb (Quant.e8m0_to_f32 3) (f32c 8 1));
   let f := Quant.f32_to_e8m0 log2_round in
   _ ← eq (f (f32c 4 1)) 2; _ ← eq (f (f32c 6 1)) 3; _ ← eq (f (S754_infinity false)) 255;
   _ ← eq (f S754_nan) 0; _ ← eq (f (f32c 0 1)) 0; eq (f (f32c (-1) 1)) 0)
].

Lemma quantization_tests_pass : all_pass quantization_tests = true.
Proof. vm_compute. reflexivity. Qed.

#[local] Instance PspKvFormat_eq_dec : EqDecision PspKv.PspKvFormat.
Proof. solve_decision. Defined.

Definition psp_kv_tests : list test := [
  (** test_psp_kv_format_from_u8 *)
  (_ ← eq (PspKv.format_from_u8 0) PspKv.Basic; _ ← eq (PspKv.format_from_u8 1) PspKv.Enhanced;
   _ ← eq (PspKv.format_from_u8 2) PspKv.BtKv; eq (PspKv.format_from_u8 9) PspKv.Basic);
  (** test_sidecar_descriptor_alignment_and_size *)
  eq Sidecar.c_sizeof 64;
  (** test_default_sidecar_values *)
  (let d := PspKv.default_sidecar in
   _ ← eq (PspKv.data_page_base_ptr d) 0; _ ← eq (PspKv.residual_page_ptr d) 0;
   _ ← eq (PspKv.head_presence_mask d) 0xFFFFFFFFFFFFFFFF; _ ← eq (PspKv.base_precision d) 0;
   _ ← eq (PspKv.compression_level d) 0; _ ← eq (PspKv.head_group_size d) 1;
   _ ← eq (PspKv.reserved_flags d) 0; _ ← eq (PspKv.per_head_scale_e8m0 d) (replicate 8 0);
   eq (PspKv.reserved_padding d) (replicate 28 0));
  (** test_btkv_tile_container_size *)
  (let c := PspKv.tile_new (replicate 32 0xAB) [1] 32 in
   _ ← eq (PspKv.size_bytes c) 33; eq (PspKv.group_size c) 32)
].

Lemma psp_kv_tests_pass : all_pass psp_kv_tests = true.
Proof. vm_compute. reflexivity. Qed.

(** store/src/lib.rs *)
Definition store_crate_tests : list test := [
  (** test_kv_block_key *)
  (let key := KvKey 101 202 in _ ← eq (namespace_id key) 101; eq (block_id key) 202);
  (** test_tier_capacity_config *)
  check (0 <? Tier.max_capacity_bytes Tier.default_dram);
  (** test_staging_pool_creation *)
  (p ← new_pool 4 Staging.PAGE_SIZE_4K; eq (Staging.available_slots p) 4);
  (** test_psp_kv_format_default *)
  eq (PspKv.format_from_u8 1) PspKv.Enhanced;
  (** test_quantization_helpers_available *)
  (let q := Quant.quantize_fp8_e4m3 (bits 1 1) in _ ← check (0 <? q);
   close_f32 (Quant.dequantize_fp8_e4m3 q) (f32c 1 1) (f32c 1 10))
].

Lemma store_crate_tests_pass : all_pass store_crate_tests = true.
Proof. vm_compute. reflexivity. Qed.

End StoreTests.

Module PrecisionTests.
Import TestMonad Policy Hysteresis PredictorM.

#[local] Instance dev : BuildProfile := Dev.

(** The fields of profile [l] that a test states. *)
Definition at_ {A} (l : list A) (i : nat) (f : A → bool) : test := a ← l !! i; check (f a).

Definition lut_tests : list test := [
  (** test_small_layer_count *)
  (p ← ret (Lut.build_layer_profiles 8); _ ← eq (length p) 8%nat;
   _ ← eq (is_critical <$> p) [true; true; false; false; false; false; true; true];
   _ ← eq (base_bonus <$> p) (replicate 8 1);
   eq (can_prune <$> p) [false; false; true; true; true; true; true; false]);
  (** test_large_layer_count *)
  (p ← ret (Lut.build_layer_profiles 32); _ ← eq (length p) 32%nat;
   _ ← at_ p 0 is_critical; _ ← at_ p 1 is_critical; _ ← at_ p 2 (negb ∘ is_critical);
   _ ← at_ p 29 (negb ∘ is_critical); _ ← at_ p 30 is_critical; _ ← at_ p 31 is_critical;
   _ ← at_ p 0 (λ x, base_bonus x =? 1); _ ← at_ p 3 (λ x, base_bonus x =? 1);
   _ ← at_ p 4 (λ x, base_bonus x =? 0); _ ← at_ p 27 (λ x, base_bonus x =? 0);
   _ ← at_ p 28 (λ x, base_bonus x =? 1);
   _ ← at_ p 7 (negb ∘ can_prune); _ ← at_ p 8 can_prune; _ ← at_ p 24 can_prune;
   at_ p 25 (negb ∘ can_prune));
  (** test_edge_one_layer *)
  (p ← ret (Lut.build_layer_profiles 1); _ ← eq (length p) 1%nat;
   _ ← at_ p 0 is_critical; _ ← at_ p 0 (λ x, base_bonus x =? 1); at_ p 0 can_prune)
].

Lemma lut_tests_pass : all_pass lut_tests = true.
Proof. vm_compute. reflexivity. Qed.

(** A pressure given in hundredths. *)
Definition at_mu (s : MemoryPressureState) (mu : Z) (s' : MemoryPressureState) : test :=
  eq (update s (f64_lit mu 100)) s'.

Definition hysteresis_tests : list test := [
  (** test_nominal_to_elevated *)
  (_ ← at_mu Nominal 77 Nominal; _ ← at_mu Nominal 78 Elevated; at_mu Nominal 87 Elevated);
  (** test_nominal_to_critical_direct *)
  (_ ← at_mu Nominal 88 Critical; at_mu Nominal 95 Critical);
  (** test_elevated_to_nominal *)
  (_ ← at_mu Elevated 70 Elevated; at_mu Elevated 69 Nominal);
  (** test_elevated_to_critical *)
  (_ ← at_mu Elevated 87 Elevated; at_mu Elevated 88 Critical);
  (** test_critical_to_elevated *)
  (_ ← at_mu Critical 82 Critical; at_mu Critical 81 Elevated);
  (** test_no_direct_critical_to_nominal *)
  at_mu Critical 50 Elevated
].

Lemma hysteresis_tests_pass : all_pass hysteresis_tests = true.
Proof. vm_compute. reflexivity. Qed.

(** The policy of a token and what a test says of it. *)
Definition expect_policy (pred : Predictor) layer start len h mask flag (p : PrecisionLevel) : option PackedBlockPolicy :=
  w ← ret (predict pred layer start len h mask flag); _ ← eq (precision w) p; Some w.
Definition lossless (w : PackedBlockPolicy) : test :=
  _ ← check (negb (use_residual w)); eq (head_mask w) FULL_HEAD_MASK.

Definition pressures : list MemoryPressureState := [Nominal; Elevated; Critical].

Definition predictor_tests : list test := [
  (** test_attention_sink_always_fp16 *)
  (pred ← ret (new 32);
   for_each pressures tt (λ _ h, for_each (seqZ 0 16) tt (λ _ start,
     w ← expect_policy pred 10 start 1000 h 0xFFFFFFFF true Fp16; lossless w)));
  (** test_local_window_always_fp16 *)
  (pred ← ret (new 32);
   for_each pressures tt (λ _ h, for_each (seqZ (1000 - 63) 63) tt (λ _ start,
     w ← expect_policy pred 10 start 1000 h 0xFFFFFFFF true Fp16; lossless w)));
  (** test_critical_layers_fp16_unless_critical_pressure *)
  (pred ← ret (new 32);
   for_each [0; 1; 30; 31] tt (λ _ layer,
     _ ← expect_policy pred layer 100 1000 Nominal 0xFFFFFFFF true Fp16;
     _ ← expect_policy pred layer 100 1000 Elevated 0xFFFFFFFF true Fp16;
     w ← expect_policy pred layer 100 1000 Critical 0xFFFFFFFF true Fp8; lossless w));
  (** test_retrieval_head_and_memory_pressure *)
  (pred ← ret (new 32);
   _ ← expect_policy pred 3 100 1000 Nominal 1 true Fp16;
   w ← expect_policy pred 3 100 1000 Elevated 1 true Fp8Residual; _ ← check (use_residual w);
   w ← expect_policy pred 3 100 1000 Critical 1 true Fp8Residual; _ ← check (use_residual w);
   w ← expect_policy pred 3 100 1000 Nominal 0 false Fp8; _ ← check (negb (use_residual w));
   _ ← expect_policy pred 3 100 1000 Elevated 0 false Fp8;
   _ ← expect_policy pred 3 100 1000 Critical 0 false Fp8; Some tt);
  (** test_pruning_conditions *)
  (pred ← ret (new 32);
   w ← expect_policy pred 10 100 1000 Critical 0 false Pruned;
   _ ← eq (head_mask w) 0; _ ← check (negb (use_residual w));
   w ← expect_policy pred 10 100 1000 Critical 1 true Fp8; _ ← eq (head_mask w) FULL_HEAD_MASK;
   _ ← expect_policy pred 10 100 1000 Nominal 0 false Fp8;
   _ ← expect_policy pred 10 100 1000 Elevated 0 false Fp8; Some tt);
  (** test_batch_prediction_consistency *)
  (pred ← ret (new 32);
   batch ← ret (predict_batch pred 10 [100; 200; 300] 1000 Nominal [1; 0; 1] [true; false; true]);
   a ← ret (predict pred 10 100 1000 Nominal 1 true); b ← ret (predict pred 10 200 1000 Nominal 0 false);
   c ← ret (predict pred 10 300 1000 Nominal 1 true); eq batch [a; b; c]);
  (** test_custom_windows *)
  (pred ← ret (with_windows 32 4 8);
   _ ← expect_policy pred 10 2 100 Critical 0 false Fp16;
   _ ← expect_policy pred 10 4 100 Critical 0 false Pruned;
   _ ← expect_policy pred 10 95 100 Critical 0 false Fp16; Some tt);
  (** test_packed_policy_roundtrip *)
  (let mask := 0x123456 in let w := Policy.new Fp8Residual true mask in
   _ ← eq (precision w) Fp8Residual; _ ← eq (use_residual w) true;
   _ ← eq (head_mask w) (Z.land mask 0xFFFFFF);
   eq (raw w) (Z.lor (Z.lor (level_code Fp8Residual) (Z.shiftl 1 2))
                 (Z.shiftl (Z.land mask 0xFFFFFF) 8)))
].

Lemma predictor_tests_pass : all_pass predictor_tests = true.
Proof. vm_compute. reflexivity. Qed.

End PrecisionTests.

Module ConfigTests.
Import TestMonad Toml.
Local Open Scope string_scope.
Local Open Scope Z_scope.

Definition with_node_id (name : string) : Config.VirthubConfig :=
  let c := Config.default in
  {| Config.general := {| Config.log_level := Config.log_level (Config.general c);
                          Config.control_socket := Config.control_socket (Config.general c);
                          Config.data_bind_addr := Config.data_bind_addr (Config.general c);
                          Config.node_id := name |};
     Config.klnk := Config.klnk c; Config.store := Config.store c; Config.master := Config.master c;
     Config.transport := Config.transport c; Config.ebpf := Config.ebpf c;
     Config.tuning := Config.tuning c; Config.precision := Config.precision c |}.

Definition precision_file : list line := [
  Pair "format_generation" (VInteger 2); Pair "sink_window" (VInteger 16);
  Pair "local_window" (VInteger 64); Pair "critical_layer_count" (VInteger 2);
  Pair "elevated_pressure_threshold" (VFloat (f64_lit 78 100));
  Pair "nominal_pressure_threshold" (VFloat (f64_lit 70 100));
  Pair "critical_pressure_threshold" (VFloat (f64_lit 88 100));
  Pair "critical_relax_threshold" (VFloat (f64_lit 82 100))].

Definition config_tests : list test := [
  (** test_node_id_parsing *)
  (_ ← eq (Config.parsed_node_id (with_node_id "node-5")) 5;
   _ ← eq (Config.parsed_node_id (with_node_id "42")) 42;
   eq (Config.parsed_node_id (with_node_id "invalid")) 1);
  (** test_precision_defaults *)
  (let p := Config.precision Config.default in
   _ ← eq (Config.format_generation p) 1; _ ← eq (Config.sink_window p) 16;
   _ ← eq (Config.local_window p) 64; eq (Config.critical_layer_count p) 2);
  (** test_precision_deserialization *)
  (t ← table_of precision_file; p ← ok (de_PrecisionConfig (VTable t));
   _ ← eq (Config.format_generation p) 2; _ ← eq (Config.sink_window p) 16;
   _ ← eq (Config.local_window p) 64; _ ← eq (Config.critical_layer_count p) 2;
   _ ← check (SFeqb (Config.elevated_pressure_threshold p) (f64_lit 78 100));
   _ ← check (SFeqb (Config.nominal_pressure_threshold p) (f64_lit 70 100));
   _ ← check (SFeqb (Config.critical_pressure_threshold p) (f64_lit 88 100));
   check (SFeqb (Config.critical_relax_threshold p) (f64_lit 82 100)))
].

Lemma config_tests_pass : all_pass config_tests = true.
Proof. vm_compute. reflexivity. Qed.

End ConfigTests.
