(* ===== verification/ConformanceNode.v ===== *)
(** * The unit tests of the node and the master, on the model

    As [Conformance], for the crates klnk-core, klnk-ebpf, klnk-daemon and
    master.  Hash maps are iterated in key order; the clock and the addresses
    of buffers are fixed. *)

From stdpp Require Import strings.
From S2P Require Import Prelude F64 Precision Domain ControlPlane Diff Ebpf EbpfTrace Config.
From S2P Require Import Coordinator Raft RaftStore Scheduler Limits Invalidation Conformance.

Module CoreTests.
Import TestMonad.

#[local] Instance dev : BuildProfile := Dev.

Definition MB : Z := 1024 * 1024.

Definition create_test_descriptor (id : GlobalRegionId) (va size page : Z) : MemoryRegionDescriptor := {|
  region_id := id; main_vaddr := va; region_size := size; staging_vaddr := 0;
  staging_num_pages := size / page; staging_page_size := page;
  prot_flags := Z.lor PROT_READ PROT_WRITE; mem_flags := 0; region_version := 0;
|}.

Definition register (cp : Control.ControlPlaneManager) d : option Control.ControlPlaneManager :=
  '(r, cp) ← ret (Control.register_region cp d); _ ← ok r; Some cp.
Definition accepted {A} (x : bool * A) : option A := _ ← check (fst x); Some (snd x).

Definition control_plane_tests : list test := [
  (** test_region_registration_lifecycle *)
  (let id := RegionId 100 1 in let va := 0x7fff00000000 in
   cp ← register (Control.new 1) (create_test_descriptor id va (4 * MB) (2 * MB));
   d ← ok (Control.get_region cp id); _ ← eq (main_vaddr d) va;
   e ← Control.lookup_page_state cp va;
   _ ← eq (metadata e) []; _ ← eq (coherence_state e) Invalid;
   '(r, cp) ← ret (Control.deregister_region cp id); _ ← ok r;
   check (is_err (Control.get_region cp id)));
  (** test_region_registration_with_metadata *)
  (let va := 0x7fff10000000 in
   '(r, cp) ← ret (Control.register_region_with_metadata (Control.new 1)
                     (create_test_descriptor (RegionId 101 2) va (2 * MB) 4096) [1; 2; 3; 4]);
   _ ← ok r;
   e ← Control.lookup_page_state cp va; _ ← eq (metadata e) [1; 2; 3; 4];
   e2 ← Control.lookup_page_state cp 0x7fff10001000; eq (metadata e2) [1; 2; 3; 4]);
  (** test_set_and_get_page_metadata *)
  (let va := 0x7fff20000000 in
   cp ← register (Control.new 1) (create_test_descriptor (RegionId 102 3) va 4096 4096);
   cp ← accepted (Control.set_page_metadata cp va [9; 8; 7]);
   _ ← eq (Control.get_page_metadata cp va) (Some [9; 8; 7]);
   _ ← check (negb (fst (Control.set_page_metadata cp 0x1234 [0])));
   eq (Control.get_page_metadata cp 0x1234) None);
  (** test_lock_acquire_and_release *)
  (let rid := 0xDEADBEEF in
   let '(r, cp) := Control.acquire_lock (Control.new 1) rid 100 in _ ← ok r;
   let '(r, cp) := Control.acquire_lock cp rid 200 in
   _ ← check (match r with Err (Control.LockConflict _ _) => true | _ => false end);
   let '(r, cp) := Control.release_lock cp rid 100 in _ ← ok r;
   let '(r, cp) := Control.release_lock cp rid 200 in ok r);
  (** test_version_increment_on_write *)
  (let va := 0x7fff00000000 in
   cp ← register (Control.new 1) (create_test_descriptor (RegionId 100 1) va 4096 4096);
   e ← Control.lookup_page_state cp va; _ ← eq (version e) 0;
   '(_, cp) ← ret (Control.update_page_state cp va ExclusiveWrite 1);
   e ← Control.lookup_page_state cp va; _ ← eq (version e) 1;
   '(_, cp) ← ret (Control.update_page_state cp va SharedRead 1);
   e ← Control.lookup_page_state cp va; eq (version e) 1);
  (** test_add_remove_readers *)
  (let va := 0x7fff00000000 in
   cp ← register (Control.new 1) (create_test_descriptor (RegionId 100 1) va 4096 4096);
   cp ← accepted (Control.add_reader cp va 2);
   readers ← Control.get_readers cp va; _ ← eq readers [2];
   cp ← accepted (Control.remove_reader cp va 2);
   readers ← Control.get_readers cp va; eq readers []);
  (** test_variable_sized_entries *)
  (cp ← register (Control.new 1) (create_test_descriptor (RegionId 100 1) 0x1000 12288 4096);
   cp ← register cp (create_test_descriptor (RegionId 101 2) 0x200000 (2 * MB) (2 * MB));
   _ ← Control.lookup_page_state cp 0x1000; _ ← Control.lookup_page_state cp 0x2000;
   _ ← Control.lookup_page_state cp 0x200000;
   _ ← eq (Control.get_page_version cp 0x1000) (Some 0);
   '(_, cp) ← ret (Control.update_page_state cp 0x1000 ExclusiveWrite 1);
   _ ← eq (Control.get_page_version cp 0x1000) (Some 1);
   _ ← eq (Control.get_page_version cp 0x2000) (Some 0);
   eq (Control.get_page_version cp 0x200000) (Some 0));
  (** test_get_all_remote_nodes *)
  (let cp := Control.register_remote_node (Control.new 1) (new_endpoint 2 "192.168.1.2:19001") in
   eq (node_id <$> Control.get_all_remote_nodes cp) [2])
].

Lemma control_plane_tests_pass : all_pass control_plane_tests = true.
Proof. vm_compute. reflexivity. Qed.

Definition domain_tests : list test := [
  (** test_memory_region_range_check *)
  (let d := {| region_id := RegionId 100 1; main_vaddr := 0x7fff00000000; region_size := 4 * MB;
               staging_vaddr := 0x7fff10000000; staging_num_pages := 2; staging_page_size := 2 * MB;
               prot_flags := Z.lor PROT_READ PROT_WRITE; mem_flags := 0; region_version := 0 |} in
   b ← ret (contains_range d 0x7fff00000000 (2 * MB)); _ ← check b;
   o ← ret (offset_of d 0x7fff00100000); _ ← eq o (Some 0x100000);
   b ← ret (contains_range d 0x7fff00000000 (5 * MB)); _ ← check (negb b);
   o ← ret (offset_of d 0x7fff05000000); eq o None);
  (** test_remote_endpoint_info_construction *)
  (let info := new_endpoint 42 "192.168.1.10:19001" in
   _ ← eq (node_id info) 42; _ ← eq (socket_addr info) "192.168.1.10:19001"%string;
   _ ← eq (metadata_vaddr info) 0; _ ← eq (invalidation_vaddr info) 0;
   let info := set_metadata_region info 0x7fff20000000 1234 4096 5 in
   let info := set_invalidation_region info 0x7fff30000000 5678 1024 in
   _ ← eq (metadata_vaddr info) 0x7fff20000000; _ ← eq (metadata_rkey info) 1234;
   _ ← eq (metadata_len info) 4096; _ ← eq (metadata_version info) 5;
   _ ← eq (invalidation_vaddr info) 0x7fff30000000; _ ← eq (invalidation_rkey info) 5678;
   eq (invalidation_len info) 1024);
  (** test_distributed_page_entry_with_metadata *)
  (_ ← eq (metadata (new_entry 0x1000 4096 1)) [];
   eq (metadata (new_with_metadata 0x2000 4096 1 [9; 9])) [9; 9])
].

Lemma domain_tests_pass : all_pass domain_tests = true.
Proof. vm_compute. reflexivity. Qed.

Definition diff_tests : list test := [
  (** test_compute_and_apply_diff *)
  (let baseline := replicate 4096 0 in
   let dirty := replicate 100 0 ++ [1; 2; 3; 4; 5] ++ replicate 1895 0 ++ [0xAA; 0xBB] ++ replicate 2094 0 in
   r ← ret (Diff.compute_diff 0x1000 dirty baseline); d ← ok r;
   _ ← check (negb (Diff.is_empty d));
   _ ← eq ((λ c, (Diff.offset c, Diff.bytes c)) <$> Diff.chunks d)
          [(100, [1; 2; 3; 4; 5]); (2000, [0xAA; 0xBB])];
   '(r, patched) ← ret (Diff.apply_patch baseline d); _ ← ok r;
   eq patched dirty);
  (** test_no_diff *)
  (let page := replicate 4096 0x42 in
   r ← ret (Diff.compute_diff 0x1000 page page); d ← ok r;
   _ ← check (Diff.is_empty d); eq (Diff.total_modified_bytes d) 0%nat)
].

Lemma diff_tests_pass : all_pass diff_tests = true.
Proof. vm_compute. reflexivity. Qed.

(** klnk-core/src/lib.rs *)
Definition core_crate_tests : list test := [
  (** test_node_id_equality *)
  (let node_a : NodeId := 1 in let node_b : NodeId := 1 in let node_c : NodeId := 2 in
   _ ← eq node_a node_b; check (negb (bool_decide (node_a = node_c))));
  (** test_memory_protection_flags *)
  (let prot := flags_bitor PROT_READ PROT_WRITE in
   _ ← check (negb (Z.land prot PROT_READ =? 0)); check (Z.land prot PROT_EXEC =? 0))
].

Lemma core_crate_tests_pass : all_pass core_crate_tests = true.
Proof. vm_compute. reflexivity. Qed.

End CoreTests.

Module EbpfTests.
Import TestMonad Stride.

#[local] Instance dev : BuildProfile := Dev.
#[local] Existing Instance TraceTheorems.fifo_mpsc.

#[local] Instance AccessEvent_eq_dec : EqDecision AccessEvent.
Proof. solve_decision. Defined.

Definition event (t p a : Z) : AccessEvent := Event t p a false.
(** An event that gets no recommendation. *)
Definition quiet (d : StrideDetector) (ev : AccessEvent) : option StrideDetector :=
  '(d, r) ← ret (process_event d (timestamp_ns ev) ev);
  match r with None => Some d | Some _ => None end.

Definition stride_tests : list test := [
  (** test_stride_detector_sequential *)
  (d ← quiet default_detector (event 100 1001 0x1000); d ← quiet d (event 200 1001 0x2000);
   '(d, r) ← ret (process_event d 300 (event 300 1001 0x3000)); rec ← r;
   _ ← eq (rec_pid rec) 1001; _ ← eq (base_vaddr rec) 0x4000; eq (stride_bytes rec) 0x1000);
  (** test_stride_detector_clear_pid *)
  (d ← quiet default_detector (event 100 2001 0x1000); d ← quiet d (event 200 2001 0x2000);
   let d := clear_pid d 2001 in
   d ← quiet d (event 300 2001 0x3000); d ← quiet d (event 400 2001 0x4000);
   '(d, r) ← ret (process_event d 500 (event 500 2001 0x5000)); rec ← r;
   _ ← eq (base_vaddr rec) 0x6000; _ ← eq (stride_bytes rec) 0x1000; eq (rec_pid rec) 2001);
  (** test_ebpf_trace_manager_submit_event *)
  ('(m, t) ← ret (Trace.new Config.default 10); let ev := event 1 42 0x1000 in
   let '(t, sent) := Trace.submit_event t ev in
   r ← match sent with Trace.Ready r => Some r | Trace.Pending => None end; _ ← ok r;
   match snd (Trace.recv t) with Trace.Ready (Some got) => eq got ev | _ => None end)
].

Lemma stride_tests_pass : all_pass stride_tests = true.
Proof. vm_compute. reflexivity. Qed.

(** klnk-ebpf/src/main.rs *)
Definition ebpf_manager_tests : list test := [
  (** test_ebpf_manager_lock_lifecycle *)
  (let rid := 0xdeadbeef in
   let '(m, r) := EbpfMaps.acquire_lock EbpfMaps.new rid 1001 in _ ← ok r;
   let '(m, r) := EbpfMaps.acquire_lock m rid 1002 in _ ← check (is_err r);
   let '(m, r) := EbpfMaps.release_lock m rid 1001 in _ ← ok r;
   let '(m, r) := EbpfMaps.acquire_lock m rid 1002 in ok r);
  (** test_ebpf_manager_with_telemetry *)
  ('(m, t) ← ret (Trace.new Config.default 10);
   _ ← check (Config.enabled (Config.ebpf (Trace.config m)));
   let _ := Trace.attach_probes m false in Some tt)
].

Lemma ebpf_manager_tests_pass : all_pass ebpf_manager_tests = true.
Proof. vm_compute. reflexivity. Qed.

End EbpfTests.

Module MasterTests.
Import TestMonad.

#[local] Instance dev : BuildProfile := Dev.

Section Coordinator.
Import Coordinator.
#[local] Instance nodes_in_order : IterOrder NodeDescriptor := map_to_list.

(** Milliseconds. *)
Definition ms (t : Z) : Z := t * 1000000.
Definition done {S E} (x : S * result E ()) : option S := _ ← ok (snd x); Some (fst x).

Definition coordinator_tests : list test := [
  (** test_master_coordinator_lifecycle *)
  (let c := new {| heartbeat_timeout_ms := 100; listen_addr := "127.0.0.1:9090" |} in
   c ← done (register_node c 0 1 "127.0.0.1:8001"); _ ← eq (active_node_count c) 1;
   c ← done (record_heartbeat c 0 1);
   let '(c, evicted) := evict_stale_nodes c (λ _, ms 150) in
   _ ← eq evicted [1]; eq (active_node_count c) 0);
  (** test_batch_operations *)
  (c ← for_each [(1, "192.168.1.1:8000"); (2, "192.168.1.2:8000"); (3, "192.168.1.3:8000");
                 (4, "192.168.1.4:8000"); (5, "192.168.1.5:8000")]
          (new default_config) (λ c '(i, addr), done (register_node c 0 i addr));
   _ ← eq (active_node_count c) 5;
   c ← done (record_heartbeat c 0 1); c ← done (record_heartbeat c 0 3);
   c ← done (remove_node c 2); _ ← eq (active_node_count c) 4;
   eq (length (get_all_nodes c)) 4%nat)
].

(** master/src/lib.rs *)
Definition master_crate_tests : list test := [
  (** test_master_coordinator_config_defaults *)
  (_ ← check (0 <? heartbeat_timeout_ms default_config);
   check (negb (bool_decide (listen_addr default_config = EmptyString))))
].
End Coordinator.

Lemma coordinator_tests_pass : all_pass (coordinator_tests ++ master_crate_tests) = true.
Proof. vm_compute. reflexivity. Qed.

Section Raft.
Import Raft RaftStore.

Definition raft_state_tests : list test := [
  (** test_raft_initialization_and_vote *)
  (let e := new 1 (default_config 1) in _ ← eq (get_role e) Follower; _ ← eq (get_current_term e) 0;
   let '(r, e) := handle_request_vote e 2 1 0 0 in granted ← ok r; _ ← check granted;
   eq (get_current_term e) 1);
  (** test_propose_and_commit_command *)
  (let e := new 1 (let c := default_config 1 in RConfig (embedded c) [1; 2] (etcd_endpoints c)) in
   _ ← check (match fst (propose_command e [1; 2; 3]) with Err (NotLeader _ _) => true | _ => false end);
   let e := promote_to_leader e in _ ← eq (get_role e) Leader;
   let '(r, e) := propose_command e [1; 2; 3] in i ← ok r; _ ← eq i 1;
   let '(r, _, e) := commit_to_index e 1 in ok r);
  (** test_propose_lock_operations, the callback collecting what it is given *)
  (let e := promote_to_leader (new 1 (default_config 1)) in
   let '(r, e) := propose_lock_acquire e 0xABCD 100 in i ← ok r; _ ← eq i 1;
   let '(r, e) := propose_lock_release e 0xABCD 100 in i ← ok r; _ ← eq i 2;
   let '(r, committed, e) := commit_to_index (set_commit_callback e) 2 in _ ← ok r;
   eq committed [LockAcquire 0xABCD 100; LockRelease 0xABCD 100]);
  (** test_handle_append_entries *)
  ('(r, e) ← ret (handle_append_entries (new 1 (default_config 1)) 2 1 0 0
                    [Command 1 1 [1; 2; 3]; Command 2 1 [4; 5; 6]] 2);
   success ← ok r; _ ← check success;
   _ ← eq (last_log_index e) 2; eq (get_current_term e) 1);
  (** test_start_election *)
  (e ← ret (start_election (new 1 (default_config 1)));
   _ ← eq (get_role e) Candidate; eq (get_current_term e) 1)
].

Lemma raft_state_tests_pass : all_pass raft_state_tests = true.
Proof. vm_compute. reflexivity. Qed.
End Raft.

Section Scheduler.
Import Scheduler.
#[local] Instance PrecisionLevel_eq_dec : EqDecision Policy.PrecisionLevel.
Proof. solve_decision. Defined.
#[local] Instance MemoryPressureState_eq_dec : EqDecision Hysteresis.MemoryPressureState.
Proof. solve_decision. Defined.
#[local] Instance capacities_in_order : IterOrder NodeResourceCapacity := map_to_list.

Definition GB : Z := 1024 * 1024 * 1024.
Definition schedule (s : ClusterScheduler) (size : Z) (hint : option Z) :
    option (ClusterScheduler * result SchedulerError PlacementDecision) := ret (schedule_allocation s size hint).

(** The tests that pass; [test_memory_pressure_update] is below. *)
Definition scheduler_tests : list test := [
  (** test_least_loaded_scheduling_with_config *)
  (let s := register_node (new LeastLoaded default_config) (with_allocated (new_capacity 1 (10 * GB) 2) (4 * GB)) in
   let s := register_node s (new_capacity 2 (10 * GB) 2) in
   '(s, r) ← schedule s GB None; d ← ok r;
   _ ← eq (selected_node_id d) 2; eq (shard_id d) (2 mod 64));
  (** test_round_robin_scheduling *)
  (let s := register_node (new RoundRobin default_config) (new_capacity 1 (10 * GB) 1) in
   let s := register_node s (new_capacity 2 (10 * GB) 1) in
   '(s, r) ← schedule s 1024 None; d1 ← ok r; '(s, r) ← schedule s 1024 None; d2 ← ok r;
   check (negb (selected_node_id d1 =? selected_node_id d2)));
  (** test_no_capacity_error *)
  (let s := register_node (new LeastLoaded default_config) (new_capacity 1 1024 1) in
   '(s, r) ← schedule s (1024 * 1024) None;
   check (match r with Err (NoNodeAvailable _) => true | _ => false end));
  (** test_numa_affinity_scheduling *)
  (let s := register_node (new NumaAffinity default_config) (new_capacity 1 (10 * GB) 4) in
   let s := register_node s (new_capacity 2 (10 * GB) 2) in
   '(s, r) ← schedule s 1024 (Some 3); d ← ok r; eq (selected_node_id d) 1);
  (** test_predictor_initialisation_and_prediction *)
  (s ← ret (init_predictor (new LeastLoaded default_config) 32); _ ← check (has_predictor s);
   o ← ret (predict_block_policy s 10 100 1000 0xFFFFFFFF false); w ← o;
   eq (Policy.precision w) Policy.Fp8)
].

(** test_memory_pressure_update: free and total pages. *)
Definition memory_pressure_test (expected : Hysteresis.MemoryPressureState) : test :=
  let s := new LeastLoaded default_config in
  _ ← eq (current_pressure_state s) Hysteresis.Nominal;
  let s := update_memory_pressure s 10 100 in _ ← eq (current_pressure_state s) Hysteresis.Critical;
  let s := update_memory_pressure s 90 100 in eq (current_pressure_state s) expected.

End Scheduler.

Lemma scheduler_tests_pass : all_pass scheduler_tests = true.
Proof. vm_compute. reflexivity. Qed.

(** One test of scheduler.rs does not hold of the code: it expects a single
    report of low pressure to lead from [Critical] to [Nominal], and the
    hysteresis passes through [Elevated]. *)
Lemma memory_pressure_test_fails :
  passed (memory_pressure_test Hysteresis.Nominal) = false ∧
  passed (memory_pressure_test Hysteresis.Elevated) = true.
Proof. vm_compute. split; reflexivity. Qed.

End MasterTests.

Module DaemonTests.
Import TestMonad.

#[local] Instance dev : BuildProfile := Dev.

Section Limits.
Import Limits.

Definition MB : Z := 1024 * 1024.
Definition test_config : DaemonResourceConfig := {|
  max_staging_bytes := 10 * MB; high_watermark_pct := f64_lit 80 100;
  low_watermark_pct := f64_lit 50 100; max_active_descriptors := 10 |}.

Definition reserve (l : ResourceLimiter) (n : Z) : option ResourceLimiter :=
  '(l, r) ← ret (reserve_memory l n); _ ← ok r; Some l.
Definition describe (l : ResourceLimiter) : option ResourceLimiter :=
  let '(l, r) := register_descriptor l in _ ← ok r; Some l.

Definition limits_tests : list test := [
  (** test_memory_reservation_and_release *)
  (l ← ok (new test_config);
   l ← reserve l (4 * MB); _ ← eq (used_staging_bytes l) (4 * MB);
   _ ← check (negb (is_backpressure_active l));
   l ← reserve l (5 * MB); _ ← check (is_backpressure_active l);
   '(l, r) ← ret (reserve_memory l (2 * MB));
   _ ← check (match r with Err (MemoryLimitExceeded _ _ _) => true | _ => false end);
   let l := release_memory l (5 * MB) in
   _ ← eq (used_staging_bytes l) (4 * MB); check (negb (is_backpressure_active l)));
  (** test_descriptor_limits *)
  (l ← ok (new test_config); l ← describe l; l ← describe l; _ ← eq (active_descriptors l) 2;
   l ← for_each (seq 0 8) l (λ l _, describe l); _ ← eq (active_descriptors l) 10;
   let '(l, r) := register_descriptor l in
   _ ← check (match r with Err (DescriptorLimitExceeded _ _) => true | _ => false end);
   let l := unregister_descriptor l in _ ← eq (active_descriptors l) 9;
   _ ← describe l; Some tt);
  (** test_concurrent_access, in the interleaving that releases each
      reservation before the next *)
  (l ← ok (new test_config);
   l ← for_each (seq 0 1000) l (λ l _, '(l, _) ← ret (reserve_memory l 1024); Some (release_memory l 1024));
   eq (used_staging_bytes l) 0);
  (** test_validation *)
  check (is_err (new {| max_staging_bytes := 0; high_watermark_pct := f64_lit 9 10;
                        low_watermark_pct := f64_lit 8 10; max_active_descriptors := 10 |}))
].

Lemma limits_tests_pass : all_pass limits_tests = true.
Proof. vm_compute. reflexivity. Qed.
End Limits.

Section Invalidation.
Import Inval.

(** A writer of the tests: false when the ring is full. *)
Definition write_entry (b : InvalidationBuffer) (va version page_size : Z) : outcome (bool * InvalidationBuffer) :=
  t ← tail b; h ← head b; used ← arith 64 (t - h);
  if NUM_ENTRIES <=? used then Ret (false, b)
  else b ← write_entry_raw b t 1 va version page_size; t' ← arith 64 (t + 1);
       b ← write_u64 b 8 t'; Ret (true, b).

Definition record (seen : list (Z * Z * Z)) (va version page_size : Z) : outcome (bool * list (Z * Z * Z)) :=
  Ret (true, seen ++ [(va, version, page_size)]).
Definition write (b : InvalidationBuffer) va version page_size : option InvalidationBuffer :=
  '(stored, b) ← ret (write_entry b va version page_size); _ ← check stored; Some b.

Definition invalidation_tests : list test := [
  (** test_invalidation_buffer_write_read *)
  (b ← write (new 65536) 0x1000 42 4096; b ← write b 0x2000 43 (2 * MB);
   '(_, b, seen) ← ret (process_pending record b []);
   _ ← eq seen [(0x1000, 42, 4096); (0x2000, 43, 2 * MB)];
   '(n, _, _) ← ret (process_pending (λ _ _ _ _, Panic) b tt); eq n 0);
  (** test_atomic_tail_advance *)
  (let b := new 65536 in t ← ret (tail b); _ ← eq t 0;
   '(r, b) ← ret (advance_tail_atomic b 0 1);
   _ ← check (match r with Ok 0 => true | _ => false end); t ← ret (tail b); _ ← eq t 1;
   '(r, b) ← ret (advance_tail_atomic b 0 2);
   _ ← check (match r with Err 1 => true | _ => false end); t ← ret (tail b); eq t 1);
  (** test_buffer_full *)
  (b ← for_each (seqZ 0 1024) (new 65536) (λ b i, write b (i * 0x1000) i 4096);
   '(stored, _) ← ret (write_entry b 0xFFFF0000 999 4096); check (negb stored))
].

Lemma invalidation_tests_pass : all_pass invalidation_tests = true.
Proof. vm_compute. reflexivity. Qed.
End Invalidation.

End DaemonTests.
