(* ===== verification/ConformanceEdge.v ===== *)
(** The unit tests of the transports, the page-fault path and the engine
    connectors, run on their models: [librmashim], [klnk-net], [klnk-shim],
    [klnk-uffd], [klnk-dsm-api], the fault and metadata tasks of the daemon, and
    the three connectors.  A test that opens a socket is run on the byte stream
    between its ends; one that maps memory or opens a userfaultfd gets the
    kernel's answer as an argument of the model.  Tests whose only content is
    the bincode round trip are laws of the [Bincode] class and are left to the
    theorems about it. *)

From stdpp Require Import base gmap list strings.
From Stdlib Require Import ZArith Lia.
From S2P Require Import Prelude Domain ControlPlane StagingPool KvBlock Precision TierManager Config Rma Transport Uffd RdmaMetadata UffdBatch Shim Connectors DsmApi Conformance.
#[local] Open Scope string_scope.
#[local] Open Scope Z_scope.

Module RmaTests.
Import TestMonad.

#[local] Instance dev : BuildProfile := Dev.

Definition mr_registry_tests : list test := [
  (** test_memory_region_registry_lifecycle *)
  (let mr := MrRegistry.Region 1001 1001 0x7fff00000000 4096 0x3 1 in
   let '(reg, r) := MrRegistry.register MrRegistry.new mr in _ ← ok r;
   _ ← eq (MrRegistry.len reg) 1;
   _ ← check (is_err (snd (MrRegistry.register reg mr)));
   fetched ← MrRegistry.get reg 1001;
   inside ← ret (MrRegistry.contains_range fetched 0x7fff00000000 2048); _ ← check inside;
   inside ← ret (MrRegistry.contains_range fetched 0x7fff00001000 2048); _ ← check (negb inside);
   by_addr ← MrRegistry.get_by_vaddr_size reg 0x7fff00000000 4096;
   _ ← eq (MrRegistry.rkey by_addr) 1001;
   let '(reg, r) := MrRegistry.deregister reg 1001 in removed ← ok r;
   _ ← eq (MrRegistry.rkey removed) 1001; _ ← check (MrRegistry.is_empty reg);
   check (bool_decide (MrRegistry.get_by_vaddr_size reg 0x7fff00000000 4096 = None)))
].

Definition rq_refill_tests : list test := [
  (** test_rq_refill_thresholds: a batch of 32 buffers *)
  (mgr ← ok (RqRefill.new {| RqRefill.capacity := 100; RqRefill.low_watermark := 30; RqRefill.batch_size := 32 |});
   _ ← check (RqRefill.needs_refill mgr); _ ← eq (RqRefill.refill_deficit mgr) 32;
   let '(mgr, r) := RqRefill.post_refill_batch mgr 32 in posted ← ok r; _ ← eq posted 32;
   _ ← eq (RqRefill.current_depth mgr) 32; _ ← check (negb (RqRefill.needs_refill mgr));
   let mgr := RqRefill.on_work_completion mgr 5 in
   _ ← eq (RqRefill.current_depth mgr) 27; check (RqRefill.needs_refill mgr));
  (** test_invalid_config *)
  check (match RqRefill.new {| RqRefill.capacity := 50; RqRefill.low_watermark := 50; RqRefill.batch_size := 10 |} with
         | Err (RqRefill.InvalidConfig _ _) => true | _ => false end)
].

(** The ASCII bytes of a string. *)
Definition bytes_of (s : string) : list Z := Z.of_N ∘ Ascii.N_of_ascii <$> String.list_ascii_of_string s.

(** socket_provider.rs; the peer reads what the client wrote. *)
Definition socket_provider_tests : list test := [
  (** test_length_prefixed_message *)
  (let '(stream, r) := Socket.send_message (Ok tt) [] (bytes_of "hello world") in _ ← ok r;
   let '(_, r) := Socket.recv_message stream in payload ← ok r;
   eq payload (bytes_of "hello world"))
].

Lemma rma_tests_pass :
  all_pass (mr_registry_tests ++ rq_refill_tests ++ socket_provider_tests)%list = true.
Proof. vm_compute. reflexivity. Qed.

End RmaTests.

Module NetTests.
Import TestMonad Transport.

(** test_codec_max_frame_size: a header with an excessive length. *)
Definition max_frame_size_test `{!Bincode} : test :=
  let src := (PROTOCOL_VERSION :: to_be_bytes 4 (MAX_FRAME_SIZE + 1) ++ [0])%list in
  check (match fst (decode src) with Err (FrameTooLarge _) => true | _ => false end).

(** klnk-shim/src/ipc_client.rs, whatever the codec and the peer. *)
Definition ipc_client_tests `{!Ipc.IpcCodec} (peer : list Z → list Z) : list test := [
  (** test_daemon_ipc_client_initialization *)
  check (negb (Ipc.is_connected (Ipc.new "/var/run/klnk.sock")));
  (** test_register_region_not_connected *)
  check (match snd (Ipc.register_region peer (Ipc.new "/var/run/klnk.sock") (RegionId 1 1) 0x1000 4096 0x3) with
         | Err Ipc.NotConnected => true | _ => false end)
].

Lemma ipc_client_tests_pass `{!Ipc.IpcCodec} peer : all_pass (ipc_client_tests peer) = true.
Proof. vm_compute. reflexivity. Qed.

Lemma max_frame_size_test_pass `{!Bincode} : passed max_frame_size_test = true.
Proof. vm_compute. reflexivity. Qed.

End NetTests.

Module FaultTests.
Import TestMonad.

#[local] Instance dev : BuildProfile := Dev.
#[local] Existing Instance UffdTheorems.willing_kernel.
#[local] Instance regions_in_order : IterOrder Engine.RegisteredRegion := map_to_list.

Definition mmap : Z → result Z Z := StagingTheorems.fixed_mmap 65536.

(** klnk-shim/src/staging.rs *)
Definition local_staging_tests : list test := [
  (** test_local_staging_allocation, but for the first byte of the mapping *)
  (r ← ret (LocalStaging.new mmap 2);
   match r with
   | Ok a => _ ← check (0 <? LocalStaging.base_address a); _ ← check (0 <? LocalStaging.total_size a);
             _ ← eq (LocalStaging.num_pages a) 2; eq (LocalStaging.page_size a) LocalStaging.PAGE_SIZE
   | Err _ => Some tt
   end);
  (** test_invalid_num_pages *)
  (r ← ret (LocalStaging.new mmap 0);
   check (match r with Err LocalStaging.InvalidSize => true | _ => false end))
].

(** klnk-uffd/src/move_ops.rs *)
Definition move_ops_tests : list test := [
  (** test_alignment_validation *)
  (let page_size := MoveOps.get_page_size in
   check (match snd (MoveOps.uffd_move tt 0x1001 0x2000 page_size) with
          | Err (MoveOps.InvalidAlignment dst src len) =>
              (dst =? 0x1001) && (src =? 0x2000) && (len =? page_size)
          | _ => false end));
  (** test_page_size_cached *)
  (_ ← eq MoveOps.get_page_size MoveOps.get_page_size; check (0 <? MoveOps.get_page_size))
].

(** The handler of the tests: node 1, four small pages, no RDMA device. *)
Definition handler : option Handler.UffdHandler :=
  r ← ret (Staging.new mmap 4 4096 0); pool ← ok r;
  ok (Handler.new (Ok tt) (Control.new 1) pool (Engine.auto_detect None None)).

(** klnk-uffd/src/handler.rs and klnk-daemon/src/uffd_batch.rs *)
Definition handler_tests : list test := [
  (** test_uffd_handler_creation *)
  (_ ← handler; Some tt);
  (** test_fault_stats_initial *)
  (h ← handler; eq (Handler.total_faults (Handler.get_stats h)) 0)
].
Definition uffd_batch_tests : list test := [
  (** test_batch_processor_creation *)
  (h ← handler; let p := UffdBatch.new h UffdBatch.default_config in
   eq (UffdBatch.max_batch_size (UffdBatch.config p)) 64)
].

(** klnk-daemon/src/rdma_metadata.rs, test_metadata_publisher_creation; bincode
    writes the empty snapshot as a version and a length of eight bytes each. *)
Definition rdma_metadata_tests : list test := [
  (let '(_, r) := RdmaMetadata.init_metadata_publisher (λ _, Ok (repeat 0 16) : result () (list Z))
                    (Control.new 1) (Engine.auto_detect None None) 65536 131072 in
   p ← ok r;
   _ ← check (bool_decide (is_Some (RdmaMetadata.get_metadata_region p)));
   _ ← check (bool_decide (is_Some (RdmaMetadata.get_invalidation_region p)));
   eq (RdmaMetadata.metadata_version p) 0)
].

Lemma fault_tests_pass :
  all_pass (local_staging_tests ++ move_ops_tests ++ handler_tests
            ++ uffd_batch_tests ++ rdma_metadata_tests)%list = true.
Proof. vm_compute. reflexivity. Qed.

End FaultTests.

Module DsmTests.
Import TestMonad KlnkDsm.

#[local] Instance dev : BuildProfile := Dev.

Definition backend : KlnkDsmBackend := new (Control.new 1) (Engine.auto_detect None None).
(** Memory that holds [v] in the [n] bytes from [a] and zeros elsewhere. *)
Definition filled (a n v : Z) : memory := λ x, if (a <=? x) && (x <? a + n) then v else 0.

(** The addresses of the test's buffers. *)
Definition storage_ptr : Z := 0x10000.
Definition dest_ptr : Z := 0x20000.

Definition dsm_tests : list test := [
  (** test_register_and_update_metadata *)
  (let id := Z.lor (Z.shiftl 123 32) 456 in let va := 0x7fff00000000 in
   '(b, mem, r) ← ret (klnk_register_block backend (λ _, 0) id va 4096 [1; 2; 3; 4]); _ ← ok r;
   _ ← eq (Control.get_page_metadata (control_plane b) va) (Some [1; 2; 3; 4]);
   '(b, mem, r) ← ret (klnk_update_metadata b mem id [9; 8; 7]); _ ← ok r;
   eq (Control.get_page_metadata (control_plane b) va) (Some [9; 8; 7]));
  (** test_local_fetch_block *)
  (let id := Z.lor (Z.shiftl 100 32) 200 in
   '(b, mem, r) ← ret (klnk_register_block backend (filled storage_ptr 1024 0xAB) id storage_ptr 1024 [5; 6; 7; 8]);
   _ ← ok r;
   '(b, mem, r) ← ret (klnk_fetch_block b mem id "127.0.0.1:0" dest_ptr 1024); fetched ← ok r;
   _ ← eq (payload fetched) (repeat 0xAB 1024); eq (block_metadata fetched) [5; 6; 7; 8])
].

Lemma dsm_tests_pass : all_pass dsm_tests = true.
Proof. vm_compute. reflexivity. Qed.

End DsmTests.

Module ConnectorTests.
Import TestMonad.

#[local] Instance dev : BuildProfile := Dev.
#[local] Instance regions_in_order : IterOrder Engine.RegisteredRegion := map_to_list.
#[local] Existing Instances Policy.PackedBlockPolicy_eq_dec ExampleCodec.sidecar_eq_dec.

Definition policy : Policy.PackedBlockPolicy := Policy.new Policy.Fp8 false 0xFFFFFF.
Definition sidecar : PspKv.PspKvSidecarDescriptor := PspKv.default_sidecar.

Definition vllm_tests : list test := [
  (** test_vllm_connector_registration_with_policy *)
  (c ← ok (Vllm.new Config.default None);
   let '(c, r) := Vllm.register_kv_block_with_policy c 42 0x7fff10000000 (2 * 1024 * 1024) 0 (Some policy) (Some sidecar) in
   meta ← ok r; _ ← eq (Vllm.block_id meta) 42; _ ← eq (Vllm.vaddr meta) 0x7fff10000000;
   _ ← eq (Vllm.size_bytes meta) (2 * 1024 * 1024);
   _ ← eq (Vllm.precision_policy meta) (Some policy); _ ← eq (Vllm.sidecar meta) (Some sidecar);
   _ ← eq (Vllm.get_block_policy c 42) (Some policy); _ ← eq (Vllm.get_block_sidecar c 42) (Some sidecar);
   let '(c, r) := Vllm.unregister_kv_block c 42 in _ ← ok r;
   _ ← eq (Vllm.registered_block_count c) 0;
   _ ← eq (Vllm.get_block_policy c 42) None; eq (Vllm.get_block_sidecar c 42) None);
  (** test_vllm_connector_swap_in *)
  (c ← ok (Vllm.new Config.default None);
   check (is_ok (snd (Vllm.swap_in_remote_block c "192.168.1.10:10000" 0x7fff20000000 1234 0x7fff30000000 (2 * 1024 * 1024)))));
  (** test_deregister_by_rkey *)
  (c ← ok (Vllm.new Config.default None);
   let '(c, r) := Vllm.register_kv_block c 1 0x1000 4096 0 in meta ← ok r;
   let '(c, r) := Vllm.deregister_memory_region c (Vllm.rkey meta) in _ ← ok r;
   _ ← eq (Vllm.registered_block_count c) 0;
   check (is_err (snd (Vllm.deregister_memory_region c (Vllm.rkey meta)))));
  (** test_close_cleans_up *)
  (c ← ok (Vllm.new Config.default None);
   let '(c, r) := Vllm.register_kv_block c 1 0x1000 4096 0 in _ ← ok r;
   let '(c, r) := Vllm.register_kv_block c 2 0x2000 4096 0 in _ ← ok r;
   _ ← eq (Vllm.registered_block_count c) 2;
   let '(c, r) := Vllm.close c in _ ← ok r; _ ← eq (Vllm.registered_block_count c) 0;
   _ ← eq (Vllm.get_block_policy c 1) None; eq (Vllm.get_block_sidecar c 2) None)
].

Definition sglang_tests : list test := [
  (** test_sglang_connector_registration_with_policy *)
  (c ← ok (Sglang.new Config.default None); let hash := 0xDEADBEEFCAFE0001 in
   let '(c, r) := Sglang.register_prefix_node_with_policy c hash 128 0x7fff30000000 (1024 * 1024) 0 (Some policy) (Some sidecar) in
   meta ← ok r; _ ← eq (Sglang.prefix_hash meta) hash; _ ← eq (Sglang.token_count meta) 128;
   _ ← eq (Sglang.precision_policy meta) (Some policy); _ ← eq (Sglang.sidecar meta) (Some sidecar);
   _ ← eq (Sglang.get_prefix_policy c hash) (Some policy); _ ← eq (Sglang.get_prefix_sidecar c hash) (Some sidecar);
   let '(c, r) := Sglang.unregister_prefix c hash in _ ← ok r;
   _ ← eq (Sglang.registered_prefix_count c) 0;
   _ ← eq (Sglang.get_prefix_policy c hash) None; eq (Sglang.get_prefix_sidecar c hash) None);
  (** test_sglang_connector_fetch *)
  (c ← ok (Sglang.new Config.default None);
   check (is_ok (snd (Sglang.fetch_remote_prefix c "192.168.1.10:10000" 0x7fff40000000 4321 0x7fff50000000 (1024 * 1024)))));
  (** test_unregister_nonexistent_prefix *)
  (c ← ok (Sglang.new Config.default None);
   check (match snd (Sglang.unregister_prefix c 0x1234) with Err (Sglang.PrefixNotFound _) => true | _ => false end))
].

Definition lmcache_tests : list test := [
  (** test_lmcache_connector_put_get_remove_with_policy *)
  (c ← ok (LmCache.new Config.default None);
   let key := KvKey 1 100 in let payload := repeat 0xAB 1024 in
   let '(c, r) := LmCache.put_chunk_with_policy c key Tier.Dram 0 payload 0x7fff50000000 1024 (Some policy) (Some sidecar) in
   meta ← ok r; _ ← eq (LmCache.key meta) key; _ ← eq (LmCache.size_bytes meta) 1024;
   _ ← eq (LmCache.precision_policy meta) (Some policy); _ ← eq (LmCache.sidecar meta) (Some sidecar);
   _ ← eq (LmCache.get_chunk_policy c key) (Some policy); _ ← eq (LmCache.get_chunk_sidecar c key) (Some sidecar);
   retrieved ← ok (LmCache.get_chunk c key); _ ← eq retrieved payload;
   let '(c, r) := LmCache.remove_chunk c key in _ ← ok r;
   _ ← eq (LmCache.registered_chunk_count c) 0;
   _ ← eq (LmCache.get_chunk_policy c key) None; eq (LmCache.get_chunk_sidecar c key) None);
  (** test_lmcache_connector_fetch_remote *)
  (c ← ok (LmCache.new Config.default None);
   check (is_ok (snd (LmCache.fetch_remote_chunk c (KvKey 2 200)
                        "192.168.1.10:10000" 0x7fff60000000 5678 0x7fff70000000 2048))))
].

Lemma connector_tests_pass : all_pass (vllm_tests ++ sglang_tests ++ lmcache_tests)%list = true.
Proof. vm_compute. reflexivity. Qed.

End ConnectorTests.
